(* ===== verification/_CoqProject ===== *)
-Q . S2P
Prelude.v
Text.v
MultiChunk.v
Proto.v
Token.v
Bookkeeper.v
SchedDispatch.v
SchedFacts.v
SchedSpec.v
SchedService.v
SchedHistory.v
SysInfo.v
CloudTask.v
Executor.v
ExecutorFacts.v
ExecutorTrace.v
CompileTask.v
Compilers.v
CacheData.v
Stream.v
CacheService.v
DaemonService.v
GrantKeeper.v
LocalKeepers.v
DistTask.v
CacheClient.v
LocalDispatch.v
LocalDispatchFacts.v
HttpService.v
ClientArgs.v
Client.v
ClientFacts.v
FileSystem.v
Directory.v
OutStream.v
ChildProcess.v
ChildProcessFacts.v
Preprocess.v
CompilerProcess.v
HttpCall.v
Crypto.v
EndToEnd.v
KeepAlive.v
Leases.v
LocalLimits.v
CompilerDigest.v
Unused.v
Startup.v
