(* ===== verification/Prelude.v ===== *)
(** distribuild: a verification development.

    distribuild distributes C++ compilations over a cluster.  It is made of these
    programs (src/distribuild):

    - [client]: stands in for the compiler, preprocesses one translation unit and
      hands it to the daemon of its machine;
    - [daemon/local]: the daemon's user side: takes tasks from clients, asks the
      scheduler for grants, sends the source to a servant, fetches the result;
    - [daemon/cloud]: the daemon's servant side: accepts a source file, runs the
      compiler in a temporary directory and returns the packed output files;
    - [scheduler]: knows the servants, their compilers and their load, and grants
      tasks on them;
    - [cache]: a cache of compilation results.

    The daemons talk to each other, to the scheduler and to the cache through gRPC.

    ** Files

    Each file models one part; a Definition bears the name of the C++ function it
    translates.

    - Prelude: outcomes of C++ code, 64-bit arithmetic, the heap of shared objects,
      lemmas and tactics the parts share.
    - Text, MultiChunk: [common/tools.h], [common/encode.h], [common/multi_chunk.h]:
      splitting, quoting, number parsing, the framing of several byte strings in one
      and the packing of files.
    - Proto: the messages.  Token: [common/token_verifier.h].
    - Bookkeeper, SchedDispatch, SchedFacts, SchedSpec, SchedService, SchedHistory: the
      scheduler.
      SchedDispatch holds the state [TaskDispatcher] keeps (servants on a heap, tasks
      by id, the id counter) with one Definition per operation; SchedFacts is its
      theory; SchedSpec an abstract scheduler ([Spec]: machines and grants as maps)
      with the proof that the dispatcher refines it; SchedService the gRPC handlers,
      the tokens and their rotation; SchedHistory the handlers as parts of one history
      of the dispatcher.
    - SysInfo, CloudTask, Executor, ExecutorFacts, ExecutorTrace, CompileTask, Compilers,
      Stream, DaemonService: the servant.  CloudTask holds the interfaces ([Task], the
      completion event) against which the executor is proved; ExecutorFacts puts the
      executor among processes and threads, ExecutorTrace adds the waiting clients and
      a trace of what they get; CompileTask implements
      [Task]; DaemonService composes service, executor, tasks and compiler registry,
      and the heart beat to the scheduler.
    - CacheData, CacheService: the layout of a cache entry and the cache server,
      proved against the class [CacheEngine] and its laws.
    - GrantKeeper: the grants the user-side daemon keeps per compiler: its callers and
      the thread that fetches grants, interleaved.
    - LocalKeepers: the small components of the user-side daemon: the tasks known to
      run elsewhere, the daemon's token, the digests of known files and the bound on
      local tasks.
    - DistTask, LocalDispatch, LocalDispatchFacts, HttpService, CacheClient: the rest
      of the user-side daemon.  DistTask holds the interface [DistTask] between the
      dispatcher and a task, and the compilation that implements it; LocalDispatch the
      dispatcher, a thread per task that goes through [PerformTask], against that
      interface; HttpService the requests of the clients.  CacheClient has the
      reader (daemon/local) and the writer (daemon/cloud) of the cache.
    - ClientArgs, Client, ClientFacts: the client: its command line, and its run as a
      function of what the daemon and the child processes answer.
    - FileSystem, Directory: the file system as an interface ([FileSystem], laws
      [Posix]) and [common/dir.h] with [TempDir] over it.
    - OutStream, ChildProcess, ChildProcessFacts, Preprocess: a child process of the
      client: the streams its output goes through, descriptors, pipes and the loop over
      [poll], and the preprocessor run that composes them.  HttpCall: the client's calls
      to the daemon as HTTP requests.
    - CompilerProcess: the compiler's process and its files on the servant.
      Crypto: the wrappers of zstd and blake3.
    - EndToEnd, KeepAlive, Leases, LocalLimits, CompilerDigest: the programs together.
      EndToEnd composes client, HTTP, user-side dispatcher, servant and compilation;
      KeepAlive the keep-alive timer of the user-side dispatcher with the scheduler's answer;
      Leases the heart beat of a servant with the scheduler's bookkeeping; LocalLimits any
      number of clients with the HTTP service and the task monitor of their daemon;
      CompilerDigest the way of a compiler's digest from the client to the servant.
    - Startup: [main] of daemon and scheduler: environment, privileges, the life of the
      singletons and their timers, ports, and the end of the process.
    - Unused: [common/crypto/rsa.h], [common/crypto/aes.h], the attachments of gRPC calls in
      [common/tools.h] and [WaitForEvent] of [common/io.h], which no other part calls.

    ** Conventions

    - Code that runs under a mutex for its whole body is one transition.  A method
      that waits on a condition variable or an event is a sequence of transitions,
      with what happened in between as an argument (SchedDispatch
      [WaitForStartingNewTask], Executor [WaitForTask], LocalKeepers
      [WaitForNewTask_end]).  The order of operations is that of the
      step relation: SchedDispatch [step] and [reachable], ExecutorFacts
      [sys_step] and [sys_reachable], GrantKeeper [step] and [reachable], LocalDispatch
      [thread_step], [env_step] and [reachable], LocalLimits [mstep] and [mreachable].
    - A method that calls remote services while other threads run is a program counter
      ([Pc] of LocalDispatch), with one transition from one call to the next.  The
      client has a single thread: its calls go to an [Oracle] and are logged.  Where clients
      and their daemon run together, a client is the log of its calls so far, which grows
      along the log of its whole run.
    - The [main] of a program is a function from the process to its outcome and every state it
      goes through (Startup [M]); a precondition calculus ([goes]) is its logic.
    - Time is an integer argument in nanoseconds ([ms], [secs], [minutes]).  Answers of
      remote services and of random sources are arguments.
    - The operating system is an argument where a function uses one of its answers, and
      an interface where it is used through: [FileSystem] with the laws [Posix], [Kernel]
      with the laws [KernelLaws].  [KernelLaws] gives each child process a behaviour
      (what it writes, how it ends) that does not depend on the input it reads, and lets
      pipes and signals delay it; both have an instance that computes.
    - Code that is not in the sources (blake3, zstd, [inet_pton], [Poco::Event], the
      cache engines, the serializer of protobuf) is a parameter.  What is assumed of
      it is a named hypothesis or a class of laws ([AutoReset], [EngineLaws], [ZstdLaws],
      [HasherLaws], [UnzstdLaws], [JsonLaws], [OpensslLaws]), with an instance.
    - [outcome] is what a C++ function does: return, throw, or undefined behaviour.
      [DISTBU_CHECK] logs and continues, and is modelled so.
    - Objects that the code shares through [shared_ptr] and compares by address live
      on a heap ([ptr]): servants in SchedDispatch, task descriptions in Executor.
    - Unsigned 64-bit arithmetic wraps; [AvailableTasks] relies on it.

    ** Fuel

    Loops over a list, a string or a map are structural.  The others recur over a
    [nat] of fuel that the caller instantiates with a bound on their turns, the length
    of the string they advance in ([chunk_loop]) or one more ([Split_loop],
    [FindPathLocations_loop]): each turn advances by at least one byte.
    [Split_spec], [FindPathLocations_spec] and [file_chunks_spec] state results that
    running out of fuel would falsify.  Two loops of the client end only when the
    daemon lets them ([AcquireTaskQuota], [WaitForCloudCompileResult]): they take fuel
    from the caller, and a run that uses it up is [Waiting].  [Compile_terminates]
    says how much is enough; [Compile_result] holds for every amount.  Loops that the
    operating system or a library ends (retries after a signal, [poll], compression) are
    [Undef] without fuel, and a theorem about them says [settles]: from some amount of
    fuel on the result is the same, and it is as stated.  [RemoveDir] and the directory
    walk end by the depth and the size of the tree ([RemoveDir_spec],
    [TempDir_ReadAll_spec]).

    ** Theorems

    - Scheduler: every reachable state satisfies the invariant (each task runs on a
      known servant, and the servant's count of running tasks is the number of its
      tasks); allocation respects capacity, environment and the version test of the code, and never
      starves a free dedicated servant; waiting ends in a grant, an absence of
      environment or a timeout; expiration; zombies; the handlers' statuses.  Every run
      is one of an abstract scheduler with the same requests and answers
      ([dispatcher_refines]), from which follow, for whole histories, which machine a
      grant names ([granted_machines]), that it belongs to a servant that was
      authenticated and offered the compiler ([authorised_machines], about the responses
      of the service), and that grants nobody keeps alive go away ([abandoned_grants]).
    - Servant: the executor's counters match its live processes and pending tasks
      through every interleaving with the waiter thread and the operating system; a
      waiting client gets the result of its own task, once ([results_are_own]); after
      [Stop] the waiter thread ends, if the pool of threads has room ([stopped_waiter_ends]);
      what an exception or a failed [fork] during a start leaves behind
      ([executor_accounting], [TryQueueTask_spec]);
      the results of queueing, waiting, freeing and exit; the search for paths in an
      object file; cache keys; the handlers' replies.
    - Formats: framing, packing, chunking and cache entries round trip within their
      stated bounds, and the parsers accept nothing else.
    - User-side daemon: bounds on local tasks, refresh of the running-task map; that no
      grant is lost or handed out twice, what the fetcher asks for and how it stops
      ([keeper_invariant], [Stop_fetcher]), the expiry of prefetched grants; the dispatcher under every interleaving of its threads,
      waiters and timers: what a waiter gets, that a task past its deadline ends, when
      a grant is given back and kept alive; the HTTP handlers' replies.
    - Across parts: what the client preprocessed is what a servant's compiler reads, if the
      one write to its temporary file takes it whole ([source_reaches_compiler]), and what that compiler did is what the client puts out
      ([result_reaches_client]).  A keep-alive of the user-side daemon prolongs exactly the
      live grants it names ([keep_alive_round]); a heart beat kills exactly the compilations
      the scheduler does not let the servant run ([heartbeat_round]), among them those whose
      grant was given up ([given_up_compilation_killed]).  What the cache writer sends is what
      the cache server stores ([AsyncWrite_stores]), if it
      has engines.  However many clients of a machine run, no more of them than
      its limits allow run a child process at the same time, apart from those whose permission
      a late release took ([late_release_exceeds]), and a client whose requests for
      quotas were all answered ends without a permission ([local_limit]).  A daemon that does
      not know a compiler learns its digest from the client, and whatever servant takes the
      task starts a compiler with that digest ([compiler_is_the_clients]).
    - Start and end: no timer runs whose callback could use an object that is not constructed
      or already destroyed ([timers_use_live_objects]); how a run of the daemon or the
      scheduler ends, on every branch ([daemon_ends], [scheduler_ends]).
    - Client: how a run can end and that it ends ([Compile_result],
      [Compile_terminates]); the rewriting of command lines.
    - Operating system: a child process gets its descriptors, its output
      arrives whole, and no descriptor stays open ([ExecuteCommand_runs]), if no call is
      interrupted before the empty input is written ([interrupted_command_hangs]); the
      preprocessor run over processes and streams refines the one of Client
      ([TryRewrite_refines]); directories are created, read and removed as a whole
      ([TempDir_lifetime]); streams and wrappers give the compressed text and the digest
      of what was written.

    ** Not modelled

    Logging, signal handlers, the parsing of flags, sockets and the gRPC and HTTP libraries:
    they are input and output around what is modelled.  The cache engines are declared by the
    sources but no engine is implemented there, and the constructor of the server makes none.
    A remote call without a deadline is one that may never come back where the thread of a
    task makes it ([comes_back]).  The semaphore of the executor is a number: that
    [counting_semaphore<1>] promises nothing for more than one permit is a finding
    ([permits_above_one]).  Left out are the SIGPIPE of a write to a pipe that nobody reads,
    errors of [ZSTD_compressStream2], which the streams only log, and changes to a directory
    while it is read.  [Join] of the components is called by
    nothing: Startup follows timers, the waiter thread and objects, not the tasks and fetchers
    in the pool of threads, which may still run when the objects they use are destroyed.  The implementation lines that no definition translates are these,
    declarations of classes, comments and log output. *)
From stdpp Require Export base gmap strings list.
From Stdlib Require Export Ascii ZArith Lia.

#[global] Open Scope string_scope.
#[global] Open Scope list_scope.
#[global] Open Scope Z_scope.

(** * Outcomes of C++ code

    A C++ function returns, throws, reaches undefined behaviour or ends the
    process ([LOG_FATAL], an uncaught signal).  [DISTBU_CHECK] only logs
    (src/distribuild/common/spdlogging.h), so it never changes the outcome. *)

Inductive outcome (A : Type) : Type :=
  | Ret (a : A)
  | Throw (what : string)
  | Undef (what : string)
  | Fatal (what : string).
Arguments Ret {A} a.
Arguments Throw {A} what.
Arguments Undef {A} what.
Arguments Fatal {A} what.

#[export] Instance outcome_ret : MRet outcome := @Ret.
#[export] Instance outcome_bind : MBind outcome := λ A B f m,
  match m with
  | Ret a => f a
  | Throw w => Throw w
  | Undef w => Undef w
  | Fatal w => Fatal w
  end.
#[export] Instance outcome_fmap : FMap outcome := λ A B f m,
  match m with
  | Ret a => Ret (f a)
  | Throw w => Throw w
  | Undef w => Undef w
  | Fatal w => Fatal w
  end.

Definition returns {A} (m : outcome A) : Prop := ∃ a, m = Ret a.

Lemma bind_Ret {A B} (m : outcome A) (f : A → outcome B) b :
  m ≫= f = Ret b ↔ ∃ a, m = Ret a ∧ f a = Ret b.
Proof.
  split; [destruct m; cbn; intros H; try discriminate; eauto|].
  by intros (a & -> & H).
Qed.

(** ** Fuel

    A loop with fuel that settles: some amount is enough, and more changes nothing. *)

Definition settles {A} (m : nat → outcome A) (Q : A → Prop) : Prop :=
  ∃ a n, Q a ∧ ∀ fuel, (n ≤ fuel)%nat → m fuel = Ret a.

Lemma settles_ret {A} (a : A) (Q : A → Prop) : Q a → settles (λ _, Ret a) Q.
Proof. intros H. by exists a, O. Qed.

Lemma settles_mono {A} m (Q Q' : A → Prop) : settles m Q → (∀ a, Q a → Q' a) → settles m Q'.
Proof. intros (a & n & H & R) Himp. exists a, n. split; [by apply Himp|done]. Qed.

Lemma settles_bind {A B} (m : nat → outcome A) (f : nat → A → outcome B) (Q : A → Prop)
    (Q' : B → Prop) :
  settles m Q → (∀ a, Q a → settles (λ fuel, f fuel a) Q') →
  settles (λ fuel, m fuel ≫= f fuel) Q'.
Proof.
  intros (a & n & Ha & Rm) Hf. destruct (Hf a Ha) as (b & n' & Hb & Rf).
  exists b, (n `max` n')%nat. split; [done|]. intros fuel Hle. rewrite (Rm fuel) by lia.
  apply Rf. lia.
Qed.

(** One turn of a loop. *)
Lemma settles_S {A} (m : nat → outcome A) Q : settles (λ fuel, m (S fuel)) Q → settles m Q.
Proof.
  intros (a & n & Ha & R). exists a, (S n). split; [done|]. intros [|fuel] Hle; [lia|]. apply R. lia.
Qed.

Lemma settles_ext {A} (m m' : nat → outcome A) Q :
  settles m Q → (∀ fuel, m' fuel = m fuel) → settles m' Q.
Proof. intros (a & n & Ha & R) E. exists a, n. split; [done|]. intros fuel Hle. rewrite E. by apply R. Qed.

(** * Machine integers *)

Definition u64 (z : Z) : Z := z mod 2 ^ 64.
Definition u32 (z : Z) : Z := z mod 2 ^ 32.
Definition is_u64 (z : Z) : Prop := 0 ≤ z < 2 ^ 64.
Definition is_u32 (z : Z) : Prop := 0 ≤ z < 2 ^ 32.

#[export] Instance is_u64_dec z : Decision (is_u64 z).
Proof. unfold is_u64. apply _. Defined.
#[export] Instance is_u32_dec z : Decision (is_u32 z).
Proof. unfold is_u32. apply _. Defined.

Lemma u64_range z : is_u64 (u64 z).
Proof. apply Z.mod_pos_bound. lia. Qed.
Lemma u32_range z : is_u32 (u32 z).
Proof. apply Z.mod_pos_bound. lia. Qed.
Lemma u64_id z : is_u64 z → u64 z = z.
Proof. apply Z.mod_small. Qed.
Lemma u32_id z : is_u32 z → u32 z = z.
Proof. apply Z.mod_small. Qed.
Lemma u64_neg z : - 2 ^ 64 ≤ z < 0 → u64 z = z + 2 ^ 64.
Proof.
  intros H. unfold u64. rewrite <- (Z_mod_plus_full z 1).
  rewrite Z.mod_small; lia.
Qed.

Create HintDb ints.
#[export] Hint Resolve u64_range u32_range : ints.

(** * Strings as byte sequences

    [std::string] and [std::string_view] are byte sequences; [ascii] is a byte. *)

#[global] Arguments String.append : simpl nomatch.

Fixpoint stake (n : nat) (s : string) : string :=
  match n, s with
  | O, _ => ""
  | S n, "" => ""
  | S n, String c s => String c (stake n s)
  end.

Fixpoint sdrop (n : nat) (s : string) : string :=
  match n, s with
  | O, _ => s
  | S n, "" => ""
  | S n, String c s => sdrop n s
  end.

(** [s.find(pat)], [None] for [npos]. *)
Fixpoint sfind (pat s : string) : option nat :=
  if String.prefix pat s then Some O
  else match s with
       | "" => None
       | String _ s => S <$> sfind pat s
       end.

(** [s.back() == c] on a non-empty string. *)
Fixpoint slast (s : string) : option ascii :=
  match s with
  | "" => None
  | String c "" => Some c
  | String _ s => slast s
  end.

(** [s.pop_back()] on a non-empty string. *)
Fixpoint spop_back (s : string) : string :=
  match s with
  | "" => ""
  | String _ "" => ""
  | String c s => String c (spop_back s)
  end.

Fixpoint sall (P : ascii → bool) (s : string) : bool :=
  match s with "" => true | String c s => P c && sall P s end.

Fixpoint sconcat (l : list string) : string :=
  match l with [] => "" | s :: l => s +:+ sconcat l end.

(** [s.size()]; sizes are 64-bit and a string never reaches 2^63 bytes. *)
Definition ssize (s : string) : Z := Z.of_nat (String.length s).

Lemma sapp_cons c s1 s2 : String c s1 +:+ s2 = String c (s1 +:+ s2).
Proof. done. Qed.
Lemma sapp_nil_r s : s +:+ "" = s.
Proof. induction s as [|c s IH]; [done|]. cbn. by f_equal. Qed.
Lemma sapp_assoc s1 s2 s3 : (s1 +:+ s2) +:+ s3 = s1 +:+ (s2 +:+ s3).
Proof. induction s1 as [|c s1 IH]; [done|]. cbn. by f_equal. Qed.
Lemma slength_app s1 s2 :
  String.length (s1 +:+ s2) = (String.length s1 + String.length s2)%nat.
Proof. induction s1 as [|c s1 IH]; [done|]. cbn. by f_equal. Qed.
Lemma ssize_app s1 s2 : ssize (s1 +:+ s2) = ssize s1 + ssize s2.
Proof. unfold ssize. rewrite slength_app. lia. Qed.
Lemma ssize_nonneg s : 0 ≤ ssize s.
Proof. unfold ssize. lia. Qed.
Lemma stake_app s1 s2 : stake (String.length s1) (s1 +:+ s2) = s1.
Proof. induction s1 as [|c s1 IH]; [done|]. cbn. by f_equal. Qed.
Lemma sdrop_app s1 s2 : sdrop (String.length s1) (s1 +:+ s2) = s2.
Proof. induction s1 as [|c s1 IH]; [done|]. cbn. done. Qed.
Lemma stake_app_add n s1 s2 :
  stake (String.length s1 + n) (s1 +:+ s2) = s1 +:+ stake n s2.
Proof. induction s1 as [|c s1 IH]; [done|]. cbn. by f_equal. Qed.
Lemma stake_sdrop n s : stake n s +:+ sdrop n s = s.
Proof.
  revert s; induction n as [|n IH]; intros [|c s]; try done. cbn. by rewrite IH.
Qed.
Lemma sdrop_length n s :
  String.length (sdrop n s) = (String.length s - n)%nat.
Proof. revert s; induction n; intros [|c s]; cbn; auto. Qed.
Lemma stake_length n s :
  String.length (stake n s) = Nat.min n (String.length s).
Proof. revert s; induction n; intros [|c s]; cbn; auto. Qed.
Lemma stake_all n s : (String.length s ≤ n)%nat → stake n s = s.
Proof.
  revert s; induction n; intros [|c s] H; cbn in *; try done; try lia.
  f_equal. apply IHn. lia.
Qed.
Lemma sdrop_sdrop n m s : sdrop n (sdrop m s) = sdrop (m + n) s.
Proof. revert s; induction m; intros [|c s]; cbn; try done. by destruct n. Qed.
Lemma spop_back_snoc s c : spop_back (s +:+ String c "") = s.
Proof.
  induction s as [|d s IH]; [done|]. cbn.
  destruct (s +:+ String c "") eqn:E; [by destruct s|]. by rewrite IH.
Qed.
Lemma slast_snoc s c : slast (s +:+ String c "") = Some c.
Proof.
  induction s as [|d s IH]; [done|]. cbn.
  destruct (s +:+ String c "") eqn:E; [by destruct s|]. done.
Qed.
Lemma sprefix_nil s : String.prefix "" s = true.
Proof. by destruct s. Qed.
Lemma sprefix_iff p s : String.prefix p s = true ↔ ∃ r, s = p +:+ r.
Proof.
  revert s; induction p as [|c p IH]; intros s.
  - split; [by exists s | by destruct s].
  - destruct s as [|d s]; [split; [done|by intros [? [=]]]|]. cbn.
    destruct (ascii_dec c d) as [->|Hne]; [|split; [done|]; by intros [? [=]]].
    rewrite IH. split; intros [r Hr]; exists r; [by rewrite Hr | by injection Hr].
Qed.
Lemma sall_app P s1 s2 : sall P (s1 +:+ s2) = sall P s1 && sall P s2.
Proof. induction s1 as [|c s1 IH]; [done|]. cbn. by rewrite IH, andb_assoc. Qed.
Lemma sconcat_app l1 l2 : sconcat (l1 ++ l2) = sconcat l1 +:+ sconcat l2.
Proof. induction l1 as [|s l1 IH]; [done|]. cbn. by rewrite IH, sapp_assoc. Qed.
Lemma slength_0 s : String.length s = O → s = "".
Proof. by destruct s. Qed.

(** [s.substr(0, n)] and [s.substr(n)] with a 64-bit [n]: past the end the first
    is the whole string. *)
Definition ztake (n : Z) (s : string) : string :=
  if ssize s <=? n then s else stake (Z.to_nat n) s.
Definition zdrop (n : Z) (s : string) : string :=
  if ssize s <=? n then "" else sdrop (Z.to_nat n) s.

Lemma zdrop_nil n : zdrop n "" = "".
Proof. unfold zdrop. destruct (_ <=? _); [done|]. by destruct (Z.to_nat n). Qed.
Lemma ztake_app s1 s2 : ztake (ssize s1) (s1 +:+ s2) = s1.
Proof.
  unfold ztake. rewrite ssize_app. destruct (Z.leb_spec (ssize s1 + ssize s2) (ssize s1)).
  - assert (s2 = "") as ->; [|by rewrite sapp_nil_r].
    apply slength_0. unfold ssize in *. lia.
  - unfold ssize. by rewrite Nat2Z.id, stake_app.
Qed.
Lemma zdrop_app s1 s2 : zdrop (ssize s1) (s1 +:+ s2) = s2.
Proof.
  unfold zdrop. rewrite ssize_app. destruct (Z.leb_spec (ssize s1 + ssize s2) (ssize s1)).
  - symmetry. apply slength_0. unfold ssize in *. lia.
  - unfold ssize. by rewrite Nat2Z.id, sdrop_app.
Qed.
Lemma ztake_zdrop n s : ztake n s +:+ zdrop n s = s.
Proof.
  unfold ztake, zdrop. destruct (_ <=? _); [apply sapp_nil_r|apply stake_sdrop].
Qed.
Lemma ztake_size n s : 0 ≤ n → ssize (ztake n s) = Z.min n (ssize s).
Proof.
  intros Hn. unfold ztake. destruct (Z.leb_spec (ssize s) n); [lia|].
  unfold ssize in *. rewrite stake_length. lia.
Qed.
Lemma zdrop_size n s : 0 ≤ n → ssize (zdrop n s) = Z.max 0 (ssize s - n).
Proof.
  intros Hn. unfold zdrop. destruct (Z.leb_spec (ssize s) n); [change (ssize "") with 0; lia|].
  unfold ssize in *. rewrite sdrop_length. lia.
Qed.
Lemma zdrop_zdrop n m s : 0 ≤ n → 0 ≤ m → zdrop n (zdrop m s) = zdrop (m + n) s.
Proof.
  intros Hn Hm. unfold zdrop at 2. destruct (Z.leb_spec (ssize s) m).
  - rewrite zdrop_nil. unfold zdrop. destruct (Z.leb_spec (ssize s) (m + n)); [done|lia].
  - unfold zdrop, ssize in *. rewrite sdrop_length, sdrop_sdrop.
    destruct (Z.leb_spec (Z.of_nat (String.length s - Z.to_nat m)) n),
      (Z.leb_spec (Z.of_nat (String.length s)) (m + n)); try lia; [done|].
    f_equal. lia.
Qed.
Lemma ztake_add n m s :
  0 ≤ n → 0 ≤ m → n + m ≤ ssize s →
  ztake n s +:+ ztake m (zdrop n s) = ztake (n + m) s.
Proof.
  intros Hn Hm Hs. rewrite <- (ztake_zdrop n s) at 3.
  assert (E : ssize (ztake n s) = n) by (rewrite ztake_size; lia).
  unfold ztake at 3. rewrite ssize_app, E, zdrop_size by lia.
  destruct (Z.leb_spec (n + Z.max 0 (ssize s - n)) (n + m)).
  - unfold ztake at 2. rewrite zdrop_size by lia. f_equal.
    destruct (Z.leb_spec (Z.max 0 (ssize s - n)) m); [done|lia].
  - replace (Z.to_nat (n + m)) with (String.length (ztake n s) + Z.to_nat m)%nat
      by (unfold ssize in E; lia).
    rewrite stake_app_add. f_equal. unfold ztake at 1. rewrite zdrop_size by lia.
    destruct (Z.leb_spec (Z.max 0 (ssize s - n)) m); [lia|done].
Qed.
Lemma ssize_zero s : ssize s = 0 ↔ s = "".
Proof. split; [|by intros ->]. intros H. apply slength_0. unfold ssize in H. lia. Qed.
Lemma ssize_pos s : s ≠ "" → 0 < ssize s.
Proof. intros Hs. rewrite <- ssize_zero in Hs. pose proof (ssize_nonneg s). lia. Qed.

(** Sums over lists. *)
Definition Zsum (l : list Z) : Z := foldr Z.add 0 l.
Lemma Zsum_cons x l : Zsum (x :: l) = x + Zsum l.
Proof. done. Qed.
Lemma ssize_sconcat l : ssize (sconcat l) = Zsum (ssize <$> l).
Proof. induction l as [|s l IH]; [done|]. cbn. by rewrite ssize_app, IH. Qed.
Lemma Zsum_ssize_nonneg l : 0 ≤ Zsum (ssize <$> l).
Proof. rewrite <- ssize_sconcat. apply ssize_nonneg. Qed.
Lemma Zsum_elem s l : s ∈ l → ssize s ≤ Zsum (ssize <$> l).
Proof.
  induction 1 as [s l | s t l Hs IH]; rewrite fmap_cons, Zsum_cons.
  - pose proof (Zsum_ssize_nonneg l). lia.
  - pose proof (ssize_nonneg t). lia.
Qed.

(** * Time

    A [std::chrono::steady_clock] time point is a number of nanoseconds. *)
Definition ms (n : Z) : Z := n * 1000000.
Definition secs (n : Z) : Z := n * 1000000000.
Definition minutes (n : Z) : Z := n * 60000000000.

(** * Counting in finite maps *)
Section count.
Context {K A : Type} `{Countable K}.

(** The number of entries of [m] that satisfy [P]. *)
Definition count_where (P : A → bool) (m : gmap K A) : nat :=
  size (filter (λ kv, P kv.2 = true) m).

Lemma count_where_empty P : count_where P ∅ = O.
Proof. unfold count_where. by rewrite map_filter_empty. Qed.

Lemma count_where_insert P m k a :
  m !! k = None →
  count_where P (<[k := a]> m) = ((if P a then 1 else 0) + count_where P m)%nat.
Proof.
  intros Hk. unfold count_where. destruct (P a) eqn:E.
  - rewrite map_filter_insert_True by done.
    rewrite map_size_insert_None; [done|]. rewrite map_lookup_filter_None. by left.
  - rewrite map_filter_insert_False by (cbn; congruence). by rewrite delete_id.
Qed.

Lemma count_where_delete P m k a :
  m !! k = Some a →
  count_where P m = ((if P a then 1 else 0) + count_where P (delete k m))%nat.
Proof.
  intros Hk. rewrite <- (insert_delete_id m k a Hk) at 1.
  rewrite count_where_insert; [done|]. apply lookup_delete_eq.
Qed.

Lemma count_where_update P m k a b :
  m !! k = Some a → P a = P b → count_where P (<[k := b]> m) = count_where P m.
Proof.
  intros Hk HP. rewrite (count_where_delete P m k a Hk).
  rewrite <- insert_delete_eq.
  rewrite count_where_insert by apply lookup_delete_eq. by rewrite HP.
Qed.

Lemma count_where_ext (P Q : A → bool) m :
  (∀ k a, m !! k = Some a → P a = Q a) → count_where P m = count_where Q m.
Proof.
  intros HPQ. unfold count_where. f_equal. apply map_filter_ext.
  intros k a Hk. cbn. by rewrite (HPQ k a Hk).
Qed.

Lemma count_where_0 P m :
  (∀ k a, m !! k = Some a → P a = false) → count_where P m = O.
Proof.
  intros HP. unfold count_where. apply map_size_empty_iff.
  apply map_empty. intros k.
  apply map_lookup_filter_None. right. intros a Hk. cbn. by rewrite (HP k a Hk).
Qed.

Lemma count_where_fmap P (f : A → A) m :
  (∀ a, P (f a) = P a) → count_where P (f <$> m) = count_where P m.
Proof.
  intros Hf. induction m as [|k a m Hk IH] using map_ind.
  - by rewrite fmap_empty.
  - rewrite fmap_insert, !count_where_insert, Hf, IH; [done|done|].
    by rewrite lookup_fmap, Hk.
Qed.

Lemma count_where_pos P m k a :
  m !! k = Some a → P a = true → (0 < count_where P m)%nat.
Proof. intros Hk HP. rewrite (count_where_delete P m k a Hk), HP. lia. Qed.
End count.
