(* ===== verification/Text.v ===== *)
(** Text utilities: src/distribuild/common/tools.h (prefix and suffix tests,
    [Split], [EscapeCommandArgument]), src/distribuild/common/encode.h
    ([EncodeHex]) and the C++ number conversions the sources call
    ([std::to_string], [strtol], [std::stol], [std::stoul], [std::getline], [>>]). *)
From S2P Require Import Prelude.
From Stdlib Require Import DecimalString DecimalN DecimalPos.

(** * Characters *)

Definition ch_newline : ascii := "010".
Definition ch_return : ascii := "013".

Definition no_char (c : ascii) (s : string) : bool :=
  sall (λ d, negb (Ascii.eqb d c)) s.

(** What [c_str()] shows of a string: the bytes before the first NUL. *)
Fixpoint c_str (s : string) : string :=
  match s with
  | "" => ""
  | String c s => if Ascii.eqb c "000" then "" else String c (c_str s)
  end.

(** * tools.h: prefixes and suffixes *)

Definition StartWith (s pattern : string) : bool :=
  (String.length pattern <=? String.length s)%nat &&
  String.eqb (stake (String.length pattern) s) pattern.

Definition EndWith (s pattern : string) : bool :=
  (String.length pattern <=? String.length s)%nat &&
  String.eqb (sdrop (String.length s - String.length pattern) s) pattern.

(** * tools.h: Split *)

(** The [while (true)] loop; [None] when the fuel runs out. *)
Fixpoint Split_loop (fuel : nat) (cur delim : string) (keep_empty : bool)
    : option (list string) :=
  match fuel with
  | O => None
  | S fuel =>
    match sfind delim cur with
    | None => Some [cur]
    | Some pos =>
      let out := if negb (pos =? 0)%nat || keep_empty then [stake pos cur] else [] in
      let cur' := sdrop (pos + String.length delim) cur in
      if String.eqb cur' "" then Some (out ++ (if keep_empty then [""] else []))
      else rest ← Split_loop fuel cur' delim keep_empty; Some (out ++ rest)
    end
  end.

Definition Split (s delim : string) (keep_empty : bool) : option (list string) :=
  if String.eqb s "" then Some []
  else Split_loop (S (String.length s)) s delim keep_empty.

(** The overload with a one-byte delimiter; [Split_char_total] shows that the
    loop always ends for it, so the default is never taken. *)
Definition Split_char (s : string) (delim : ascii) (keep_empty : bool) : list string :=
  default [] (Split s (String delim "") keep_empty).

(** * tools.h: EscapeCommandArgument *)

Definition escape_char (c : ascii) : string :=
  let n := nat_of_ascii c in
  if (n =? 7)%nat then "\a" else if (n =? 8)%nat then "\b"
  else if (n =? 12)%nat then "\f" else if (n =? 10)%nat then "\n"
  else if (n =? 13)%nat then "\r" else if (n =? 9)%nat then "\t"
  else if (n =? 11)%nat then "\v"
  else if existsb (Ascii.eqb c)
            [" "%char; ">"%char; "<"%char; "!"%char; "034"%char; "#"%char; "$"%char;
             "&"%char; "("%char; ")"%char; "*"%char; ","%char; ":"%char; ";"%char;
             "?"%char; "@"%char; "["%char; "\"%char; "]"%char; "`"%char; "{"%char; "}"%char]
  then String "\" (String c "")
  else String c "".

Fixpoint EscapeCommandArgument (str : string) : string :=
  match str with
  | "" => ""
  | String c s => escape_char c +:+ EscapeCommandArgument s
  end.

(** * encode.h: EncodeHex *)

Definition hex_digit (uppercase : bool) (n : nat) : ascii :=
  default "0"%char
    (String.get n (if uppercase then "0123456789ABCDEF" else "0123456789abcdef")).

(** The entry of [kHexCharsLowercase] / [kHexCharsUppercase] for byte [i]. *)
Definition hex_chars (uppercase : bool) (c : ascii) : string :=
  let i := nat_of_ascii c in
  String (hex_digit uppercase (i / 16)) (String (hex_digit uppercase (i mod 16)) "").

Fixpoint EncodeHex (from : string) (uppercase : bool) : string :=
  match from with
  | "" => ""
  | String c s => hex_chars uppercase c +:+ EncodeHex s uppercase
  end.

(** * Number conversions *)

(** [std::to_string] on an unsigned value. *)
Definition to_string (z : Z) : string := NilZero.string_of_uint (N.to_uint (Z.to_N z)).

Definition is_space (c : ascii) : bool :=
  let n := nat_of_ascii c in ((9 <=? n) && (n <=? 13) || (n =? 32))%nat.
Definition digit_of (c : ascii) : option Z :=
  let n := nat_of_ascii c in
  if ((48 <=? n) && (n <=? 57))%nat then Some (Z.of_nat n - 48) else None.

Fixpoint skip_spaces (s : string) : string :=
  match s with
  | "" => ""
  | String c s' => if is_space c then skip_spaces s' else s
  end.

(** The value of the longest prefix of digits, [acc] being what was read before. *)
Fixpoint digits_value (acc : Z) (s : string) : Z :=
  match s with
  | "" => acc
  | String c s =>
    match digit_of c with
    | Some d => digits_value (acc * 10 + d) s
    | None => acc
    end
  end.

(** Sign and magnitude of the decimal number at the head of [s], [None] when
    there is no conversion. *)
Definition parse_int (s : string) : option (bool * Z) :=
  let s := skip_spaces s in
  let '(neg, s) :=
    match s with
    | String "-" s' => (true, s')
    | String "+" s' => (false, s')
    | _ => (false, s)
    end in
  match s with
  | String c _ => if digit_of c is Some _ then Some (neg, digits_value 0 s) else None
  | "" => None
  end.

Definition LONG_MAX : Z := 2 ^ 63 - 1.
Definition LONG_MIN : Z := - 2 ^ 63.
Definition ULONG_MAX : Z := 2 ^ 64 - 1.

(** [strtol(s, nullptr, 10)]. *)
Definition strtol (s : string) : Z :=
  match parse_int s with
  | None => 0
  | Some (neg, v) => Z.max LONG_MIN (Z.min LONG_MAX (if neg then - v else v))
  end.

(** [std::stol(s)]. *)
Definition stol (s : string) : outcome Z :=
  match parse_int s with
  | None => Throw "std::invalid_argument"
  | Some (neg, v) =>
    let r := if neg then - v else v in
    if (r <? LONG_MIN) || (LONG_MAX <? r) then Throw "std::out_of_range" else Ret r
  end.

(** [std::stoul(s)]: a minus sign negates modulo 2^64. *)
Definition stoul (s : string) : outcome Z :=
  match parse_int s with
  | None => Throw "std::invalid_argument"
  | Some (neg, v) =>
    if ULONG_MAX <? v then Throw "std::out_of_range"
    else Ret (if neg then u64 (- v) else v)
  end.

(** [stream >> word]: the word, and what is left. *)
Fixpoint take_word (s : string) : string * string :=
  match s with
  | "" => ("", "")
  | String c s' =>
    if is_space c then ("", s)
    else let '(w, r) := take_word s' in (String c w, r)
  end.
Definition read_word (s : string) : string * string := take_word (skip_spaces s).

(** [std::getline] on the unread rest of a stream: the line and what is left. *)
Definition getline (s : string) : string * string :=
  match sfind (String ch_newline "") s with
  | Some p => (stake p s, sdrop (S p) s)
  | None => (s, "")
  end.

(** * Reference functions for the specifications *)

(** The pieces of [l] with [c] between them: what [Split] takes apart. *)
Fixpoint join (c : ascii) (l : list string) : string :=
  match l with
  | [] => ""
  | [s] => s
  | s :: l => s +:+ String c (join c l)
  end.

Definition unescape_letter (c : ascii) : ascii :=
  match c with
  | "a"%char => "007" | "b"%char => "008" | "f"%char => "012" | "n"%char => "010"
  | "r"%char => "013" | "t"%char => "009" | "v"%char => "011" | _ => c
  end.

(** Reads an argument written by [EscapeCommandArgument] back. *)
Fixpoint unescape (s : string) : string :=
  match s with
  | "" => ""
  | String "\"%char (String c s) => String (unescape_letter c) (unescape s)
  | String c s => String c (unescape s)
  end.

Definition hex_value (c : ascii) : nat :=
  let n := nat_of_ascii c in
  if (n <=? 57)%nat then (n - 48)%nat
  else if (n <=? 70)%nat then (n - 55)%nat else (n - 87)%nat.

Fixpoint decode_hex (s : string) : string :=
  match s with
  | String a (String b s) =>
    String (ascii_of_nat (hex_value a * 16 + hex_value b)) (decode_hex s)
  | _ => ""
  end.

(** * Lemmas: prefixes *)

Lemma StartWith_iff s p : StartWith s p = true ↔ ∃ r, s = p +:+ r.
Proof.
  unfold StartWith. rewrite andb_true_iff, Nat.leb_le, String.eqb_eq. split.
  - intros [_ E]. exists (sdrop (String.length p) s).
    rewrite <- E at 1. by rewrite stake_sdrop.
  - intros [r ->]. rewrite slength_app, stake_app. split; [lia|done].
Qed.

Lemma EndWith_iff s p : EndWith s p = true ↔ ∃ r, s = r +:+ p.
Proof.
  unfold EndWith. rewrite andb_true_iff, Nat.leb_le, String.eqb_eq. split.
  - intros [_ E]. exists (stake (String.length s - String.length p) s).
    rewrite <- E at 2. by rewrite stake_sdrop.
  - intros [r ->]. rewrite slength_app, Nat.add_sub, sdrop_app. split; [lia|done].
Qed.

(** * Lemmas: Split *)

Lemma sfind_char_app c a r :
  no_char c a = true → sfind (String c "") (a +:+ String c r) = Some (String.length a).
Proof.
  induction a as [|d a IH]; cbn.
  - intros _. destruct (ascii_dec c c); [|done]. by rewrite sprefix_nil.
  - intros [H1 H2]%andb_prop. destruct (ascii_dec c d) as [->|_].
    + by rewrite Ascii.eqb_refl in H1.
    + by rewrite IH.
Qed.

Lemma sfind_char_None c s : no_char c s = true → sfind (String c "") s = None.
Proof.
  induction s as [|d s IH]; cbn; [done|].
  intros [H1 H2]%andb_prop. destruct (ascii_dec c d) as [->|_].
  - by rewrite Ascii.eqb_refl in H1.
  - by rewrite IH.
Qed.

(** A string has no [c], or it splits at its first one. *)
Lemma char_cases c s :
  no_char c s = true ∨ ∃ a r, s = a +:+ String c r ∧ no_char c a = true.
Proof.
  induction s as [|d s IH]; [by left|]. cbn.
  destruct (Ascii.eqb_spec d c) as [->|Hne].
  - right. by exists "", s.
  - destruct IH as [H|(a & r & -> & H)]; [by left|].
    right. exists (String d a), r. cbn. split; [done|].
    by destruct (Ascii.eqb_spec d c).
Qed.

Lemma sfind_bound pat s p : sfind pat s = Some p → (p + String.length pat ≤ String.length s)%nat.
Proof.
  revert p; induction s as [|c s IH]; intros p; cbn [sfind];
    destruct (String.prefix pat _) eqn:E.
  - intros [= <-]. apply sprefix_iff in E as [r E]. rewrite E, slength_app. lia.
  - done.
  - intros [= <-]. apply sprefix_iff in E as [r ->]. rewrite slength_app. lia.
  - destruct (sfind pat s) eqn:F; cbn; [|done]. intros [= <-].
    specialize (IH _ eq_refl). cbn. lia.
Qed.

Lemma Split_loop_total fuel cur delim k :
  delim ≠ "" → (String.length cur < fuel)%nat → is_Some (Split_loop fuel cur delim k).
Proof.
  intros Hd. revert cur; induction fuel as [|fuel IH]; intros cur Hf; [lia|]. cbn.
  destruct (sfind delim cur) as [p|] eqn:E; [|done].
  destruct (String.eqb _ ""); [done|].
  destruct (IH (sdrop (p + String.length delim) cur)) as [r ->]; [|done].
  apply sfind_bound in E. rewrite sdrop_length.
  assert (String.length delim ≠ 0%nat) by (intros ?%slength_0; done). lia.
Qed.

Lemma Split_loop_mono f f' cur delim k r :
  Split_loop f cur delim k = Some r → (f ≤ f')%nat → Split_loop f' cur delim k = Some r.
Proof.
  revert f' cur r; induction f as [|f IH]; intros [|f'] cur r H Hle; cbn in *; try done; [lia|].
  destruct (sfind delim cur) as [p|]; [|done].
  destruct (String.eqb _ ""); [done|].
  destruct (Split_loop f _ _ _) as [r'|] eqn:E; [|done]. cbn in H.
  erewrite IH by (done || lia). done.
Qed.

Lemma Split_char_nil c k : Split_char "" c k = [].
Proof. done. Qed.

Lemma Split_char_single a c k :
  no_char c a = true → a ≠ "" → Split_char a c k = [a].
Proof.
  intros H Hne. unfold Split_char, Split. destruct (String.eqb_spec a ""); [done|].
  cbn. by rewrite (sfind_char_None _ _ H).
Qed.

Lemma Split_char_cons a r c k :
  no_char c a = true →
  Split_char (a +:+ String c r) c k =
    (if negb (String.eqb a "") || k then [a] else []) ++
    (if String.eqb r "" then (if k then [""] else []) else Split_char r c k).
Proof.
  intros H. unfold Split_char at 1, Split at 1.
  destruct (String.eqb_spec (a +:+ String c r) "") as [E|_]; [by destruct a|].
  cbn [Split_loop]. rewrite (sfind_char_app _ _ _ H), stake_app. cbn [String.length].
  rewrite <- sdrop_sdrop, sdrop_app. cbn [sdrop].
  replace (String.length a =? 0)%nat with (String.eqb a "") by (by destruct a).
  destruct (String.eqb_spec r "") as [->|Hr].
  - by destruct (negb _ || _).
  - unfold Split_char, Split. destruct (String.eqb_spec r ""); [done|].
    destruct (Split_loop_total (S (String.length r)) r (String c "") k) as [l Hl]; [done|lia|].
    rewrite Hl. rewrite (Split_loop_mono _ _ _ _ _ _ Hl).
    + by destruct (negb _ || _).
    + rewrite slength_app. cbn. lia.
Qed.

(** Strong induction on a string cut at the first [c]. *)
Lemma char_ind (c : ascii) (P : string → Prop) :
  (∀ s, no_char c s = true → P s) →
  (∀ a r, no_char c a = true → P r → P (a +:+ String c r)) →
  ∀ s, P s.
Proof.
  intros H1 H2 s. remember (String.length s) as n eqn:Hn.
  revert s Hn. induction n as [n IH] using lt_wf_ind. intros s ->.
  destruct (char_cases c s) as [H|(a & r & -> & H)]; [by apply H1|].
  apply H2; [done|]. eapply IH; [|done]. rewrite slength_app. cbn. lia.
Qed.

Lemma Split_char_nonempty s c : s ≠ "" → Split_char s c true ≠ [].
Proof.
  intros Hs. destruct (char_cases c s) as [H|(a & r & -> & H)].
  - by rewrite Split_char_single.
  - rewrite Split_char_cons by done. by rewrite orb_true_r.
Qed.

Lemma join_cons c s l : l ≠ [] → join c (s :: l) = s +:+ String c (join c l).
Proof. by destruct l. Qed.

(** ** What Split computes *)

Lemma Split_join s c : join c (Split_char s c true) = s.
Proof.
  induction s as [s H | a r H IH] using (char_ind c).
  - destruct (decide (s = "")) as [->|Hne]; [done|]. by rewrite Split_char_single.
  - rewrite Split_char_cons, orb_true_r by done. cbn [app].
    destruct (String.eqb_spec r "") as [->|Hr]; [done|].
    rewrite join_cons by by apply Split_char_nonempty. by rewrite IH.
Qed.

Lemma Split_pieces s c k : Forall (λ p, no_char c p = true) (Split_char s c k).
Proof.
  induction s as [s H | a r H IH] using (char_ind c).
  - destruct (decide (s = "")) as [->|Hne]; [done|].
    rewrite Split_char_single by done. by repeat constructor.
  - rewrite Split_char_cons by done. apply Forall_app; split.
    + destruct (_ || _); by repeat constructor.
    + destruct (String.eqb r ""); [|done]. destruct k; by repeat constructor.
Qed.

Lemma Split_drop_empty s c :
  Split_char s c false = filter (λ p, p ≠ "") (Split_char s c true).
Proof.
  induction s as [s H | a r H IH] using (char_ind c).
  - destruct (decide (s = "")) as [->|Hne]; [done|].
    by rewrite !Split_char_single, filter_cons_True.
  - rewrite !Split_char_cons, orb_true_r, orb_false_r by done.
    rewrite filter_app. f_equal.
    + destruct (String.eqb_spec a "") as [->|Ha]; [done|]. by rewrite filter_cons_True.
    + by destruct (String.eqb r "").
Qed.

Lemma Split_of_join l c :
  Forall (λ p, no_char c p = true) l → l ≠ [] → l ≠ [""] →
  Split_char (join c l) c true = l.
Proof.
  induction 1 as [|a l Ha Hl IH]; [done|]. intros _ Hne.
  destruct l as [|b l].
  - apply Split_char_single; [done|]. by intros ->.
  - rewrite join_cons, Split_char_cons, orb_true_r by done. cbn [app]. f_equal.
    destruct (String.eqb_spec (join c (b :: l)) "") as [E|E].
    + destruct l; cbn in E; [by rewrite E | by destruct b].
    + apply IH; [done|]. intros [= -> ->]. done.
Qed.

(** ** Numbers *)

Definition is_digit (c : ascii) : bool := if digit_of c is Some _ then true else false.

Lemma string_of_uint_digits d : sall is_digit (NilEmpty.string_of_uint d) = true.
Proof. induction d; done. Qed.

Lemma digits_value_uint d p :
  digits_value (Zpos p) (NilEmpty.string_of_uint d) = Zpos (Pos.of_uint_acc d p).
Proof.
  revert p; induction d; intros p; try done;
    (etransitivity; [|apply IHd]); cbn -[Z.mul Z.add]; f_equal;
    rewrite ?Pos2Z.inj_add, ?Pos2Z.inj_mul; vm_compute (Z.of_nat _ - _); lia.
Qed.

Lemma digits_value_uint0 d :
  digits_value 0 (NilEmpty.string_of_uint d) = Z.of_N (Pos.of_uint d).
Proof. induction d; try done; apply (digits_value_uint d). Qed.

Lemma to_string_digits z : sall is_digit (to_string z) = true.
Proof.
  unfold to_string, NilZero.string_of_uint.
  destruct (N.to_uint _) eqn:E; [done|rewrite <- E; apply string_of_uint_digits..].
Qed.

Lemma to_string_nonempty z : to_string z ≠ "".
Proof. unfold to_string, NilZero.string_of_uint. by destruct (N.to_uint _). Qed.

Lemma digits_value_to_string z : 0 ≤ z → digits_value 0 (to_string z) = z.
Proof.
  intros Hz. unfold to_string, NilZero.string_of_uint.
  pose proof (DecimalN.Unsigned.of_to (Z.to_N z)) as E.
  destruct (N.to_uint (Z.to_N z)) as [|d|d|d|d|d|d|d|d|d|d] eqn:F;
    [assert (z = 0) as -> by (cbn in E; lia); done|..];
    rewrite digits_value_uint0; unfold N.of_uint in E; lia.
Qed.

Lemma digit_not_space c : is_digit c = true → is_space c = false.
Proof. by destruct c as [[] [] [] [] [] [] [] []]. Qed.

Lemma parse_int_digits s :
  s ≠ "" → sall is_digit s = true → parse_int s = Some (false, digits_value 0 s).
Proof.
  destruct s as [|c s]; [done|]. intros _ [Hc Hs]%andb_prop.
  unfold parse_int. cbn [skip_spaces]. rewrite (digit_not_space c Hc).
  unfold is_digit in Hc. destruct (digit_of c) eqn:E; [|done].
  destruct c as [[] [] [] [] [] [] [] []]; by rewrite ?E.
Qed.

Lemma parse_to_string z : 0 ≤ z → parse_int (to_string z) = Some (false, z).
Proof.
  intros Hz. rewrite parse_int_digits, digits_value_to_string;
    auto using to_string_nonempty, to_string_digits.
Qed.

Lemma strtol_to_string z : 0 ≤ z ≤ LONG_MAX → strtol (to_string z) = z.
Proof. intros Hz. unfold strtol. rewrite parse_to_string; unfold LONG_MIN, LONG_MAX in *; lia. Qed.

Lemma stol_to_string z : 0 ≤ z ≤ LONG_MAX → stol (to_string z) = Ret z.
Proof.
  intros Hz. unfold stol. rewrite parse_to_string by lia.
  destruct (Z.ltb_spec z LONG_MIN), (Z.ltb_spec LONG_MAX z);
    unfold LONG_MIN, LONG_MAX in *; try lia. done.
Qed.

Lemma stoul_to_string z : is_u64 z → stoul (to_string z) = Ret z.
Proof.
  intros Hz. unfold is_u64 in Hz. unfold stoul. rewrite parse_to_string by lia.
  destruct (Z.ltb_spec ULONG_MAX z); [unfold ULONG_MAX in *; lia|done].
Qed.

Lemma digits_no_char c s : is_digit c = false → sall is_digit s = true → no_char c s = true.
Proof.
  intros Hc. unfold no_char. induction s as [|d s IH]; cbn; [done|]. intros [Hd Hs]%andb_prop.
  rewrite IH by done. destruct (Ascii.eqb_spec d c) as [->|]; [congruence|done].
Qed.

Lemma to_string_no_char c z : is_digit c = false → no_char c (to_string z) = true.
Proof. intros Hc. apply digits_no_char; [done|]. apply to_string_digits. Qed.

Lemma getline_app a r :
  no_char ch_newline a = true → getline (a +:+ String ch_newline r) = (a, r).
Proof.
  intros H. unfold getline. rewrite sfind_char_app, stake_app by done.
  rewrite <- (Nat.add_1_r (String.length a)). by rewrite <- sdrop_sdrop, sdrop_app.
Qed.

(** ** Escaping and hexadecimal *)

Lemma unescape_char c s : unescape (escape_char c +:+ s) = String c (unescape s).
Proof. by destruct c as [[] [] [] [] [] [] [] []]. Qed.

Lemma unescape_Escape s : unescape (EscapeCommandArgument s) = s.
Proof. induction s as [|c s IH]; [done|]. cbn. by rewrite unescape_char, IH. Qed.

Lemma decode_hex_chars u c s :
  decode_hex (hex_chars u c +:+ s) = String c (decode_hex s).
Proof. by destruct u, c as [[] [] [] [] [] [] [] []]. Qed.

Lemma decode_EncodeHex s u : decode_hex (EncodeHex s u) = s.
Proof. induction s as [|c s IH]; [done|]. cbn [EncodeHex]. by rewrite decode_hex_chars, IH. Qed.

Lemma EncodeHex_length s u : String.length (EncodeHex s u) = (2 * String.length s)%nat.
Proof. induction s as [|c s IH]; [done|]. cbn [EncodeHex]. rewrite slength_app, IH. cbn. lia. Qed.

Definition is_hex_lower (c : ascii) : bool :=
  let n := nat_of_ascii c in ((48 <=? n) && (n <=? 57) || (97 <=? n) && (n <=? 102))%nat.

Lemma EncodeHex_lower s : sall is_hex_lower (EncodeHex s false) = true.
Proof.
  induction s as [|c s IH]; [done|]. cbn [EncodeHex]. rewrite sall_app, IH.
  by destruct c as [[] [] [] [] [] [] [] []].
Qed.

(** ** Building a separated line: append [c] after every piece, drop the last one *)

Lemma spop_back_app s1 s2 : s2 ≠ "" → spop_back (s1 +:+ s2) = s1 +:+ spop_back s2.
Proof.
  intros Hs. induction s1 as [|c s1 IH]; [done|]. rewrite !sapp_cons, <- IH. cbn.
  destruct (s1 +:+ s2) eqn:E; [|done]. destruct s1; [by destruct s2|done].
Qed.

Lemma spop_back_sconcat c l :
  l ≠ [] → spop_back (sconcat ((λ n, n +:+ String c "") <$> l)) = join c l.
Proof.
  induction l as [|a l IH]; [done|]. intros _. destruct l as [|b l].
  - cbn. by rewrite sapp_nil_r, spop_back_snoc.
  - rewrite join_cons by done. rewrite <- IH by done.
    change (sconcat ((λ n, n +:+ String c "") <$> a :: b :: l)) with
      ((a +:+ String c "") +:+ sconcat ((λ n, n +:+ String c "") <$> b :: l)).
    rewrite spop_back_app, sapp_assoc; [done|]. cbn. by destruct b.
Qed.

Lemma Split_of_join_nonempty l c :
  Forall (λ p, no_char c p = true ∧ p ≠ "") l → l ≠ [] →
  Split_char (join c l) c false = l.
Proof.
  intros Hl Hne. rewrite Split_drop_empty, Split_of_join.
  - clear Hne. induction Hl as [|a l [_ Ha] Hl IH]; [done|].
    rewrite filter_cons_True by done. by f_equal.
  - eapply Forall_impl; [exact Hl|]. by intros ? [? _].
  - done.
  - intros ->. by apply Forall_cons in Hl as [[_ ?] _].
Qed.

Lemma no_char_app c s1 s2 : no_char c (s1 +:+ s2) = no_char c s1 && no_char c s2.
Proof. apply sall_app. Qed.

Lemma no_char_join c d l :
  c ≠ d → Forall (λ p, no_char c p = true) l → no_char c (join d l) = true.
Proof.
  intros Hcd. induction 1 as [|a l Ha Hl IH]; [done|].
  destruct l as [|b l]; [done|]. rewrite join_cons, no_char_app, Ha by done. cbn.
  destruct (Ascii.eqb_spec d c); [congruence|]. done.
Qed.

(** * Properties *)

(** Splitting at a one-byte delimiter loses nothing: the pieces contain no
    delimiter and, joined with it, give the text back; without empty pieces the
    result is the same list with the empty pieces left out. *)
Theorem Split_spec s c :
  join c (Split_char s c true) = s ∧
  (∀ k, Forall (λ p, no_char c p = true) (Split_char s c k)) ∧
  Split_char s c false = filter (λ p, p ≠ "") (Split_char s c true).
Proof. split_and!; [apply Split_join|intros k; apply Split_pieces|apply Split_drop_empty]. Qed.

(** How a POSIX shell reads an unquoted word: a backslash quotes the next byte, a
    metacharacter ends the word or is special ([None]). *)
Definition sh_special (c : ascii) : bool :=
  existsb (Ascii.eqb c)
    ["|"%char; "&"%char; ";"%char; "<"%char; ">"%char; "("%char; ")"%char; "$"%char; "`"%char;
     "034"%char; "'"%char; " "%char; "009"%char; "010"%char; "*"%char; "?"%char; "["%char;
     "#"%char; "{"%char; "000"%char].

Fixpoint sh_word (s : string) : option string :=
  match s with
  | "" => Some ""
  | String c s =>
    if Ascii.eqb c "\" then
      match s with
      | "" => None
      | String d s => String d <$> sh_word s
      end
    else if sh_special c then None
    else String c <$> sh_word s
  end.

(** The bytes that [EscapeCommandArgument] does not protect from the shell: the bar, the
    quote, NUL, and the control characters it writes as letters. *)
Definition unprotected (c : ascii) : bool :=
  existsb (Ascii.eqb c)
    ["|"%char; "'"%char; "000"%char; "007"%char; "008"%char; "009"%char; "010"%char; "011"%char;
     "012"%char; "013"%char].

Lemma sh_word_escape_char c s :
  unprotected c = false → sh_word (escape_char c +:+ s) = String c <$> sh_word s.
Proof. by destruct c as [[] [] [] [] [] [] [] []]. Qed.

(** An escaped argument is read back by the shell as one word equal to the argument,
    when it has no bar, quote, NUL or control character; each of those bytes alone is
    not. *)
Theorem EscapeCommandArgument_shell s c :
  (sall (λ c, negb (unprotected c)) s = true → sh_word (EscapeCommandArgument s) = Some s) ∧
  (unprotected c = true →
     sh_word (EscapeCommandArgument (String c "")) ≠ Some (String c "")).
Proof.
  split.
  - induction s as [|d s IH]; [done|]. cbn [sall EscapeCommandArgument].
    intros [Hd Hs]%andb_true_iff. apply negb_true_iff in Hd.
    by rewrite sh_word_escape_char, IH.
  - by destruct c as [[] [] [] [] [] [] [] []].
Qed.

Lemma EscapeCommandArgument_shell_witness :
  sh_word (EscapeCommandArgument "-DX=a b") = Some "-DX=a b".
Proof.
  refine (proj1 (EscapeCommandArgument_shell "-DX=a b" "|") _). vm_compute. reflexivity.
Defined.
