(* ===== verification/MultiChunk.v ===== *)
(** Framing of several byte strings in one: src/distribuild/common/multi_chunk.h
    ([MakeMultiChunkHeaderLine], [MakeMultiChunk], [TryParseMultiChunk]),
    src/distribuild/common/tools.h ([PackFiles], [TryUnpackFiles]) and the loop
    that cuts a file into gRPC chunks, which the client side of every streaming
    call repeats. *)
From S2P Require Import Prelude Text.

(** * multi_chunk.h *)

Definition crlf : string := String ch_return (String ch_newline "").

Definition MakeMultiChunkHeaderLine (parts : list string) : string :=
  match parts with
  | [] => ""
  | _ =>
    let result := sconcat ((λ e, to_string (ssize e) +:+ ",") <$> parts) in
    spop_back result +:+ crlf
  end.

(** Two commas follow every size: [push_back(',')] and [append(1, ',')]. *)
Definition MakeMultiChunk (parts : list string) : string :=
  match parts with
  | [] => ""
  | _ =>
    let result := sconcat ((λ e, to_string (ssize e) +:+ "," +:+ ",") <$> parts) in
    spop_back result +:+ crlf +:+ sconcat parts
  end.

(** The first loop of [TryParseMultiChunk]: the sizes of the header line. *)
Fixpoint parse_sizes (sizes : list string) : option (list Z) :=
  match sizes with
  | [] => Some []
  | e :: sizes =>
    let size := strtol e in
    if (size <=? 0) || (size =? LONG_MAX) || (size =? LONG_MIN) then None
    else rest ← parse_sizes sizes; Some (size :: rest)
  end.

(** The last loop: [string_view::remove_prefix] past the end is undefined. *)
Fixpoint cut_chunks (parsed_size : list Z) (rest_bytes : string) : outcome (list string) :=
  match parsed_size with
  | [] => Ret []
  | e :: parsed_size =>
    if ssize rest_bytes <? e then Undef "string_view::remove_prefix past the end"
    else rest ← cut_chunks parsed_size (zdrop e rest_bytes);
         Ret (ztake e rest_bytes :: rest)
  end.

Definition TryParseMultiChunk (view : string) : outcome (option (list string)) :=
  if String.eqb view "" then Ret (Some [])
  else
    match sfind (String ch_newline "") view with
    | None => Ret None
    | Some O => Ret None
    | Some (S d) =>
      if negb (bool_decide (String.get d view = Some ch_return)) then Ret None
      else
        let sizes := Split_char (stake d view) "," false in
        let rest_bytes := sdrop (S (S d)) view in
        match parse_sizes sizes with
        | None => Ret None
        | Some parsed_size =>
          let total_size := u64 (Zsum parsed_size) in
          if negb (total_size =? ssize rest_bytes) then Ret None
          else result ← cut_chunks parsed_size rest_bytes; Ret (Some result)
        end
    end.

(** * tools.h: packing files *)

Definition PackFiles (files : list (string * string)) : string :=
  match files with
  | [] => ""
  | _ =>
    let suffix_line := sconcat ((λ f, f.1 +:+ ",") <$> files) in
    let size_line := sconcat ((λ f, to_string (ssize f.2) +:+ ",") <$> files) in
    let files_size := Zsum ((λ f, ssize f.2) <$> files) in
    let suffix_line := spop_back suffix_line +:+ String ch_newline "" in
    let size_line := spop_back size_line +:+ String ch_newline "" in
    to_string files_size +:+ String ch_newline "" +:+ suffix_line +:+ size_line
      +:+ sconcat (files.*2)
  end.

(** The last loop of [TryUnpackFiles]; [substr] throws past the end. *)
Fixpoint unpack_loop (packed_file : string) (pos : Z) (entries : list (string * string))
    : outcome (list (string * string)) :=
  match entries with
  | [] => Ret []
  | (suffix, size) :: entries =>
    len ← stoul size;
    if ssize packed_file <? pos then Throw "std::out_of_range"
    else
      rest ← unpack_loop packed_file (u64 (pos + len)) entries;
      Ret ((suffix, ztake len (zdrop pos packed_file)) :: rest)
  end.

Definition TryUnpackFiles (packed_file : string) : outcome (option (list (string * string))) :=
  let '(length_line, ss) := getline packed_file in
  files_size ← stol length_line;
  let '(suffixs_line, ss) := getline ss in
  let suffixs := Split_char suffixs_line "," false in
  let '(sizes_line, ss) := getline ss in
  let sizes := Split_char sizes_line "," false in
  let head_size :=
    (ssize length_line + 1) + (ssize suffixs_line + 1) + (ssize sizes_line + 1) in
  if negb (length suffixs =? length sizes)%nat then Ret None
  else if negb (u64 (ssize packed_file - head_size) =? u64 files_size) then Ret None
  else
    result ← unpack_loop packed_file head_size (zip suffixs sizes);
    Ret (Some result).

(** * The chunking loop of the streaming calls

    [for (i = 0; i < file.size(); i += FLAGS_chunk_size)] with
    [set_file_chunk(file.data() + i, min(FLAGS_chunk_size, file.size() - i))]. *)
Fixpoint chunk_loop (fuel : nat) (chunk_size i : Z) (file : string) : option (list string) :=
  if i <? ssize file then
    match fuel with
    | O => None
    | S fuel =>
      let remaining_size := ssize file - i in
      let piece := ztake (Z.min chunk_size remaining_size) (zdrop i file) in
      rest ← chunk_loop fuel chunk_size (u64 (i + chunk_size)) file;
      Some (piece :: rest)
    end
  else Some [].

Definition file_chunks (chunk_size : Z) (file : string) : option (list string) :=
  chunk_loop (String.length file) chunk_size 0 file.

(** * Lemmas *)

(** The pieces the double comma leaves between the sizes. *)
Definition double_commas (l : list string) : list string := l ≫= λ n, [n; ""].

Lemma double_commas_sconcat l :
  sconcat ((λ n, n +:+ "," +:+ ",") <$> l) =
  sconcat ((λ n, n +:+ ",") <$> double_commas l).
Proof.
  induction l as [|a l IH]; [done|].
  change (double_commas (a :: l)) with (a :: "" :: double_commas l).
  rewrite !fmap_cons. cbn [sconcat]. rewrite IH. by rewrite !sapp_assoc.
Qed.

Lemma double_commas_filter l :
  Forall (λ p, p ≠ "") l → filter (λ p, p ≠ "") (double_commas l) = l.
Proof.
  induction 1 as [|a l Ha Hl IH]; [done|].
  change (double_commas (a :: l)) with (a :: "" :: double_commas l).
  by rewrite filter_cons_True, filter_cons_False, IH by tauto.
Qed.

Definition size_strings (parts : list string) : list string :=
  (λ e, to_string (ssize e)) <$> parts.

Lemma size_strings_ok c parts :
  is_digit c = false → Forall (λ p, no_char c p = true ∧ p ≠ "") (size_strings parts).
Proof.
  intros Hc. apply Forall_forall. intros x [e [-> _]]%list_elem_of_fmap.
  split; [by apply to_string_no_char | apply to_string_nonempty].
Qed.

Lemma parse_sizes_strings parts :
  Forall (λ p, p ≠ "") parts → Zsum (ssize <$> parts) < LONG_MAX →
  parse_sizes (size_strings parts) = Some (ssize <$> parts).
Proof.
  induction 1 as [|e parts He Hp IH]; intros Hsum; [done|].
  rewrite fmap_cons, Zsum_cons in Hsum.
  change (size_strings (e :: parts)) with (to_string (ssize e) :: size_strings parts).
  cbn [parse_sizes]. pose proof (ssize_pos _ He). pose proof (Zsum_ssize_nonneg parts).
  rewrite strtol_to_string by lia.
  destruct (Z.leb_spec (ssize e) 0), (Z.eqb_spec (ssize e) LONG_MAX),
    (Z.eqb_spec (ssize e) LONG_MIN); unfold LONG_MIN in *; try lia.
  cbn [orb]. by rewrite IH by lia.
Qed.

Lemma parse_sizes_positive l sizes : parse_sizes l = Some sizes → Forall (λ z, 0 < z) sizes.
Proof.
  revert sizes; induction l as [|e l IH]; intros sizes; cbn; [by intros [= <-]|].
  destruct (Z.leb_spec (strtol e) 0); [done|]. cbn.
  destruct (_ || _); [done|]. destruct (parse_sizes l); [|done].
  intros [= <-]. constructor; [done|]. by apply IH.
Qed.

Lemma Zsum_positive l : Forall (λ z, 0 < z) l → 0 ≤ Zsum l.
Proof. induction 1; [done|]. rewrite Zsum_cons. lia. Qed.

(** The cutting loop succeeds exactly when the sizes fit in the body. *)
Lemma cut_chunks_fits sizes body :
  Forall (λ z, 0 < z) sizes → Zsum sizes ≤ ssize body →
  ∃ l, cut_chunks sizes body = Ret l ∧ ssize <$> l = sizes ∧
       sconcat l = ztake (Zsum sizes) body.
Proof.
  intros Hpos. revert body; induction Hpos as [|z sizes Hz Hpos IH]; intros body Hle.
  - exists []. split; [done|]. split; [done|]. change (Zsum []) with 0.
    unfold ztake. destruct (Z.leb_spec (ssize body) 0) as [H|H]; [|done].
    pose proof (ssize_nonneg body). symmetry. apply ssize_zero. lia.
  - rewrite Zsum_cons in Hle. pose proof (Zsum_positive _ Hpos).
    destruct (IH (zdrop z body)) as (l & Hl & Hs & Hc); [rewrite zdrop_size; lia|].
    exists (ztake z body :: l). cbn.
    destruct (Z.ltb_spec (ssize body) z); [lia|]. rewrite Hl. split; [done|]. split.
    + f_equal; [|done]. rewrite ztake_size; lia.
    + rewrite Hc. apply (ztake_add z (Zsum sizes) body); lia.
Qed.

Lemma cut_chunks_too_long sizes body :
  Forall (λ z, 0 < z) sizes → ssize body < Zsum sizes →
  cut_chunks sizes body = Undef "string_view::remove_prefix past the end".
Proof.
  intros Hpos. revert body; induction Hpos as [|z sizes Hz Hpos IH]; intros body Hlt.
  - cbn in Hlt. pose proof (ssize_nonneg body). lia.
  - cbn. destruct (Z.ltb_spec (ssize body) z); [done|].
    rewrite IH; [done|]. rewrite zdrop_size, Zsum_cons in *; lia.
Qed.

Lemma cut_chunks_sconcat parts :
  Forall (λ p, p ≠ "") parts → cut_chunks (ssize <$> parts) (sconcat parts) = Ret parts.
Proof.
  induction 1 as [|e parts He Hp IH]; [done|]. cbn.
  rewrite ssize_app, ztake_app, zdrop_app, IH.
  pose proof (ssize_nonneg (sconcat parts)).
  by destruct (Z.ltb_spec (ssize e + ssize (sconcat parts)) (ssize e)); [lia|].
Qed.

(** What [TryParseMultiChunk] does with a header line [h] and a body. *)
Lemma TryParse_frame h body :
  no_char ch_newline h = true →
  TryParseMultiChunk (h +:+ crlf +:+ body) =
    match parse_sizes (Split_char h "," false) with
    | None => Ret None
    | Some sizes =>
      if negb (u64 (Zsum sizes) =? ssize body) then Ret None
      else result ← cut_chunks sizes body; Ret (Some result)
    end.
Proof.
  intros Hh. unfold TryParseMultiChunk.
  destruct (String.eqb_spec (h +:+ crlf +:+ body) "") as [E|_]; [by destruct h|].
  set (h' := h +:+ String ch_return "").
  assert (E : h +:+ crlf +:+ body = h' +:+ String ch_newline body)
    by (unfold h'; by rewrite sapp_assoc).
  assert (El : String.length h' = S (String.length h))
    by (unfold h'; rewrite slength_app; cbn; lia).
  rewrite E, sfind_char_app by (unfold h'; by rewrite no_char_app, Hh). rewrite El.
  assert (G : String.get (String.length h) (h' +:+ String ch_newline body) = Some ch_return).
  { unfold h'. rewrite sapp_assoc. clear. by induction h. }
  rewrite bool_decide_eq_true_2 by done. cbn [negb].
  replace (stake (String.length h) (h' +:+ String ch_newline body)) with h
    by (unfold h'; by rewrite sapp_assoc, stake_app).
  replace (sdrop (S (S (String.length h))) (h' +:+ String ch_newline body)) with body; [done|].
  by rewrite <- El, <- Nat.add_1_r, <- sdrop_sdrop, sdrop_app.
Qed.

Lemma TryParse_sizes h parts :
  no_char ch_newline h = true → Split_char h "," false = size_strings parts →
  Forall (λ p, p ≠ "") parts → Zsum (ssize <$> parts) < LONG_MAX →
  TryParseMultiChunk (h +:+ crlf +:+ sconcat parts) = Ret (Some parts).
Proof.
  intros Hh Hs Hp Hsum. rewrite TryParse_frame, Hs, parse_sizes_strings by done.
  pose proof (Zsum_ssize_nonneg parts) as H0. unfold LONG_MAX in Hsum.
  rewrite u64_id, ssize_sconcat, Z.eqb_refl by (unfold is_u64; lia). cbn [negb].
  by rewrite cut_chunks_sconcat.
Qed.

Lemma MakeMultiChunkHeaderLine_eq parts :
  parts ≠ [] → MakeMultiChunkHeaderLine parts = join "," (size_strings parts) +:+ crlf.
Proof.
  intros Hne. unfold MakeMultiChunkHeaderLine, size_strings.
  rewrite <- spop_back_sconcat by by destruct parts.
  rewrite <- list_fmap_compose. by destruct parts.
Qed.

Lemma MakeMultiChunk_eq parts :
  parts ≠ [] →
  MakeMultiChunk parts =
    join "," (double_commas (size_strings parts)) +:+ crlf +:+ sconcat parts.
Proof.
  intros Hne. unfold MakeMultiChunk.
  rewrite <- spop_back_sconcat by by destruct parts.
  rewrite <- double_commas_sconcat. unfold size_strings.
  rewrite <- list_fmap_compose. by destruct parts.
Qed.

Lemma double_commas_no_char c l :
  Forall (λ p, no_char c p = true) l → Forall (λ p, no_char c p = true) (double_commas l).
Proof. induction 1; [done|]. by repeat constructor. Qed.

Lemma size_strings_no_char c parts :
  is_digit c = false → Forall (λ p, no_char c p = true) (size_strings parts).
Proof.
  intros Hc. eapply Forall_impl; [by apply size_strings_ok|]. by intros ? [? _].
Qed.

Lemma Split_double_commas parts :
  parts ≠ [] →
  Split_char (join "," (double_commas (size_strings parts))) "," false = size_strings parts.
Proof.
  intros Hne. rewrite Split_drop_empty, Split_of_join.
  - apply double_commas_filter. eapply Forall_impl; [by apply (size_strings_ok ",")|].
    by intros ? [_ ?].
  - by apply double_commas_no_char, size_strings_no_char.
  - by destruct parts.
  - by destruct parts.
Qed.

Lemma MakeMultiChunk_parse parts :
  Forall (λ p, p ≠ "") parts → Zsum (ssize <$> parts) < LONG_MAX →
  TryParseMultiChunk (MakeMultiChunk parts) = Ret (Some parts).
Proof.
  intros Hp Hsum. destruct (decide (parts = [])) as [->|Hne]; [done|].
  rewrite MakeMultiChunk_eq by done.
  apply TryParse_sizes; [|by apply Split_double_commas|done..].
  apply no_char_join; [done|]. by apply double_commas_no_char, size_strings_no_char.
Qed.

(** What the daemon frames with [MakeMultiChunk], [TryParseMultiChunk] reads
    back, although the header carries two commas after every size: for
    non-empty parts of total size below [LONG_MAX] the round trip is exact. *)
Theorem MakeMultiChunk_roundtrip parts :
  Forall (λ p, p ≠ "") parts → Zsum (ssize <$> parts) < LONG_MAX →
  TryParseMultiChunk (MakeMultiChunk parts) = Ret (Some parts).
Proof. apply MakeMultiChunk_parse. Qed.

Lemma MakeMultiChunk_roundtrip_witness :
  TryParseMultiChunk (MakeMultiChunk ["abc"; "de"]) = Ret (Some ["abc"; "de"]).
Proof.
  apply MakeMultiChunk_roundtrip; [by repeat constructor | by vm_compute].
Defined.

(** The client's framing: the header line of [MakeMultiChunkHeaderLine]
    followed by the parts themselves is parsed back to the same parts. *)
Theorem MakeMultiChunkHeaderLine_roundtrip parts :
  Forall (λ p, p ≠ "") parts → Zsum (ssize <$> parts) < LONG_MAX →
  TryParseMultiChunk (sconcat (MakeMultiChunkHeaderLine parts :: parts)) = Ret (Some parts).
Proof.
  intros Hp Hsum. destruct (decide (parts = [])) as [->|Hne]; [done|]. cbn [sconcat].
  rewrite MakeMultiChunkHeaderLine_eq, sapp_assoc by done.
  apply TryParse_sizes; [|by apply Split_of_join_nonempty; [apply size_strings_ok|by destruct parts]|done..].
  apply no_char_join; [done|]. by apply size_strings_no_char.
Qed.

Lemma MakeMultiChunkHeaderLine_roundtrip_witness :
  TryParseMultiChunk (sconcat [MakeMultiChunkHeaderLine ["{}"; "src"]; "{}"; "src"]) =
  Ret (Some ["{}"; "src"]).
Proof.
  apply (MakeMultiChunkHeaderLine_roundtrip ["{}"; "src"]);
    [by repeat constructor | by vm_compute].
Defined.

(** C20. The complete behaviour of [TryParseMultiChunk] on a header line [h] whose
    sizes parse: it rejects a body of the wrong size, returns the body cut at
    the sizes when they add up to it, and reaches undefined behaviour
    ([remove_prefix] past the end) when the sizes only add up modulo 2^64. *)
Theorem TryParseMultiChunk_spec h body sizes :
  no_char ch_newline h = true → parse_sizes (Split_char h "," false) = Some sizes →
  (u64 (Zsum sizes) ≠ ssize body ∧ TryParseMultiChunk (h +:+ crlf +:+ body) = Ret None) ∨
  (Zsum sizes = ssize body ∧
   ∃ l, TryParseMultiChunk (h +:+ crlf +:+ body) = Ret (Some l) ∧
        ssize <$> l = sizes ∧ sconcat l = body) ∨
  (u64 (Zsum sizes) = ssize body ∧ ssize body < Zsum sizes ∧
   TryParseMultiChunk (h +:+ crlf +:+ body) =
     Undef "string_view::remove_prefix past the end").
Proof.
  intros Hh Hs. rewrite TryParse_frame, Hs by done.
  apply parse_sizes_positive in Hs as Hpos. pose proof (Zsum_positive _ Hpos) as H0.
  destruct (Z.eqb_spec (u64 (Zsum sizes)) (ssize body)) as [E|E]; [|by left].
  right. cbn [negb]. destruct (Z.le_gt_cases (Zsum sizes) (ssize body)) as [Hle|Hgt].
  - left. destruct (cut_chunks_fits sizes body) as (l & -> & Hl & Hc); [done..|].
    assert (Zsum sizes = ssize body) as Eb.
    { destruct (Z.le_gt_cases (2 ^ 64) (Zsum sizes)).
      - pose proof (u64_range (Zsum sizes)) as [_ ?]. lia.
      - rewrite u64_id in E; [done|]. unfold is_u64. lia. }
    split; [done|]. exists l. split; [done|]. split; [done|].
    rewrite Hc, Eb. unfold ztake. by rewrite (proj2 (Z.leb_le _ _)) by lia.
  - right. split; [done|]. split; [done|]. by rewrite cut_chunks_too_long.
Qed.

(** Three sizes of total 2^64 pass the check against an empty body. *)
Lemma TryParseMultiChunk_spec_witness :
  TryParseMultiChunk ("9223372036854775806,9223372036854775806,4" +:+ crlf +:+ "") =
  Undef "string_view::remove_prefix past the end".
Proof.
  destruct (TryParseMultiChunk_spec "9223372036854775806,9223372036854775806,4" ""
    [9223372036854775806; 9223372036854775806; 4]) as [[H _]|[[H _]|(_ & _ & H)]];
    [by vm_compute | by vm_compute | by vm_compute in H | by vm_compute in H | exact H].
Defined.

(** ** PackFiles *)

Lemma PackFiles_eq files :
  files ≠ [] →
  PackFiles files =
    to_string (Zsum (ssize <$> files.*2)) +:+ String ch_newline
      (join "," files.*1 +:+ String ch_newline
        (join "," (size_strings files.*2) +:+ String ch_newline (sconcat files.*2))).
Proof.
  intros Hne. unfold PackFiles, size_strings.
  rewrite <- !spop_back_sconcat by by destruct files.
  rewrite <- !list_fmap_compose. destruct files as [|f files]; [done|].
  by rewrite !sapp_assoc.
Qed.

Lemma unpack_loop_files pre files :
  Forall is_u64 (ssize <$> files.*2) → ssize pre + Zsum (ssize <$> files.*2) < 2 ^ 64 →
  unpack_loop (pre +:+ sconcat files.*2) (ssize pre)
    (zip files.*1 (size_strings files.*2)) = Ret files.
Proof.
  revert pre; induction files as [|[suf file] files IH]; intros pre Hu Hsum; [done|].
  rewrite !fmap_cons in Hu, Hsum. apply Forall_cons in Hu as [Hf Hu].
  rewrite Zsum_cons in Hsum. cbn [snd] in Hsum.
  pose proof (ssize_nonneg pre). pose proof (ssize_nonneg file).
  pose proof (Zsum_ssize_nonneg files.*2).
  change (unpack_loop _ _ _) with
    (unpack_loop (pre +:+ sconcat (file :: files.*2)) (ssize pre)
       ((suf, to_string (ssize file)) :: zip files.*1 (size_strings files.*2))).
  cbn [unpack_loop]. rewrite stoul_to_string by done. cbn [mbind outcome_bind].
  rewrite zdrop_app. cbn [sconcat]. rewrite ztake_app, !ssize_app.
  pose proof (ssize_nonneg (sconcat files.*2)).
  destruct (Z.ltb_spec (ssize pre + (ssize file + ssize (sconcat files.*2))) (ssize pre)); [lia|].
  rewrite u64_id by (unfold is_u64; lia). rewrite <- sapp_assoc, <- ssize_app.
  rewrite IH; [done|done|rewrite ssize_app; lia].
Qed.

(** The head of a packed file: three lines in front of the body. *)
Definition pack_head (l1 l2 l3 : string) : string :=
  l1 +:+ String ch_newline (l2 +:+ String ch_newline (l3 +:+ String ch_newline "")).

Lemma pack_head_size l1 l2 l3 :
  ssize (pack_head l1 l2 l3) = ssize l1 + 1 + (ssize l2 + 1) + (ssize l3 + 1).
Proof. unfold pack_head, ssize. rewrite !slength_app. cbn. rewrite !slength_app. cbn. rewrite slength_app. cbn. lia. Qed.

Lemma TryUnpackFiles_frame l1 l2 l3 body files_size :
  no_char ch_newline l1 = true → no_char ch_newline l2 = true →
  no_char ch_newline l3 = true → stol l1 = Ret files_size →
  TryUnpackFiles (pack_head l1 l2 l3 +:+ body) =
    if negb (length (Split_char l2 "," false) =? length (Split_char l3 "," false))%nat
    then Ret None
    else if negb (u64 (ssize body) =? u64 files_size) then Ret None
    else
      result ← unpack_loop (pack_head l1 l2 l3 +:+ body) (ssize (pack_head l1 l2 l3))
                 (zip (Split_char l2 "," false) (Split_char l3 "," false));
      Ret (Some result).
Proof.
  intros H1 H2 H3 Hs. unfold TryUnpackFiles.
  assert (E : pack_head l1 l2 l3 +:+ body =
    l1 +:+ String ch_newline (l2 +:+ String ch_newline (l3 +:+ String ch_newline body)))
    by (unfold pack_head; by rewrite !sapp_assoc, !sapp_cons, !sapp_assoc, !sapp_cons, !sapp_assoc).
  replace (getline (pack_head l1 l2 l3 +:+ body)) with
    (l1, l2 +:+ String ch_newline (l3 +:+ String ch_newline body))
    by (by rewrite E, getline_app).
  rewrite Hs. cbn [mbind outcome_bind].
  rewrite getline_app by done. rewrite getline_app by done.
  rewrite ssize_app, <- pack_head_size. by rewrite Z.add_simpl_l.
Qed.

Lemma TryUnpackFiles_PackFiles files :
  files ≠ [] →
  Forall (λ s, s ≠ "" ∧ no_char "," s = true ∧ no_char ch_newline s = true) files.*1 →
  ssize (PackFiles files) ≤ LONG_MAX →
  TryUnpackFiles (PackFiles files) = Ret (Some files).
Proof.
  intros Hne Hsuf Hsize. rewrite PackFiles_eq in * by done.
  pose proof (Zsum_ssize_nonneg files.*2) as H0.
  assert (Hc1 : Split_char (join "," files.*1) "," false = files.*1).
  { apply Split_of_join_nonempty; [|by destruct files].
    eapply Forall_impl; [exact Hsuf|]. by intros ? (? & ? & ?). }
  assert (Hc2 : Split_char (join "," (size_strings files.*2)) "," false = size_strings files.*2).
  { apply Split_of_join_nonempty; [by apply size_strings_ok|by destruct files]. }
  assert (Hn1 : no_char ch_newline (join "," files.*1) = true).
  { apply no_char_join; [done|]. eapply Forall_impl; [exact Hsuf|]. by intros ? (? & ? & ?). }
  assert (Hn2 : no_char ch_newline (join "," (size_strings files.*2)) = true)
    by (apply no_char_join; [done|]; by apply size_strings_no_char).
  set (l2 := join "," files.*1) in *. set (l3 := join "," (size_strings files.*2)) in *.
  replace (to_string _ +:+ _) with
    (pack_head (to_string (Zsum (ssize <$> files.*2))) l2 l3 +:+ sconcat files.*2) in *
    by (unfold pack_head; by rewrite !sapp_assoc, !sapp_cons, !sapp_assoc, !sapp_cons, !sapp_assoc).
  rewrite ssize_app, ssize_sconcat in Hsize. unfold LONG_MAX in Hsize.
  set (head := pack_head _ l2 l3) in *. pose proof (ssize_nonneg head).
  unfold head. rewrite (TryUnpackFiles_frame _ _ _ _ (Zsum (ssize <$> files.*2)));
    [|by apply to_string_no_char|done|done|apply stol_to_string; unfold LONG_MAX; lia].
  rewrite Hc1, Hc2, ssize_sconcat, Z.eqb_refl. unfold size_strings at 1.
  rewrite !length_fmap, Nat.eqb_refl. cbn [negb].
  rewrite unpack_loop_files; [done| |fold head; lia].
  apply Forall_forall. intros z [s [-> Hs]]%list_elem_of_fmap.
  pose proof (ssize_nonneg s).
  assert (ssize s ≤ Zsum (ssize <$> files.*2)) by by apply Zsum_elem.
  unfold is_u64. lia.
Qed.



(** ** Chunking *)

Lemma chunk_loop_spec fuel chunk_size i file :
  0 < chunk_size → 0 ≤ i → ssize file + chunk_size < 2 ^ 64 →
  (String.length file ≤ fuel + Z.to_nat i)%nat →
  ∃ l, chunk_loop fuel chunk_size i file = Some l ∧ sconcat l = zdrop i file ∧
       Forall (λ p, 0 < ssize p ≤ chunk_size) l.
Proof.
  intros Hc. revert i; induction fuel as [|fuel IH]; intros i Hi Hw Hf;
    cbn [chunk_loop]; destruct (Z.ltb_spec i (ssize file)) as [Hlt|Hge].
  - unfold ssize in Hlt. lia.
  - exists []. split; [done|]. unfold zdrop. by rewrite (proj2 (Z.leb_le _ _) Hge).
  - rewrite u64_id by (unfold is_u64; lia).
    destruct (IH (i + chunk_size)) as (l & -> & Hl & Hp); [lia|lia|lia|].
    set (n := Z.min _ _). eexists; split; [done|]. cbn [sconcat]. split.
    + rewrite Hl. rewrite <- (ztake_zdrop n (zdrop i file)) at 2. f_equal.
      unfold n. destruct (Z.min_spec chunk_size (ssize file - i)) as [[_ ->]|[Hm ->]].
      * by rewrite zdrop_zdrop by lia.
      * rewrite zdrop_zdrop by lia. unfold zdrop.
        by rewrite !(proj2 (Z.leb_le _ _)) by lia.
    + constructor; [|done]. rewrite ztake_size, zdrop_size by lia. lia.
  - exists []. split; [done|]. unfold zdrop. by rewrite (proj2 (Z.leb_le _ _) Hge).
Qed.

Lemma file_chunks_ok chunk_size file :
  0 < chunk_size → ssize file + chunk_size < 2 ^ 64 →
  ∃ l, file_chunks chunk_size file = Some l ∧ sconcat l = file ∧
       Forall (λ p, 0 < ssize p ≤ chunk_size) l.
Proof.
  intros Hc Hw. destruct (chunk_loop_spec (String.length file) chunk_size 0 file)
    as (l & Hl & Hs & Hp); [lia..|].
  exists l. split; [done|]. split; [|done]. rewrite Hs. unfold zdrop.
  destruct (Z.leb_spec (ssize file) 0); [|done].
  symmetry. apply ssize_zero. pose proof (ssize_nonneg file). lia.
Qed.

(** The chunking loop of the streaming calls ends, and the chunks it writes
    are non-empty, never longer than the chunk size and concatenate to the
    file, so the receiver that appends them rebuilds it. *)
Theorem file_chunks_spec chunk_size file :
  0 < chunk_size → ssize file + chunk_size < 2 ^ 64 →
  ∃ l, file_chunks chunk_size file = Some l ∧ sconcat l = file ∧
       Forall (λ p, 0 < ssize p ≤ chunk_size) l.
Proof. apply file_chunks_ok. Qed.

Lemma file_chunks_spec_witness :
  ∃ l, file_chunks 65536 "int main() {}" = Some l ∧ sconcat l = "int main() {}" ∧
       Forall (λ p, 0 < ssize p ≤ 65536) l.
Proof. apply file_chunks_spec; by vm_compute. Defined.
