(* ===== verification/Proto.v ===== *)
(** Messages and shared enumerations of src/distribuild/proto: the protobuf
    records the C++ handlers read and write.  A repeated field is a list, a
    uint32 or uint64 field an integer [Z], a string or bytes field a [string].
    The code generated from the .proto files is not part of the sources. *)
From S2P Require Import Prelude.

(** grpc status codes the handlers use, and UNKNOWN, which gRPC answers for a handler that
    throws. *)
Inductive StatusCode :=
  | OK | PERMISSION_DENIED | INVALID_ARGUMENT | NOT_FOUND | RESOURCE_EXHAUSTED
  | UNAVAILABLE | UNKNOWN.

#[export] Instance StatusCode_eq_dec : EqDecision StatusCode.
Proof. solve_decision. Defined.

Record EnviromentDesc := { compiler_digest : string }.

(** scheduler.proto *)

Inductive ServantPriority :=
  | SERVANT_PRIORITY_UNKNOWN | SERVANT_PRIORITY_USER | SERVANT_PRIORITY_DEDICATED.

#[export] Instance ServantPriority_eq_dec : EqDecision ServantPriority.
Proof. solve_decision. Defined.

Record RunningTask := {
  servant_task_id : Z;
  task_grant_id : Z;
  servant_location : string;
  task_digest : string
}.

Record StartingTaskGrant := {
  grant_task_grant_id : Z;
  grant_servant_location : string
}.

Record HeartBeatRequest := {
  hb_token : string;
  hb_next_heart_beat_in_ms : Z;
  hb_version : Z;
  hb_location : string;
  hb_num_cpu_cores : Z;
  hb_current_load : Z;
  hb_priority : ServantPriority;
  hb_concurrency : Z;
  hb_not_accepting_reason : Z;
  hb_total_memory_in_bytes : Z;
  hb_avail_memory_in_bytes : Z;
  hb_env_descs : list EnviromentDesc;
  hb_running_tasks : list RunningTask
}.

Record HeartBeatResponse := { hb_tokens : list string; hb_expired_tasks : list Z }.

Record WaitForStaringTaskRequest := {
  wst_token : string;
  wst_mills_to_wait : Z;
  wst_env_desc : EnviromentDesc;
  wst_immeadiate_reqs : Z;
  wst_prefetch_reqs : Z;
  wst_next_keep_alive_in_ms : Z;
  wst_min_version : Z
}.

Record KeepTaskAliveRequest := {
  kta_token : string;
  kta_task_grant_ids : list Z;
  kta_next_keep_alive_in_ms : Z
}.

Record FreeTaskRequst := { ftr_token : string; ftr_task_grant_ids : list Z }.
