(* ===== verification/Token.v ===== *)
(** Access tokens: src/distribuild/common/token_verifier.h. *)
From S2P Require Import Prelude Text.

(** [TokenVerifier]: the set of recognised tokens. *)
Record TokenVerifier := { recognized_tokens_ : gset string }.

(** The default constructor recognises nothing. *)
Definition TokenVerifier_default : TokenVerifier := {| recognized_tokens_ := ∅ |}.

Definition Verify (v : TokenVerifier) (token : string) : bool :=
  bool_decide (token ∈ recognized_tokens_ v).

(** The check for an empty [str] only logs. *)
Definition MakeTokenVerifier (str : string) : TokenVerifier :=
  let tokens := Split_char str "," true in
  {| recognized_tokens_ := list_to_set tokens |}.

Lemma Verify_elem v t : Verify v t = true ↔ t ∈ recognized_tokens_ v.
Proof. apply bool_decide_eq_true. Qed.

(** A comma-separated token list recognises exactly its tokens. *)
Theorem MakeTokenVerifier_spec ts t :
  Forall (λ s, no_char "," s = true) ts → ts ≠ [] → ts ≠ [""] →
  Verify (MakeTokenVerifier (join "," ts)) t = true ↔ t ∈ ts.
Proof.
  intros Hts H1 H2. rewrite Verify_elem. cbn.
  rewrite Split_of_join by done. apply elem_of_list_to_set.
Qed.

Lemma MakeTokenVerifier_spec_witness :
  Verify (MakeTokenVerifier (join "," ["nieyang"; "other"])) "other" = true ↔
  "other" ∈ ["nieyang"; "other"].
Proof. apply MakeTokenVerifier_spec; [by repeat constructor | done | done]. Defined.
