(* ===== verification/Bookkeeper.v ===== *)
(** The tasks every servant reports as running:
    src/distribuild/scheduler/running_task_bookkeeper.{h,cpp}. *)
From S2P Require Import Prelude Proto.

(** [running_tasks_], by servant location. *)
Record RunningTaskBookkeeper := { running_tasks_ : gmap string (list RunningTask) }.

Definition Bookkeeper_init : RunningTaskBookkeeper := {| running_tasks_ := ∅ |}.

(** [erase] and then [emplace]. *)
Definition SetRunningTask (location : string) (tasks : list RunningTask)
    (b : RunningTaskBookkeeper) : RunningTaskBookkeeper :=
  {| running_tasks_ := <[location := tasks]> (delete location (running_tasks_ b)) |}.

Definition DelServant (location : string) (b : RunningTaskBookkeeper)
    : RunningTaskBookkeeper :=
  {| running_tasks_ := delete location (running_tasks_ b) |}.

(** Every servant's tasks are inserted at the front of the result.  The
    iteration order of the hash map is unspecified: the model takes that of
    [map_to_list], and the lemmas hold up to permutation. *)
Definition GetRunningTasks (b : RunningTaskBookkeeper) : list RunningTask :=
  foldl (λ result kv, kv.2 ++ result) [] (map_to_list (running_tasks_ b)).

Lemma foldl_prepend (l : list (string * list RunningTask)) acc :
  foldl (λ result kv, kv.2 ++ result) acc l ≡ₚ acc ++ (l ≫= snd).
Proof.
  revert acc; induction l as [|kv l IH]; intros acc.
  - change ([] ≫= snd) with (@nil RunningTask). by rewrite app_nil_r.
  - cbn [foldl]. rewrite IH. cbn. by rewrite app_assoc, (Permutation_app_comm acc).
Qed.

(** [GetRunningTasks] lists exactly the tasks some servant reported last. *)
Theorem GetRunningTasks_elem b t :
  t ∈ GetRunningTasks b ↔ ∃ loc ts, running_tasks_ b !! loc = Some ts ∧ t ∈ ts.
Proof.
  unfold GetRunningTasks. rewrite foldl_prepend. cbn. rewrite list_elem_of_bind. split.
  - intros ([loc ts] & Ht & Hm%elem_of_map_to_list). eauto.
  - intros (loc & ts & Hm%elem_of_map_to_list & Ht). by exists (loc, ts).
Qed.
