(* ===== verification/SchedDispatch.v ===== *)
(** The scheduler's task dispatcher:
    src/distribuild/scheduler/task_dispatcher.{h,cpp}.

    [Servant] objects live on a heap indexed by pointers: [servants_] and every
    [Task] hold a [shared_ptr] to them, and the code compares those pointers.
    Every public method takes [alloc_mutex_] for its whole body, so it is one
    atomic transition; [WaitForStartingNewTask] is a sequence of atomic attempts
    with waits on [alloc_cv_] between them. *)
From S2P Require Import Prelude Text Proto Bookkeeper.

(** * Data *)

Inductive WaitStatus := WaitStatus_OK | WaitStatus_EnvNotFound | WaitStatus_Timeout.

Record TaskAllocation := { alloc_task_id : Z; alloc_servant_location : string }.

Record TaskInfo := {
  requester_ip : string;
  min_version : Z;
  env_desc : EnviromentDesc
}.

Record ServantInfo := {
  version : Z;
  observed_location : string;
  reported_location : string;
  num_cpu_cores : Z;
  current_load : Z;
  total_memory_in_bytes : Z;
  avail_memory_in_bytes : Z;
  concurrency : Z;
  priority : ServantPriority;
  env_decs : list EnviromentDesc
}.

Record Servant := {
  servant_info : ServantInfo;
  discovered_tp : Z;
  servant_expires_tp : Z;
  running_tasks : Z;
  assigned_tasks : Z
}.

(** A [shared_ptr<Servant>]. *)
Definition ptr := nat.

Record Task := {
  task_id : Z;
  task_info : TaskInfo;
  servant : ptr;
  started_tp : Z;
  task_expires_tp : Z;
  is_prefetch : bool;
  is_zombie : bool
}.

Record State := {
  heap : gmap ptr Servant;           (* the live [Servant] objects *)
  next_ptr : ptr;                    (* the next address [make_shared] returns *)
  servants_ : list ptr;
  tasks_ : gmap Z Task;
  next_task_id_ : Z;
  running_task_bookkeeper_ : RunningTaskBookkeeper;
  min_memory_for_new_task_ : Z
}.

(** [TaskDispatcher::TaskDispatcher]: the flag gives the minimal memory. *)
Definition TaskDispatcher_init (FLAGS_min_memory_for_new_task : Z) : State := {|
  heap := ∅; next_ptr := 0%nat; servants_ := []; tasks_ := ∅; next_task_id_ := 0;
  running_task_bookkeeper_ := Bookkeeper_init;
  min_memory_for_new_task_ := FLAGS_min_memory_for_new_task |}.

Definition set_heap (h : gmap ptr Servant) (st : State) : State := {|
  heap := h; next_ptr := next_ptr st; servants_ := servants_ st; tasks_ := tasks_ st;
  next_task_id_ := next_task_id_ st;
  running_task_bookkeeper_ := running_task_bookkeeper_ st;
  min_memory_for_new_task_ := min_memory_for_new_task_ st |}.
Definition set_tasks (ts : gmap Z Task) (st : State) : State := {|
  heap := heap st; next_ptr := next_ptr st; servants_ := servants_ st; tasks_ := ts;
  next_task_id_ := next_task_id_ st;
  running_task_bookkeeper_ := running_task_bookkeeper_ st;
  min_memory_for_new_task_ := min_memory_for_new_task_ st |}.
Definition set_servants (l : list ptr) (st : State) : State := {|
  heap := heap st; next_ptr := next_ptr st; servants_ := l; tasks_ := tasks_ st;
  next_task_id_ := next_task_id_ st;
  running_task_bookkeeper_ := running_task_bookkeeper_ st;
  min_memory_for_new_task_ := min_memory_for_new_task_ st |}.
Definition set_bookkeeper (b : RunningTaskBookkeeper) (st : State) : State := {|
  heap := heap st; next_ptr := next_ptr st; servants_ := servants_ st; tasks_ := tasks_ st;
  next_task_id_ := next_task_id_ st; running_task_bookkeeper_ := b;
  min_memory_for_new_task_ := min_memory_for_new_task_ st |}.

Definition with_running (n : Z) (s : Servant) : Servant := {|
  servant_info := servant_info s; discovered_tp := discovered_tp s;
  servant_expires_tp := servant_expires_tp s; running_tasks := n;
  assigned_tasks := assigned_tasks s |}.

(** * Choosing a servant *)

(** [find_env]: the servant has the compiler of the request. *)
Definition find_env (s : Servant) (ti : TaskInfo) : bool :=
  existsb (λ env, String.eqb (compiler_digest env) (compiler_digest (env_desc ti)))
    (env_decs (servant_info s)).

Definition eligible (ti : TaskInfo) (s : Servant) : bool :=
  if negb (find_env s ti) then false
  else if concurrency (servant_info s) <=? 0 then false
  else if min_version ti <? version (servant_info s) then false
  else true.

(** [P] holds of the servant behind a pointer. *)
Definition servant_is (h : gmap ptr Servant) (P : Servant → bool) (p : ptr) : bool :=
  if h !! p is Some s then P s else false.

Definition UnsafeGetServantsHasEnv (st : State) (ti : TaskInfo) : list ptr :=
  filter (λ p, servant_is (heap st) (eligible ti) p = true) (servants_ st).

(** All the arithmetic is on [size_t]: a difference wraps, and [std::max<size_t>]
    with 0 changes nothing. *)
Definition AvailableTasks (min_memory : Z) (s : Servant) : Z :=
  let i := servant_info s in
  if negb (total_memory_in_bytes i =? 0) && (avail_memory_in_bytes i <? min_memory)
  then running_tasks s
  else
    let load := Z.max (u64 (current_load i - running_tasks s)) 0 in
    let avail_tasks := Z.max (u64 (num_cpu_cores i - load)) 0 in
    Z.min (concurrency i) avail_tasks.

Definition is_free (min_memory : Z) (s : Servant) : bool :=
  negb (AvailableTasks min_memory s <=? running_tasks s).

Definition UnsafeGetFreeServants (st : State) (eligible_servants : list ptr) : list ptr :=
  filter (λ p, servant_is (heap st) (is_free (min_memory_for_new_task_ st)) p = true)
    eligible_servants.

(** The conversion of a [size_t] to [double]: the nearest number with a 53-bit
    significand, ties to even.  The result is an integer. *)
Definition double_of_u64 (n : Z) : Z :=
  let e := Z.log2 n - 52 in
  if e <=? 0 then n
  else
    let q := n / 2 ^ e in
    let r := n mod 2 ^ e in
    let half := 2 ^ (e - 1) in
    let q' := if (r <? half) || ((r =? half) && Z.even q) then q else q + 1 in
    q' * 2 ^ e.

(** [std::numeric_limits<double>::max()]. *)
Definition DBL_MAX : Z := (2 ^ 53 - 1) * 2 ^ 971.

(** [double(running_tasks / concurrency)]: the division is on integers. *)
Definition utilization (s : Servant) : Z :=
  double_of_u64 (running_tasks s / concurrency (servant_info s)).

Fixpoint pick_loop (h : gmap ptr Servant) (filt : Servant → bool) (servants : list ptr)
    (min_utilization : Z) (result : ptr) : outcome ptr :=
  match servants with
  | [] => Ret result
  | p :: servants =>
    match h !! p with
    | None => Undef "null servant"
    | Some s =>
      if negb (filt s) then pick_loop h filt servants min_utilization result
      else if concurrency (servant_info s) =? 0 then Undef "division by zero"
      else if utilization s <? min_utilization
      then pick_loop h filt servants (utilization s) p
      else pick_loop h filt servants min_utilization result
    end
  end.

Definition UnsafePickUpServant (h : gmap ptr Servant) (servants : list ptr)
    (filt : Servant → bool) : outcome (option ptr) :=
  match servants with
  | [] => Ret None
  | p :: _ => r ← pick_loop h filt servants DBL_MAX p; Ret (Some r)
  end.

(** The servant on the requester's own machine. *)
Definition same_ip (requestor_ip : string) (s : Servant) : bool :=
  let loc := observed_location (servant_info s) in
  (String.length requestor_ip <? String.length loc)%nat &&
  bool_decide (String.get (String.length requestor_ip) loc = Some ":"%char) &&
  StartWith loc requestor_ip.

Definition is_dedicated_spare (s : Servant) : bool :=
  bool_decide (priority (servant_info s) = SERVANT_PRIORITY_DEDICATED) &&
  (u64 (2 * running_tasks s) <? concurrency (servant_info s)).

Definition UnsafePickUpFreeServant (h : gmap ptr Servant) (free_servants : list ptr)
    (requestor_ip : string) : outcome (option ptr) :=
  let '(self, free_servants) :=
    match list_find (λ p, servant_is h (same_ip requestor_ip) p = true) free_servants with
    | Some (i, p) => (Some p, delete i free_servants)
    | None => (None, free_servants)
    end in
  dedicated ← UnsafePickUpServant h free_servants is_dedicated_spare;
  if dedicated is Some p then Ret (Some p)
  else
    other ← UnsafePickUpServant h free_servants (λ _, true);
    if other is Some p then Ret (Some p) else Ret self.

(** * Allocating a task *)

(** One pass through the loop of [WaitForStartingNewTask]. *)
Inductive Attempt :=
  | NoEnv
  | Busy
  | Granted (a : TaskAllocation) (st : State).

(** The body after the loop: the picked servant takes a new task.  [now] is the
    clock when the task is created. *)
Definition StartTaskOn (st : State) (ti : TaskInfo) (expires_in now : Z)
    (prefetching : bool) (picked : ptr) : outcome Attempt :=
  match heap st !! picked with
  | None => Undef "null servant"
  | Some s =>
    let s' := {|
      servant_info := servant_info s; discovered_tp := discovered_tp s;
      servant_expires_tp := servant_expires_tp s;
      running_tasks := u64 (running_tasks s + 1);
      assigned_tasks := u64 (assigned_tasks s + 1) |} in
    let id := next_task_id_ st in
    let new_task := {|
      task_id := id; task_info := ti; servant := picked; started_tp := now;
      task_expires_tp := now + ms expires_in; is_prefetch := prefetching;
      is_zombie := if tasks_ st !! id is Some t then is_zombie t else false |} in
    Ret (Granted
      {| alloc_task_id := id;
         alloc_servant_location := observed_location (servant_info s) |}
      {| heap := <[picked := s']> (heap st); next_ptr := next_ptr st;
         servants_ := servants_ st; tasks_ := <[id := new_task]> (tasks_ st);
         next_task_id_ := u64 (id + 1);
         running_task_bookkeeper_ := running_task_bookkeeper_ st;
         min_memory_for_new_task_ := min_memory_for_new_task_ st |})
  end.

Definition TryStartNewTask (st : State) (ti : TaskInfo) (expires_in now : Z)
    (prefetching : bool) : outcome Attempt :=
  let servants_has_env := UnsafeGetServantsHasEnv st ti in
  match servants_has_env with
  | [] => Ret NoEnv
  | _ =>
    let free_servants := UnsafeGetFreeServants st servants_has_env in
    match free_servants with
    | [] => Ret Busy
    | _ =>
      picked ← UnsafePickUpFreeServant (heap st) free_servants (requester_ip ti);
      match picked with
      | None => Undef "null servant"
      | Some p => StartTaskOn st ti expires_in now prefetching p
      end
    end
  end.

(** * The other operations *)

(** The loop of [UnsafeFreeTask]; the flag is whether [alloc_cv_] is notified. *)
Fixpoint UnsafeFreeTask (task_ids : list Z) (st : State) : State * bool :=
  match task_ids with
  | [] => (st, true)
  | id :: task_ids =>
    match tasks_ st !! id with
    | None => (st, false)
    | Some t =>
      UnsafeFreeTask task_ids
        (set_tasks (delete id (tasks_ st))
          (set_heap (alter (λ s, with_running (u64 (running_tasks s - 1)) s)
                       (servant t) (heap st)) st))
    end
  end.

Definition FreeTask (id : Z) (st : State) : State * bool := UnsafeFreeTask [id] st.

(** The ids of the tasks that satisfy [P], in iteration order. *)
Definition task_ids_where (P : Task → bool) (st : State) : list Z :=
  (filter (λ kv, P kv.2 = true) (map_to_list (tasks_ st))).*1.

Definition UnsafeClearZombies (p : ptr) (running_task_ids : gset Z) (st : State)
    : State * bool :=
  let clearing_task_ids :=
    task_ids_where (λ t, bool_decide (servant t = p) && is_zombie t &&
                         bool_decide (task_id t ∉ running_task_ids)) st in
  UnsafeFreeTask clearing_task_ids st.

Definition with_expires (tp : Z) (t : Task) : Task := {|
  task_id := task_id t; task_info := task_info t; servant := servant t;
  started_tp := started_tp t; task_expires_tp := tp; is_prefetch := is_prefetch t;
  is_zombie := is_zombie t |}.

Definition KeepTaskAlive (id expire_time now : Z) (st : State) : bool * State :=
  match tasks_ st !! id with
  | None => (false, st)
  | Some t =>
    if is_zombie t then (false, st)
    else (true, set_tasks (<[id := with_expires (now + ms expire_time) t]> (tasks_ st)) st)
  end.

Definition at_location (st : State) (loc : string) (p : ptr) : bool :=
  servant_is (heap st) (λ s, String.eqb (observed_location (servant_info s)) loc) p.

(** [now] is the clock reading of the branch that is taken. *)
Definition KeepServantAlive (info : ServantInfo) (expire_time now : Z) (st : State) : State :=
  match list_find (λ p, at_location st (observed_location info) p = true) (servants_ st) with
  | Some (_, p) =>
    set_heap (alter (λ s, {|
      servant_info := info; discovered_tp := discovered_tp s;
      servant_expires_tp := now + ms expire_time;
      running_tasks := running_tasks s; assigned_tasks := assigned_tasks s |}) p (heap st)) st
  | None =>
    let p := next_ptr st in
    let s := {| servant_info := info; discovered_tp := now;
                servant_expires_tp := now + ms expire_time;
                running_tasks := 0; assigned_tasks := 0 |} in
    {| heap := <[p := s]> (heap st); next_ptr := S p; servants_ := servants_ st ++ [p];
       tasks_ := tasks_ st; next_task_id_ := next_task_id_ st;
       running_task_bookkeeper_ := running_task_bookkeeper_ st;
       min_memory_for_new_task_ := min_memory_for_new_task_ st |}
  end.

Definition permitted_task_ids (st : State) (p : ptr) : gset Z :=
  list_to_set (task_ids_where (λ t, bool_decide (servant t = p) && negb (is_zombie t)) st).

Definition NotifyServantRunningTasks (loc : string) (tasks : list RunningTask) (st : State)
    : list Z * State :=
  let task_grant_ids := task_grant_id <$> tasks in
  match list_find (λ p, at_location st loc p = true) (servants_ st) with
  | None => (task_grant_ids, st)
  | Some (_, p) =>
    let st1 := (UnsafeClearZombies p (list_to_set task_grant_ids) st).1 in
    let permitted := permitted_task_ids st1 p in
    let unknown_tasks := filter (λ id, id ∉ permitted) task_grant_ids in
    let tasks := filter (λ t, task_grant_id t ∈ permitted) tasks in
    (unknown_tasks,
     set_bookkeeper (SetRunningTask loc tasks (running_task_bookkeeper_ st1)) st1)
  end.

Definition GetRunningTasks (st : State) : list RunningTask :=
  Bookkeeper.GetRunningTasks (running_task_bookkeeper_ st).

Definition expired_servant (now : Z) (s : Servant) : bool := servant_expires_tp s <? now.

(** The first loop of [OnTimerExpiration]. *)
Definition remove_expired_servants (now : Z) (st : State) : State :=
  let expired := filter (λ p, servant_is (heap st) (expired_servant now) p = true) (servants_ st) in
  let kept := filter (λ p, servant_is (heap st) (expired_servant now) p ≠ true) (servants_ st) in
  set_bookkeeper
    (foldl (λ b p, if heap st !! p is Some s
                   then DelServant (observed_location (servant_info s)) b else b)
       (running_task_bookkeeper_ st) expired)
    (set_servants kept st).

Definition mark_zombie (now : Z) (t : Task) : Task :=
  if task_expires_tp t <? now then {|
    task_id := task_id t; task_info := task_info t; servant := servant t;
    started_tp := started_tp t; task_expires_tp := task_expires_tp t;
    is_prefetch := is_prefetch t; is_zombie := true |}
  else t.

Definition OnTimerExpiration (now : Z) (st : State) : State * bool :=
  let st1 := remove_expired_servants now st in
  let alive_servants : gset ptr := list_to_set (servants_ st1) in
  let clearing_task_ids := task_ids_where (λ t, bool_decide (servant t ∉ alive_servants)) st1 in
  let '(st2, notified) := UnsafeFreeTask clearing_task_ids st1 in
  (set_tasks (mark_zombie now <$> tasks_ st2) st2, notified).

(** * Waiting for a free servant

    [Wake] is what one [alloc_cv_.wait_until] gives: whether it timed out, and
    the state that the other threads left while the lock was released. *)
Record Wake := { timed_out : bool; woken_state : State }.

(** [None] is a thread that still waits when the wakes end.  [now] is the clock
    when the task is created. *)
Fixpoint WaitForStartingNewTask (st : State) (ti : TaskInfo) (expires_in now : Z)
    (prefetching : bool) (wakes : list Wake)
    : outcome (option (option TaskAllocation * WaitStatus * State)) :=
  attempt ← TryStartNewTask st ti expires_in now prefetching;
  match attempt with
  | NoEnv => Ret (Some (None, WaitStatus_EnvNotFound, st))
  | Granted a st' => Ret (Some (Some a, WaitStatus_OK, st'))
  | Busy =>
    match wakes with
    | [] => Ret None
    | w :: wakes =>
      if timed_out w then Ret (Some (None, WaitStatus_Timeout, woken_state w))
      else WaitForStartingNewTask (woken_state w) ti expires_in now prefetching wakes
    end
  end.

(** * The transition system

    Every operation is one transition, in any order and at any clock reading. *)

(** The transitions that issue no task id. *)
Inductive step (st : State) : State → Prop :=
  | step_keep_task id e now : step st (KeepTaskAlive id e now st).2
  | step_free id : step st (FreeTask id st).1
  | step_keep_servant info e now : step st (KeepServantAlive info e now st)
  | step_notify loc tasks : step st (NotifyServantRunningTasks loc tasks st).2
  | step_timer now : step st (OnTimerExpiration now st).1.

(** [reachable mem n st]: from the initial state, [n] ids have been issued. *)
Inductive reachable (mem : Z) : Z → State → Prop :=
  | reachable_init : reachable mem 0 (TaskDispatcher_init mem)
  | reachable_step n st st' : reachable mem n st → step st st' → reachable mem n st'
  | reachable_grant n st ti e now prefetching a st' :
      reachable mem n st →
      TryStartNewTask st ti e now prefetching = Ret (Granted a st') →
      reachable mem (n + 1) st'.
