(* ===== verification/SchedFacts.v ===== *)
(** The theory of the scheduler's task dispatcher (SchedDispatch): the invariant
    of its reachable states, and what allocation, freeing, keep-alive, servant
    notification and the expiration timer do. *)
From S2P Require Import Prelude Text Proto Bookkeeper SchedDispatch.

(** * The invariant *)

Definition on_servant (p : ptr) (t : Task) : bool := bool_decide (servant t = p).

(** The part of the invariant that freeing tasks keeps, whatever the servants. *)
Record Inv0 (n : Z) (st : State) : Prop := {
  inv_nodup : NoDup (servants_ st);
  inv_live p : p ∈ servants_ st → is_Some (heap st !! p);
  inv_heap (p : ptr) : is_Some (heap st !! p) → (p < next_ptr st)%nat;
  inv_loc p q (s t : Servant) :
    p ∈ servants_ st → q ∈ servants_ st → heap st !! p = Some s → heap st !! q = Some t →
    observed_location (servant_info s) = observed_location (servant_info t) → p = q;
  inv_task id t :
    tasks_ st !! id = Some t →
    task_id t = id ∧ 0 ≤ id < n ∧ is_Some (heap st !! servant t);
  inv_next : next_task_id_ st = u64 n;
  inv_issued : 0 ≤ n;
  inv_running p s :
    heap st !! p = Some s → running_tasks s = u64 (Z.of_nat (count_where (on_servant p) (tasks_ st)))
}.

(** Every task belongs to a registered servant. *)
Definition tasks_alive (st : State) : Prop :=
  ∀ id t, tasks_ st !! id = Some t → servant t ∈ servants_ st.

Definition Inv (n : Z) (st : State) : Prop := Inv0 n st ∧ tasks_alive st.

(** What an operation that only touches tasks leaves alone. *)
Record same_servants (st st' : State) : Prop := {
  same_list : servants_ st' = servants_ st;
  same_next_ptr : next_ptr st' = next_ptr st;
  same_next_id : next_task_id_ st' = next_task_id_ st;
  same_books : running_task_bookkeeper_ st' = running_task_bookkeeper_ st;
  same_memory : min_memory_for_new_task_ st' = min_memory_for_new_task_ st;
  same_heap : with_running 0 <$> heap st' = with_running 0 <$> heap st
}.

#[export] Instance same_servants_preorder : PreOrder same_servants.
Proof.
  split.
  - intros st. by split.
  - intros st1 st2 st3 [] []. split; by etrans.
Qed.

Lemma same_heap_lookup st st' p s' :
  same_servants st st' → heap st' !! p = Some s' →
  ∃ s, heap st !! p = Some s ∧ servant_info s = servant_info s' ∧
       discovered_tp s = discovered_tp s' ∧ servant_expires_tp s = servant_expires_tp s' ∧
       assigned_tasks s = assigned_tasks s'.
Proof.
  intros [_ _ _ _ _ H] Hp.
  assert (E : (with_running 0 <$> heap st') !! p = Some (with_running 0 s'))
    by (by rewrite lookup_fmap, Hp).
  rewrite H, lookup_fmap in E. destruct (heap st !! p) as [s|]; [|done].
  exists s. cbn in E. injection E as E1 E2 E3 E4. auto.
Qed.

Lemma same_heap_sym st st' : same_servants st st' → same_servants st' st.
Proof. intros []. by split. Qed.

Lemma same_heap_is_Some st st' p :
  same_servants st st' → is_Some (heap st' !! p) ↔ is_Some (heap st !! p).
Proof.
  intros H. split; intros [s Hs].
  - apply (same_heap_lookup st st') in Hs as (s0 & -> & _); eauto.
  - apply (same_heap_lookup st' st) in Hs as (s0 & -> & _); eauto. by apply same_heap_sym.
Qed.

(** ** Freeing tasks *)

Definition free_one (id : Z) (t : Task) (st : State) : State :=
  set_tasks (delete id (tasks_ st))
    (set_heap (alter (λ s, with_running (u64 (running_tasks s - 1)) s) (servant t) (heap st)) st).

Lemma UnsafeFreeTask_cons id ids st t :
  tasks_ st !! id = Some t →
  UnsafeFreeTask (id :: ids) st = UnsafeFreeTask ids (free_one id t st).
Proof. intros H. cbn. by rewrite H. Qed.

Lemma free_one_same id t st : same_servants st (free_one id t st).
Proof.
  split; try done. cbn. apply map_eq. intros p. rewrite !lookup_fmap.
  destruct (decide (p = servant t)) as [->|Hne].
  - rewrite lookup_alter_eq. by destruct (heap st !! servant t).
  - by rewrite lookup_alter_ne.
Qed.

Lemma u64_pred z : u64 (u64 (1 + z) - 1) = u64 z.
Proof. unfold u64. rewrite Zminus_mod_idemp_l. f_equal. lia. Qed.
Lemma u64_succ z : u64 (u64 z + 1) = u64 (1 + z).
Proof. unfold u64. rewrite Zplus_mod_idemp_l. f_equal. lia. Qed.

Lemma free_one_Inv0 n id t st :
  Inv0 n st → tasks_ st !! id = Some t → Inv0 n (free_one id t st).
Proof.
  intros I Ht. pose proof (free_one_same id t st) as S. split; cbn.
  - apply I.
  - intros p Hp. apply (same_heap_is_Some _ _ p S). by apply I.
  - intros p Hp. apply (same_heap_is_Some _ _ p S) in Hp. by apply I.
  - intros p q s1 s2 Hp Hq H1 H2 E.
    apply (same_heap_lookup _ _ _ _ S) in H1 as (s1' & H1 & E1 & _).
    apply (same_heap_lookup _ _ _ _ S) in H2 as (s2' & H2 & E2 & _).
    apply (inv_loc _ _ I p q s1' s2'); congruence.
  - intros id' t' [Hne H]%lookup_delete_Some.
    destruct (inv_task _ _ I id' t' H) as (E & R & L). split_and!; try done; try lia.
    by apply (same_heap_is_Some _ _ _ S).
  - apply I.
  - apply I.
  - intros p s. destruct (decide (p = servant t)) as [->|Hne].
    + rewrite lookup_alter_eq. destruct (heap st !! servant t) as [s0|] eqn:E; [|done].
      cbn. intros [= <-]. cbn. rewrite (inv_running _ _ I _ _ E).
      rewrite (count_where_delete _ _ _ _ Ht). unfold on_servant at 1.
      rewrite bool_decide_true by done. by rewrite Nat2Z.inj_add, u64_pred.
    + rewrite lookup_alter_ne by done. intros E.
      rewrite (inv_running _ _ I _ _ E), (count_where_delete _ _ _ _ Ht).
      unfold on_servant at 1. by rewrite bool_decide_false.
Qed.

Lemma UnsafeFreeTask_Inv0 n ids st : Inv0 n st → Inv0 n (UnsafeFreeTask ids st).1.
Proof.
  revert st; induction ids as [|id ids IH]; intros st I; [done|].
  destruct (tasks_ st !! id) as [t|] eqn:E.
  - rewrite (UnsafeFreeTask_cons _ _ _ _ E). by apply IH, free_one_Inv0.
  - cbn. by rewrite E.
Qed.

Lemma UnsafeFreeTask_same ids st : same_servants st (UnsafeFreeTask ids st).1.
Proof.
  revert st; induction ids as [|id ids IH]; intros st; [done|].
  destruct (tasks_ st !! id) as [t|] eqn:E.
  - rewrite (UnsafeFreeTask_cons _ _ _ _ E). etrans; [apply free_one_same|apply IH].
  - cbn. by rewrite E.
Qed.

Lemma UnsafeFreeTask_sub ids st : tasks_ (UnsafeFreeTask ids st).1 ⊆ tasks_ st.
Proof.
  revert st; induction ids as [|id ids IH]; intros st; [done|].
  destruct (tasks_ st !! id) as [t|] eqn:E.
  - rewrite (UnsafeFreeTask_cons _ _ _ _ E). etrans; [apply IH|]. apply delete_subseteq.
  - cbn. by rewrite E.
Qed.

(** Distinct present ids are all freed, and the waiters are notified. *)
Lemma UnsafeFreeTask_all ids st :
  NoDup ids → (∀ id, id ∈ ids → is_Some (tasks_ st !! id)) →
  (UnsafeFreeTask ids st).2 = true ∧
  tasks_ (UnsafeFreeTask ids st).1 = filter (λ kv, kv.1 ∉ ids) (tasks_ st).
Proof.
  revert st; induction ids as [|id ids IH]; intros st Hd Hp.
  - split; [done|]. symmetry. apply map_filter_id. intros. apply not_elem_of_nil.
  - apply NoDup_cons in Hd as [Hn Hd].
    destruct (Hp id) as [t Ht]; [by left|].
    rewrite (UnsafeFreeTask_cons _ _ _ _ Ht).
    destruct (IH (free_one id t st) Hd) as [-> ->].
    { intros id' H'. cbn. rewrite lookup_delete_ne by (by intros ->).
      apply Hp. by right. }
    split; [done|]. apply map_eq. intros k. apply option_eq. intros t'. cbn.
    rewrite !map_lookup_filter_Some, lookup_delete_Some, not_elem_of_cons. cbn.
    split; [intros [[? ?] ?] | intros (? & ? & ?)]; auto.
Qed.

Lemma task_ids_where_spec P st id :
  id ∈ task_ids_where P st ↔ ∃ t, tasks_ st !! id = Some t ∧ P t = true.
Proof.
  unfold task_ids_where. rewrite list_elem_of_fmap. split.
  - intros ([k t] & -> & [HP Hm]%list_elem_of_filter).
    exists t. by rewrite <- elem_of_map_to_list.
  - intros (t & Ht & HP). exists (id, t). split; [done|].
    apply list_elem_of_filter. by rewrite elem_of_map_to_list.
Qed.

Lemma task_ids_where_NoDup P st : NoDup (task_ids_where P st).
Proof.
  unfold task_ids_where. pose proof (NoDup_fst_map_to_list (tasks_ st)) as H.
  revert H. generalize (map_to_list (tasks_ st)). intros l.
  induction l as [|[k t] l IH]; intros H; [constructor|].
  rewrite fmap_cons in H. apply NoDup_cons in H as [Hn H]. rewrite filter_cons. cbn [snd].
  destruct (decide (P t = true)); [|by apply IH].
  rewrite fmap_cons. apply NoDup_cons. split; [|by apply IH].
  intros (kv & E & [_ Hl]%list_elem_of_filter)%list_elem_of_fmap.
  apply Hn, list_elem_of_fmap. by exists kv.
Qed.

Lemma free_where P st :
  (UnsafeFreeTask (task_ids_where P st) st).2 = true ∧
  tasks_ (UnsafeFreeTask (task_ids_where P st) st).1
    = filter (λ kv, P kv.2 = false) (tasks_ st).
Proof.
  destruct (UnsafeFreeTask_all (task_ids_where P st) st) as [-> ->].
  - apply task_ids_where_NoDup.
  - intros id (t & Ht & _)%task_ids_where_spec. eauto.
  - split; [done|]. apply map_filter_ext. intros k t Ht. cbn.
    rewrite task_ids_where_spec. destruct (P t) eqn:E; split; try done; intros H.
    + destruct H. eauto.
    + intros (t' & Ht' & E'). congruence.
Qed.

(** * Picking a servant *)

(** The pointers of a list are live and accept tasks. *)
Definition usable (h : gmap ptr Servant) (l : list ptr) : Prop :=
  ∀ p, p ∈ l → ∃ s, h !! p = Some s ∧ concurrency (servant_info s) ≠ 0 ∧
                    is_u64 (running_tasks s) ∧ 0 < concurrency (servant_info s).

Lemma double_of_u64_bound n : is_u64 n → 0 ≤ double_of_u64 n ≤ 2 ^ 64.
Proof.
  intros [H0 H1]. unfold double_of_u64.
  destruct (Z.leb_spec (Z.log2 n - 52) 0) as [He|He]; [lia|].
  set (e := Z.log2 n - 52) in *.
  assert (Hn : Z.log2 n < 64) by (apply Z.log2_lt_pow2; [|lia]; destruct (Z.eq_dec n 0) as [->|];
    [cbn in He; unfold e in He; cbn in He; lia|lia]).
  assert (Hp : 0 < 2 ^ e) by (apply Z.pow_pos_nonneg; lia).
  assert (Hq : n / 2 ^ e < 2 ^ (64 - e)).
  { apply Z.div_lt_upper_bound; [done|]. rewrite <- Z.pow_add_r by lia.
    by replace (e + (64 - e)) with 64 by lia. }
  assert (0 ≤ n / 2 ^ e) by (apply Z.div_pos; lia).
  assert (E : 2 ^ 64 = 2 ^ (64 - e) * 2 ^ e)
    by (rewrite <- Z.pow_add_r by lia; f_equal; lia).
  rewrite E. destruct (_ || _); nia.
Qed.

Lemma utilization_lt_max s :
  is_u64 (running_tasks s) → 0 < concurrency (servant_info s) → utilization s < DBL_MAX.
Proof.
  intros [H0 H1] Hc. apply (Z.le_lt_trans _ (2 ^ 64)); [|done].
  apply double_of_u64_bound. split; [by apply Z.div_pos|].
  apply Z.div_lt_upper_bound; nia.
Qed.

(** The pointer [p] of the list is one with the least utilization among those
    that pass the filter. *)
Definition least_utilized (h : gmap ptr Servant) (filt : Servant → bool) (l : list ptr)
    (p : ptr) : Prop :=
  p ∈ l ∧ servant_is h filt p = true ∧
  ∀ q s t, q ∈ l → servant_is h filt q = true → h !! p = Some s → h !! q = Some t →
  utilization s ≤ utilization t.

Lemma pick_loop_spec h filt l m r :
  usable h l →
  ∃ p, pick_loop h filt l m r = Ret p ∧
    ((p = r ∧ ∀ q s, q ∈ l → h !! q = Some s → filt s = true → m ≤ utilization s) ∨
     (least_utilized h filt l p ∧ ∀ s, h !! p = Some s → utilization s < m)).
Proof.
  revert m r; induction l as [|q l IH]; intros m r U.
  { exists r. split; [done|]. left. split; [done|]. by intros ? ? ?%elem_of_nil. }
  destruct (U q) as (s & Hs & Hc & _); [by left|].
  assert (U' : usable h l) by (intros p Hp; apply U; by right).
  cbn [pick_loop]. rewrite Hs. destruct (filt s) eqn:F; cbn [negb].
  - destruct (Z.eqb_spec (concurrency (servant_info s)) 0); [done|].
    destruct (Z.ltb_spec (utilization s) m) as [Hu|Hu].
    + destruct (IH (utilization s) q U') as (p & -> & Hp);
        exists p; (split; [done|]);
        destruct Hp as [[-> Hp]|[(Hin & Hf & Hmin) Hlt]]; right.
      * split; [|intros ? ?; simplify_eq; lia]. split_and!; [by left| |].
        { unfold servant_is. by rewrite Hs. }
        intros q' s1 t [->|Hq]%elem_of_cons Hq' H1 H2; simplify_eq; [lia|].
        eapply Hp; eauto. unfold servant_is in Hq'. by rewrite H2 in Hq'.
      * split.
        -- split_and!; [by right|done|].
           intros q' s1 t [->|Hq]%elem_of_cons Hq' H1 H2; [|by eapply Hmin].
           simplify_eq. specialize (Hlt _ H1). lia.
        -- intros s1 H1. specialize (Hlt _ H1). lia.
    + destruct (IH m r U') as (p & -> & Hp);
        exists p; (split; [done|]);
        destruct Hp as [[-> Hp]|[(Hin & Hf & Hmin) Hlt]]; [left|right].
      * split; [done|]. intros q' s1 [->|Hq]%elem_of_cons H1 H2; [|by eauto]. simplify_eq; done || congruence.
      * split; [|done]. split_and!; [by right|done|].
        intros q' s1 t [->|Hq]%elem_of_cons Hq' H1 H2; [|by eapply Hmin].
        simplify_eq. specialize (Hlt _ H1). lia.
  - destruct (IH m r U') as (p & -> & Hp);
      exists p; (split; [done|]);
      destruct Hp as [[-> Hp]|[(Hin & Hf & Hmin) Hlt]]; [left|right].
    + split; [done|]. intros q' s1 [->|Hq]%elem_of_cons H1 H2; [|by eauto]. simplify_eq; done || congruence.
    + split; [|done]. split_and!; [by right|done|].
      intros q' s1 t [->|Hq]%elem_of_cons Hq' H1 H2; [|by eapply Hmin].
      unfold servant_is in Hq'. rewrite Hs in Hq'. congruence.
Qed.

(** With servants that all fail the filter the first one is still returned. *)
Lemma UnsafePickUpServant_cases h filt l :
  usable h l →
  (l = [] ∧ UnsafePickUpServant h l filt = Ret None) ∨
  ∃ p, UnsafePickUpServant h l filt = Ret (Some p) ∧ p ∈ l ∧
    (least_utilized h filt l p ∨
     (head l = Some p ∧ ∀ q, q ∈ l → servant_is h filt q = false)).
Proof.
  intros U. destruct l as [|q l]; [by left|]. right. cbn [UnsafePickUpServant].
  destruct (pick_loop_spec h filt (q :: l) DBL_MAX q U) as (p & -> & [[-> Hp]|[Hl _]]).
  - exists q. split; [done|]. split; [by left|]. right. split; [done|].
    intros q' Hq'. destruct (U q' Hq') as (s & Hs & _ & Hr & Hc). unfold servant_is.
    rewrite Hs. destruct (filt s) eqn:F; [|done].
    pose proof (Hp q' s Hq' Hs F). pose proof (utilization_lt_max s Hr Hc). lia.
  - exists p. split; [done|]. split; [apply Hl|by left].
Qed.

(** The free servants other than the first on the requester's machine. *)
Definition others_of (h : gmap ptr Servant) (ip : string) (l : list ptr) : list ptr :=
  match list_find (λ p, servant_is h (same_ip ip) p = true) l with
  | Some (i, _) => delete i l
  | None => l
  end.

Lemma others_of_sub h ip l p : p ∈ others_of h ip l → p ∈ l.
Proof.
  unfold others_of. destruct (list_find _ l) as [[i q]|]; [|done].
  intros H. eapply elem_of_submseteq; [done|]. apply sublist_submseteq, sublist_delete.
Qed.

Lemma usable_others h ip l : usable h l → usable h (others_of h ip l).
Proof. intros U p Hp. eapply U, others_of_sub, Hp. Qed.

(** The choice among [others]: a spare dedicated servant of least utilization,
    and without one the first servant of the list. *)
Definition preferred (h : gmap ptr Servant) (others : list ptr) (p : ptr) : Prop :=
  least_utilized h is_dedicated_spare others p ∨
  (head others = Some p ∧ ∀ q, q ∈ others → servant_is h is_dedicated_spare q = false).

Lemma UnsafePickUpFreeServant_cases h l ip :
  usable h l → l ≠ [] →
  ∃ p, UnsafePickUpFreeServant h l ip = Ret (Some p) ∧ p ∈ l ∧
    ((others_of h ip l = [] ∧ l = [p] ∧ servant_is h (same_ip ip) p = true) ∨
     (p ∈ others_of h ip l ∧ preferred h (others_of h ip l) p)).
Proof.
  intros U Hl. pose proof (usable_others h ip l U) as U'.
  assert (E : UnsafePickUpFreeServant h l ip =
    (dedicated ← UnsafePickUpServant h (others_of h ip l) is_dedicated_spare;
     if dedicated is Some p then Ret (Some p)
     else other ← UnsafePickUpServant h (others_of h ip l) (λ _, true);
          if other is Some p then Ret (Some p)
          else Ret (snd <$> list_find (λ p, servant_is h (same_ip ip) p = true) l))).
  { unfold UnsafePickUpFreeServant, others_of.
    by destruct (list_find _ l) as [[i p]|]. }
  rewrite E. clear E.
  destruct (UnsafePickUpServant_cases h is_dedicated_spare _ U') as [[E1 E2]|(p & E2 & Hp & Hc)];
    rewrite E2; cbn.
  - rewrite E1. cbn. unfold others_of in E1.
    destruct (list_find _ l) as [[i p]|] eqn:F; [|done].
    apply list_find_Some in F as (F1 & F2 & _). exists p. split; [done|].
    split; [by eapply list_elem_of_lookup_2|]. left.
    assert (l = [p]) as ->; [|split; [done|split; [done|done]]].
    assert (H : length (delete i l) = 0%nat) by (by rewrite E1).
    pose proof (lookup_lt_Some _ _ _ F1). rewrite length_delete in H by eauto.
    destruct l as [|a [|b l]]; cbn in *; try lia. destruct i; [|lia].
    cbn in F1. congruence.
  - exists p. split; [done|]. split; [by eapply others_of_sub|]. by right.
Qed.

(** * Allocation *)

Definition is_eligible (st : State) (ti : TaskInfo) (p : ptr) : Prop :=
  p ∈ servants_ st ∧ servant_is (heap st) (eligible ti) p = true.
Definition is_available (st : State) (ti : TaskInfo) (p : ptr) : Prop :=
  is_eligible st ti p ∧ servant_is (heap st) (is_free (min_memory_for_new_task_ st)) p = true.

Definition candidates (st : State) (ti : TaskInfo) : list ptr :=
  UnsafeGetFreeServants st (UnsafeGetServantsHasEnv st ti).

Lemma has_env_spec st ti p : p ∈ UnsafeGetServantsHasEnv st ti ↔ is_eligible st ti p.
Proof. unfold UnsafeGetServantsHasEnv. rewrite list_elem_of_filter. unfold is_eligible. tauto. Qed.

Lemma candidates_spec st ti p : p ∈ candidates st ti ↔ is_available st ti p.
Proof.
  unfold candidates, UnsafeGetFreeServants.
  rewrite list_elem_of_filter, has_env_spec. unfold is_available. tauto.
Qed.

Lemma servant_is_true h P p : servant_is h P p = true ↔ ∃ s, h !! p = Some s ∧ P s = true.
Proof.
  unfold servant_is. destruct (h !! p) as [s|]; split; try done; eauto.
  - by intros (s' & [= <-] & H).
  - by intros (s' & ? & H).
Qed.

Lemma eligible_true ti s :
  eligible ti s = true ↔
  find_env s ti = true ∧ 0 < concurrency (servant_info s) ∧ version (servant_info s) ≤ min_version ti.
Proof.
  unfold eligible. destruct (find_env s ti); cbn; [|by split; [|intros (? & _)]].
  destruct (Z.leb_spec (concurrency (servant_info s)) 0);
    [split; [done|intros (_ & ? & _); lia]|].
  destruct (Z.ltb_spec (min_version ti) (version (servant_info s)));
    split; try done; intuition lia.
Qed.

Lemma is_free_bound m s : is_free m s = true → running_tasks s < concurrency (servant_info s).
Proof.
  unfold is_free, AvailableTasks. destruct (_ && _); rewrite negb_true_iff, Z.leb_gt; lia.
Qed.

Lemma candidates_usable n st ti : Inv0 n st → usable (heap st) (candidates st ti).
Proof.
  intros I p [[Hp He] Hf]%candidates_spec.
  apply servant_is_true in He as (s & Hs & He). exists s.
  apply eligible_true in He as (_ & Hc & _). split_and!; [done|lia| |done].
  rewrite (inv_running _ _ I _ _ Hs). apply u64_range.
Qed.

(** The servant after it took a task. *)
Definition taken (s : Servant) : Servant := {|
  servant_info := servant_info s; discovered_tp := discovered_tp s;
  servant_expires_tp := servant_expires_tp s;
  running_tasks := u64 (running_tasks s + 1);
  assigned_tasks := u64 (assigned_tasks s + 1) |}.

(** What a granted attempt is. *)
Definition grant_of (st : State) (p : ptr) (s : Servant) (ti : TaskInfo) (e now : Z)
    (prefetching : bool) (a : TaskAllocation) (st' : State) : Prop :=
  a = {| alloc_task_id := next_task_id_ st;
         alloc_servant_location := observed_location (servant_info s) |} ∧
  st' = {|
    heap := <[p := taken s]> (heap st);
    next_ptr := next_ptr st; servants_ := servants_ st;
    tasks_ := <[next_task_id_ st := {|
      task_id := next_task_id_ st; task_info := ti; servant := p; started_tp := now;
      task_expires_tp := now + ms e; is_prefetch := prefetching; is_zombie := false |}]>
      (tasks_ st);
    next_task_id_ := u64 (next_task_id_ st + 1);
    running_task_bookkeeper_ := running_task_bookkeeper_ st;
    min_memory_for_new_task_ := min_memory_for_new_task_ st |}.

Lemma fresh_id n st : Inv0 n st → n < 2 ^ 64 → tasks_ st !! next_task_id_ st = None.
Proof.
  intros I Hn. destruct (tasks_ st !! next_task_id_ st) as [t|] eqn:E; [|done].
  apply (inv_task _ _ I) in E as (_ & E & _). pose proof (inv_issued _ _ I).
  rewrite (inv_next _ _ I), u64_id in E by (split; lia). lia.
Qed.

Lemma StartTaskOn_grant n st ti e now pf p s :
  Inv0 n st → n < 2 ^ 64 → heap st !! p = Some s →
  ∃ a st', StartTaskOn st ti e now pf p = Ret (Granted a st') ∧ grant_of st p s ti e now pf a st'.
Proof.
  intros I Hn Hs. unfold StartTaskOn. rewrite Hs, (fresh_id n st I Hn).
  do 2 eexists. split; [reflexivity|]. by split.
Qed.

(** The three results of an attempt, each exactly when it should be. *)
Inductive attempt_spec (st : State) (ti : TaskInfo) (e now : Z) (pf : bool) : Attempt → Prop :=
  | attempt_no_env : (∀ p, ¬ is_eligible st ti p) → attempt_spec st ti e now pf NoEnv
  | attempt_busy p :
      is_eligible st ti p → (∀ p, ¬ is_available st ti p) → attempt_spec st ti e now pf Busy
  | attempt_granted p s a st' :
      is_available st ti p → heap st !! p = Some s →
      preferred (heap st) (others_of (heap st) (requester_ip ti) (candidates st ti)) p ∨
      candidates st ti = [p] ∧ servant_is (heap st) (same_ip (requester_ip ti)) p = true →
      grant_of st p s ti e now pf a st' → attempt_spec st ti e now pf (Granted a st').

Lemma TryStartNewTask_cases n st ti e now pf :
  Inv0 n st → n < 2 ^ 64 →
  ∃ r, TryStartNewTask st ti e now pf = Ret r ∧ attempt_spec st ti e now pf r.
Proof.
  intros I Hn. unfold TryStartNewTask. fold (candidates st ti).
  destruct (UnsafeGetServantsHasEnv st ti) as [|p0 l] eqn:E.
  { eexists. split; [done|]. constructor. intros p Hp%has_env_spec. rewrite E in Hp.
    by apply elem_of_nil in Hp. }
  destruct (candidates st ti) as [|p1 l1] eqn:F.
  { eexists. split; [done|]. apply (attempt_busy _ _ _ _ _ p0).
    - apply has_env_spec. rewrite E. by left.
    - intros p Hp%candidates_spec. rewrite F in Hp. by apply elem_of_nil in Hp. }
  rewrite <- F. pose proof (candidates_usable n st ti I) as U.
  destruct (UnsafePickUpFreeServant_cases (heap st) (candidates st ti) (requester_ip ti) U)
    as (p & -> & Hp & Hc); [by rewrite F|]. cbn.
  destruct (U p Hp) as (s & Hs & _).
  destruct (StartTaskOn_grant n st ti e now pf p s I Hn Hs) as (a & st' & -> & G).
  eexists. split; [done|].
  econstructor; [by apply candidates_spec|done| |done].
  destruct Hc as [(_ & -> & ?)|[_ ?]]; [by right|by left].
Qed.

Lemma grant_Inv n st p s ti e now pf a st' :
  Inv n st → n < 2 ^ 64 → p ∈ servants_ st → heap st !! p = Some s →
  grant_of st p s ti e now pf a st' → Inv (n + 1) st'.
Proof.
  intros [I A] Hn Hp Hs [_ ->]. pose proof (fresh_id n st I Hn) as Hf.
  pose proof (inv_issued _ _ I) as H0. pose proof (inv_next _ _ I) as Hnx.
  assert (L : ∀ q, is_Some (<[p := taken s]> (heap st) !! q) ↔ is_Some (heap st !! q)).
  { intros q. destruct (decide (p = q)) as [<-|]; [rewrite lookup_insert_eq, Hs|
      rewrite lookup_insert_ne by done]; split; eauto. }
  assert (Lk : ∀ q s', <[p := taken s]> (heap st) !! q = Some s' →
      ∃ s0, heap st !! q = Some s0 ∧ servant_info s0 = servant_info s').
  { intros q s' [[<- <-]|[_ H]]%lookup_insert_Some; eauto. }
  split.
  - split; cbn.
    + apply I.
    + intros q Hq. apply L. by apply I.
    + intros q Hq. apply I. by apply L.
    + intros q1 q2 s1 s2 Hq1 Hq2 (s1' & H1 & E1)%Lk (s2' & H2 & E2)%Lk E.
      eapply (inv_loc _ _ I); eauto. congruence.
    + intros id t [[<- <-]|[_ H]]%lookup_insert_Some; cbn.
      * rewrite Hnx, u64_id by (split; lia). split_and!; try done; try lia.
        apply L. eauto.
      * destruct (inv_task _ _ I id t H) as (? & ? & ?). split_and!; try done; try lia.
        by apply L.
    + rewrite Hnx. rewrite u64_succ. f_equal. lia.
    + lia.
    + intros q s' Hq. rewrite count_where_insert by done. unfold on_servant at 1. cbn.
      apply lookup_insert_Some in Hq as [[<- <-]|[Hne Hq]]; cbn.
      * rewrite bool_decide_true, Nat2Z.inj_add, (inv_running _ _ I _ _ Hs) by done.
        apply u64_succ.
      * rewrite bool_decide_false by done. by apply I.
  - unfold tasks_alive. cbn. intros id t [[<- <-]|[_ H]]%lookup_insert_Some; cbn; [done|].
    by eapply A.
Qed.

(** * The other operations keep the invariant *)

Lemma tasks_alive_sub st st' :
  servants_ st' = servants_ st → tasks_ st' ⊆ tasks_ st → tasks_alive st → tasks_alive st'.
Proof.
  intros Hs Ht A id t H. rewrite Hs. eapply A, lookup_weaken; eauto.
Qed.

Lemma UnsafeFreeTask_Inv n ids st : Inv n st → Inv n (UnsafeFreeTask ids st).1.
Proof.
  intros [I A]. split; [by apply UnsafeFreeTask_Inv0|].
  eapply tasks_alive_sub; [apply UnsafeFreeTask_same|apply UnsafeFreeTask_sub|done].
Qed.

(** Changing a task without moving it to another servant. *)
Lemma update_task_Inv0 n st m :
  Inv0 n st →
  (∀ p, count_where (on_servant p) m = count_where (on_servant p) (tasks_ st)) →
  (∀ id t, m !! id = Some t →
    ∃ t0, tasks_ st !! id = Some t0 ∧ task_id t = task_id t0 ∧ servant t = servant t0) →
  Inv0 n (set_tasks m st).
Proof.
  intros I C T. split; cbn; try apply I.
  - intros id t H. destruct (T id t H) as (t0 & H0 & -> & ->). by apply I.
  - intros p s Hs. rewrite C. by apply I.
Qed.

Lemma update_task_alive st m :
  tasks_alive st →
  (∀ id t, m !! id = Some t →
    ∃ t0, tasks_ st !! id = Some t0 ∧ task_id t = task_id t0 ∧ servant t = servant t0) →
  tasks_alive (set_tasks m st).
Proof. intros A T id t H. destruct (T id t H) as (t0 & H0 & _ & ->). by eapply A. Qed.

Lemma KeepTaskAlive_Inv n id e now st : Inv n st → Inv n (KeepTaskAlive id e now st).2.
Proof.
  intros [I A]. unfold KeepTaskAlive. destruct (tasks_ st !! id) as [t|] eqn:E; [|done].
  destruct (is_zombie t); [done|]. cbn.
  assert (T : ∀ id' t', <[id := with_expires (now + ms e) t]> (tasks_ st) !! id' = Some t' →
    ∃ t0, tasks_ st !! id' = Some t0 ∧ task_id t' = task_id t0 ∧ servant t' = servant t0).
  { intros id' t' [[<- <-]|[_ H]]%lookup_insert_Some; eauto. }
  split; [apply update_task_Inv0|apply update_task_alive]; try done.
  intros p. by apply (count_where_update _ _ _ t).
Qed.

Lemma at_location_spec st loc p :
  at_location st loc p = true ↔
  ∃ s, heap st !! p = Some s ∧ observed_location (servant_info s) = loc.
Proof.
  unfold at_location. rewrite servant_is_true. split; intros (s & Hs & H); exists s; split; try done.
  - by apply String.eqb_eq.
  - by apply String.eqb_eq.
Qed.

(** Refreshing a registered servant that keeps its observed location. *)
Lemma refresh_servant_Inv n st p s0 (f : Servant → Servant) :
  Inv n st → heap st !! p = Some s0 →
  observed_location (servant_info (f s0)) = observed_location (servant_info s0) →
  (∀ s, running_tasks (f s) = running_tasks s) →
  Inv n (set_heap (alter f p (heap st)) st).
Proof.
  intros [I A] Hs0 Hloc Hr.
  assert (L : ∀ q, is_Some (alter f p (heap st) !! q) ↔ is_Some (heap st !! q)).
  { intros q. destruct (decide (q = p)) as [->|];
      [rewrite lookup_alter_eq, Hs0|rewrite lookup_alter_ne by done]; split; eauto. }
  assert (K : ∀ q s', alter f p (heap st) !! q = Some s' →
    ∃ s1, heap st !! q = Some s1 ∧ running_tasks s' = running_tasks s1 ∧
      observed_location (servant_info s1) = observed_location (servant_info s')).
  { intros q s' [[-> (y & Hy & ->)]|[_ Hq]]%lookup_alter_Some; [|by eauto].
    exists y. rewrite Hs0 in Hy. injection Hy as <-. auto. }
  split; [|done]. split; cbn; try apply I.
  - intros q Hq. apply L. by apply I.
  - intros q Hq%L. by apply I.
  - intros q1 q2 s1 s2 Hq1 Hq2 (s1' & H1' & _ & E1)%K (s2' & H2' & _ & E2)%K E.
    eapply (inv_loc _ _ I); eauto. congruence.
  - intros id t Ht. destruct (inv_task _ _ I id t Ht) as (? & ? & ?).
    split_and!; try done; try lia. by apply L.
  - intros q s' (s1 & Hq & -> & _)%K. by apply I.
Qed.

(** Registering a servant at a location no registered servant has. *)
Lemma new_servant_Inv n st s :
  Inv n st → running_tasks s = 0 →
  (∀ p t, p ∈ servants_ st → heap st !! p = Some t →
    observed_location (servant_info t) ≠ observed_location (servant_info s)) →
  Inv n {| heap := <[next_ptr st := s]> (heap st); next_ptr := S (next_ptr st);
    servants_ := servants_ st ++ [next_ptr st]; tasks_ := tasks_ st;
    next_task_id_ := next_task_id_ st;
    running_task_bookkeeper_ := running_task_bookkeeper_ st;
    min_memory_for_new_task_ := min_memory_for_new_task_ st |}.
Proof.
  intros [I A] Hr Hf.
  assert (Hn : ¬ is_Some (heap st !! next_ptr st))
    by (intros H; apply (inv_heap _ _ I) in H; lia).
  assert (Hnew : next_ptr st ∉ servants_ st) by (by intros H%(inv_live _ _ I)).
  assert (L : ∀ q, is_Some (heap st !! q) → is_Some (<[next_ptr st := s]> (heap st) !! q)).
  { intros q Hq. by rewrite lookup_insert_ne by (by intros <-). }
  split; [split; cbn; try apply I|].
  - apply NoDup_app. split_and!; [apply I| |apply NoDup_singleton].
    by intros q Hq ->%list_elem_of_singleton.
  - intros q [Hq| ->%list_elem_of_singleton]%elem_of_app;
      [by apply L, I|by rewrite lookup_insert_eq; eauto].
  - intros q [s' [[<- _]|[_ Hq]]%lookup_insert_Some]; [lia|].
    pose proof (inv_heap _ _ I q ltac:(eauto)). lia.
  - intros q1 q2 s1 s2 Hq1 Hq2 H1 H2 E.
    rewrite elem_of_app, list_elem_of_singleton in Hq1, Hq2.
    apply lookup_insert_Some in H1 as [[<- <-]|[N1 H1]], H2 as [[<- <-]|[N2 H2]]; try done.
    + destruct Hq2 as [Hq2|]; [|congruence]. exfalso. by apply (Hf q2 s2 Hq2 H2).
    + destruct Hq1 as [Hq1|]; [|congruence]. exfalso. by apply (Hf q1 s1 Hq1 H1).
    + destruct Hq1 as [Hq1|], Hq2 as [Hq2|]; try congruence. by eapply (inv_loc _ _ I).
  - intros id t Ht. destruct (inv_task _ _ I id t Ht) as (? & ? & ?).
    split_and!; try done; try lia. by apply L.
  - intros q s' [[<- <-]|[_ Hq]]%lookup_insert_Some; [|by apply I].
    rewrite count_where_0; [done|]. intros id t Ht. apply bool_decide_false.
    intros E. apply Hnew. rewrite <- E. by eapply A.
  - unfold tasks_alive. cbn. intros id t Ht. apply elem_of_app. left. by eapply A.
Qed.

(** The servant registered at a location. *)
Lemma find_location_Some n st loc i p :
  Inv0 n st → list_find (λ p, at_location st loc p = true) (servants_ st) = Some (i, p) →
  p ∈ servants_ st ∧ ∃ s, heap st !! p = Some s ∧ observed_location (servant_info s) = loc.
Proof.
  intros I (F1 & F2%at_location_spec & _)%list_find_Some. split; [|done].
  by eapply list_elem_of_lookup_2.
Qed.

Lemma find_location_None st loc p s :
  list_find (λ p, at_location st loc p = true) (servants_ st) = None →
  p ∈ servants_ st → heap st !! p = Some s → observed_location (servant_info s) ≠ loc.
Proof.
  intros F%list_find_None Hp Hs E. rewrite Forall_forall in F. apply (F p Hp).
  apply at_location_spec. eauto.
Qed.

Lemma KeepServantAlive_Inv n info e now st : Inv n st → Inv n (KeepServantAlive info e now st).
Proof.
  intros I. unfold KeepServantAlive. destruct (list_find _ _) as [[i p]|] eqn:F.
  - apply (find_location_Some n) in F as (_ & s0 & Hs0 & E); [|apply I].
    by eapply refresh_servant_Inv.
  - apply new_servant_Inv; [done|done|]. intros p t Hp Ht. cbn. by eapply find_location_None.
Qed.

Lemma set_bookkeeper_Inv n b st : Inv n st → Inv n (set_bookkeeper b st).
Proof. intros [I A]. split; [|done]. split; try apply I. Qed.

Lemma Notify_Inv n loc tasks st : Inv n st → Inv n (NotifyServantRunningTasks loc tasks st).2.
Proof.
  intros I. unfold NotifyServantRunningTasks. destruct (list_find _ _) as [[i p]|]; [|done].
  cbn. apply set_bookkeeper_Inv. by apply UnsafeFreeTask_Inv.
Qed.

(** ** The expiration timer *)

Lemma remove_expired_Inv0 n now st : Inv0 n st → Inv0 n (remove_expired_servants now st).
Proof.
  intros I. split; cbn; try apply I.
  - apply NoDup_filter, I.
  - intros p [_ Hp]%list_elem_of_filter. by apply I.
  - intros p q s t [_ Hp]%list_elem_of_filter [_ Hq]%list_elem_of_filter. by apply (inv_loc _ _ I).
Qed.

Definition kept_servants (now : Z) (st : State) : list ptr :=
  servants_ (remove_expired_servants now st).

Lemma kept_servants_spec n now st p :
  Inv0 n st →
  p ∈ kept_servants now st ↔
  p ∈ servants_ st ∧ ∃ s, heap st !! p = Some s ∧ now ≤ servant_expires_tp s.
Proof.
  intros I. unfold kept_servants. cbn. rewrite list_elem_of_filter.
  unfold servant_is, expired_servant. split.
  - intros [Hf Hp]. split; [done|]. destruct (inv_live _ _ I p Hp) as [s Hs].
    rewrite Hs in Hf. exists s. split; [done|].
    destruct (Z.ltb_spec (servant_expires_tp s) now); [done|lia].
  - intros (Hp & s & Hs & Hl). rewrite Hs. split; [|done].
    by rewrite (proj2 (Z.ltb_ge _ _) Hl).
Qed.

Lemma OnTimerExpiration_eq now st :
  let P := λ t, bool_decide (servant t ∉ (list_to_set (kept_servants now st) : gset ptr)) in
  let st2 := UnsafeFreeTask (task_ids_where P (remove_expired_servants now st))
               (remove_expired_servants now st) in
  OnTimerExpiration now st = (set_tasks (mark_zombie now <$> tasks_ st2.1) st2.1, st2.2).
Proof. cbn. unfold OnTimerExpiration, kept_servants. cbn zeta. by destruct (UnsafeFreeTask _ _). Qed.

Lemma OnTimerExpiration_servants now st :
  servants_ (OnTimerExpiration now st).1 = kept_servants now st.
Proof. rewrite OnTimerExpiration_eq. exact (same_list _ _ (UnsafeFreeTask_same _ _)). Qed.

(** The tasks after the timer: those of the remaining servants, the expired ones
    marked. *)
Lemma OnTimerExpiration_tasks now st :
  tasks_ (OnTimerExpiration now st).1 =
  mark_zombie now <$> filter (λ kv, servant kv.2 ∈ kept_servants now st) (tasks_ st).
Proof.
  rewrite OnTimerExpiration_eq. cbn. rewrite (proj2 (free_where _ _)). f_equal.
  apply map_filter_ext. intros k t _. cbn.
  rewrite bool_decide_eq_false, elem_of_list_to_set. split; [apply dec_stable|tauto].
Qed.

Lemma mark_zombie_same now t :
  task_id (mark_zombie now t) = task_id t ∧ servant (mark_zombie now t) = servant t.
Proof. unfold mark_zombie. by destruct (_ <? _). Qed.

Lemma OnTimerExpiration_Inv n now st : Inv n st → Inv n (OnTimerExpiration now st).1.
Proof.
  intros [I A]. split.
  - rewrite OnTimerExpiration_eq. cbn. apply update_task_Inv0.
    + by apply UnsafeFreeTask_Inv0, remove_expired_Inv0.
    + intros p. apply count_where_fmap. intros t. unfold on_servant.
      by rewrite (proj2 (mark_zombie_same now t)).
    + intros id t. rewrite lookup_fmap_Some. intros (t0 & <- & H). exists t0.
      split; [done|]. apply mark_zombie_same.
  - intros id t. rewrite OnTimerExpiration_tasks, lookup_fmap_Some.
    intros (t0 & <- & [_ H]%map_lookup_filter_Some).
    rewrite (proj2 (mark_zombie_same now t0)), OnTimerExpiration_eq. cbn.
    by rewrite (same_list _ _ (UnsafeFreeTask_same _ _)).
Qed.

Lemma step_Inv n st st' : step st st' → Inv n st → Inv n st'.
Proof.
  intros [] I; auto using KeepTaskAlive_Inv, UnsafeFreeTask_Inv, KeepServantAlive_Inv,
    Notify_Inv, OnTimerExpiration_Inv.
  by apply UnsafeFreeTask_Inv.
Qed.

Lemma init_Inv mem : Inv 0 (TaskDispatcher_init mem).
Proof.
  split; [split; cbn|unfold tasks_alive; cbn]; try done; [constructor|..]; intros;
    repeat match goal with
    | H : _ ∈ [] |- _ => by apply elem_of_nil in H
    | H : is_Some _ |- _ => destruct H
    | H : ∅ !! _ = Some _ |- _ => by rewrite lookup_empty in H
    end.
Qed.

Lemma reachable_Inv mem n st : reachable mem n st → n < 2 ^ 64 → Inv n st.
Proof.
  induction 1 as [|n st st' _ IH Hs|n st ti e now pf a st' _ IH Hg]; intros Hn.
  - apply init_Inv.
  - eapply step_Inv; eauto.
  - assert (I : Inv n st) by (apply IH; lia).
    destruct (TryStartNewTask_cases n st ti e now pf) as (r & E & S); [apply I|lia|].
    rewrite Hg in E. injection E as <-. inversion S as [| |p s ? ? Hav Hs _ G]; subst.
    eapply grant_Inv; eauto; [lia|apply Hav].
Qed.

(** * Properties *)

(** A scenario for the witnesses: one servant with two cores, then a granted task. *)
Definition demo_env : EnviromentDesc := {| compiler_digest := "gcc" |}.
Definition demo_servant : ServantInfo := {|
  version := 1; observed_location := "10.0.0.2:80"; reported_location := "10.0.0.2:80";
  num_cpu_cores := 2; current_load := 0; total_memory_in_bytes := 0;
  avail_memory_in_bytes := 0; concurrency := 2; priority := SERVANT_PRIORITY_USER;
  env_decs := [demo_env] |}.
Definition demo_task : TaskInfo :=
  {| requester_ip := "10.0.0.9"; min_version := 1; env_desc := demo_env |}.
Definition demo0 : State := KeepServantAlive demo_servant 1000 0 (TaskDispatcher_init 0).
Definition demo1 : State :=
  match TryStartNewTask demo0 demo_task 5000 1 false with
  | Ret (Granted _ st) => st
  | _ => demo0
  end.

Lemma demo0_reachable : reachable 0 0 demo0.
Proof. eapply reachable_step; [apply reachable_init|apply step_keep_servant]. Qed.
Lemma demo1_reachable : reachable 0 1 demo1.
Proof.
  eapply (reachable_grant 0 0 demo0 demo_task 5000 1 false _ demo1);
    [apply demo0_reachable|vm_compute; reflexivity].
Qed.

Lemma size_ids (m : gmap Z Task) n :
  0 ≤ n → (∀ id t, m !! id = Some t → 0 ≤ id < n) → Z.of_nat (size m) ≤ n.
Proof.
  intros Hn H. rewrite <- (size_dom (D := gset Z)).
  assert (L : dom m ⊆ (list_to_set (seqZ 0 n) : gset Z)).
  { intros id [t Ht]%elem_of_dom. apply elem_of_list_to_set, elem_of_seqZ.
    specialize (H id t Ht). lia. }
  apply subseteq_size in L. rewrite size_list_to_set, length_seqZ in L by apply NoDup_seqZ. lia.
Qed.

Lemma count_where_le_size {K A} `{Countable K} (P : A → bool) (m : gmap K A) :
  (count_where P m ≤ size m)%nat.
Proof.
  unfold count_where. rewrite <- !(size_dom (D := gset K)). apply subseteq_size.
  apply dom_filter_subseteq.
Qed.

(** The count of a servant does not wrap. *)
Lemma running_exact n st p s :
  Inv0 n st → n < 2 ^ 64 → heap st !! p = Some s →
  running_tasks s = Z.of_nat (count_where (on_servant p) (tasks_ st)) ∧
  running_tasks s ≤ n.
Proof.
  intros I Hn Hs. rewrite (inv_running _ _ I _ _ Hs).
  pose proof (count_where_le_size (on_servant p) (tasks_ st)).
  pose proof (size_ids (tasks_ st) n (inv_issued _ _ I)) as L.
  specialize (L (λ id t Ht, proj1 (proj2 (inv_task _ _ I id t Ht)))).
  rewrite u64_id by (split; lia). lia.
Qed.

(** C1. In every reachable state of the scheduler (fewer than 2^64 task ids issued)
    registered servants are distinct and have distinct observed locations, every
    task has the id it is stored under, an id that was issued, and a registered
    servant, the next id is fresh, and [running_tasks] of every servant is exactly
    the number of its tasks (no wrap-around). *)
Theorem reachable_invariant mem n st :
  reachable mem n st → n < 2 ^ 64 →
  Inv n st ∧ tasks_ st !! next_task_id_ st = None ∧
  ∀ p s, heap st !! p = Some s →
    running_tasks s = Z.of_nat (count_where (on_servant p) (tasks_ st)).
Proof.
  intros R Hn. pose proof (reachable_Inv _ _ _ R Hn) as I.
  split; [done|]. split; [by eapply fresh_id, Hn; apply I|].
  intros p s Hs. by eapply running_exact; [apply I|..].
Qed.

Lemma reachable_invariant_witness :
  reachable 0 1 demo1 ∧ Inv 1 demo1.
Proof.
  split; [apply demo1_reachable|].
  exact (proj1 (reachable_invariant 0 1 demo1 demo1_reachable eq_refl)).
Defined.

(** C6. An allocation attempt in a reachable state never fails otherwise: it
    reports a missing environment exactly when no registered servant has the
    compiler, accepts tasks and has a version not above the [min_version] of the request (the
    test of the code, which scheduler.proto:82 suggests the other way round); it waits exactly
    when such servants exist but none is free; else it grants a fresh id on such a servant that is free,
    below its concurrency limit, and counts the task on it. *)
Theorem TryStartNewTask_spec mem n st ti e now pf :
  reachable mem n st → n < 2 ^ 64 →
  ∃ r, TryStartNewTask st ti e now pf = Ret r ∧
  match r with
  | NoEnv => ∀ p, ¬ is_eligible st ti p
  | Busy => (∃ p, is_eligible st ti p) ∧ ∀ p, ¬ is_available st ti p
  | Granted a st' =>
    ∃ p s, is_available st ti p ∧ heap st !! p = Some s ∧
      running_tasks s + 1 ≤ concurrency (servant_info s) ∧
      tasks_ st !! alloc_task_id a = None ∧
      alloc_servant_location a = observed_location (servant_info s) ∧
      grant_of st p s ti e now pf a st'
  end.
Proof.
  intros R Hn. pose proof (reachable_Inv _ _ _ R Hn) as [I _].
  destruct (TryStartNewTask_cases n st ti e now pf I Hn) as (r & E & S).
  exists r. split; [done|]. destruct S as [H|p Hp H|p s a st' Hav Hs _ G]; [done|by eauto|].
  exists p, s. split_and!; try done.
  - destruct Hav as [_ Hf]. unfold servant_is in Hf. rewrite Hs in Hf.
    apply is_free_bound in Hf. lia.
  - destruct G as [-> _]. by apply (fresh_id n).
  - by destruct G as [-> _].
Qed.

Lemma TryStartNewTask_spec_witness :
  reachable 0 0 demo0 ∧ ∃ r, TryStartNewTask demo0 demo_task 5000 1 false = Ret r.
Proof.
  split; [apply demo0_reachable|].
  destruct (TryStartNewTask_spec 0 0 demo0 demo_task 5000 1 false demo0_reachable eq_refl)
    as (r & E & _).
  by exists r.
Defined.

(** Among the free servants the requester's own machine is taken only when
    nothing else is free; else a dedicated servant with spare capacity and least
    utilization is; else the first of the other free servants, whatever its
    utilization. *)
Theorem UnsafePickUpFreeServant_spec h l ip :
  usable h l → l ≠ [] →
  ∃ p, UnsafePickUpFreeServant h l ip = Ret (Some p) ∧ p ∈ l ∧
  let others := others_of h ip l in
  (others = [] → l = [p] ∧ servant_is h (same_ip ip) p = true) ∧
  (others ≠ [] → p ∈ others ∧
    ((∃ q, q ∈ others ∧ servant_is h is_dedicated_spare q = true) →
       least_utilized h is_dedicated_spare others p) ∧
    ((∀ q, q ∈ others → servant_is h is_dedicated_spare q = false) → head others = Some p)).
Proof.
  intros U Hl. destruct (UnsafePickUpFreeServant_cases h l ip U Hl) as (p & E & Hp & Hc).
  exists p. cbv zeta.
  split; [done|]. split; [done|]. split; destruct Hc as [(H & H1 & H2)|(H & Hpr)].
  - done.
  - intros N. rewrite N in H. by apply elem_of_nil in H.
  - done.
  - intros _. split; [done|]. split.
    + intros (q & Hq & Hd). destruct Hpr as [|[_ Hn]]; [done|]. by rewrite (Hn q Hq) in Hd.
    + intros Hn. destruct Hpr as [(Hin & Hd & _)|[? _]]; [|done]. by rewrite (Hn p Hin) in Hd.
Qed.

Definition demo_heap : gmap ptr Servant :=
  {[ 0%nat := {| servant_info := demo_servant; discovered_tp := 0; servant_expires_tp := 0;
                 running_tasks := 0; assigned_tasks := 0 |} ]}.

Lemma UnsafePickUpFreeServant_spec_witness :
  ∃ p, UnsafePickUpFreeServant demo_heap [0%nat] "10.0.0.9" = Ret (Some p) ∧ p ∈ [0%nat].
Proof.
  destruct (UnsafePickUpFreeServant_spec demo_heap [0%nat] "10.0.0.9") as (p & E & Hp & _).
  - intros p ->%list_elem_of_singleton. eexists. split; [reflexivity|]. done.
  - done.
  - by exists p.
Defined.

(** [AvailableTasks] of a servant with more outside load than cores is not 0:
    the unsigned difference wraps and the servant's full concurrency counts as
    available. *)
Theorem AvailableTasks_overloaded min_memory s :
  let i := servant_info s in
  total_memory_in_bytes i = 0 ∨ min_memory ≤ avail_memory_in_bytes i →
  0 ≤ running_tasks s ≤ current_load i → current_load i < 2 ^ 63 →
  0 ≤ num_cpu_cores i < current_load i - running_tasks s →
  concurrency i < 2 ^ 63 →
  AvailableTasks min_memory s = concurrency i.
Proof.
  cbn zeta. intros Hm Hr Hl Hn Hc. unfold AvailableTasks.
  assert (negb (total_memory_in_bytes (servant_info s) =? 0) &&
    (avail_memory_in_bytes (servant_info s) <? min_memory) = false) as ->.
  { destruct Hm as [->|Hm]; [done|]. apply andb_false_iff. right. by apply Z.ltb_ge. }
  rewrite (u64_id (current_load _ - running_tasks s)) by (split; lia).
  rewrite (Z.max_l (current_load _ - _) 0) by lia. rewrite u64_neg by lia. lia.
Qed.

Lemma AvailableTasks_overloaded_witness :
  AvailableTasks 0 {| servant_info := {|
    version := 1; observed_location := ""; reported_location := ""; num_cpu_cores := 4;
    current_load := 64; total_memory_in_bytes := 0; avail_memory_in_bytes := 0;
    concurrency := 4; priority := SERVANT_PRIORITY_USER; env_decs := [] |};
    discovered_tp := 0; servant_expires_tp := 0; running_tasks := 1; assigned_tasks := 1 |} = 4.
Proof. apply AvailableTasks_overloaded; cbn; lia || (left; reflexivity). Defined.

(** The cases of a waiting call; [N] bounds the ids issued so far. *)
Definition wakes_below (mem N : Z) (wakes : list Wake) : Prop :=
  ∀ w, w ∈ wakes → ∃ n, reachable mem n (woken_state w) ∧ n < N.

Inductive wait_result (mem N : Z) (ti : TaskInfo) (e now : Z) (pf : bool) (st : State)
    (wakes : list Wake) : option (option TaskAllocation * WaitStatus * State) → Prop :=
  | wait_still :
      (∀ st' p, st' ∈ st :: (woken_state <$> wakes) → ¬ is_available st' ti p) →
      wait_result mem N ti e now pf st wakes None
  | wait_no_env st' n' :
      st' ∈ st :: (woken_state <$> wakes) → reachable mem n' st' → n' < N →
      (∀ p, ¬ is_eligible st' ti p) →
      wait_result mem N ti e now pf st wakes (Some (None, WaitStatus_EnvNotFound, st'))
  | wait_timeout w n' :
      w ∈ wakes → timed_out w = true → reachable mem n' (woken_state w) → n' < N →
      wait_result mem N ti e now pf st wakes (Some (None, WaitStatus_Timeout, woken_state w))
  | wait_ok st0 p s g st' n' :
      st0 ∈ st :: (woken_state <$> wakes) → is_available st0 ti p → heap st0 !! p = Some s →
      grant_of st0 p s ti e now pf g st' → reachable mem n' st' → n' ≤ N →
      wait_result mem N ti e now pf st wakes (Some (Some g, WaitStatus_OK, st')).

Lemma wait_result_cons mem N ti e now pf st w wakes r :
  wait_result mem N ti e now pf (woken_state w) wakes r →
  (∀ p, ¬ is_available st ti p) → wait_result mem N ti e now pf st (w :: wakes) r.
Proof.
  intros [H|st' n' H|w' n' H|st0 p s g st' n' H] Hb.
  - constructor. intros st' p [->|Hs]%elem_of_cons; [done|by apply H].
  - econstructor; eauto. by right.
  - econstructor; eauto. by right.
  - econstructor; eauto. by right.
Qed.

Lemma WaitForStartingNewTask_cases mem N n st ti e now pf wakes :
  reachable mem n st → n < N → N ≤ 2 ^ 64 → wakes_below mem N wakes →
  ∃ r, WaitForStartingNewTask st ti e now pf wakes = Ret r ∧
       wait_result mem N ti e now pf st wakes r.
Proof.
  intros R Hn HN. revert n st R Hn; induction wakes as [|w wakes IH]; intros n st R Hn W;
    pose proof (reachable_Inv _ _ _ R ltac:(lia)) as [I _];
    destruct (TryStartNewTask_cases n st ti e now pf I ltac:(lia)) as (r & E & S);
    cbn [WaitForStartingNewTask]; rewrite E; cbn [mbind outcome_bind];
    destruct S as [H|p Hp H|p s a st' Hav Hs _ G];
    try (eexists; split; [reflexivity|]; eapply wait_no_env; eauto; by left);
    try (eexists; split; [reflexivity|]; eapply wait_ok; eauto;
         [by left|by eapply reachable_grant|lia]).
  - eexists; split; [reflexivity|]. constructor.
    intros st' p' ->%list_elem_of_singleton. done.
  - destruct (W w) as (n' & R' & Hn'); [by left|]. destruct (timed_out w) eqn:T.
    + eexists; split; [reflexivity|]. eapply wait_timeout; eauto. by left.
    + destruct (IH n' (woken_state w) R' Hn') as (r & -> & Hr); [intros w' Hw; apply W; by right|].
      exists r. split; [done|]. by apply wait_result_cons.
Qed.

(** C28. A client that waits for a servant: the call never fails otherwise than by
    its two error statuses; it times out only at a wake that did, reports a missing
    environment or grants a task only from a state that justifies it, and still
    waits only while every state it saw lacked a free servant and no wait timed
    out. *)
Theorem WaitForStartingNewTask_spec mem n st ti e now pf wakes :
  reachable mem n st → n < 2 ^ 64 → wakes_below mem (2 ^ 64) wakes →
  ∃ r, WaitForStartingNewTask st ti e now pf wakes = Ret r ∧
  let seen := st :: (woken_state <$> wakes) in
  match r with
  | None => ∀ st' p, st' ∈ seen → ¬ is_available st' ti p
  | Some (a, WaitStatus_EnvNotFound, st') =>
    a = None ∧ st' ∈ seen ∧ ∀ p, ¬ is_eligible st' ti p
  | Some (a, WaitStatus_Timeout, st') =>
    a = None ∧ ∃ w, w ∈ wakes ∧ timed_out w = true ∧ st' = woken_state w
  | Some (a, WaitStatus_OK, st') =>
    ∃ g st0 p s, a = Some g ∧ st0 ∈ seen ∧ is_available st0 ti p ∧
      heap st0 !! p = Some s ∧ grant_of st0 p s ti e now pf g st'
  end.
Proof.
  intros R Hn W.
  destruct (WaitForStartingNewTask_cases mem (2 ^ 64) n st ti e now pf wakes)
    as (r & E & Hr); [done|done|lia|done|].
  exists r. split; [done|]. cbv zeta. destruct Hr; try done; eauto 10.
Qed.

Lemma WaitForStartingNewTask_spec_witness :
  ∃ r, WaitForStartingNewTask demo0 demo_task 5000 1 false
         [{| timed_out := true; woken_state := demo1 |}] = Ret r.
Proof.
  destruct (WaitForStartingNewTask_spec 0 0 demo0 demo_task 5000 1 false
    [{| timed_out := true; woken_state := demo1 |}]) as (r & E & _).
  - apply demo0_reachable.
  - reflexivity.
  - intros w ->%list_elem_of_singleton. exists 1. split; [apply demo1_reachable|reflexivity].
  - by exists r.
Defined.

(** A keep-alive succeeds exactly for a task that exists and is no zombie, and
    then only moves that task's deadline; a failed one changes nothing. *)
Theorem KeepTaskAlive_spec id e now st :
  let '(ok, st') := KeepTaskAlive id e now st in
  (ok = true ↔ ∃ t, tasks_ st !! id = Some t ∧ is_zombie t = false) ∧
  (ok = false → st' = st) ∧
  servants_ st' = servants_ st ∧ heap st' = heap st ∧
  (∀ id', id' ≠ id → tasks_ st' !! id' = tasks_ st !! id') ∧
  (ok = true → tasks_ st' !! id = with_expires (now + ms e) <$> tasks_ st !! id).
Proof.
  unfold KeepTaskAlive. destruct (tasks_ st !! id) as [t|] eqn:E.
  - destruct (is_zombie t) eqn:Z; cbn.
    + split_and!; try done. split; [done|]. intros (t' & [= <-] & ?). congruence.
    + split_and!; try done; [by split; eauto| |].
      * intros id' Hne. by rewrite lookup_insert_ne.
      * by rewrite lookup_insert_eq.
  - split_and!; try done. split; [done|]. by intros (t' & [=] & _).
Qed.

(** Freeing a known task removes exactly it, takes it off its servant's count
    and wakes the waiting clients; freeing an unknown one changes nothing and wakes
    nobody. *)
Theorem FreeTask_spec mem n st id :
  reachable mem n st → n < 2 ^ 64 →
  match tasks_ st !! id with
  | None => FreeTask id st = (st, false)
  | Some t =>
    let '(st', notified) := FreeTask id st in
    notified = true ∧ tasks_ st' = delete id (tasks_ st) ∧ same_servants st st' ∧
    (∃ s s', heap st !! servant t = Some s ∧ heap st' !! servant t = Some s' ∧
       0 < running_tasks s ∧ running_tasks s' = running_tasks s - 1) ∧
    (∀ p, p ≠ servant t → heap st' !! p = heap st !! p)
  end.
Proof.
  intros R Hn. pose proof (reachable_Inv _ _ _ R Hn) as [I A].
  unfold FreeTask. cbn [UnsafeFreeTask]. destruct (tasks_ st !! id) as [t|] eqn:E; [|done].
  fold (free_one id t st). split; [done|]. split; [done|]. split; [apply free_one_same|].
  split; [|intros p Hp; cbn; by rewrite lookup_alter_ne].
  destruct (inv_task _ _ I _ _ E) as (_ & _ & s & Hs).
  exists s, (with_running (u64 (running_tasks s - 1)) s). split; [done|].
  split; [cbn; by rewrite lookup_alter_eq, Hs|]. cbn.
  assert (P : (0 < count_where (on_servant (servant t)) (tasks_ st))%nat)
    by (eapply count_where_pos; [done|]; by apply bool_decide_true).
  destruct (running_exact n st _ s I Hn Hs) as [E' Hle].
  split; [lia|]. apply u64_id. split; lia.
Qed.

Lemma FreeTask_spec_witness : tasks_ (FreeTask 0 demo1).1 = ∅ ∧ (FreeTask 0 demo1).2 = true.
Proof.
  pose proof (FreeTask_spec 0 1 demo1 0 demo1_reachable eq_refl) as H.
  vm_compute in H. destruct H as (_ & E & _). split; [exact E|vm_compute; reflexivity].
Defined.

(** A servant's keep-alive registers it when no registered servant has its
    observed location, with no task; else it refreshes that servant's information
    and deadline and keeps its counts.  The tasks do not change. *)
Theorem KeepServantAlive_spec mem n st info e now :
  reachable mem n st → n < 2 ^ 64 →
  let st' := KeepServantAlive info e now st in
  tasks_ st' = tasks_ st ∧
  ∃ p s', p ∈ servants_ st' ∧ heap st' !! p = Some s' ∧
    servant_info s' = info ∧ servant_expires_tp s' = now + ms e ∧
    (∀ q, q ≠ p → heap st' !! q = heap st !! q) ∧
    ((∃ s, p ∈ servants_ st ∧ servants_ st' = servants_ st ∧ heap st !! p = Some s ∧
        observed_location (servant_info s) = observed_location info ∧
        running_tasks s' = running_tasks s ∧ assigned_tasks s' = assigned_tasks s) ∨
     (servants_ st' = servants_ st ++ [p] ∧ running_tasks s' = 0 ∧
      ∀ q s, q ∈ servants_ st → heap st !! q = Some s →
        observed_location (servant_info s) ≠ observed_location info)).
Proof.
  intros R Hn. pose proof (reachable_Inv _ _ _ R Hn) as [I _].
  cbv zeta. unfold KeepServantAlive. destruct (list_find _ _) as [[i p]|] eqn:F.
  - apply (find_location_Some n) in F as (Hp & s & Hs & E); [|done].
    split; [done|]. cbn. exists p. eexists. split; [done|].
    split; [by rewrite lookup_alter_eq, Hs|]. cbn. split_and!; try done.
    + intros q Hq. by rewrite lookup_alter_ne.
    + left. by exists s.
  - split; [done|]. cbn. exists (next_ptr st). eexists.
    split; [apply elem_of_app; right; by left|].
    split; [by rewrite lookup_insert_eq|]. cbn. split_and!; try done.
    + intros q Hq. by rewrite lookup_insert_ne.
    + right. split_and!; try done. intros q s Hq Hs. by eapply find_location_None.
Qed.

Lemma KeepServantAlive_spec_witness :
  tasks_ (KeepServantAlive demo_servant 1000 5 demo1) = tasks_ demo1.
Proof.
  exact (proj1 (KeepServantAlive_spec 0 1 demo1 demo_servant 1000 5 demo1_reachable eq_refl)).
Defined.

(** The expiration timer removes exactly the servants whose deadline passed
    and frees exactly their tasks; the tasks of the other servants all stay, and
    become zombies once their own deadline passed.  The waiting clients are always
    woken. *)
Theorem OnTimerExpiration_spec mem n st now :
  reachable mem n st → n < 2 ^ 64 →
  let '(st', notified) := OnTimerExpiration now st in
  notified = true ∧
  (∀ p, p ∈ servants_ st' ↔
     p ∈ servants_ st ∧ ∃ s, heap st !! p = Some s ∧ now ≤ servant_expires_tp s) ∧
  (∀ id t', tasks_ st' !! id = Some t' ↔
     ∃ t, tasks_ st !! id = Some t ∧ servant t ∈ servants_ st' ∧
          t' = if task_expires_tp t <? now then mark_zombie now t else t) ∧
  Inv n st'.
Proof.
  intros R Hn. pose proof (reachable_Inv _ _ _ R Hn) as [I A].
  pose proof (λ p, kept_servants_spec n now st p I) as K.
  pose proof (OnTimerExpiration_tasks now st) as T.
  pose proof (OnTimerExpiration_Inv n now st (conj I A)) as I'.
  pose proof (OnTimerExpiration_servants now st) as Sv.
  assert (N : (OnTimerExpiration now st).2 = true)
    by (rewrite OnTimerExpiration_eq; apply free_where).
  destruct (OnTimerExpiration now st) as [st' notified]. cbn in *.
  split_and!; [done|by rewrite Sv| |done].
  intros id t'. rewrite T, Sv, lookup_fmap_Some. split.
  - intros (t & <- & [Ht Hk]%map_lookup_filter_Some). exists t. split_and!; try done.
    unfold mark_zombie. by destruct (_ <? _).
  - intros (t & Ht & Hk & ->). exists t. split; [|by apply map_lookup_filter_Some].
    unfold mark_zombie. by destruct (_ <? _).
Qed.

Lemma OnTimerExpiration_spec_witness :
  Inv 1 (OnTimerExpiration (secs 10) demo1).1.
Proof.
  pose proof (OnTimerExpiration_spec 0 1 demo1 (secs 10) demo1_reachable eq_refl) as H.
  destruct (OnTimerExpiration (secs 10) demo1) as [st' b]. exact (proj2 (proj2 (proj2 H))).
Defined.

(** A task the servant may run. *)
Definition permitted (st : State) (p : ptr) (id : Z) : Prop :=
  ∃ t, tasks_ st !! id = Some t ∧ servant t = p ∧ is_zombie t = false.

Lemma permitted_task_ids_spec st p id : id ∈ permitted_task_ids st p ↔ permitted st p id.
Proof.
  unfold permitted_task_ids, permitted. rewrite elem_of_list_to_set, task_ids_where_spec.
  split; intros (t & Ht & H); exists t; (split; [done|]).
  - apply andb_true_iff in H as [H1 H2]. split; [by apply bool_decide_eq_true in H1|].
    by apply negb_true_iff.
  - destruct H as [-> ->]. by rewrite bool_decide_true.
Qed.

(** Clearing a servant's zombies removes those that are not reported. *)
Lemma UnsafeClearZombies_tasks n st p (reported : gset Z) id t :
  Inv0 n st →
  tasks_ (UnsafeClearZombies p reported st).1 !! id = Some t ↔
  tasks_ st !! id = Some t ∧ ¬ (servant t = p ∧ is_zombie t = true ∧ id ∉ reported).
Proof.
  intros I. unfold UnsafeClearZombies.
  rewrite (proj2 (free_where _ _)), map_lookup_filter_Some. cbn.
  split; intros [Ht H]; (split; [done|]); destruct (inv_task _ _ I id t Ht) as (E & _);
    rewrite E in *.
  - intros (H1 & H2 & H3).
    by rewrite (bool_decide_true _ H1), H2, (bool_decide_true _ H3) in H.
  - apply not_true_iff_false. intros H'. apply H.
    rewrite !andb_true_iff, !bool_decide_eq_true in H'. tauto.
Qed.

Lemma UnsafeClearZombies_permitted n st p (reported : gset Z) id :
  Inv0 n st → permitted (UnsafeClearZombies p reported st).1 p id ↔ permitted st p id.
Proof.
  intros I. unfold permitted. split; intros (t & Ht & H1 & H2); exists t; (split; [|done]).
  - by apply (UnsafeClearZombies_tasks n) in Ht as [? _].
  - apply (UnsafeClearZombies_tasks n); [done|]. split; [done|].
    intros (_ & ? & _). congruence.
Qed.

(** A servant's report of its running tasks: a servant that is not registered
    gets all of them back as unknown; for a registered one the unknown tasks are
    exactly the reported ones that it holds no live grant for, exactly its zombies
    that it no longer runs are freed, and the rest of its report is booked. *)
Theorem NotifyServantRunningTasks_spec mem n st loc tasks :
  reachable mem n st → n < 2 ^ 64 →
  let '(unknown, st') := NotifyServantRunningTasks loc tasks st in
  let reported := task_grant_id <$> tasks in
  ((∀ p s, p ∈ servants_ st → heap st !! p = Some s →
      observed_location (servant_info s) ≠ loc) ∧ unknown = reported ∧ st' = st) ∨
  ∃ p s, p ∈ servants_ st ∧ heap st !! p = Some s ∧
    observed_location (servant_info s) = loc ∧
    (∀ id, id ∈ unknown ↔ id ∈ reported ∧ ¬ permitted st p id) ∧
    (∀ id t, tasks_ st' !! id = Some t ↔ tasks_ st !! id = Some t ∧
       ¬ (servant t = p ∧ is_zombie t = true ∧ id ∉ reported)) ∧
    ∃ booked, running_tasks_ (running_task_bookkeeper_ st') =
        <[loc := booked]> (running_tasks_ (running_task_bookkeeper_ st)) ∧
      ∀ t, t ∈ booked ↔ t ∈ tasks ∧ permitted st p (task_grant_id t).
Proof.
  intros R Hn. pose proof (reachable_Inv _ _ _ R Hn) as [I A].
  unfold NotifyServantRunningTasks. destruct (list_find _ _) as [[i p]|] eqn:F.
  2: { left. split_and!; try done. intros p s Hp Hs. by eapply find_location_None. }
  apply (find_location_Some n) in F as (Hp & s & Hs & E); [|done].
  right. exists p, s. cbn [fst snd].
  assert (P : ∀ id, id ∈ permitted_task_ids (UnsafeClearZombies p
     (list_to_set (task_grant_id <$> tasks)) st).1 p ↔ permitted st p id).
  { intros id. rewrite permitted_task_ids_spec. by eapply UnsafeClearZombies_permitted. }
  split_and!; [done..| | |].
  - intros id. rewrite list_elem_of_filter, P. tauto.
  - intros id t. cbn. rewrite (UnsafeClearZombies_tasks n) by done.
    by rewrite elem_of_list_to_set.
  - cbn. eexists. split.
    + rewrite insert_delete_eq. do 2 f_equal.
      exact (same_books _ _ (UnsafeFreeTask_same _ _)).
    + intros t. rewrite list_elem_of_filter, P. tauto.
Qed.

Lemma NotifyServantRunningTasks_spec_witness :
  7 ∈ (NotifyServantRunningTasks "10.0.0.2:80"
    [{| servant_task_id := 1; task_grant_id := 7; servant_location := ""; task_digest := "" |}]
    demo1).1.
Proof.
  pose proof (NotifyServantRunningTasks_spec 0 1 demo1 "10.0.0.2:80"
    [{| servant_task_id := 1; task_grant_id := 7; servant_location := ""; task_digest := "" |}]
    demo1_reachable eq_refl) as H.
  destruct (NotifyServantRunningTasks _ _ _) as [u st'].
  destruct H as [[H _]|(p & s & _ & _ & _ & H & _)].
  - exfalso. eapply (H 0%nat); [vm_compute; by left|vm_compute; reflexivity|reflexivity].
  - apply H. split; [by left|]. intros (t & Ht & _). vm_compute in Ht. discriminate.
Defined.
