(* ===== verification/SchedSpec.v ===== *)
(** What the scheduler promises, and that the task dispatcher keeps it.

    [Spec] is the scheduler without its pointers and counters: the machines that can compile
    by location, the grants by id, how many were issued, and what the machines report.  Its
    operations are on maps; the load of a machine is the number of its grants, and what a
    machine can take is plain arithmetic.  [astep] is its transition system, labelled with
    the requests and their answers.

    [lstep] labels the operations of SchedDispatch in the same way.  [abs] is the abstraction
    function, and [dispatcher_refines] says that every run of the dispatcher is one of the
    specification, with the same labels.  What the labels of the dispatcher have in common is
    then a theorem about the specification: [granted_machines] and [abandoned_grants]. *)
From S2P Require Import Prelude Text Proto Bookkeeper SchedDispatch SchedFacts.

(** * Labels *)

Inductive Label :=
  | L_grant (ti : TaskInfo) (expires_in now : Z) (prefetching : bool) (a : TaskAllocation)
  | L_no_env (ti : TaskInfo)
  | L_busy (ti : TaskInfo)
  | L_keep_task (id expire_time now : Z) (ok : bool)
  | L_free (id : Z)
  | L_keep_servant (info : ServantInfo) (expire_time now : Z)
  | L_notify (loc : string) (tasks : list RunningTask) (unknown : list Z)
  | L_timer (now : Z)
  | L_running (tasks : list RunningTask).

Section runs.
Context {S L : Type} (step : S → L → S → Prop).

(** A run and the labels it shows. *)
Inductive run (s0 : S) : list L → S → Prop :=
  | run_nil : run s0 [] s0
  | run_snoc t s l s' : run s0 t s → step s l s' → run s0 (t ++ [l]) s'.

Lemma run_app s0 t s t' s' : run s0 t s → run s t' s' → run s0 (t ++ t') s'.
Proof.
  intros H. induction 1 as [|t' s' l s'' _ IH Hs]; [by rewrite app_nil_r|].
  rewrite app_assoc. by eapply run_snoc.
Qed.

Lemma run_app_inv s0 t t' s' : run s0 (t ++ t') s' → ∃ s, run s0 t s ∧ run s t' s'.
Proof.
  revert s'; induction t' as [|l t' IH] using rev_ind; intros s' H.
  { exists s'. rewrite app_nil_r in H. split; [done|constructor]. }
  inversion H as [E|t0 s1 l0 s2 H1 H2 E]; subst.
  - by destruct t, t'.
  - rewrite app_assoc in E. apply app_inj_tail in E as [-> ->].
    destruct (IH _ H1) as (s & R1 & R2). exists s. split; [done|]. by eapply run_snoc.
Qed.

Lemma run_single s l s' : run s [l] s' → step s l s'.
Proof.
  intros H. inversion H as [|t s1 l0 s2 H1 H2 E]; subst.
  assert (t = [] ∧ l0 = l) as [-> ->].
  { change [l] with (@nil L ++ [l]) in E. by apply app_inj_tail in E. }
  inversion H1 as [|t0 ? ? ? ? ? E']; subst; [done|]. by destruct t0.
Qed.

(** What every step keeps holds at the end. *)
Lemma run_keeps (P : S → Prop) (ok : L → Prop) s0 t s :
  run s0 t s → (∀ s l s', P s → step s l s' → ok l → P s') → Forall ok t → P s0 → P s.
Proof.
  intros H Hk. induction H as [|t s l s' _ IH Hs]; intros Hok H0; [done|].
  apply Forall_app in Hok as [Hok Hl]. inversion Hl; subst. eauto.
Qed.
End runs.

(** * The specification *)

Record Node := { node_info : ServantInfo; node_expires : Z }.

Record Grant := {
  g_location : string;
  g_info : TaskInfo;
  g_started : Z;
  g_expires : Z;
  g_prefetch : bool;
  g_zombie : bool
}.

Record Spec := {
  nodes : gmap string Node;
  grants : gmap Z Grant;
  issued : Z;
  reports : gmap string (list RunningTask)
}.

Definition Spec_init : Spec := {| nodes := ∅; grants := ∅; issued := 0; reports := ∅ |}.

Definition at_node (loc : string) (g : Grant) : bool := String.eqb (g_location g) loc.
Definition load (a : Spec) (loc : string) : Z := Z.of_nat (count_where (at_node loc) (grants a)).

(** The machine has the compiler, accepts tasks, and its version is not above the
    [min_version] of the request: task_dispatcher.cpp:95 passes over the machines that are
    newer.  scheduler.proto:82 calls the field the minimum version of the daemon. *)
Definition suits (ti : TaskInfo) (i : ServantInfo) : Prop :=
  env_desc ti ∈ env_decs i ∧ 0 < concurrency i ∧ version i ≤ min_version ti.

(** Free memory, free concurrency, and cores that no other program uses.  The last
    disjunct is the overload that the dispatcher takes for idleness. *)
Definition has_room (mem : Z) (i : ServantInfo) (n : Z) : Prop :=
  (total_memory_in_bytes i = 0 ∨ mem ≤ avail_memory_in_bytes i) ∧ n < concurrency i ∧
  (current_load i < num_cpu_cores i ∨ num_cpu_cores i + n < current_load i).

Section spec.
Context (mem : Z).

Definition suitable (a : Spec) (ti : TaskInfo) (loc : string) : Prop :=
  ∃ nd, nodes a !! loc = Some nd ∧ suits ti (node_info nd).
Definition available (a : Spec) (ti : TaskInfo) (loc : string) : Prop :=
  ∃ nd, nodes a !! loc = Some nd ∧ suits ti (node_info nd) ∧
        has_room mem (node_info nd) (load a loc).

(** The location is a port of the machine. *)
Definition on_machine (ip loc : string) : Prop := ∃ port, loc = ip +:+ ":" +:+ port.

Definition spare (a : Spec) (loc : string) : Prop :=
  ∃ nd, nodes a !! loc = Some nd ∧ priority (node_info nd) = SERVANT_PRIORITY_DEDICATED ∧
        2 * load a loc < concurrency (node_info nd).

(** Among the available locations: the requester's own machine is the last choice, and a
    dedicated one that is less than half loaded the first.  doc/scheduler.md says that the
    machine of the requester is looked for first. *)
Definition preferable (a : Spec) (ti : TaskInfo) (loc : string) : Prop :=
  (on_machine (requester_ip ti) loc → ∀ loc', available a ti loc' → loc' ≠ loc →
    ∃ loc'', loc'' ≠ loc ∧ available a ti loc'' ∧ on_machine (requester_ip ti) loc'') ∧
  (∀ loc', available a ti loc' → ¬ on_machine (requester_ip ti) loc' → spare a loc' →
    spare a loc).

Definition issue (ti : TaskInfo) (expires_in now : Z) (prefetching : bool) (loc : string)
    (a : Spec) : Spec := {|
  nodes := nodes a;
  grants := <[issued a := {| g_location := loc; g_info := ti; g_started := now;
                             g_expires := now + ms expires_in; g_prefetch := prefetching;
                             g_zombie := false |}]> (grants a);
  issued := issued a + 1;
  reports := reports a |}.

Definition set_grants (gs : gmap Z Grant) (a : Spec) : Spec :=
  {| nodes := nodes a; grants := gs; issued := issued a; reports := reports a |}.

Definition prolong (tp : Z) (g : Grant) : Grant :=
  {| g_location := g_location g; g_info := g_info g; g_started := g_started g;
     g_expires := tp; g_prefetch := g_prefetch g; g_zombie := g_zombie g |}.

Definition keep_task (id expire_time now : Z) (a : Spec) : bool * Spec :=
  match grants a !! id with
  | Some g =>
    if g_zombie g then (false, a)
    else (true, set_grants (<[id := prolong (now + ms expire_time) g]> (grants a)) a)
  | None => (false, a)
  end.

Definition free (id : Z) (a : Spec) : Spec := set_grants (delete id (grants a)) a.

Definition keep_node (info : ServantInfo) (expire_time now : Z) (a : Spec) : Spec :=
  {| nodes := <[observed_location info :=
                  {| node_info := info; node_expires := now + ms expire_time |}]> (nodes a);
     grants := grants a; issued := issued a; reports := reports a |}.

Definition live_at (a : Spec) (loc : string) (id : Z) : Prop :=
  if grants a !! id is Some g then g_location g = loc ∧ g_zombie g = false else False.
#[export] Instance live_at_dec a loc id : Decision (live_at a loc id).
Proof. unfold live_at. destruct (grants a !! id); apply _. Defined.

Definition notify (loc : string) (tasks : list RunningTask) (a : Spec) : list Z * Spec :=
  let reported := task_grant_id <$> tasks in
  match nodes a !! loc with
  | None => (reported, a)
  | Some _ =>
    (filter (λ id, ¬ live_at a loc id) reported,
     {| nodes := nodes a;
        grants := filter (λ kv, ¬ (g_location kv.2 = loc ∧ g_zombie kv.2 = true ∧
                                   kv.1 ∉ reported)) (grants a);
        issued := issued a;
        reports := <[loc := filter (λ t, live_at a loc (task_grant_id t)) tasks]> (reports a) |})
  end.

Definition expire (now : Z) (g : Grant) : Grant :=
  if g_expires g <? now
  then {| g_location := g_location g; g_info := g_info g; g_started := g_started g;
          g_expires := g_expires g; g_prefetch := g_prefetch g; g_zombie := true |}
  else g.

Definition tick (now : Z) (a : Spec) : Spec :=
  let alive := filter (λ kv, now ≤ node_expires kv.2) (nodes a) in
  {| nodes := alive;
     grants := expire now <$> filter (λ kv, is_Some (alive !! g_location kv.2)) (grants a);
     issued := issued a;
     reports := filter (λ kv, is_Some (alive !! kv.1)) (reports a) |}.

Inductive astep (a : Spec) : Label → Spec → Prop :=
  | a_grant ti e now pf loc :
      available a ti loc → preferable a ti loc →
      astep a (L_grant ti e now pf {| alloc_task_id := issued a; alloc_servant_location := loc |})
        (issue ti e now pf loc a)
  | a_no_env ti : (∀ loc, ¬ suitable a ti loc) → astep a (L_no_env ti) a
  | a_busy ti loc :
      suitable a ti loc → (∀ loc, ¬ available a ti loc) → astep a (L_busy ti) a
  | a_keep_task id e now ok a' :
      keep_task id e now a = (ok, a') → astep a (L_keep_task id e now ok) a'
  | a_free id : astep a (L_free id) (free id a)
  | a_keep_servant info e now : astep a (L_keep_servant info e now) (keep_node info e now a)
  | a_notify loc tasks unknown a' :
      notify loc tasks a = (unknown, a') → astep a (L_notify loc tasks unknown) a'
  | a_timer now : astep a (L_timer now) (tick now a)
  | a_running tasks :
      (∀ t, t ∈ tasks ↔ ∃ loc ts, reports a !! loc = Some ts ∧ t ∈ ts) →
      astep a (L_running tasks) a.
End spec.

(** * The dispatcher, labelled *)

(** The numbers of a machine are 32-bit ones of the heart beat. *)
Record info_typed (i : ServantInfo) : Prop := {
  typed_cores : 0 ≤ num_cpu_cores i < 2 ^ 32;
  typed_load : 0 ≤ current_load i < 2 ^ 32;
  typed_concurrency : 0 ≤ concurrency i < 2 ^ 32
}.

Inductive lstep (st : State) : Label → State → Prop :=
  | l_grant ti e now pf a st' :
      TryStartNewTask st ti e now pf = Ret (Granted a st') → lstep st (L_grant ti e now pf a) st'
  | l_no_env ti e now pf :
      TryStartNewTask st ti e now pf = Ret NoEnv → lstep st (L_no_env ti) st
  | l_busy ti e now pf :
      TryStartNewTask st ti e now pf = Ret Busy → lstep st (L_busy ti) st
  | l_keep_task id e now ok st' :
      KeepTaskAlive id e now st = (ok, st') → lstep st (L_keep_task id e now ok) st'
  | l_free id : lstep st (L_free id) (FreeTask id st).1
  | l_keep_servant info e now :
      info_typed info → lstep st (L_keep_servant info e now) (KeepServantAlive info e now st)
  | l_notify loc tasks unknown st' :
      NotifyServantRunningTasks loc tasks st = (unknown, st') →
      lstep st (L_notify loc tasks unknown) st'
  | l_timer now : lstep st (L_timer now) (OnTimerExpiration now st).1
  | l_running : lstep st (L_running (GetRunningTasks st)) st.

(** The number of ids that a run issues. *)
Definition is_grant (l : Label) : bool := if l is L_grant _ _ _ _ _ then true else false.
Definition grants_of (t : list Label) : Z := Z.of_nat (length (List.filter is_grant t)).

(** * The abstraction *)

Definition node_of (s : Servant) : Node :=
  {| node_info := servant_info s; node_expires := servant_expires_tp s |}.
Definition entry (h : gmap ptr Servant) (p : ptr) : option (string * Node) :=
  s ← h !! p; Some (observed_location (servant_info s), node_of s).
Definition location (h : gmap ptr Servant) (p : ptr) : option string :=
  (λ s, observed_location (servant_info s)) <$> h !! p.
Definition grant_at (loc : string) (t : Task) : Grant := {|
  g_location := loc; g_info := task_info t;
  g_started := started_tp t; g_expires := task_expires_tp t; g_prefetch := is_prefetch t;
  g_zombie := is_zombie t |}.

Definition abs (n : Z) (st : State) : Spec := {|
  nodes := list_to_map (omap (entry (heap st)) (servants_ st));
  grants := omap (λ t, (λ loc, grant_at loc t) <$> location (heap st) (servant t)) (tasks_ st);
  issued := n;
  reports := running_tasks_ (running_task_bookkeeper_ st) |}.

(** What the simulation needs beyond the invariant of the dispatcher. *)
Record Sim (n : Z) (st : State) : Prop := {
  sim_inv : Inv n st;
  sim_typed p s : heap st !! p = Some s → info_typed (servant_info s);
  sim_reports loc : is_Some (reports (abs n st) !! loc) → is_Some (nodes (abs n st) !! loc)
}.

(** ** Lookups *)

Lemma nodes_abs n st loc nd :
  Inv0 n st →
  nodes (abs n st) !! loc = Some nd ↔
  ∃ p s, p ∈ servants_ st ∧ heap st !! p = Some s ∧
         observed_location (servant_info s) = loc ∧ nd = node_of s.
Proof.
  intros I.
  assert (E : ∀ nd, (loc, nd) ∈ omap (entry (heap st)) (servants_ st) ↔
    ∃ p s, p ∈ servants_ st ∧ heap st !! p = Some s ∧
           observed_location (servant_info s) = loc ∧ nd = node_of s).
  { intros nd'. rewrite list_elem_of_omap. unfold entry. split.
    - intros (p & Hp & (s & Hs & [= <- <-])%bind_Some). eauto 6.
    - intros (p & s & Hp & Hs & <- & ->). exists p. split; [done|]. by rewrite Hs. }
  rewrite <- E. split; [apply elem_of_list_to_map_2|].
  intros H. apply elem_of_list_to_map_1'; [|done].
  intros nd' (q & t & Hq & Ht & <- & ->)%E. apply E in H as (p & s & Hp & Hs & El & ->).
  rewrite (inv_loc _ _ I p q s t) in Hs by done. by simplify_eq.
Qed.

Lemma nodes_abs_at n st p s :
  Inv0 n st → p ∈ servants_ st → heap st !! p = Some s →
  nodes (abs n st) !! observed_location (servant_info s) = Some (node_of s).
Proof. intros I Hp Hs. apply nodes_abs; [done|]. by exists p, s. Qed.

Lemma location_Some h p loc :
  location h p = Some loc ↔ ∃ s, h !! p = Some s ∧ observed_location (servant_info s) = loc.
Proof.
  unfold location. rewrite fmap_Some. by split; intros (s & Hs & E); exists s.
Qed.

Lemma task_location n st id t :
  Inv0 n st → tasks_ st !! id = Some t → ∃ loc, location (heap st) (servant t) = Some loc.
Proof.
  intros I Ht. destruct (inv_task _ _ I _ _ Ht) as (_ & _ & s & Hs). exists
    (observed_location (servant_info s)). apply location_Some. by exists s.
Qed.

Lemma grants_abs n st id g :
  grants (abs n st) !! id = Some g ↔
  ∃ t loc, tasks_ st !! id = Some t ∧ location (heap st) (servant t) = Some loc ∧
           g = grant_at loc t.
Proof.
  cbn. rewrite lookup_omap_Some. split.
  - intros (t & (loc & Hl & ->)%fmap_Some & Ht). eauto.
  - intros (t & loc & Ht & Hl & ->). exists t. by rewrite Hl.
Qed.

Lemma grants_abs_at n st id t loc :
  tasks_ st !! id = Some t → location (heap st) (servant t) = Some loc →
  grants (abs n st) !! id = Some (grant_at loc t).
Proof. intros Ht Hl. apply grants_abs. by exists t, loc. Qed.

Lemma grants_abs_None n st id :
  Inv0 n st → grants (abs n st) !! id = None ↔ tasks_ st !! id = None.
Proof.
  intros I. destruct (tasks_ st !! id) as [t|] eqn:E.
  - destruct (task_location n st id t I E) as [loc Hl]. by rewrite (grants_abs_at n st id t loc).
  - cbn. by rewrite lookup_omap, E.
Qed.

(** The machines depend on the registered servants' information and deadlines, the grants on
    the tasks and their servants' locations. *)
Lemma nodes_ext n n' st st' :
  servants_ st' = servants_ st →
  (∀ p, p ∈ servants_ st → entry (heap st') p = entry (heap st) p) →
  nodes (abs n' st') = nodes (abs n st).
Proof.
  intros Hs He. cbn. rewrite Hs. f_equal. clear Hs.
  induction (servants_ st) as [|p l IH]; [done|]. cbn. rewrite He by (by left).
  rewrite IH; [done|]. intros q Hq. apply He. by right.
Qed.

Lemma grants_ext n n' st st' :
  tasks_ st' = tasks_ st →
  (∀ id t, tasks_ st !! id = Some t →
     location (heap st') (servant t) = location (heap st) (servant t)) →
  grants (abs n' st') = grants (abs n st).
Proof.
  intros Ht Hl. apply map_eq. intros id. apply option_eq. intros g.
  rewrite !grants_abs, Ht. split; intros (t & loc & H & L & ->); exists t, loc;
    (split; [done|]); (split; [|done]); [by rewrite <- Hl with id t|by rewrite Hl with id t].
Qed.

Lemma location_entry h h' p : entry h' p = entry h p → location h' p = location h p.
Proof.
  unfold entry, location. destruct (h !! p) as [s|], (h' !! p) as [s'|]; cbn; try done.
  intros [=]. by f_equal.
Qed.

Lemma entry_same st st' p : same_servants st st' → entry (heap st') p = entry (heap st) p.
Proof.
  intros S. unfold entry. destruct (heap st' !! p) as [s'|] eqn:E.
  - apply (same_heap_lookup _ _ _ _ S) in E as (s & -> & Ei & _ & Ee & _). cbn.
    unfold node_of. by rewrite Ei, Ee.
  - destruct (heap st !! p) as [s|] eqn:E'; [|done]. exfalso.
    assert (H : is_Some (heap st' !! p)) by (apply (same_heap_is_Some _ _ p S); eauto).
    rewrite E in H. by destruct H.
Qed.

(** ** Reading the arithmetic *)

Lemma get_app a b : String.get (String.length a) (a +:+ b) = String.get 0 b.
Proof. by induction a. Qed.

Lemma same_ip_spec ip s :
  same_ip ip s = true ↔ on_machine ip (observed_location (servant_info s)).
Proof.
  unfold same_ip, on_machine. set (loc := observed_location (servant_info s)).
  rewrite !andb_true_iff, StartWith_iff, Nat.ltb_lt, bool_decide_eq_true. split.
  - intros [[_ Hg] [r E]]. rewrite E in *. rewrite get_app in Hg.
    destruct r as [|c r]; [done|]. injection Hg as ->. by exists r.
  - intros [port ->]. rewrite get_app.
    split; [split; [|done]|by exists (":" +:+ port)].
    rewrite slength_app. cbn. lia.
Qed.

(** [AvailableTasks] in plain arithmetic. *)
Lemma is_free_spec min_memory s :
  info_typed (servant_info s) → 0 ≤ running_tasks s < 2 ^ 63 →
  is_free min_memory s = true ↔ has_room min_memory (servant_info s) (running_tasks s).
Proof.
  intros [Hcores Hload Hconc] Hr. unfold is_free, AvailableTasks, has_room.
  set (i := servant_info s) in *. set (n := running_tasks s) in *.
  destruct (negb (total_memory_in_bytes i =? 0) && (avail_memory_in_bytes i <? min_memory)) eqn:M.
  - rewrite Z.leb_refl. split; [done|]. intros ([H|H] & _).
    + by rewrite H in M.
    + apply andb_true_iff in M as [_ M%Z.ltb_lt]. lia.
  - rewrite negb_true_iff, Z.leb_gt.
    assert (Hm : total_memory_in_bytes i = 0 ∨ min_memory ≤ avail_memory_in_bytes i).
    { apply andb_false_iff in M as [M|M]; [left|right].
      - by apply negb_false_iff, Z.eqb_eq in M.
      - by apply Z.ltb_ge in M. }
    assert (E : u64 (num_cpu_cores i - Z.max (u64 (current_load i - n)) 0) =
                u64 (num_cpu_cores i + n - current_load i)).
    { rewrite Z.max_l by apply u64_range. unfold u64. rewrite Zminus_mod_idemp_r.
      f_equal. lia. }
    rewrite Z.max_l by apply u64_range. rewrite E.
    destruct (Z.le_gt_cases (current_load i) (num_cpu_cores i + n)).
    + rewrite u64_id by (split; lia). intuition lia.
    + rewrite u64_neg by lia. intuition lia.
Qed.

(** ** Grants *)

Lemma count_where_omap {A B} (P : B → bool) (f : A → option B) (m : gmap Z A) :
  count_where P (omap f m) = count_where (λ a, if f a is Some b then P b else false) m.
Proof.
  induction m as [|k a m Hk IH] using map_ind.
  { by rewrite omap_empty, !count_where_empty. }
  assert (Ho : omap f m !! k = None) by (by rewrite lookup_omap, Hk).
  rewrite omap_insert, (count_where_insert _ m) by done. destruct (f a) as [b|].
  - by rewrite count_where_insert, IH.
  - by rewrite delete_id, IH.
Qed.

(** *** The choice of a machine *)

Lemma others_of_in h ip l q :
  q ∈ l → servant_is h (same_ip ip) q = false → q ∈ others_of h ip l.
Proof.
  intros Hq Hf. unfold others_of. destruct (list_find _ l) as [[i p]|] eqn:F; [|done].
  apply list_find_Some in F as (Hi & Hp & _).
  rewrite (delete_Permutation _ _ _ Hi), elem_of_cons in Hq. destruct Hq as [->|]; [|done].
  congruence.
Qed.

Lemma others_of_own h ip l p :
  NoDup l → p ∈ others_of h ip l → servant_is h (same_ip ip) p = true →
  ∃ q, q ∈ l ∧ q ≠ p ∧ servant_is h (same_ip ip) q = true.
Proof.
  intros Hd Hp Ho. unfold others_of in Hp. destruct (list_find _ l) as [[i q]|] eqn:F.
  - apply list_find_Some in F as (Hi & Hq & _). exists q.
    split; [by eapply list_elem_of_lookup_2|]. split; [|done].
    rewrite (delete_Permutation _ _ _ Hi) in Hd. apply NoDup_cons in Hd as [Hd _]. by intros ->.
  - apply list_find_None in F. rewrite Forall_forall in F. by destruct (F p).
Qed.

Lemma preferred_in h l p : preferred h l p → p ∈ l.
Proof. intros [(Hp & _)|[Hp _]]; [done|]. destruct l; [done|]. injection Hp as ->. by left. Qed.

Section abstraction.
Context (n : Z) (st : State).
Hypotheses (I : Inv n st) (typed : ∀ p s, heap st !! p = Some s → info_typed (servant_info s)).
Hypothesis below : n < 2 ^ 63.

Let I0 : Inv0 n st := proj1 I.

Lemma load_abs p s :
  p ∈ servants_ st → heap st !! p = Some s →
  load (abs n st) (observed_location (servant_info s)) = running_tasks s ∧
  0 ≤ running_tasks s < 2 ^ 63.
Proof.
  intros Hp Hs. destruct (running_exact n st p s I0 ltac:(lia) Hs) as [E Hle].
  split; [|lia]. unfold load. cbn. rewrite count_where_omap, E. f_equal.
  apply count_where_ext. intros id t Ht.
  destruct (inv_task _ _ I0 _ _ Ht) as (_ & _ & s' & Hs'). unfold location. rewrite Hs'.
  unfold at_node, on_servant. cbn. apply eq_true_iff_eq.
  rewrite String.eqb_eq, bool_decide_eq_true. split; [|intros Ep; rewrite Ep in Hs'; congruence].
  intros El. eapply (inv_loc _ _ I0); eauto. by apply (proj2 I id).
Qed.

Lemma suits_eligible ti s : eligible ti s = true ↔ suits ti (servant_info s).
Proof.
  rewrite eligible_true. unfold suits, find_env. rewrite existsb_exists.
  assert (E : (∃ x, In x (env_decs (servant_info s)) ∧
      String.eqb (compiler_digest x) (compiler_digest (env_desc ti)) = true) ↔
    env_desc ti ∈ env_decs (servant_info s)); [|by rewrite E].
  split.
  - intros ([d] & Hd & H%String.eqb_eq). destruct (env_desc ti) as [d']. cbn in H. subst.
    by apply list_elem_of_In.
  - intros H%list_elem_of_In. eexists. split; [done|]. apply String.eqb_refl.
Qed.

Lemma suitable_abs ti loc :
  suitable (abs n st) ti loc ↔
  ∃ p s, is_eligible st ti p ∧ heap st !! p = Some s ∧ observed_location (servant_info s) = loc.
Proof.
  unfold suitable, is_eligible. split.
  - intros (nd & (p & s & Hp & Hs & <- & ->)%nodes_abs & H); [|done].
    exists p, s. split_and!; try done. apply servant_is_true. exists s.
    by rewrite suits_eligible.
  - intros (p & s & [Hp (s' & Hs' & H)%servant_is_true] & Hs & <-).
    rewrite Hs in Hs'. injection Hs' as <-.
    exists (node_of s). split; [by eapply nodes_abs_at|]. by apply suits_eligible.
Qed.

Lemma available_abs ti loc :
  available (min_memory_for_new_task_ st) (abs n st) ti loc ↔
  ∃ p s, is_available st ti p ∧ heap st !! p = Some s ∧ observed_location (servant_info s) = loc.
Proof.
  unfold available, is_available, is_eligible. split.
  - intros (nd & (p & s & Hp & Hs & <- & ->)%nodes_abs & H & R); [|done].
    destruct (load_abs p s Hp Hs) as [E Hr]. rewrite E in R.
    exists p, s. rewrite !servant_is_true. split_and!; try done; exists s; (split; [done|]).
    + by apply suits_eligible.
    + by apply is_free_spec; [eapply typed|..].
  - intros (p & s & [[Hp (s' & Hs' & H)%servant_is_true] (s'' & Hs'' & R)%servant_is_true] &
      Hs & <-).
    rewrite Hs in Hs', Hs''. injection Hs' as <-. injection Hs'' as <-. destruct (load_abs p s Hp Hs) as [E Hr].
    exists (node_of s). split; [by eapply nodes_abs_at|]. split; [by apply suits_eligible|].
    rewrite E. by apply is_free_spec; [eapply typed|..].
Qed.

Lemma spare_abs p s :
  p ∈ servants_ st → heap st !! p = Some s →
  spare (abs n st) (observed_location (servant_info s)) ↔ is_dedicated_spare s = true.
Proof.
  intros Hp Hs. destruct (load_abs p s Hp Hs) as [E Hr]. unfold spare, is_dedicated_spare.
  rewrite andb_true_iff, bool_decide_eq_true, Z.ltb_lt, (u64_id (2 * _)) by (split; lia).
  rewrite E. split.
  - intros (nd & H & Hd & Hl). erewrite nodes_abs_at in H by done. injection H as <-. done.
  - intros H. exists (node_of s). split; [by eapply nodes_abs_at|done].
Qed.

Lemma is_available_in ti p s :
  is_available st ti p → heap st !! p = Some s → p ∈ servants_ st ∧ p ∈ candidates st ti.
Proof. intros H Hs. split; [apply H|]. by apply candidates_spec. Qed.

Lemma preferable_abs ti p s :
  is_available st ti p → heap st !! p = Some s →
  preferred (heap st) (others_of (heap st) (requester_ip ti) (candidates st ti)) p ∨
  candidates st ti = [p] ∧ servant_is (heap st) (same_ip (requester_ip ti)) p = true →
  preferable (min_memory_for_new_task_ st) (abs n st) ti (observed_location (servant_info s)).
Proof.
  intros Hav Hs Hc. destruct (is_available_in ti p s Hav Hs) as [Hp Hin].
  assert (Own : ∀ q t, heap st !! q = Some t →
    servant_is (heap st) (same_ip (requester_ip ti)) q = true ↔
    on_machine (requester_ip ti) (observed_location (servant_info t))).
  { intros q t Hq. rewrite <- same_ip_spec. unfold servant_is. by rewrite Hq. }
  split.
  - intros Ho loc' (q & t & Hq & Ht & <-)%available_abs Hne.
    destruct Hc as [Hc|[Hc _]].
    2: { apply candidates_spec in Hq. rewrite Hc in Hq. apply list_elem_of_singleton in Hq as ->.
         congruence. }
    apply preferred_in, others_of_own in Hc as (o & Hol & Hne' & Hoo);
      [|apply NoDup_filter, NoDup_filter, I0|by apply (Own p s)].
    apply candidates_spec in Hol. pose proof Hol as [[_ (x & Hx & _)%servant_is_true] _].
    exists (observed_location (servant_info x)). split_and!.
    + intros E. apply Hne'. eapply (inv_loc _ _ I0); eauto. apply Hol.
    + apply available_abs. eauto.
    + by apply (Own o x).
  - intros loc' (q & t & Hq & Ht & <-)%available_abs Ho Hsp.
    apply (spare_abs p s Hp Hs). apply spare_abs with (p := q) in Hsp; [|apply Hq|done].
    apply candidates_spec in Hq. destruct Hc as [[(_ & Hd & _)|[_ Hd]]|[Hc _]].
    + unfold servant_is in Hd. by rewrite Hs in Hd.
    + assert (Hf : servant_is (heap st) (same_ip (requester_ip ti)) q = false).
      { apply not_true_is_false. by rewrite (Own q t Ht). }
      specialize (Hd q (others_of_in _ _ _ _ Hq Hf)). unfold servant_is in Hd.
      rewrite Ht in Hd. congruence.
    + rewrite Hc in Hq. apply list_elem_of_singleton in Hq as ->. congruence.
Qed.
End abstraction.

(** * The operations under the abstraction *)

Lemma Spec_eq a b :
  nodes a = nodes b → grants a = grants b → issued a = issued b → reports a = reports b → a = b.
Proof. by destruct a, b; cbn; intros -> -> -> ->. Qed.

Lemma grant_abs n st p s ti e now pf a st' :
  Inv n st → n < 2 ^ 63 → heap st !! p = Some s → grant_of st p s ti e now pf a st' →
  abs (n + 1) st' = issue ti e now pf (observed_location (servant_info s)) (abs n st).
Proof.
  intros [I _] Hn Hs [_ ->].
  assert (Ee : ∀ q, entry (<[p := taken s]> (heap st)) q = entry (heap st) q).
  { intros q. unfold entry. destruct (decide (p = q)) as [<-|];
      [by rewrite lookup_insert_eq, Hs|by rewrite lookup_insert_ne]. }
  apply Spec_eq; try done.
  - by apply nodes_ext.
  - apply map_eq. intros id. apply option_eq. intros g. cbn [issue grants].
    assert (En : next_task_id_ st = n).
    { rewrite (inv_next _ _ I). apply u64_id. pose proof (inv_issued _ _ I). split; lia. }
    rewrite grants_abs, lookup_insert_Some. cbn [tasks_ heap issued abs].
    rewrite En. split.
    + intros (t & loc & [[<- <-]|[Hne Ht]]%lookup_insert_Some & Hl & ->).
      * cbn in Hl. rewrite (location_entry _ _ _ (Ee p)) in Hl.
        apply location_Some in Hl as (s' & Hs' & <-). left. split; [done|].
        rewrite Hs in Hs'. by injection Hs' as <-.
      * right. split; [done|]. rewrite (location_entry _ _ _ (Ee _)) in Hl.
        by apply grants_abs_at.
    + intros [[<- <-]|[Hne (t & loc & Ht & Hl & ->)%grants_abs]].
      * do 2 eexists. rewrite lookup_insert_eq. split; [done|]. cbn.
        rewrite (location_entry _ _ _ (Ee p)). split; [|done]. apply location_Some. by exists s.
      * exists t, loc. rewrite lookup_insert_ne, (location_entry _ _ _ (Ee _)) by done. done.
Qed.

Lemma KeepTaskAlive_abs n id e now st :
  Inv n st →
  keep_task id e now (abs n st) =
  let '(ok, st') := KeepTaskAlive id e now st in (ok, abs n st').
Proof.
  intros [I _]. unfold keep_task, KeepTaskAlive. destruct (tasks_ st !! id) as [t|] eqn:E.
  - destruct (task_location n st id t I E) as [loc Hl].
    rewrite (grants_abs_at n st id t loc E Hl). cbn [g_zombie grant_at].
    destruct (is_zombie t); [done|]. f_equal. apply Spec_eq; try done. cbn.
    rewrite omap_insert. cbn. by rewrite Hl.
  - by rewrite (proj2 (grants_abs_None n st id I) E).
Qed.

Lemma FreeTask_abs n id st : abs n (FreeTask id st).1 = free id (abs n st).
Proof.
  pose proof (UnsafeFreeTask_same [id] st) as S. unfold FreeTask.
  apply Spec_eq; try done.
  - apply nodes_ext; [apply S|]. intros. by apply entry_same.
  - apply map_eq. intros k. apply option_eq. intros g. cbn [free grants set_grants].
    rewrite lookup_delete_Some, !grants_abs.
    assert (El : ∀ p, location (heap (UnsafeFreeTask [id] st).1) p = location (heap st) p)
      by (intros p; by apply location_entry, entry_same).
    assert (Et : tasks_ (UnsafeFreeTask [id] st).1 = delete id (tasks_ st)).
    { cbn. destruct (tasks_ st !! id) eqn:E; [done|]. by rewrite delete_id. }
    rewrite Et. split.
    + intros (t & loc & [Hne Ht]%lookup_delete_Some & Hl & ->). rewrite El in Hl. eauto 6.
    + intros (Hne & t & loc & Ht & Hl & ->). exists t, loc.
      by rewrite lookup_delete_ne, El.
  - exact (f_equal running_tasks_ (same_books _ _ S)).
Qed.

Lemma KeepServantAlive_abs n info e now st :
  Inv n st → abs n (KeepServantAlive info e now st) = keep_node info e now (abs n st).
Proof.
  intros I. pose proof (KeepServantAlive_Inv n info e now st I) as [I' _].
  destruct I as [I A]. revert I'. unfold KeepServantAlive.
  destruct (list_find _ _) as [[i p]|] eqn:F; intros I'.
  - apply (find_location_Some n) in F as (Hp & s & Hs & Es); [|done].
    set (f := λ s : Servant, _). apply Spec_eq; try done.
    + apply map_eq. intros loc. apply option_eq. intros nd. cbn [keep_node nodes].
      rewrite lookup_insert_Some, nodes_abs by done. cbn [heap servants_ set_heap]. split.
      * intros (q & t & Hq & Ht & <- & ->). destruct (decide (q = p)) as [->|Hne].
        -- rewrite lookup_alter_eq, Hs in Ht. injection Ht as <-. by left.
        -- rewrite lookup_alter_ne in Ht by done. right. split; [|by eapply nodes_abs_at].
           intros El. apply Hne. eapply (inv_loc _ _ I); eauto. congruence.
      * intros [[<- <-]|[Hne (q & t & Hq & Ht & <- & ->)%nodes_abs]]; [| |done].
        -- exists p, (f s). by rewrite lookup_alter_eq, Hs.
        -- exists q, t. rewrite lookup_alter_ne; [done|]. intros ->. congruence.
    + apply grants_ext; [done|]. intros id t Ht. cbn. unfold location.
      destruct (decide (servant t = p)) as [->|];
        [by rewrite lookup_alter_eq, Hs; cbn; rewrite Es|by rewrite lookup_alter_ne].
  - set (s := {| servant_info := info |}) in *. apply Spec_eq; try done.
    + apply map_eq. intros loc. apply option_eq. intros nd. cbn [keep_node nodes].
      rewrite lookup_insert_Some, nodes_abs by done. cbn [heap servants_].
      assert (Hf : ∀ q t, q ∈ servants_ st → heap st !! q = Some t →
        next_ptr st ≠ q ∧ observed_location info ≠ observed_location (servant_info t)).
      { intros q t Hq Ht. split; [|by intros E; eapply find_location_None in F].
        pose proof (inv_heap _ _ I q ltac:(eauto)). lia. }
      split.
      * intros (q & t & Hq & [[<- <-]|[Hne Ht]]%lookup_insert_Some & <- & ->); [by left|].
        apply elem_of_app in Hq as [Hq|Hq%list_elem_of_singleton]; [|congruence].
        right. split; [by apply (Hf q)|by eapply nodes_abs_at].
      * intros [[<- <-]|[Hne (q & t & Hq & Ht & <- & ->)%nodes_abs]]; [| |done].
        -- exists (next_ptr st), s. rewrite lookup_insert_eq. split_and!; try done.
           apply elem_of_app. right. by left.
        -- exists q, t. rewrite lookup_insert_ne by (by eapply Hf). split_and!; try done.
           apply elem_of_app. by left.
    + apply grants_ext; [done|]. intros id t Ht. cbn. unfold location.
      rewrite lookup_insert_ne; [done|]. intros E. destruct (inv_task _ _ I id t Ht) as (_ & _ & L).
      apply (inv_heap _ _ I) in L. lia.
Qed.

(** A live grant is a task that the servant may run. *)
Lemma live_at_abs n st p s id :
  Inv n st → p ∈ servants_ st → heap st !! p = Some s →
  live_at (abs n st) (observed_location (servant_info s)) id ↔ permitted st p id.
Proof.
  intros [I A] Hp Hs. unfold live_at, permitted. split.
  - destruct (grants (abs n st) !! id) as [g|] eqn:E; [|done].
    apply grants_abs in E as (t & loc & Ht & (s' & Hs' & <-)%location_Some & ->).
    intros [El Hz]. exists t. split_and!; try done. eapply (inv_loc _ _ I); eauto.
  - intros (t & Ht & <- & Hz). rewrite (grants_abs_at n st id t (observed_location (servant_info s)));
      [done|done|]. apply location_Some. by exists s.
Qed.

Lemma NotifyServantRunningTasks_abs n loc tasks st :
  Inv n st →
  notify loc tasks (abs n st) =
  let '(unknown, st') := NotifyServantRunningTasks loc tasks st in (unknown, abs n st').
Proof.
  intros I. pose proof I as [I0 A]. unfold notify, NotifyServantRunningTasks.
  destruct (list_find _ _) as [[i p]|] eqn:F.
  2: { destruct (nodes (abs n st) !! loc) as [nd|] eqn:E; [|done].
       apply nodes_abs in E as (p & s & Hp & Hs & El & _); [|done].
       by eapply find_location_None in F. }
  apply (find_location_Some n) in F as (Hp & s & Hs & Es); [|done].
  rewrite <- Es, (nodes_abs_at n st p s I0 Hp Hs).
  set (reported := task_grant_id <$> tasks).
  set (st1 := (UnsafeClearZombies p (list_to_set reported) st).1).
  assert (P : ∀ id, id ∈ permitted_task_ids st1 p ↔
     live_at (abs n st) (observed_location (servant_info s)) id).
  { intros id. rewrite permitted_task_ids_spec, (live_at_abs n st p s) by done.
    by eapply UnsafeClearZombies_permitted. }
  assert (S : same_servants st st1) by apply UnsafeFreeTask_same.
  f_equal.
  { apply list_filter_iff. intros id. by rewrite P. }
  apply Spec_eq; try done.
  - cbn [nodes]. symmetry. apply nodes_ext; [apply S|]. intros. by apply (entry_same st st1).
  - cbn [grants]. apply map_eq. intros id. apply option_eq. intros g.
    rewrite map_lookup_filter_Some, !grants_abs. cbn [set_bookkeeper tasks_ heap].
    assert (El : ∀ q, location (heap st1) q = location (heap st) q)
      by (intros q; by apply location_entry, entry_same).
    assert (Z : ∀ t loc, tasks_ st !! id = Some t → location (heap st) (servant t) = Some loc →
      loc = observed_location (servant_info s) ↔ servant t = p).
    { intros t loc' Ht (s' & Hs' & <-)%location_Some. split; [|intros E; rewrite E in Hs'; congruence].
      intros E. eapply (inv_loc _ _ I0); eauto. }
    split.
    + intros [(t & l & Ht & Hl & ->) Hz]. exists t, l. rewrite El. split_and!; try done.
      apply (UnsafeClearZombies_tasks n); [done|]. split; [done|].
      rewrite elem_of_list_to_set. cbn in Hz. by rewrite <- (Z t l Ht Hl).
    + intros (t & l & [Ht Hz]%(UnsafeClearZombies_tasks n) & Hl & ->); [|done].
      rewrite El in Hl. split; [by exists t, l|].
      rewrite elem_of_list_to_set, <- (Z t l Ht Hl) in Hz. done.
  - cbn [reports set_bookkeeper running_task_bookkeeper_ abs SetRunningTask running_tasks_].
    rewrite insert_delete_eq, (same_books _ _ S). f_equal.
    apply list_filter_iff. intros t. by rewrite P.
Qed.

(** ** The timer *)

Lemma foldl_DelServant h (l : list ptr) b loc :
  running_tasks_ (foldl (λ b p, if h !! p is Some s
                   then DelServant (observed_location (servant_info s)) b else b) b l) !! loc =
  if decide (Some loc ∈ (location h <$> l)) then None else running_tasks_ b !! loc.
Proof.
  revert b; induction l as [|p l IH]; intros b; cbn [foldl fmap list_fmap]; [done|].
  rewrite IH. clear IH. destruct (decide (Some loc ∈ (location h <$> l))) as [H|H];
    [by rewrite decide_True by (by right)|].
  destruct (h !! p) as [s|] eqn:E.
  - assert (Ep : location h p = Some (observed_location (servant_info s)))
      by (unfold location; by rewrite E).
    rewrite Ep. destruct (decide (observed_location (servant_info s) = loc)) as [El|Hne].
    + rewrite decide_True by (rewrite El; by left). rewrite El. apply lookup_delete_eq.
    + rewrite decide_False by (intros [[=]|]%elem_of_cons; congruence).
      by apply lookup_delete_ne.
  - assert (Ep : location h p = None) by (unfold location; by rewrite E).
    rewrite Ep. by rewrite decide_False by (intros [[=]|]%elem_of_cons; done).
Qed.

(** What the timer does to the objects besides the tasks. *)
Lemma OnTimerExpiration_rest now st :
  (∀ p, entry (heap (OnTimerExpiration now st).1) p = entry (heap st) p) ∧
  running_task_bookkeeper_ (OnTimerExpiration now st).1 =
    running_task_bookkeeper_ (remove_expired_servants now st).
Proof.
  rewrite OnTimerExpiration_eq. cbn [fst set_tasks heap running_task_bookkeeper_].
  pose proof (UnsafeFreeTask_same (task_ids_where (λ t, bool_decide
    (servant t ∉ (list_to_set (kept_servants now st) : gset ptr)))
    (remove_expired_servants now st)) (remove_expired_servants now st)) as S.
  split; [intros p; by apply (entry_same _ _ p S)|apply S].
Qed.

Lemma alive_abs n now st loc nd :
  Inv0 n st →
  filter (λ kv, now ≤ node_expires kv.2) (nodes (abs n st)) !! loc = Some nd ↔
  ∃ p s, p ∈ kept_servants now st ∧ heap st !! p = Some s ∧
         observed_location (servant_info s) = loc ∧ nd = node_of s.
Proof.
  intros I. rewrite map_lookup_filter_Some, nodes_abs by done. split.
  - intros [(p & s & Hp & Hs & <- & ->) H]. exists p, s. split_and!; try done.
    apply (kept_servants_spec n); [done|]. eauto.
  - intros (p & s & (Hp & s' & Hs' & Hn)%(kept_servants_spec n) & Hs & <- & ->); [|done].
    rewrite Hs in Hs'. injection Hs' as <-. split; [|done]. by exists p, s.
Qed.

Lemma alive_at n now st p s :
  Inv0 n st → p ∈ servants_ st → heap st !! p = Some s →
  is_Some (filter (λ kv, now ≤ node_expires kv.2) (nodes (abs n st)) !!
             observed_location (servant_info s)) ↔ p ∈ kept_servants now st.
Proof.
  intros I Hp Hs. unfold is_Some. split.
  - intros (nd & (q & t & Hq & Ht & El & _)%alive_abs); [|done].
    rewrite (inv_loc _ _ I p q s t); try done. by apply (kept_servants_spec n) in Hq as [? _].
  - intros H. exists (node_of s). apply alive_abs; [done|]. by exists p, s.
Qed.

Lemma OnTimerExpiration_abs n now st :
  Sim n st → abs n (OnTimerExpiration now st).1 = tick now (abs n st).
Proof.
  intros [I _ Hrep]. pose proof (OnTimerExpiration_Inv n now st I) as [I' _].
  destruct I as [I A]. destruct (OnTimerExpiration_rest now st) as [Ee Eb].
  apply Spec_eq; try done.
  - cbn [tick nodes]. apply map_eq. intros loc. apply option_eq. intros nd.
    rewrite alive_abs, nodes_abs, OnTimerExpiration_servants by done. split;
    intros (p & s & Hp & Hs & El & ->); specialize (Ee p); unfold entry in Ee;
      rewrite Hs in Ee; destruct (_ !! p) as [s'|] eqn:Hs' in Ee; try done;
      injection Ee as El' En; exists p, s'; (split_and!; [done..|congruence|]);
      unfold node_of; congruence.
  - cbn [tick grants]. apply map_eq. intros id. apply option_eq. intros g.
    rewrite lookup_fmap_Some, grants_abs, OnTimerExpiration_tasks. split.
    + intros (t' & loc & (t & <- & [Ht Hk]%map_lookup_filter_Some)%lookup_fmap_Some & Hl & ->).
      rewrite (proj2 (mark_zombie_same now t)), (location_entry _ _ _ (Ee _)) in Hl.
      exists (grant_at loc t). split; [unfold expire, mark_zombie; cbn; by destruct (_ <? _)|].
      apply map_lookup_filter_Some. split; [by apply grants_abs_at|].
      apply location_Some in Hl as (s & Hs & <-). eapply alive_at; eauto.
    + intros (g0 & <- & [(t & loc & Ht & Hl & ->)%grants_abs Hk]%map_lookup_filter_Some).
      exists (mark_zombie now t), loc. split_and!.
      * rewrite lookup_fmap_Some. exists t. split; [done|]. apply map_lookup_filter_Some.
        split; [done|]. apply location_Some in Hl as (s & Hs & <-). eapply alive_at; eauto.
      * by rewrite (proj2 (mark_zombie_same now t)), (location_entry _ _ _ (Ee _)).
      * unfold expire, mark_zombie. cbn. by destruct (_ <? _).
  - cbn [tick reports abs]. rewrite Eb. apply map_eq. intros loc.
    unfold remove_expired_servants. cbn [set_bookkeeper running_task_bookkeeper_].
    rewrite foldl_DelServant. apply option_eq. intros ts.
    rewrite map_lookup_filter_Some. cbn [fst].
    set (R := running_tasks_ (running_task_bookkeeper_ st)).
    destruct (R !! loc) as [ts'|] eqn:ER; [|by case_decide; (split; [done|intros [? ?]])].
    assert (Hn : is_Some (nodes (abs n st) !! loc)) by (apply Hrep; by exists ts').
    destruct Hn as [nd (p & s & Hp & Hs & <- & _)%nodes_abs]; [|done].
    rewrite (alive_at n now st p s) by done.
    set (ex := filter _ _). assert (D : Some (observed_location (servant_info s)) ∈
      (location (heap st) <$> ex) ↔ p ∉ kept_servants now st).
    { unfold ex, kept_servants. cbn. rewrite list_elem_of_fmap, list_elem_of_filter. split.
      - intros (q & El & [Hq Hqs]%list_elem_of_filter) [Hk _]. symmetry in El.
        apply location_Some in El as (t & Ht & El).
        by rewrite (inv_loc _ _ I p q s t Hp Hqs Hs Ht) in Hk.
      - intros Hk. exists p. unfold location. rewrite Hs. split; [done|].
        apply list_elem_of_filter. split; [|done]. apply dec_stable. tauto. }
    case_decide as Hd; rewrite D in Hd.
    + by split; [|intros [_ ?]].
    + split; [intros ->; split; [done|by apply dec_stable]|by intros [-> _]].
Qed.

(** * Refinement *)

Definition label_grants (l : Label) : Z := if is_grant l then 1 else 0.

Lemma heap_typed_same st st' :
  same_servants st st' → (∀ p s, heap st !! p = Some s → info_typed (servant_info s)) →
  ∀ p s, heap st' !! p = Some s → info_typed (servant_info s).
Proof.
  intros S H p s' (s & Hs & <- & _)%(same_heap_lookup _ _ _ _ S). by apply (H p).
Qed.

Lemma lstep_typed st l st' :
  lstep st l st' → (∀ p s, heap st !! p = Some s → info_typed (servant_info s)) →
  ∀ p s, heap st' !! p = Some s → info_typed (servant_info s).
Proof.
  intros [ti e now pf a st1 H|?|?|id e now ok st1 H|id|info e now Hi|loc tasks u st1 H|now|] T;
    try done.
  - revert H. unfold TryStartNewTask. destruct (UnsafeGetServantsHasEnv _ _); [done|].
    destruct (UnsafeGetFreeServants _ _); [done|].
    destruct (UnsafePickUpFreeServant _ _ _) as [[picked|]| | |]; cbn; try done.
    unfold StartTaskOn. destruct (heap st !! picked) as [s|] eqn:Hs; [|done]. intros [= <- <-] q s'.
    cbn. intros [[<- <-]|[_ Hq]]%lookup_insert_Some; [by apply (T picked s)|by apply (T q)].
  - revert H. unfold KeepTaskAlive. destruct (tasks_ st !! id) as [t|]; [|by intros [= _ <-]].
    destruct (is_zombie t); by intros [= _ <-].
  - eapply heap_typed_same; [apply UnsafeFreeTask_same|done].
  - intros p s. unfold KeepServantAlive. destruct (list_find _ _) as [[i q]|]; cbn.
    + intros [[-> (t & Ht & ->)]|[_ Hp]]%lookup_alter_Some; [done|by apply (T p)].
    + intros [[<- <-]|[_ Hp]]%lookup_insert_Some; [done|by apply (T p)].
  - revert H. unfold NotifyServantRunningTasks. destruct (list_find _ _) as [[i q]|];
      [|by intros [= _ <-]]. intros [= _ <-]. cbn.
    eapply heap_typed_same; [apply UnsafeFreeTask_same|done].
  - rewrite OnTimerExpiration_eq. cbn.
    eapply heap_typed_same; [apply UnsafeFreeTask_same|done].
Qed.

Lemma lstep_Inv n st l st' :
  lstep st l st' → Inv n st → n < 2 ^ 63 → Inv (n + label_grants l) st'.
Proof.
  intros [ti e now pf a st1 H|?|?|id e now ok st1 H|id|info e now Hi|loc tasks u st1 H|now|] I Hn;
    cbn [label_grants is_grant]; rewrite ?Z.add_0_r; try done.
  - destruct (TryStartNewTask_cases n st ti e now pf) as (r & E & S); [apply I|lia|].
    rewrite H in E. injection E as <-. inversion S as [| |p s ? ? Hav Hs _ G]; subst.
    eapply grant_Inv; eauto; [lia|apply Hav].
  - pose proof (KeepTaskAlive_Inv n id e now st I). by rewrite H in *.
  - by apply UnsafeFreeTask_Inv.
  - by apply KeepServantAlive_Inv.
  - pose proof (Notify_Inv n loc tasks st I). by rewrite H in *.
  - by apply OnTimerExpiration_Inv.
Qed.

Lemma lstep_abs n st l st' :
  Sim n st → n < 2 ^ 63 → lstep st l st' →
  astep (min_memory_for_new_task_ st) (abs n st) l (abs (n + label_grants l) st').
Proof.
  intros Si Hn H. pose proof Si as [I T Hrep].
  destruct H as [ti e now pf a st1 H|ti e now pf H|ti e now pf H|id e now ok st1 H|id|info e now Hi
    |loc tasks u st1 H|now|]; cbn [label_grants is_grant]; rewrite ?Z.add_0_r;
    try (destruct (TryStartNewTask_cases n st ti e now pf) as (r & E & S); [apply I|lia|];
         rewrite H in E; injection E as <-).
  - inversion S as [| |p s ? ? Hav Hs Hc G]; subst. rewrite (grant_abs n st p s ti e now pf a) by done.
    destruct G as [-> _]. destruct I as [I A]. rewrite (inv_next _ _ I), u64_id
      by (pose proof (inv_issued _ _ I); split; lia).
    apply (a_grant _ (abs n st)).
    + apply available_abs; [done..|]. by exists p, s.
    + by eapply preferable_abs.
  - inversion S as [Hno| |]; subst. constructor. intros loc (p & s & Hp & _)%suitable_abs; [|done].
    by eapply Hno.
  - inversion S as [|p Hp Hno|]; subst. pose proof Hp as [_ (s & Hs & _)%servant_is_true].
    apply (a_busy _ _ _ (observed_location (servant_info s))).
    + apply suitable_abs; [done|]. by exists p, s.
    + intros loc (q & t & Hq & _)%available_abs; try done. by eapply Hno.
  - constructor. rewrite KeepTaskAlive_abs by done. by rewrite H.
  - rewrite FreeTask_abs. constructor.
  - rewrite KeepServantAlive_abs by done. constructor.
  - constructor. rewrite NotifyServantRunningTasks_abs by done. by rewrite H.
  - rewrite OnTimerExpiration_abs by done. constructor.
  - constructor. intros t. apply GetRunningTasks_elem.
Qed.

Lemma lstep_memory st l st' :
  lstep st l st' → min_memory_for_new_task_ st' = min_memory_for_new_task_ st.
Proof.
  intros [ti e now pf a st1 H|?|?|id e now ok st1 H|id|info e now Hi|loc tasks u st1 H|now|]; try done.
  - revert H. unfold TryStartNewTask. destruct (UnsafeGetServantsHasEnv _ _); [done|].
    destruct (UnsafeGetFreeServants _ _); [done|].
    destruct (UnsafePickUpFreeServant _ _ _) as [[picked|]| | |]; cbn; try done.
    unfold StartTaskOn. destruct (heap st !! picked) as [s|]; [|done]. by intros [= <- <-].
  - revert H. unfold KeepTaskAlive. destruct (tasks_ st !! id) as [t|]; [|by intros [= _ <-]].
    destruct (is_zombie t); by intros [= _ <-].
  - apply (UnsafeFreeTask_same [id] st).
  - unfold KeepServantAlive. by destruct (list_find _ _) as [[i q]|].
  - revert H. unfold NotifyServantRunningTasks. destruct (list_find _ _) as [[i q]|];
      intros [= _ <-]; [|done]. apply (UnsafeFreeTask_same _ st).
  - rewrite OnTimerExpiration_eq. apply (UnsafeFreeTask_same _ (remove_expired_servants now st)).
Qed.

(** Only registered machines have reports. *)
Lemma astep_reports mem a l a' :
  astep mem a l a' → (∀ loc, is_Some (reports a !! loc) → is_Some (nodes a !! loc)) →
  ∀ loc, is_Some (reports a' !! loc) → is_Some (nodes a' !! loc).
Proof.
  intros [ti e now pf loc _ _|?|?|id e now ok a1 H|id|info e now|loc tasks u a1 H|now|] R; try done.
  - revert H. unfold keep_task. destruct (grants a !! id) as [g|]; [|by intros [= _ <-]].
    destruct (g_zombie g); by intros [= _ <-].
  - intros loc' H%R. cbn. destruct (decide (observed_location info = loc')) as [<-|];
      [by rewrite lookup_insert_eq|by rewrite lookup_insert_ne].
  - revert H. unfold notify. destruct (nodes a !! loc) as [nd|] eqn:E; intros [= _ <-]; [|done].
    intros loc' [x Hx]. cbn in *. apply lookup_insert_Some in Hx as [[<- _]|[_ Hx]];
      [by exists nd|]. apply R. by exists x.
  - intros loc [x Hx]. cbn in Hx. by apply map_lookup_filter_Some in Hx as [_ Hx].
Qed.

Lemma lstep_Sim n st l st' :
  Sim n st → n < 2 ^ 63 → lstep st l st' → Sim (n + label_grants l) st'.
Proof.
  intros Si Hn H. split.
  - eapply lstep_Inv; [done|apply Si|done].
  - by eapply lstep_typed; [done|apply Si].
  - eapply astep_reports; [by apply lstep_abs|apply Si].
Qed.

Lemma init_Sim mem : Sim 0 (TaskDispatcher_init mem).
Proof. split; [apply init_Inv|done|]. intros loc [x Hx]. cbn in Hx. by rewrite lookup_empty in Hx. Qed.

Lemma grants_of_app t t' : grants_of (t ++ t') = grants_of t + grants_of t'.
Proof. unfold grants_of. rewrite List.filter_app, length_app. lia. Qed.
Lemma grants_of_single l : grants_of [l] = label_grants l.
Proof. by destruct l. Qed.
Lemma grants_of_nonneg t : 0 ≤ grants_of t.
Proof. unfold grants_of. lia. Qed.

Lemma run_simulates n st0 t st :
  Sim n st0 → run lstep st0 t st → n + grants_of t < 2 ^ 63 →
  Sim (n + grants_of t) st ∧ min_memory_for_new_task_ st = min_memory_for_new_task_ st0 ∧
  run (astep (min_memory_for_new_task_ st0)) (abs n st0) t (abs (n + grants_of t) st).
Proof.
  intros S0. induction 1 as [|t st l st' _ IH Hs].
  { intros _. cbn. rewrite Z.add_0_r. split; [done|]. split; [done|]. constructor. }
  rewrite grants_of_app, grants_of_single, Z.add_assoc. intros Hn.
  assert (Hlt : n + grants_of t < 2 ^ 63) by (unfold label_grants in Hn; destruct (is_grant l); lia).
  destruct (IH Hlt) as (Si & Hm & R).
  split; [by eapply lstep_Sim|]. split; [by rewrite (lstep_memory _ _ _ Hs)|].
  eapply run_snoc; [done|]. rewrite <- Hm. by apply lstep_abs.
Qed.

Lemma init_simulates mem t st :
  run lstep (TaskDispatcher_init mem) t st → grants_of t < 2 ^ 63 →
  Sim (grants_of t) st ∧ min_memory_for_new_task_ st = mem ∧
  run (astep mem) Spec_init t (abs (grants_of t) st).
Proof. intros R. exact (run_simulates 0 _ t st (init_Sim mem) R). Qed.

(** * Theory of the specification *)

Section spec_theory.
Context (mem : Z).

(** The machines, from the history alone: the last heart beat of a location that no later
    one replaces and no later timer finds expired. *)
Definition supersedes (loc : string) (nd : Node) (l : Label) : Prop :=
  match l with
  | L_keep_servant info _ _ => observed_location info = loc
  | L_timer now => node_expires nd < now
  | _ => False
  end.
Definition registered (t : list Label) (loc : string) (nd : Node) : Prop :=
  ∃ u info e now v, t = u ++ L_keep_servant info e now :: v ∧ observed_location info = loc ∧
    nd = {| node_info := info; node_expires := now + ms e |} ∧ Forall (λ l, ¬ supersedes loc nd l) v.

Lemma registered_snoc t l loc nd :
  registered (t ++ [l]) loc nd ↔
  (∃ info e now, l = L_keep_servant info e now ∧ observed_location info = loc ∧
     nd = {| node_info := info; node_expires := now + ms e |}) ∨
  (registered t loc nd ∧ ¬ supersedes loc nd l).
Proof.
  unfold registered. split.
  - intros (u & info & e & now & v & E & El & -> & Hv).
    destruct v as [|x v _] using rev_ind.
    + apply app_inj_tail in E as [-> ->]. left. by exists info, e, now.
    + rewrite app_comm_cons, app_assoc in E. apply app_inj_tail in E as [-> ->].
      apply Forall_app in Hv as [Hv Hx]. inversion Hx; subst. right. split; [|done].
      by exists u, info, e, now, v.
  - intros [(info & e & now & -> & El & ->)|[(u & info & e & now & v & -> & El & -> & Hv) Hl]].
    + exists t, info, e, now, []. by rewrite Forall_nil.
    + exists u, info, e, now, (v ++ [l]). split_and!; try done.
      * by rewrite <- app_assoc, app_comm_cons.
      * apply Forall_app. by rewrite Forall_singleton.
Qed.

Lemma nodes_registered t a loc nd :
  run (astep mem) Spec_init t a → nodes a !! loc = Some nd ↔ registered t loc nd.
Proof.
  intros H. revert loc nd. induction H as [|t a l a' _ IH Hs]; intros loc nd.
  { split; [by cbn; rewrite lookup_empty|]. intros (u & info & e & now & v & E & _). by destruct u. }
  rewrite registered_snoc, <- IH. clear IH.
  assert (same : nodes a' = nodes a → (∀ loc nd, ¬ supersedes loc nd l) →
    nodes a' !! loc = Some nd ↔
    (∃ info e now, l = L_keep_servant info e now ∧ observed_location info = loc ∧
       nd = {| node_info := info; node_expires := now + ms e |}) ∨
    (nodes a !! loc = Some nd ∧ ¬ supersedes loc nd l)).
  { intros -> Hl. split; [by right|]. intros [(info & e & now & -> & El & _)|[H _]]; [|done].
    by destruct (Hl loc nd). }
  destruct Hs as [ti e now pf loc' _ _|?|?|id e now ok a1 H|id|info e now|loc' tasks u a1 H|now|];
    try (apply same; [done|by intros ??[]]).
  - apply same; [|by intros ?? []]. revert H. unfold keep_task.
    destruct (grants a !! id) as [g|]; [|by intros [= _ <-]].
    destruct (g_zombie g); by intros [= _ <-].
  - cbn. rewrite lookup_insert_Some. split.
    + intros [[El <-]|[Hne H]]; [left|by right]. by exists info, e, now.
    + intros [(info' & e' & now' & [= <- <- <-] & El & ->)|[H Hne]]; [by left|by right].
  - apply same; [|by intros ?? []]. revert H. unfold notify.
    destruct (nodes a !! loc') as [nd'|]; by intros [= _ <-].
  - cbn. rewrite map_lookup_filter_Some, Z.nlt_ge. cbn. split; [by right|].
    by intros [(info & e & now' & [=] & _)|?].
Qed.

(** ** Grants *)

Definition ids_issued (a : Spec) : Prop := ∀ id g, grants a !! id = Some g → 0 ≤ id < issued a.

Lemma grants_notify loc tasks a id g :
  grants (notify loc tasks a).2 !! id = Some g →
  grants a !! id = Some g ∧
  (is_Some (nodes a !! loc) →
   ¬ (g_location g = loc ∧ g_zombie g = true ∧ id ∉ task_grant_id <$> tasks)).
Proof.
  unfold notify. destruct (nodes a !! loc) as [nd|] eqn:E; cbn.
  - by intros [? ?]%map_lookup_filter_Some.
  - intros H. split; [done|]. by intros [? [=]].
Qed.

(** Where a grant of the next state comes from. *)
Lemma astep_grants a l a' id g' :
  astep mem a l a' → grants a' !! id = Some g' →
  (∃ g, grants a !! id = Some g ∧ g_location g' = g_location g) ∨ id = issued a ∧ label_grants l = 1.
Proof.
  intros [ti e now pf loc _ _|?|?|id0 e now ok a1 H|id0|info e now|loc tasks u a1 H|now|];
    cbn [issue grants free set_grants keep_node tick]; eauto.
  - intros [[<- _]|[_ Hg]]%lookup_insert_Some; eauto.
  - revert H. unfold keep_task. destruct (grants a !! id0) as [g|] eqn:E; [|intros [= _ <-]; eauto].
    destruct (g_zombie g); intros [= _ <-]; [by eauto|]. cbn.
    intros [[<- <-]|[_ Hg]]%lookup_insert_Some; eauto.
  - intros [_ Hg]%lookup_delete_Some. eauto.
  - pose proof (grants_notify loc tasks a id g') as G. rewrite H in G.
    intros [Hg _]%G. eauto.
  - intros (g & <- & [Hg _]%map_lookup_filter_Some)%lookup_fmap_Some. left. exists g.
    split; [done|]. unfold expire. by destruct (_ <? _).
Qed.

Lemma astep_issued a l a' : astep mem a l a' → issued a' = issued a + label_grants l.
Proof.
  intros [ti e now pf loc _ _|?|?|id e now ok a1 H|id|info e now|loc tasks u a1 H|now|];
    cbn; rewrite ?Z.add_0_r; try done.
  - revert H. unfold keep_task. destruct (grants a !! id) as [g|]; [|by intros [= _ <-]].
    destruct (g_zombie g); by intros [= _ <-].
  - revert H. unfold notify. destruct (nodes a !! loc); by intros [= _ <-].
Qed.

Lemma run_issued t a : run (astep mem) Spec_init t a → issued a = grants_of t ∧ ids_issued a.
Proof.
  induction 1 as [|t a l a' _ [E IH] Hs].
  { split; [done|]. intros id g. cbn. by rewrite lookup_empty. }
  rewrite grants_of_app, grants_of_single, (astep_issued _ _ _ Hs), E. split; [done|].
  intros id g' Hg. rewrite (astep_issued _ _ _ Hs).
  assert (0 ≤ label_grants l ≤ 1) by (unfold label_grants; destruct (is_grant l); lia).
  destruct (astep_grants _ _ _ _ _ Hs Hg) as [(g & Hg' & _)|[-> ->]].
  - specialize (IH id g Hg'). lia.
  - pose proof (grants_of_nonneg t). lia.
Qed.

(** Every grant is on a registered machine. *)
Definition located (a : Spec) : Prop :=
  ∀ id g, grants a !! id = Some g → is_Some (nodes a !! g_location g).

Lemma astep_located a l a' : astep mem a l a' → located a → located a'.
Proof.
  intros [ti e now pf loc (nd & Hnd & _) _|?|?|id0 e now ok a1 H|id0|info e now|loc tasks u a1 H
    |now|] L id g'; cbn [issue grants free set_grants keep_node tick nodes]; try by apply L.
  - intros [[_ <-]|[_ Hg]]%lookup_insert_Some; [by exists nd|by eapply L].
  - revert H. unfold keep_task. destruct (grants a !! id0) as [g|] eqn:E;
      [|intros [= _ <-]; apply L].
    destruct (g_zombie g); intros [= _ <-]; [apply L|]. cbn.
    intros [[<- <-]|[_ Hg]]%lookup_insert_Some; cbn; by eapply L.
  - intros [_ Hg]%lookup_delete_Some. by eapply L.
  - intros Hg. destruct (decide (observed_location info = g_location g')) as [<-|];
      [by rewrite lookup_insert_eq|rewrite lookup_insert_ne by done; by eapply L].
  - pose proof (grants_notify loc tasks a id g') as G. rewrite H in G. intros [Hg _]%G.
    revert H. unfold notify. destruct (nodes a !! loc); intros [= _ <-]; by eapply L.
  - intros (g & <- & [Hg Ha]%map_lookup_filter_Some)%lookup_fmap_Some.
    unfold expire. by destruct (_ <? _).
Qed.

Lemma run_located t a : run (astep mem) Spec_init t a → located a.
Proof.
  induction 1 as [|t a l a' _ IH Hs]; [|by eapply astep_located].
  intros id g. cbn. by rewrite lookup_empty.
Qed.

(** What ends a grant at [loc] that nobody keeps: its release, a report of its machine that
    does not list it, and a timer that finds the machine's registration expired. *)
Definition ends_grant (history : list Label) (loc : string) (id : Z) (l : Label) : Prop :=
  match l with
  | L_free id' => id' = id
  | L_notify loc' tasks _ => loc' = loc ∧ id ∉ task_grant_id <$> tasks
  | L_timer now => ∀ nd, registered history loc nd → node_expires nd < now
  | _ => False
  end.

Definition keeps (id : Z) (l : Label) : Prop :=
  if l is L_keep_task id' _ _ true then id' = id else False.

(** The grant is gone, or it is at [loc] and satisfies [P]. *)
Definition gone_or (P : Grant → Prop) (loc : string) (id : Z) (a : Spec) : Prop :=
  id < issued a ∧ ∀ g, grants a !! id = Some g → g_location g = loc ∧ P g.

(** A step keeps the grant as it is, unless it is a keep-alive of the grant. *)
Lemma gone_or_step (P : Grant → Prop) loc id a l a' :
  astep mem a l a' → gone_or P loc id a → (∀ now g, P g → P (expire now g)) →
  (∀ tp g, P g → g_zombie g = false → keeps id l → P (prolong tp g)) →
  gone_or P loc id a'.
Proof.
  intros Hs [Hid HP] He Hk. split.
  { rewrite (astep_issued _ _ _ Hs). unfold label_grants. destruct (is_grant l); lia. }
  intros g'. destruct Hs as [ti e now pf loc' _ _|?|?|id0 e now ok a1 H|id0|info e now
    |loc' tasks u a1 H|now|]; cbn [issue grants free set_grants keep_node tick]; auto.
  - intros [[E _]|[_ Hg]]%lookup_insert_Some; [lia|auto].
  - revert H. unfold keep_task. destruct (grants a !! id0) as [g|] eqn:E; [|intros [= _ <-]; auto].
    destruct (g_zombie g) eqn:Z; intros [= <- <-]; [by auto|]. cbn.
    intros [[<- <-]|[_ Hg]]%lookup_insert_Some; [|by auto].
    destruct (HP g E) as [El Hp]. split; [done|]. by apply Hk.
  - intros [_ Hg]%lookup_delete_Some. auto.
  - pose proof (grants_notify loc' tasks a id g') as G. rewrite H in G.
    intros [Hg _]%G. auto.
  - intros (g & <- & [Hg _]%map_lookup_filter_Some)%lookup_fmap_Some.
    destruct (HP g Hg) as [El Hp]. split; [|by apply He].
    unfold expire. by destruct (_ <? _).
Qed.

Lemma gone_or_run (P : Grant → Prop) loc id a t a' :
  run (astep mem) a t a' → gone_or P loc id a → (∀ now g, P g → P (expire now g)) →
  (∀ l tp g, l ∈ t → P g → g_zombie g = false → keeps id l → P (prolong tp g)) →
  gone_or P loc id a'.
Proof.
  intros H Ha He. induction H as [|t a1 l a2 _ IH Hs]; intros Hk; [done|].
  eapply gone_or_step; [done| |done|].
  - apply IH. intros l' tp g Hl. apply Hk, elem_of_app. by left.
  - intros tp g. apply Hk, elem_of_app. right. by left.
Qed.

(** Once a zombie, never again anything else. *)
Lemma zombie_run loc id a t a' :
  run (astep mem) a t a' → gone_or (λ g, g_zombie g = true) loc id a →
  gone_or (λ g, g_zombie g = true) loc id a'.
Proof.
  intros H Ha. eapply gone_or_run; [done|done| |].
  - intros now g Hz. unfold expire. by destruct (_ <? _).
  - intros l tp g _ Hz Hf. congruence.
Qed.

Lemma gone_run id a t a' :
  run (astep mem) a t a' → id < issued a → grants a !! id = None → grants a' !! id = None.
Proof.
  intros H Hid Hn. assert (G : gone_or (λ _, False) "" id a').
  { eapply gone_or_run; [done| |done|done]. split; [done|]. by rewrite Hn. }
  destruct (grants a' !! id) as [g|] eqn:E; [|done]. by destruct (proj2 G g E).
Qed.

Lemma zombie_timer loc id expires now a :
  gone_or (λ g, g_expires g = expires) loc id a → expires < now →
  gone_or (λ g, g_zombie g = true) loc id (tick now a).
Proof.
  intros [Hid HP] Hn. split; [done|].
  intros g' (g & <- & [Hg _]%map_lookup_filter_Some)%lookup_fmap_Some.
  destruct (HP g Hg) as [El E]. unfold expire. rewrite E, (proj2 (Z.ltb_lt _ _) Hn). done.
Qed.

(** The step that ends it. *)
Lemma ends_grant_step t a loc id l a' :
  run (astep mem) Spec_init t a → astep mem a l a' →
  gone_or (λ g, g_zombie g = true) loc id a → ends_grant t loc id l → grants a' !! id = None.
Proof.
  intros R Hs [Hid HP] He.
  destruct Hs as [ti e now pf loc' _ _|?|?|id0 e now ok a1 H|id0|info e now
    |loc' tasks u a1 H|now|]; try done.
  - cbn in *. subst. apply lookup_delete_eq.
  - destruct He as [-> Hin]. pose proof (grants_notify loc tasks a id) as G. rewrite H in G.
    apply eq_None_not_Some. intros [g [Hg Hz]%G]. destruct (HP g Hg) as [El Z].
    apply Hz; [|done]. rewrite <- El. by eapply run_located.
  - cbn [tick grants]. apply eq_None_not_Some.
    intros [g' (g & _ & [Hg [nd Ha]]%map_lookup_filter_Some)%lookup_fmap_Some].
    apply map_lookup_filter_Some in Ha as [Ha Hn]. destruct (HP g Hg) as [El _].
    cbn in Ha, Hn. rewrite El, (nodes_registered t a) in Ha by done. apply He in Ha. lia.
Qed.
End spec_theory.

(** What an answer to an allocation says about the history before it. *)
Definition justified (t : list Label) (l : Label) : Prop :=
  match l with
  | L_grant ti e now pf al =>
    alloc_task_id al = grants_of t ∧
    ∃ nd, registered t (alloc_servant_location al) nd ∧ suits ti (node_info nd)
  | L_no_env ti => ∀ loc nd, registered t loc nd → ¬ suits ti (node_info nd)
  | L_busy ti => ∃ loc nd, registered t loc nd ∧ suits ti (node_info nd)
  | _ => True
  end.

Lemma run_justified mem t l t' st :
  run lstep (TaskDispatcher_init mem) (t ++ l :: t') st → grants_of (t ++ l :: t') < 2 ^ 63 →
  justified t l.
Proof.
  intros R Hn. apply init_simulates in R as (_ & _ & R); [|done].
  apply run_app_inv in R as (a & Ra & R). change (l :: t') with ([l] ++ t') in R.
  apply run_app_inv in R as (a' & Hs%run_single & _).
  pose proof (λ loc nd, nodes_registered mem t a loc nd Ra) as E.
  destruct Hs as [ti e now pf loc (nd & Hnd & Hsu & _) _|ti Hno|ti loc (nd & Hnd & Hsu) _|?|?|?|?|?|?];
    try done.
  - split; [apply (run_issued mem t a Ra)|]. exists nd. by rewrite <- E.
  - intros loc nd Hr%E Hsu. by apply (Hno loc); exists nd.
  - exists loc, nd. by rewrite <- E.
Qed.

(** What gives a grant up: its release, and a timer behind its expiry, if nobody kept it alive
    in [u]. *)
Definition gives_up (id expires : Z) (u : list Label) (l : Label) : Prop :=
  match l with
  | L_free id' => id' = id
  | L_timer now => expires < now ∧ Forall (λ l, ¬ keeps id l) u
  | _ => False
  end.

(** A grant that was given up is gone or a zombie from then on. *)
Lemma given_up_run mem t0 st0 id tk loc u l v st :
  run lstep (TaskDispatcher_init mem) t0 st0 →
  tasks_ st0 !! id = Some tk → location (heap st0) (servant tk) = Some loc →
  run lstep st0 (u ++ l :: v) st → grants_of (t0 ++ u ++ l :: v) < 2 ^ 63 →
  gives_up id (task_expires_tp tk) u l →
  gone_or (λ g, g_zombie g = true) loc id (abs (grants_of (t0 ++ u ++ l :: v)) st).
Proof.
  intros R0 Ht Hl R Hn Hg. rewrite grants_of_app in *.
  pose proof (grants_of_nonneg (u ++ l :: v)).
  destruct (init_simulates mem t0 st0 R0) as (S0 & M0 & A0); [lia|].
  destruct (run_simulates _ _ _ _ S0 R Hn) as (_ & _ & A). rewrite M0 in A.
  assert (G0 : gone_or (λ g, g_expires g = task_expires_tp tk) loc id (abs (grants_of t0) st0)).
  { pose proof (grants_abs_at (grants_of t0) st0 id tk loc Ht Hl) as E.
    split; [by apply (run_issued mem t0 _ A0) in E as [_ ?]|]. rewrite E. by intros g [= <-]. }
  set (a0 := abs _ st0) in *. set (a' := abs _ st) in *. clearbody a0 a'.
  apply run_app_inv in A as (a1 & A1 & A). change (l :: v) with ([l] ++ v) in A.
  apply run_app_inv in A as (a2 & A2%run_single & A).
  apply (zombie_run mem loc id a2 v a' A).
  destruct A2 as [?|?|?|?|id0| | |now|]; try done; cbn in Hg.
  - subst id0. assert (Hid : id < issued a1).
    { assert (G1 : gone_or (λ _, True) loc id a1); [|by destruct G1].
      eapply gone_or_run; [done| |done|done]. destruct G0 as [Hid HP]. split; [done|].
      intros g Hg. by destruct (HP g Hg). }
    split; [done|]. intros g. cbn. by rewrite lookup_delete_eq.
  - destruct Hg as [Hx Hu]. eapply zombie_timer; [|exact Hx].
    eapply gone_or_run; [done|done| |].
    + intros now' g Hg. unfold expire. by destruct (_ <? _).
    + intros x tp g Hin _ _ Hk. rewrite Forall_forall in Hu. by destruct (Hu x Hin).
Qed.

(** * Properties *)

(** C2. Every run of the dispatcher (fewer than 2^63 grants) is a run of the specification with
    the same requests and answers, from the initial state to the abstraction of the state
    it reaches: pointers, counters, task lists and unsigned arithmetic do not show.  What the
    code does otherwise than its documents say, the specification says as the code does it:
    machines of a version above the request's [min_version] are passed over ([suits]), the
    requester's own machine is taken last ([preferable]), and an overloaded machine counts
    as idle ([has_room]). *)
Theorem dispatcher_refines mem t st :
  run lstep (TaskDispatcher_init mem) t st → grants_of t < 2 ^ 63 →
  run (astep mem) Spec_init t (abs (grants_of t) st).
Proof. intros R Hn. by apply init_simulates. Qed.

(** What the dispatcher answers to an allocation is determined by the history of requests:
    a grant has the number of earlier grants as its id, and a machine that reported the
    compiler, tasks it accepts and a version not above the request's in its last heart beat,
    which no timer has found expired since; a missing environment is answered exactly when there is no such
    machine, and the wait for a free one when there is. *)
Theorem granted_machines mem t l t' st :
  run lstep (TaskDispatcher_init mem) (t ++ l :: t') st → grants_of (t ++ l :: t') < 2 ^ 63 →
  match l with
  | L_grant ti e now pf al =>
    alloc_task_id al = grants_of t ∧
    ∃ nd, registered t (alloc_servant_location al) nd ∧ suits ti (node_info nd)
  | L_no_env ti => ∀ loc nd, registered t loc nd → ¬ suits ti (node_info nd)
  | L_busy ti => ∃ loc nd, registered t loc nd ∧ suits ti (node_info nd)
  | _ => True
  end.
Proof. exact (run_justified mem t l t' st). Qed.

(** C18. A grant that nobody keeps alive does not stay: once a timer has found it expired, the
    next report of its machine that does not list it, the first timer that finds the
    machine's registration expired, or its release removes it, whatever else happens before,
    in between and after. *)
Theorem abandoned_grants mem t0 st0 id tk loc u now v l w st :
  run lstep (TaskDispatcher_init mem) t0 st0 →
  tasks_ st0 !! id = Some tk → location (heap st0) (servant tk) = Some loc →
  run lstep st0 (u ++ L_timer now :: v ++ l :: w) st →
  grants_of (t0 ++ u ++ L_timer now :: v ++ l :: w) < 2 ^ 63 →
  task_expires_tp tk < now → Forall (λ l, ¬ keeps id l) u →
  ends_grant (t0 ++ u ++ L_timer now :: v) loc id l →
  tasks_ st !! id = None.
Proof.
  intros R0 Ht Hl R Hn Hx Hu He.
  replace (u ++ L_timer now :: v ++ l :: w) with ((u ++ L_timer now :: v) ++ [l] ++ w) in *
    by (by rewrite <- app_assoc).
  apply run_app_inv in R as (st1 & R1 & R). set (t1 := u ++ L_timer now :: v) in *.
  rewrite app_assoc, !grants_of_app in Hn. pose proof (grants_of_nonneg [l]).
  pose proof (grants_of_nonneg w).
  destruct (init_simulates mem (t0 ++ t1) st1) as (S1 & M1 & A1);
    [by eapply run_app|rewrite grants_of_app; lia|].
  pose proof (given_up_run mem t0 st0 id tk loc u (L_timer now) v st1 R0 Ht Hl R1
    ltac:(fold t1; rewrite grants_of_app; lia) (conj Hx Hu)) as G.
  fold t1 in G. destruct (run_simulates _ _ _ _ S1 R) as (S2 & _ & A); [rewrite !grants_of_app; lia|].
  rewrite M1 in A. apply (grants_abs_None _ _ id (proj1 (sim_inv _ _ S2))).
  apply run_app_inv in A as (a2 & A2%run_single & A).
  apply (gone_run mem id a2 w _ A); [|by eapply ends_grant_step].
  rewrite (astep_issued mem _ _ _ A2). destruct G as [G _]. unfold label_grants.
  destruct (is_grant l); lia.
Qed.

(** ** Witnesses *)

Definition sample_grant : TaskAllocation :=
  {| alloc_task_id := 0; alloc_servant_location := "10.0.0.2:80" |}.
Definition sample_trace : list Label :=
  [L_keep_servant demo_servant 1000 0; L_grant demo_task 100 1 false sample_grant].
Definition sample_granted : State :=
  match TryStartNewTask demo0 demo_task 100 1 false with
  | Ret (Granted _ st) => st
  | _ => demo0
  end.
Definition sample_timed : State := (OnTimerExpiration (ms 500) sample_granted).1.
Definition sample_end : State := (NotifyServantRunningTasks "10.0.0.2:80" [] sample_timed).2.

Lemma sample_run : run lstep (TaskDispatcher_init 0) sample_trace sample_granted.
Proof.
  apply (run_snoc lstep _ [L_keep_servant demo_servant 1000 0] demo0).
  - apply (run_snoc lstep _ [] (TaskDispatcher_init 0)); [constructor|].
    apply (l_keep_servant _ demo_servant 1000 0). by split.
  - apply l_grant. vm_compute. reflexivity.
Qed.

Lemma sample_rest :
  run lstep sample_granted [L_timer (ms 500); L_notify "10.0.0.2:80" [] []] sample_end.
Proof.
  apply (run_snoc lstep _ [L_timer (ms 500)] sample_timed).
  - apply (run_snoc lstep _ [] sample_granted); [constructor|apply l_timer].
  - apply l_notify. vm_compute. reflexivity.
Qed.

Lemma dispatcher_refines_witness :
  run (astep 0) Spec_init sample_trace (abs 1 sample_granted).
Proof. exact (dispatcher_refines 0 sample_trace sample_granted sample_run eq_refl). Defined.

Lemma granted_machines_witness :
  ∃ nd, registered [L_keep_servant demo_servant 1000 0] "10.0.0.2:80" nd ∧
        suits demo_task (node_info nd).
Proof.
  exact (proj2 (granted_machines 0 [L_keep_servant demo_servant 1000 0]
    (L_grant demo_task 100 1 false sample_grant) [] sample_granted sample_run eq_refl)).
Defined.

Lemma abandoned_grants_witness : tasks_ sample_end !! 0 = None.
Proof.
  eapply (abandoned_grants 0 sample_trace sample_granted 0 _ "10.0.0.2:80" [] (ms 500) []
    (L_notify "10.0.0.2:80" [] []) [] sample_end sample_run);
    [vm_compute; reflexivity|vm_compute; reflexivity|exact sample_rest|reflexivity|reflexivity
    |constructor|].
  split; [reflexivity|]. apply not_elem_of_nil.
Defined.
