(* ===== verification/SchedService.v ===== *)
(** The scheduler's gRPC service:
    src/distribuild/scheduler/scheduler_service_impl.{h,cpp}.

    Each handler is a function from the service's state and the request to the
    status, the response and the new state.  [inet_pton] and the bytes
    [RAND_bytes] fills in are code outside the sources: parameters. *)
From S2P Require Import Prelude Text Proto Token SchedDispatch SchedFacts.

(** * Addresses *)

Definition is_decimal (c : ascii) : bool :=
  let n := nat_of_ascii c in (48 <=? n)%nat && (n <=? 57)%nat.

Section addresses.
(** [inet_pton(AF_INET, s, _) == 1]. *)
Variable inet_pton : string → bool.

Definition TryParseIPv4 (location : string) : option (string * string) :=
  match sfind ":" location with
  | None => None
  | Some pos =>
    let ip := stake pos location in
    let port := sdrop (pos + 1) location in
    if negb (inet_pton (c_str ip)) then None
    else if negb (sall is_decimal port) then None
    else Some (ip, port)
  end.

Definition TryParseGrpcIPv4 (location : string) : option (string * string) :=
  if negb (String.eqb (stake 5 location) "ipv4:") then None
  else TryParseIPv4 (sdrop 5 location).
End addresses.

(** * The service *)

Record Flags := {
  FLAGS_min_daemon_version : Z;
  FLAGS_token_rollout_interval_s : Z;
  FLAGS_default_user_tokens : string;
  FLAGS_default_servant_tokens : string
}.

Record Service := {
  user_token_verifier_ : TokenVerifier;
  servant_token_verifier_ : TokenVerifier;
  next_token_rollout_ : Z;
  active_daemon_tokens_ : list string;
  dispatcher : State                   (* [TaskDispatcher::Instance()] *)
}.

Definition with_dispatcher (d : State) (sv : Service) : Service := {|
  user_token_verifier_ := user_token_verifier_ sv;
  servant_token_verifier_ := servant_token_verifier_ sv;
  next_token_rollout_ := next_token_rollout_ sv;
  active_daemon_tokens_ := active_daemon_tokens_ sv;
  dispatcher := d |}.

(** [buf] is what [RAND_bytes] wrote. *)
Definition NextDaemonToken (buf : string) : string := EncodeHex buf false.

Definition SchedulerServiceImpl_init (f : Flags) (buf1 buf2 buf3 : string) (now : Z)
    (d : State) : Service := {|
  user_token_verifier_ := MakeTokenVerifier (FLAGS_default_user_tokens f);
  servant_token_verifier_ := MakeTokenVerifier (FLAGS_default_servant_tokens f);
  next_token_rollout_ := now + secs (FLAGS_token_rollout_interval_s f);
  active_daemon_tokens_ := [NextDaemonToken buf1; NextDaemonToken buf2; NextDaemonToken buf3];
  dispatcher := d |}.

(** [buf]: the random bytes of a rotation.  [pop_front] of an empty deque is
    undefined; the check of the size only logs. *)
Definition ActiveDaemonTokens (f : Flags) (buf : string) (now : Z) (sv : Service)
    : outcome (list string * Service) :=
  if next_token_rollout_ sv <? now then
    match active_daemon_tokens_ sv with
    | [] => Undef "pop_front of an empty deque"
    | _ :: tokens =>
      let tokens := tokens ++ [NextDaemonToken buf] in
      Ret (tokens, {|
        user_token_verifier_ := user_token_verifier_ sv;
        servant_token_verifier_ := servant_token_verifier_ sv;
        next_token_rollout_ := now + secs (FLAGS_token_rollout_interval_s f);
        active_daemon_tokens_ := tokens;
        dispatcher := dispatcher sv |})
    end
  else Ret (active_daemon_tokens_ sv, sv).

(** ** HeartBeat *)

(** The [ServantInfo] of a heart beat: [is_servant] is whether the servant token
    verifier accepts it. *)
Definition heartbeat_info (is_servant : bool) (observed : string) (r : HeartBeatRequest)
    : ServantInfo :=
  let cores := if hb_num_cpu_cores r =? 0 then hb_concurrency r else hb_num_cpu_cores r in
  let prio := if decide (hb_priority r = SERVANT_PRIORITY_UNKNOWN)
              then SERVANT_PRIORITY_USER else hb_priority r in
  let conc := if negb (String.eqb observed (hb_location r)) then 0 else hb_concurrency r in
  let conc := if negb is_servant then 0 else conc in
  let conc := if hb_next_heart_beat_in_ms r =? 0 then 0 else conc in
  {| version := hb_version r; observed_location := observed;
     reported_location := hb_location r; num_cpu_cores := cores;
     current_load := hb_current_load r;
     total_memory_in_bytes := hb_total_memory_in_bytes r;
     avail_memory_in_bytes := hb_avail_memory_in_bytes r;
     concurrency := conc; priority := prio; env_decs := hb_env_descs r |}.

(** [buf]: random bytes for a token rotation. *)
Definition HeartBeat (inet_pton : string → bool) (f : Flags) (buf peer : string) (now : Z)
    (r : HeartBeatRequest) (sv : Service)
    : outcome (StatusCode * option HeartBeatResponse * Service) :=
  let is_servant := Verify (servant_token_verifier_ sv) (hb_token r) in
  if negb (Verify (user_token_verifier_ sv) (hb_token r)) && negb is_servant
  then Ret (PERMISSION_DENIED, None, sv)
  else if hb_version r <? FLAGS_min_daemon_version f then Ret (INVALID_ARGUMENT, None, sv)
  else if secs 15 <? ms (hb_next_heart_beat_in_ms r) then Ret (PERMISSION_DENIED, None, sv)
  else
    match TryParseIPv4 inet_pton (hb_location r) with
    | None => Ret (INVALID_ARGUMENT, None, sv)
    | Some (_, reported_port) =>
      match TryParseGrpcIPv4 inet_pton peer with
      | None => Ret (INVALID_ARGUMENT, None, sv)
      | Some (observed_ip, _) =>
        let observed := observed_ip +:+ ":" +:+ reported_port in
        let info := heartbeat_info is_servant observed r in
        let d1 := KeepServantAlive info (hb_next_heart_beat_in_ms r) now (dispatcher sv) in
        '(tokens, sv2) ← ActiveDaemonTokens f buf now (with_dispatcher d1 sv);
        let '(expired, d2) := NotifyServantRunningTasks (hb_location r) (hb_running_tasks r)
                                (dispatcher sv2) in
        Ret (OK, Some {| hb_tokens := tokens; hb_expired_tasks := expired |},
             with_dispatcher d2 sv2)
      end
    end.

(** ** GetConfig *)

(** The response is the daemon token. *)
Definition GetConfig (f : Flags) (buf token : string) (now : Z) (sv : Service)
    : outcome (StatusCode * option string * Service) :=
  if negb (Verify (user_token_verifier_ sv) token) then Ret (PERMISSION_DENIED, None, sv)
  else
    '(tokens, sv) ← ActiveDaemonTokens f buf now sv;
    match tokens !! 1%nat with
    | None => Undef "vector index out of range"
    | Some t => Ret (OK, Some t, sv)
    end.

(** ** WaitForStaringTask

    Between two calls of the dispatcher, and while one waits, other threads run.
    [Call] says what happens to one call: what the others do before it, the wakes
    of its waits (given its deadline) and the clock when a task is created. *)
Record Call := {
  call_interference : State → State;
  call_wakes : Z → list Wake;
  call_now : Z
}.

Definition run_call (c : Call) (ti : TaskInfo) (next_keep_alive deadline : Z)
    (prefetching : bool) (st : State)
    : outcome (option (option TaskAllocation * WaitStatus * State)) :=
  WaitForStartingNewTask (call_interference c st) ti next_keep_alive (call_now c) prefetching
    (call_wakes c deadline).

Definition grant_of_allocation (a : TaskAllocation) : StartingTaskGrant :=
  {| grant_task_grant_id := alloc_task_id a;
     grant_servant_location := alloc_servant_location a |}.

(** The loop over the immediate requests: [n] of them are left, [i] is the index of
    the call.  [inl] is an early return. *)
Fixpoint immediate_loop (calls : nat → Call) (ti : TaskInfo) (next_keep_alive now max_wait : Z)
    (n i : nat) (grants : list StartingTaskGrant) (st : State)
    : outcome (option ((StatusCode * State) + (list StartingTaskGrant * nat * State))) :=
  match n with
  | O => Ret (Some (inr (grants, i, st)))
  | S n =>
    r ← run_call (calls i) ti next_keep_alive
          (now + (if (i =? 0)%nat then max_wait else 0)) false st;
    match r with
    | None => Ret None
    | Some (None, WaitStatus_EnvNotFound, st) => Ret (Some (inl (NOT_FOUND, st)))
    | Some (None, _, st) => Ret (Some (inr (grants, S i, st)))
    | Some (Some a, _, st) =>
      immediate_loop calls ti next_keep_alive now max_wait n (S i)
        (grants ++ [grant_of_allocation a]) st
    end
  end.

Fixpoint prefetch_loop (calls : nat → Call) (ti : TaskInfo) (next_keep_alive now max_wait : Z)
    (n i : nat) (grants : list StartingTaskGrant) (st : State)
    : outcome (option (list StartingTaskGrant * State)) :=
  match n with
  | O => Ret (Some (grants, st))
  | S n =>
    r ← run_call (calls i) ti next_keep_alive
          (now + (if decide (grants = []) then max_wait else 0)) true st;
    match r with
    | None => Ret None
    | Some (None, _, st) => Ret (Some (grants, st))
    | Some (Some a, _, st) =>
      prefetch_loop calls ti next_keep_alive now max_wait n (S i)
        (grants ++ [grant_of_allocation a]) st
    end
  end.

(** [None]: the handler still waits. *)
Definition WaitForStaringTask (calls : nat → Call) (peer : string) (now : Z)
    (r : WaitForStaringTaskRequest) (sv : Service)
    : outcome (option (StatusCode * list StartingTaskGrant * Service)) :=
  if negb (Verify (user_token_verifier_ sv) (wst_token r))
  then Ret (Some (PERMISSION_DENIED, [], sv))
  else
    let max_wait := ms (wst_mills_to_wait r) in
    if (secs 15 <? max_wait) || (secs 30 <? ms (wst_next_keep_alive_in_ms r))
    then Ret (Some (PERMISSION_DENIED, [], sv))
    else
      let task := {| requester_ip := peer; min_version := wst_min_version r;
                     env_desc := wst_env_desc r |} in
      first ← immediate_loop calls task (wst_next_keep_alive_in_ms r) now max_wait
                (Z.to_nat (wst_immeadiate_reqs r)) 0%nat [] (dispatcher sv);
      match first with
      | None => Ret None
      | Some (inl (status, st)) => Ret (Some (status, [], with_dispatcher st sv))
      | Some (inr (grants, i, st)) =>
        second ← prefetch_loop calls task (wst_next_keep_alive_in_ms r) now max_wait
                   (Z.to_nat (wst_prefetch_reqs r)) i grants st;
        match second with
        | None => Ret None
        | Some ([], st) => Ret (Some (RESOURCE_EXHAUSTED, [], with_dispatcher st sv))
        | Some (grants, st) => Ret (Some (OK, grants, with_dispatcher st sv))
        end
      end.

(** ** The remaining handlers *)

(** [KeepTaskAlive] of the service: the clock is read for every id. *)
Fixpoint keep_alive_loop (ids : list Z) (next_keep_alive : Z) (clock : nat → Z) (st : State)
    : list bool * State :=
  match ids with
  | [] => ([], st)
  | id :: ids =>
    let '(ok, st) := SchedDispatch.KeepTaskAlive id next_keep_alive (clock O) st in
    let '(oks, st) := keep_alive_loop ids next_keep_alive (λ i, clock (S i)) st in
    (ok :: oks, st)
  end.

Definition KeepTaskAlive (clock : nat → Z) (r : KeepTaskAliveRequest) (sv : Service)
    : StatusCode * list bool * Service :=
  if negb (Verify (user_token_verifier_ sv) (kta_token r)) then (PERMISSION_DENIED, [], sv)
  else if secs 30 <? ms (kta_next_keep_alive_in_ms r) then (INVALID_ARGUMENT, [], sv)
  else
    let '(statues, st) := keep_alive_loop (kta_task_grant_ids r) (kta_next_keep_alive_in_ms r)
                            clock (dispatcher sv) in
    (OK, statues, with_dispatcher st sv).

Definition FreeTask (r : FreeTaskRequst) (sv : Service) : StatusCode * Service :=
  if negb (Verify (user_token_verifier_ sv) (ftr_token r)) then (PERMISSION_DENIED, sv)
  else (OK, with_dispatcher
    (foldl (λ st id, (SchedDispatch.FreeTask id st).1) (dispatcher sv) (ftr_task_grant_ids r)) sv).

Definition GetRunningTasks (sv : Service) : StatusCode * list RunningTask :=
  (OK, SchedDispatch.GetRunningTasks (dispatcher sv)).

(** * Theory *)

Definition peer_of (ip port : string) : string := "ipv4:" +:+ ip +:+ ":" +:+ port.

Lemma sfind_char_no_char c s n : sfind (String c "") s = Some n → no_char c (stake n s) = true.
Proof.
  revert n; induction s as [|d s IH]; intros n.
  - cbn. destruct n; done.
  - cbn [sfind]. destruct (String.prefix (String c "") (String d s)) eqn:P.
    + intros [= <-]. done.
    + destruct (sfind (String c "") s) as [m|]; [|done]. intros [= <-].
      change (negb (Ascii.eqb d c) && no_char c (stake m s) = true).
      rewrite (IH m eq_refl), andb_true_r. apply negb_true_iff.
      cbn in P. destruct (ascii_dec c d) as [->|Hne].
      * by rewrite sprefix_nil in P.
      * apply Ascii.eqb_neq. congruence.
Qed.

Lemma TryParseIPv4_Some inet_pton l ip port :
  TryParseIPv4 inet_pton l = Some (ip, port) →
  no_char ":" ip = true ∧ inet_pton (c_str ip) = true ∧ sall is_decimal port = true ∧
  l = ip +:+ ":" +:+ port.
Proof.
  unfold TryParseIPv4. destruct (sfind ":" l) as [pos|] eqn:F; [|done].
  destruct (inet_pton _) eqn:E; [|done]. destruct (sall is_decimal _) eqn:D; [|done].
  intros [= <- <-]. split_and!; [by apply sfind_char_no_char|done|done|].
  clear E D. revert l F. induction pos as [|pos IH]; intros l F.
  - destruct l as [|c l]; [done|]. cbn [sfind] in F.
    destruct (String.prefix ":" (String c l)) eqn:P; [|by destruct (sfind ":" l)].
    apply sprefix_iff in P as [r' P]. rewrite P. done.
  - destruct l as [|c l]; [done|]. cbn [sfind] in F.
    destruct (String.prefix ":" (String c l)); [done|].
    destruct (sfind ":" l) as [m|] eqn:F'; [|done]. cbn in F. injection F as <-.
    cbn. f_equal. by apply IH.
Qed.

Lemma first_field_inj c a b r1 r2 :
  no_char c a = true → no_char c b = true →
  a +:+ String c r1 = b +:+ String c r2 → a = b.
Proof.
  revert b; induction a as [|x a IH]; intros [|y b]; cbn; try done.
  - intros _ [Hn _]%andb_true_iff [=]; subst. by rewrite Ascii.eqb_refl in Hn.
  - intros [Hn _]%andb_true_iff _ [=]; subst. by rewrite Ascii.eqb_refl in Hn.
  - intros [_ Ha]%andb_true_iff [_ Hb]%andb_true_iff [=]; subst. f_equal. by apply IH.
Qed.

Lemma TryParseGrpcIPv4_Some inet_pton l ip port :
  TryParseGrpcIPv4 inet_pton l = Some (ip, port) →
  l = peer_of ip port ∧ no_char ":" ip = true ∧ inet_pton (c_str ip) = true.
Proof.
  unfold TryParseGrpcIPv4. destruct (String.eqb_spec (stake 5 l) "ipv4:") as [E|]; [|done].
  cbn [negb]. intros (H1 & H2 & _ & H3)%TryParseIPv4_Some. split_and!; try done.
  rewrite <- (stake_sdrop 5 l), E, H3. done.
Qed.

Lemma with_dispatcher_tokens d sv :
  active_daemon_tokens_ (with_dispatcher d sv) = active_daemon_tokens_ sv.
Proof. done. Qed.

Lemma ActiveDaemonTokens_cases f buf now sv :
  length (active_daemon_tokens_ sv) = 3%nat →
  ∃ tokens sv', ActiveDaemonTokens f buf now sv = Ret (tokens, sv') ∧
    active_daemon_tokens_ sv' = tokens ∧ length tokens = 3%nat ∧
    (tokens = active_daemon_tokens_ sv ∨
     tokens = drop 1 (active_daemon_tokens_ sv) ++ [NextDaemonToken buf]) ∧
    user_token_verifier_ sv' = user_token_verifier_ sv ∧
    servant_token_verifier_ sv' = servant_token_verifier_ sv ∧
    dispatcher sv' = dispatcher sv.
Proof.
  intros H3. unfold ActiveDaemonTokens. destruct (_ <? _).
  - destruct (active_daemon_tokens_ sv) as [|a l] eqn:E; [done|].
    do 2 eexists. split; [reflexivity|]. cbn. split_and!; try done.
    + rewrite length_app. cbn in *. lia.
    + by right.
  - exists (active_daemon_tokens_ sv), sv. split_and!; try done. by left.
Qed.

(** The daemon token that [GetConfig] hands to a client is one of the three
    tokens the servants accept at that time, and still is after the next call that
    may rotate the tokens: one rotation never invalidates the token in use. *)
Theorem GetConfig_token_overlap f buf token now sv :
  length (active_daemon_tokens_ sv) = 3%nat →
  Verify (user_token_verifier_ sv) token = true →
  ∃ t sv', GetConfig f buf token now sv = Ret (OK, Some t, sv') ∧
    t ∈ active_daemon_tokens_ sv' ∧ length (active_daemon_tokens_ sv') = 3%nat ∧
    ∀ buf' now', ∃ tokens sv'', ActiveDaemonTokens f buf' now' sv' = Ret (tokens, sv'') ∧
      t ∈ tokens ∧ length tokens = 3%nat.
Proof.
  intros H3 V. unfold GetConfig. rewrite V. cbn [negb].
  destruct (ActiveDaemonTokens_cases f buf now sv H3) as (tokens & sv' & -> & Ht & Hl & _).
  cbn. destruct tokens as [|a [|t [|c [|]]]]; try done. cbn.
  exists t, sv'. rewrite Ht. split_and!; [done|by right; left|done|].
  intros buf' now'.
  destruct (ActiveDaemonTokens_cases f buf' now' sv') as (tokens' & sv'' & -> & _ & Hl' & Hc & _);
    [by rewrite Ht|].
  exists tokens', sv''. split_and!; try done. rewrite Ht in Hc.
  destruct Hc as [-> | ->]; [by right; left|by left].
Qed.

Definition demo_flags : Flags := {|
  FLAGS_min_daemon_version := 0; FLAGS_token_rollout_interval_s := 3000;
  FLAGS_default_user_tokens := "nieyang"; FLAGS_default_servant_tokens := "nieyang" |}.
Definition demo_service : Service :=
  SchedulerServiceImpl_init demo_flags "a" "b" "c" 0 (TaskDispatcher_init 0).

Lemma GetConfig_token_overlap_witness :
  ∃ t sv', GetConfig demo_flags "d" "nieyang" (secs 4000) demo_service = Ret (OK, Some t, sv').
Proof.
  destruct (GetConfig_token_overlap demo_flags "d" "nieyang" (secs 4000) demo_service)
    as (t & sv' & E & _); [reflexivity|vm_compute; reflexivity|].
  by exists t, sv'.
Defined.

(** The checks a heart beat passes. *)
Definition heartbeat_valid (inet_pton : string → bool) (f : Flags) (peer : string)
    (r : HeartBeatRequest) (sv : Service) : Prop :=
  (Verify (user_token_verifier_ sv) (hb_token r) = true ∨
   Verify (servant_token_verifier_ sv) (hb_token r) = true) ∧
  FLAGS_min_daemon_version f ≤ hb_version r ∧
  ms (hb_next_heart_beat_in_ms r) ≤ secs 15 ∧
  is_Some (TryParseIPv4 inet_pton (hb_location r)) ∧
  is_Some (TryParseGrpcIPv4 inet_pton peer).

(** A heart beat is accepted exactly when its token, version, interval and both
    addresses pass; a refused one changes nothing.  An accepted one registers or
    refreshes the servant at the observed ip and reported port and answers with the
    three tokens and the unknown tasks; the servant offers concurrency only when
    the servant token was given, it is not behind a NAT and it announces a next
    heart beat. *)
Theorem HeartBeat_spec inet_pton f buf peer now r sv :
  length (active_daemon_tokens_ sv) = 3%nat →
  ∃ status resp sv', HeartBeat inet_pton f buf peer now r sv = Ret (status, resp, sv') ∧
  (status = OK ↔ heartbeat_valid inet_pton f peer r sv) ∧
  (status ≠ OK → resp = None ∧ sv' = sv) ∧
  (status = OK → ∃ ip port info tokens expired,
     (∃ peer_port, peer = peer_of ip peer_port) ∧
     observed_location info = ip +:+ ":" +:+ port ∧
     (0 < concurrency info → concurrency info = hb_concurrency r ∧
        Verify (servant_token_verifier_ sv) (hb_token r) = true ∧
        observed_location info = hb_location r ∧ hb_next_heart_beat_in_ms r ≠ 0) ∧
     resp = Some {| hb_tokens := tokens; hb_expired_tasks := expired |} ∧
     length tokens = 3%nat ∧ active_daemon_tokens_ sv' = tokens ∧
     NotifyServantRunningTasks (hb_location r) (hb_running_tasks r)
       (KeepServantAlive info (hb_next_heart_beat_in_ms r) now (dispatcher sv))
       = (expired, dispatcher sv')).
Proof.
  intros H3. unfold HeartBeat, heartbeat_valid.
  destruct (Verify (user_token_verifier_ sv) _) eqn:V1, (Verify (servant_token_verifier_ sv) _) eqn:V2;
    cbn [negb andb].
  4: { do 3 eexists. split; [reflexivity|]. split; [split; [done|intros [[?|?] _]; done]|].
       split; [done|done]. }
  all: destruct (Z.ltb_spec (hb_version r) (FLAGS_min_daemon_version f));
    [do 3 eexists; split; [reflexivity|]; split; [split; [done|intros (_ & ? & _); lia]|done]|].
  all: destruct (Z.ltb_spec (secs 15) (ms (hb_next_heart_beat_in_ms r)));
    [do 3 eexists; split; [reflexivity|]; split; [split; [done|intros (_ & _ & ? & _); lia]|done]|].
  all: destruct (TryParseIPv4 inet_pton (hb_location r)) as [[rip rport]|];
    [|do 3 eexists; split; [reflexivity|];
      split; [split; [done|by intros (_ & _ & _ & [] & _)]|done]].
  all: destruct (TryParseGrpcIPv4 inet_pton peer) as [[ip pport]|] eqn:G;
    [|do 3 eexists; split; [reflexivity|];
      split; [split; [done|by intros (_ & _ & _ & _ & [])]|done]].
  all: cbv zeta; set (d1 := KeepServantAlive _ _ _ _);
    destruct (ActiveDaemonTokens_cases f buf now (with_dispatcher d1 sv) H3)
      as (tokens & sv2 & -> & Ht & Hl & _ & _ & _ & Hd); cbn [mbind outcome_bind];
    destruct (NotifyServantRunningTasks _ _ _) as [expired d2] eqn:N.
  all: do 3 eexists; split; [reflexivity|].
  all: split; [split; [intros _; split_and!; eauto|done]|].
  all: split; [done|]; intros _; eexists ip, rport, _, tokens, expired.
  all: apply TryParseGrpcIPv4_Some in G as [G _].
  all: split; [by exists pport|]; rewrite Hd in N; cbn in N; subst d1.
  all: split_and!; [| |reflexivity|done|done|exact N]; [done|].
  all: cbn; destruct (Z.eqb_spec (hb_next_heart_beat_in_ms r) 0); [lia|]; cbn; try lia.
  all: match goal with |- context [String.eqb ?x ?y] => destruct (String.eqb_spec x y) end; cbn;
    [intros ?; by split_and!|lia].
Qed.

Definition demo_pton (s : string) : bool := String.eqb s "10.0.0.2".
Definition demo_beat : HeartBeatRequest := {|
  hb_token := "nieyang"; hb_next_heart_beat_in_ms := 10000; hb_version := 1;
  hb_location := "10.0.0.2:80"; hb_num_cpu_cores := 2; hb_current_load := 0;
  hb_priority := SERVANT_PRIORITY_USER; hb_concurrency := 2; hb_not_accepting_reason := 0;
  hb_total_memory_in_bytes := 0; hb_avail_memory_in_bytes := 0;
  hb_env_descs := [{| compiler_digest := "gcc" |}]; hb_running_tasks := [] |}.

Lemma HeartBeat_spec_witness :
  ∃ resp sv', HeartBeat demo_pton demo_flags "d" "ipv4:10.0.0.2:5555" 7 demo_beat demo_service
    = Ret (OK, resp, sv').
Proof.
  destruct (HeartBeat_spec demo_pton demo_flags "d" "ipv4:10.0.0.2:5555" 7 demo_beat demo_service)
    as (status & resp & sv' & E & H & _); [reflexivity|].
  exists resp, sv'. rewrite E. do 3 f_equal. apply H.
  split_and!; [left; vm_compute; reflexivity|by vm_compute|by vm_compute|..]; vm_compute; eauto.
Defined.

(** The scheduler never recognises a requester's own machine: the requester is
    given by its grpc peer name ["ipv4:ip:port"], a servant's observed location is
    ["ip:port"], and the comparison that should match them always fails.  The only
    fact about [inet_pton] is that ["ipv4"] is not an address. *)
Theorem own_machine_never_matches inet_pton requester ip port peer obs_ip obs_port reported s :
  inet_pton "ipv4" = false →
  TryParseGrpcIPv4 inet_pton requester = Some (ip, port) →
  TryParseGrpcIPv4 inet_pton peer = Some (obs_ip, obs_port) →
  observed_location (servant_info s) = obs_ip +:+ ":" +:+ reported →
  same_ip requester s = false.
Proof.
  intros Hv (-> & _ & _)%TryParseGrpcIPv4_Some (_ & Hn & Hp)%TryParseGrpcIPv4_Some Hl.
  unfold same_ip. apply andb_false_iff. right. rewrite Hl.
  apply not_true_iff_false. intros [r' E]%StartWith_iff.
  assert (obs_ip = "ipv4") as Ei; [|rewrite Ei in Hp; cbn in Hp; congruence].
  by eapply (first_field_inj ":"); [| |exact E].
Qed.

Lemma own_machine_never_matches_witness :
  same_ip "ipv4:10.0.0.2:5555" {| servant_info := {|
    version := 1; observed_location := "10.0.0.2:80"; reported_location := "10.0.0.2:80";
    num_cpu_cores := 4; current_load := 0; total_memory_in_bytes := 0;
    avail_memory_in_bytes := 0; concurrency := 4; priority := SERVANT_PRIORITY_USER;
    env_decs := [] |}; discovered_tp := 0; servant_expires_tp := 0; running_tasks := 0;
    assigned_tasks := 0 |} = false.
Proof.
  eapply (own_machine_never_matches demo_pton _ "10.0.0.2" "5555" "ipv4:10.0.0.2:6000"
    "10.0.0.2" "6000" "80"); vm_compute; reflexivity.
Defined.

(** ** WaitForStaringTask *)

(** What the other threads do around the calls [i < K] keeps the dispatcher's state
    reachable; [B i] bounds the ids issued before call [i]. *)
Definition calls_ok (mem : Z) (B : nat → Z) (K : nat) (calls : nat → Call) : Prop :=
  ∀ i n st, (i < K)%nat → reachable mem n st → n ≤ B i →
    B (S i) ≤ 2 ^ 64 ∧
    (∃ n', reachable mem n' (call_interference (calls i) st) ∧ n' < B (S i)) ∧
    ∀ d, wakes_below mem (B (S i)) (call_wakes (calls i) d).

Section waiting.
Context (mem : Z) (B : nat → Z) (K : nat) (calls : nat → Call).
Context (calls_fine : calls_ok mem B K calls).

Definition below (i : nat) (st : State) : Prop := ∃ n, reachable mem n st ∧ n ≤ B i.

Lemma run_call_cases i ti e d pf st :
  (i < K)%nat → below i st →
  ∃ r, run_call (calls i) ti e d pf st = Ret r ∧
    match r with
    | None => True
    | Some (Some _, w, st') => w = WaitStatus_OK ∧ below (S i) st'
    | Some (None, w, st') => w ≠ WaitStatus_OK ∧ below (S i) st'
    end.
Proof.
  intros Hi (n & R & Hn). destruct (calls_fine i n st Hi R Hn) as (HB & (n' & R' & Hn') & W).
  destruct (WaitForStartingNewTask_cases mem (B (S i)) n' (call_interference (calls i) st) ti e
    (call_now (calls i)) pf (call_wakes (calls i) d)) as (r & E & Hr); [done..|by apply W|].
  exists r. split; [done|]. destruct Hr as [|st' m _ Rm|w m _ _ Rm|st0 p s g st' m _ _ _ _ Rm];
    (split || done); try done; exists m; split; (done || lia).
Qed.

Lemma immediate_loop_cases ti e now mw n i grants st :
  (i + n ≤ K)%nat → below i st →
  ∃ r, immediate_loop calls ti e now mw n i grants st = Ret r ∧
    match r with
    | None => True
    | Some (inl (status, _)) => status = NOT_FOUND
    | Some (inr (grants', i', st')) =>
      below i' st' ∧ (i' ≤ i + n)%nat ∧
      (length grants ≤ length grants' ≤ length grants + n)%nat
    end.
Proof.
  revert i grants st; induction n as [|n IH]; intros i grants st Hi Hb; cbn [immediate_loop].
  { eexists; split; [reflexivity|]. cbn. split; [done|]. lia. }
  destruct (run_call_cases i ti e (now + (if (i =? 0)%nat then mw else 0)) false st)
    as (r & -> & Hr); [lia|done|]. cbn [mbind outcome_bind].
  destruct r as [[[[a|] w] st']|]; [| |by eexists].
  - destruct Hr as [-> Hb'].
    destruct (IH (S i) (grants ++ [grant_of_allocation a]) st') as (r & -> & Hr); [lia|done|].
    exists r. split; [done|]. destruct r as [[[? ?]|[[g' i'] st'']]|]; try done.
    rewrite length_app in Hr. cbn in Hr. destruct Hr as (? & ? & ?). split; [done|]. lia.
  - destruct Hr as [Hw Hb']. destruct w; [done| |]; eexists; (split; [reflexivity|]); cbn; [done|].
    split; [done|]. lia.
Qed.

Lemma prefetch_loop_cases ti e now mw n i grants st :
  (i + n ≤ K)%nat → below i st →
  ∃ r, prefetch_loop calls ti e now mw n i grants st = Ret r ∧
    match r with
    | None => True
    | Some (grants', st') => (length grants ≤ length grants' ≤ length grants + n)%nat
    end.
Proof.
  revert i grants st; induction n as [|n IH]; intros i grants st Hi Hb; cbn [prefetch_loop].
  { eexists; split; [reflexivity|]. cbn. lia. }
  destruct (run_call_cases i ti e (now + (if decide (grants = []) then mw else 0)) true st)
    as (r & -> & Hr); [lia|done|]. cbn [mbind outcome_bind].
  destruct r as [[[[a|] w] st']|]; [| |by eexists].
  - destruct Hr as [-> Hb'].
    destruct (IH (S i) (grants ++ [grant_of_allocation a]) st') as (r & -> & Hr); [lia|done|].
    exists r. split; [done|]. destruct r as [[g' st'']|]; [|done].
    rewrite length_app in Hr. cbn in Hr. lia.
  - eexists; (split; [reflexivity|]); cbn. lia.
Qed.
End waiting.

Ltac wst_case D :=
  eexists; split; [reflexivity|]; cbn in *; split_and!; try done; try lia; try (by apply D);
  try (split; [done|intros ?; done]); try (split; auto; fail);
  try (rewrite !elem_of_cons; tauto).

(** C27. A request for tasks never fails otherwise than by its statuses: a token that
    is not a user's or a too long wait is refused and changes nothing; it succeeds
    only with at least one grant and at most as many as were asked for, and a
    missing compiler or no capacity gives no grant. *)
Theorem WaitForStaringTask_spec mem B calls n peer now r sv :
  let K := (Z.to_nat (wst_immeadiate_reqs r) + Z.to_nat (wst_prefetch_reqs r))%nat in
  calls_ok mem B K calls → reachable mem n (dispatcher sv) → n ≤ B 0%nat →
  ∃ res, WaitForStaringTask calls peer now r sv = Ret res ∧
  match res with
  | None => True
  | Some (status, grants, sv') =>
    (status = OK ↔ grants ≠ []) ∧ (length grants ≤ K)%nat ∧
    (status = PERMISSION_DENIED ↔
       Verify (user_token_verifier_ sv) (wst_token r) = false ∨
       secs 15 < ms (wst_mills_to_wait r) ∨ secs 30 < ms (wst_next_keep_alive_in_ms r)) ∧
    (status = PERMISSION_DENIED → sv' = sv) ∧
    (status ∈ [OK; PERMISSION_DENIED; NOT_FOUND; RESOURCE_EXHAUSTED])
  end.
Proof.
  cbv zeta. intros C R Hn. unfold WaitForStaringTask.
  destruct (Verify _ _) eqn:V; cbn [negb].
  2: by wst_case V.
  destruct (Z.ltb_spec (secs 15) (ms (wst_mills_to_wait r))) as [H15|H15]; cbn [orb].
  { by wst_case H15. }
  destruct (Z.ltb_spec (secs 30) (ms (wst_next_keep_alive_in_ms r))) as [H30|H30].
  { by wst_case H30. }
  assert (D : ∀ status, status ≠ PERMISSION_DENIED → (status = PERMISSION_DENIED ↔
    true = false ∨ secs 15 < ms (wst_mills_to_wait r) ∨
    secs 30 < ms (wst_next_keep_alive_in_ms r))) by (intros; split; [done|intros [?|[?|?]]; done || lia]).
  edestruct (immediate_loop_cases mem B _ calls C) as (r1 & -> & H1);
    [|by exists n|]; [lia|]. cbn [mbind outcome_bind].
  destruct r1 as [[[status st1]|[[g1 i1] st1]]|]; [| |by eexists].
  { subst status. by wst_case D. }
  destruct H1 as (Hb1 & Hi1 & Hg1).
  edestruct (prefetch_loop_cases mem B _ calls C) as (r2 & -> & H2); [|exact Hb1|]; [lia|].
  cbn [mbind outcome_bind]. destruct r2 as [[[|g gs] st2]|]; [| |by eexists]; by wst_case D.
Qed.

Definition demo_calls (i : nat) : Call := {|
  call_interference := λ st, st; call_wakes := λ _, []; call_now := 3 |}.

Lemma WaitForStaringTask_spec_witness :
  ∃ res, WaitForStaringTask demo_calls "ipv4:10.0.0.9:1000" 2
    {| wst_token := "nieyang"; wst_mills_to_wait := 1000; wst_env_desc := demo_env;
       wst_immeadiate_reqs := 1; wst_prefetch_reqs := 1; wst_next_keep_alive_in_ms := 5000;
       wst_min_version := 1 |} (with_dispatcher demo0 demo_service) = Ret res.
Proof.
  edestruct (WaitForStaringTask_spec 0 Z.of_nat demo_calls 0) as (res & E & _);
    [| | |exists res; exact E].
  - intros i n st Hi R Hn. cbn in Hi. split_and!; [lia| |intros d w Hw; by apply elem_of_nil in Hw].
    exists n. split; [done|lia].
  - apply demo0_reachable.
  - done.
Defined.
