(* ===== verification/SchedHistory.v ===== *)
(** The scheduler's service over whole histories: its handlers
    (src/distribuild/scheduler/scheduler_service_impl.cpp) as runs of the dispatcher, and what
    that says about the machines a response names.

    A history is a sequence of labels of SchedSpec, one per call of the dispatcher, whichever
    handler or timer made it.  [authorised] says which calls the handlers make. *)
From S2P Require Import Prelude Text Proto Token Bookkeeper SchedDispatch SchedFacts SchedSpec SchedService.

(** The fields of a heart beat that are 32-bit. *)
Record beat_typed (r : HeartBeatRequest) : Prop := {
  beat_cores : 0 ≤ hb_num_cpu_cores r < 2 ^ 32;
  beat_load : 0 ≤ hb_current_load r < 2 ^ 32;
  beat_concurrency : 0 ≤ hb_concurrency r < 2 ^ 32
}.

Section history.
Context (f : Flags).
(** The token verifiers of the service, which never change. *)
Context (users servants : TokenVerifier).

Definition same_tokens (sv : Service) : Prop :=
  user_token_verifier_ sv = users ∧ servant_token_verifier_ sv = servants.

(** An accepted heart beat: what it makes of the servant. *)
Definition beat_of (info : ServantInfo) (expire_time : Z) (r : HeartBeatRequest) : Prop :=
  beat_typed r ∧ FLAGS_min_daemon_version f ≤ hb_version r ∧
  expire_time = hb_next_heart_beat_in_ms r ∧ ms expire_time ≤ secs 15 ∧
  (Verify users (hb_token r) = true ∨ Verify servants (hb_token r) = true) ∧
  ∃ observed, info = heartbeat_info (Verify servants (hb_token r)) observed r.

(** Servants come from accepted heart beats. *)
Definition authorised (l : Label) : Prop :=
  if l is L_keep_servant info e _ then ∃ r, beat_of info e r else True.

(** A part of the history: a run of the dispatcher by authorised calls. *)
Definition follows (st : State) (t : list Label) (st' : State) : Prop :=
  run lstep st t st' ∧ Forall authorised t.

Lemma follows_nil st : follows st [] st.
Proof. split; [constructor|constructor]. Qed.

Lemma follows_app st t1 st1 t2 st2 :
  follows st t1 st1 → follows st1 t2 st2 → follows st (t1 ++ t2) st2.
Proof. intros [R1 A1] [R2 A2]. split; [by eapply run_app|]. by apply Forall_app. Qed.

Lemma follows_step st l st' : lstep st l st' → authorised l → follows st [l] st'.
Proof.
  intros H A. split; [|by apply Forall_singleton].
  apply (run_snoc lstep st [] st); [constructor|done].
Qed.

(** ** HeartBeat *)

Lemma heartbeat_info_typed is_servant observed r :
  beat_typed r → info_typed (heartbeat_info is_servant observed r).
Proof.
  intros [Hn Hl Hc]. split; cbn; [case_match; lia|done|].
  repeat case_match; lia.
Qed.

Lemma HeartBeat_follows inet_pton buf peer now r sv status resp sv' :
  same_tokens sv → beat_typed r →
  HeartBeat inet_pton f buf peer now r sv = Ret (status, resp, sv') →
  same_tokens sv' ∧ ∃ t, follows (dispatcher sv) t (dispatcher sv').
Proof.
  intros T Ty. pose proof T as [Tu Ts]. unfold HeartBeat. rewrite Tu, Ts.
  assert (Refused : ∀ s p, Ret (s, p, sv) = Ret (status, resp, sv') →
    same_tokens sv' ∧ ∃ t, follows (dispatcher sv) t (dispatcher sv')).
  { intros s p [= _ _ <-]. split; [done|]. exists []. apply follows_nil. }
  destruct (negb (Verify users (hb_token r)) && negb (Verify servants (hb_token r))) eqn:V;
    [apply Refused|].
  destruct (Z.ltb_spec (hb_version r) (FLAGS_min_daemon_version f)) as [|Hv]; [apply Refused|].
  destruct (Z.ltb_spec (secs 15) (ms (hb_next_heart_beat_in_ms r))) as [|Hb]; [apply Refused|].
  destruct (TryParseIPv4 inet_pton (hb_location r)) as [[rip rport]|]; [|apply Refused].
  destruct (TryParseGrpcIPv4 inet_pton peer) as [[ip pport]|]; [|apply Refused].
  cbv zeta. set (info := heartbeat_info _ _ r). clear Refused.
  intros ([tokens sv2] & Ha & H)%bind_Ret.
  assert (A : same_tokens sv2 ∧ dispatcher sv2 =
    KeepServantAlive info (hb_next_heart_beat_in_ms r) now (dispatcher sv)).
  { revert Ha. unfold ActiveDaemonTokens. destruct (_ <? _); [|by intros [= _ <-]].
    cbn. destruct (active_daemon_tokens_ sv); [done|]. by intros [= _ <-]. }
  destruct A as [T2 D2]. rewrite D2 in H.
  destruct (NotifyServantRunningTasks _ _ _) as [expired d2] eqn:N.
  injection H as _ _ <-. split; [exact T2|].
  exists ([L_keep_servant info (hb_next_heart_beat_in_ms r) now] ++
          [L_notify (hb_location r) (hb_running_tasks r) expired]).
  eapply follows_app; apply follows_step; [..|done].
  - apply l_keep_servant. by apply heartbeat_info_typed.
  - exists r. split_and!; try done; [|by eexists].
    destruct (Verify users _); [by left|]. destruct (Verify servants _); [by right|done].
  - by apply l_notify.
Qed.

(** ** The other handlers *)

Lemma keep_alive_loop_follows ids e clock st :
  ∃ t, follows st t (keep_alive_loop ids e clock st).2.
Proof.
  revert clock st; induction ids as [|id ids IH]; intros clock st; [exists []; apply follows_nil|].
  cbn. destruct (SchedDispatch.KeepTaskAlive id e (clock O) st) as [ok st1] eqn:E1.
  destruct (IH (λ i, clock (S i)) st1) as [t F].
  destruct (keep_alive_loop ids e (λ i, clock (S i)) st1) as [oks st2].
  exists ([L_keep_task id e (clock O) ok] ++ t). eapply follows_app; [|exact F].
  apply follows_step; [by apply l_keep_task|done].
Qed.

Lemma KeepTaskAlive_follows clock r sv status oks sv' :
  KeepTaskAlive clock r sv = (status, oks, sv') →
  ∃ t, follows (dispatcher sv) t (dispatcher sv').
Proof.
  unfold KeepTaskAlive. assert (R : ∃ t, follows (dispatcher sv) t (dispatcher sv))
    by (exists []; apply follows_nil).
  destruct (Verify _ _); cbn; [|by intros [= _ _ <-]].
  destruct (_ <? _); [by intros [= _ _ <-]|].
  destruct (keep_alive_loop_follows (kta_task_grant_ids r) (kta_next_keep_alive_in_ms r) clock
    (dispatcher sv)) as [t F].
  destruct (keep_alive_loop _ _ _ _) as [x st]. intros [= _ _ <-]. by exists t.
Qed.

Lemma FreeTask_follows r sv status sv' :
  FreeTask r sv = (status, sv') → ∃ t, follows (dispatcher sv) t (dispatcher sv').
Proof.
  unfold FreeTask. destruct (Verify _ _); cbn; intros [= _ <-]; [|exists []; apply follows_nil].
  cbn. generalize (dispatcher sv). induction (ftr_task_grant_ids r) as [|id ids IH]; intros st;
    [exists []; apply follows_nil|]. cbn [foldl].
  destruct (IH (SchedDispatch.FreeTask id st).1) as [t F].
  exists ([L_free id] ++ t). eapply follows_app; [|exact F]. by apply follows_step; [apply l_free|].
Qed.

(** ** WaitForStaringTask *)

(** While a call waits, the others make calls of the dispatcher; they issue [N] grants. *)
Inductive wakes_follow : State → list Wake → Z → Prop :=
  | wakes_nil st : wakes_follow st [] 0
  | wakes_cons st w ws t N :
      follows st t (woken_state w) → wakes_follow (woken_state w) ws N →
      wakes_follow st (w :: ws) (grants_of t + N).

Lemma wakes_nonneg st ws N : wakes_follow st ws N → 0 ≤ N.
Proof. induction 1 as [|st w ws t N _ _ IH]; [done|]. pose proof (grants_of_nonneg t). lia. Qed.

(** A call issues its own grant at most. *)
Lemma wait_follows st ti e now pf wakes N al w st' :
  wakes_follow st wakes N →
  WaitForStartingNewTask st ti e now pf wakes = Ret (Some (al, w, st')) →
  ∃ t, follows st t st' ∧ grants_of t ≤ N + 1 ∧
    ∀ a, al = Some a → ∃ t', t = t' ++ [L_grant ti e now pf a].
Proof.
  intros W. revert al w st'. induction W as [st|st x ws t N F W IH]; intros al w st';
    cbn [WaitForStartingNewTask]; intros (at1 & Ha & H)%bind_Ret; destruct at1 as [| |a st1];
    try done; try (pose proof (wakes_nonneg _ _ _ W); pose proof (grants_of_nonneg t)).
  - injection H as <- _ <-. exists []. split; [apply follows_nil|done].
  - injection H as <- _ <-. exists [L_grant ti e now pf a].
    split; [by apply follows_step; [apply l_grant|]|]. split; [done|]. intros a' [= <-]. by exists [].
  - injection H as <- _ <-. exists []. split; [apply follows_nil|]. split; [change (grants_of []) with 0; lia|done].
  - destruct (timed_out x).
    + injection H as <- _ <-. exists t. split_and!; [done|lia|done].
    + destruct (IH al w st' H) as (t2 & F2 & Hn & G). exists (t ++ t2).
      split; [by eapply follows_app|]. rewrite grants_of_app. split; [lia|].
      intros a Hal. destruct (G a Hal) as [t' ->]. exists (t ++ t'). apply app_assoc.
  - injection H as <- _ <-. exists [L_grant ti e now pf a].
    split; [by apply follows_step; [apply l_grant|]|].
    split; [rewrite grants_of_single; cbn [label_grants is_grant]; lia|].
    intros a' [= <-]. by exists [].
Qed.

(** The next [n] calls of a handler, from the [i]-th on, with what the others do before and
    during each of them; the others issue at most [N] grants. *)
Fixpoint calls_follow (calls : nat → Call) (ti : TaskInfo) (e : Z) (n i : nat) (st : State) (N : Z)
    : Prop :=
  0 ≤ N ∧
  match n with
  | O => True
  | S n =>
    let st1 := call_interference (calls i) st in
    ∃ t, follows st t st1 ∧
    ∀ d, ∃ N1, wakes_follow st1 (call_wakes (calls i) d) N1 ∧
      ∀ pf al w st', run_call (calls i) ti e d pf st = Ret (Some (al, w, st')) →
        calls_follow calls ti e n (S i) st' (N - grants_of t - N1)
  end.

(** A grant of the response was issued in the history. *)
Definition granted (ti : TaskInfo) (t : list Label) (g : StartingTaskGrant) : Prop :=
  ∃ u e now pf al v, t = u ++ L_grant ti e now pf al :: v ∧ g = grant_of_allocation al.

Lemma granted_app ti t1 t2 g : granted ti t1 g ∨ granted ti t2 g → granted ti (t1 ++ t2) g.
Proof.
  intros [(u & e & now & pf & al & v & -> & ->)|(u & e & now & pf & al & v & -> & ->)].
  - exists u, e, now, pf, al, (v ++ t2). by rewrite <- app_assoc.
  - exists (t1 ++ u), e, now, pf, al, v. by rewrite <- app_assoc.
Qed.

Lemma run_call_follows calls ti e d pf n i st N al w st' :
  calls_follow calls ti e (S n) i st N →
  run_call (calls i) ti e d pf st = Ret (Some (al, w, st')) →
  ∃ t N', calls_follow calls ti e n (S i) st' N' ∧ follows st t st' ∧
    grants_of t + N' ≤ N + 1 ∧ ∀ a, al = Some a → granted ti t (grant_of_allocation a).
Proof.
  intros (_ & t0 & F0 & W) R. destruct (W d) as (N1 & Wd & Wn).
  destruct (wait_follows _ _ _ _ _ _ _ _ _ _ Wd R) as (t & F & Hn & G).
  exists (t0 ++ t), (N - grants_of t0 - N1). split; [by eapply Wn|].
  split; [by eapply follows_app|]. rewrite grants_of_app. split; [lia|].
  intros a Ha. destruct (G a Ha) as [t' ->].
  apply granted_app. right. by exists t', e, (call_now (calls i)), pf, a, [].
Qed.

(** What a loop of a handler does: the history goes on by [t], every grant of [gs'] that is
    not in [gs] is in [t], and [n] more calls issue at most [n] grants besides the others'. *)
Definition loop_follows (ti : TaskInfo) (n : nat) (N : Z) (gs gs' : list StartingTaskGrant)
    (st : State) (t : list Label) (N' : Z) (st' : State) : Prop :=
  follows st t st' ∧ grants_of t + N' ≤ N + Z.of_nat n ∧
  ∀ g, g ∈ gs' → g ∈ gs ∨ granted ti t g.

Lemma loop_follows_nil ti n N gs st : loop_follows ti n N gs gs st [] N st.
Proof. split; [apply follows_nil|]. split; [change (grants_of []) with 0; lia|by left]. Qed.

(** One call, and then the rest of the loop. *)
Lemma loop_follows_cons ti n N N1 N2 gs gs' a st t1 st1 t2 st2 :
  follows st t1 st1 → grants_of t1 + N1 ≤ N + 1 → granted ti t1 (grant_of_allocation a) →
  loop_follows ti n N1 (gs ++ [grant_of_allocation a]) gs' st1 t2 N2 st2 →
  loop_follows ti (S n) N gs gs' st (t1 ++ t2) N2 st2.
Proof.
  intros F1 H1 G1 (F2 & H2 & G2). split; [by eapply follows_app|].
  rewrite grants_of_app. split; [lia|].
  intros g [[Hg|Hg%list_elem_of_singleton]%elem_of_app|Hg]%G2; [by left|right..];
    apply granted_app; [left; by subst g|by right].
Qed.

Lemma immediate_follows calls ti e now mw n m i gs st N r :
  calls_follow calls ti e (n + m) i st N →
  immediate_loop calls ti e now mw n i gs st = Ret (Some r) →
  match r with
  | inl (_, st') => ∃ t, follows st t st'
  | inr (gs', i', st') => ∃ t k N', (m ≤ k)%nat ∧ calls_follow calls ti e k i' st' N' ∧
                                loop_follows ti n N gs gs' st t N' st'
  end.
Proof.
  revert i gs st N; induction n as [|n IH]; intros i gs st N C; cbn [immediate_loop].
  { intros [= <-]. exists [], m, N. split; [done|]. split; [done|]. apply loop_follows_nil. }
  intros ([[[[a|] w] st1]|] & R & H)%bind_Ret; [| |done];
    destruct (run_call_follows _ _ _ _ _ (n + m) _ _ _ _ _ _ C R) as (t1 & N1 & C1 & F1 & H1 & G1).
  - specialize (IH (S i) (gs ++ [grant_of_allocation a]) st1 N1 C1 H).
    destruct r as [[status st']|[[gs' i'] st']].
    + destruct IH as [t F]. exists (t1 ++ t). by eapply follows_app.
    + destruct IH as (t & k & N' & Hk & C' & L). exists (t1 ++ t), k, N'.
      split; [done|]. split; [done|]. eapply loop_follows_cons; [done..| |exact L]. by apply G1.
  - assert (E : r = inl (NOT_FOUND, st1) ∨ r = inr (gs, S i, st1))
      by (destruct w; injection H as <-; auto).
    destruct E as [-> | ->]; [by exists t1|]. exists t1, (n + m)%nat, N1.
    split; [lia|]. split; [done|]. split; [done|]. split; [lia|by left].
Qed.

Lemma calls_follow_nonneg calls ti e n i st N : calls_follow calls ti e n i st N → 0 ≤ N.
Proof. by destruct n; intros [? _]. Qed.

(** Of the calls that are left only [n] are made. *)
Lemma prefetch_follows calls ti e now mw n m i gs st N gs' st' :
  calls_follow calls ti e (n + m) i st N →
  prefetch_loop calls ti e now mw n i gs st = Ret (Some (gs', st')) →
  ∃ t N' k i', calls_follow calls ti e k i' st' N' ∧ loop_follows ti n N gs gs' st t N' st'.
Proof.
  revert i gs st N; induction n as [|n IH]; intros i gs st N C; cbn [prefetch_loop].
  { intros [= <- <-]. exists [], N, m, i. split; [done|]. apply loop_follows_nil. }
  intros ([[[[a|] w] st1]|] & R & H)%bind_Ret; [| |done];
    destruct (run_call_follows _ _ _ _ _ (n + m) _ _ _ _ _ _ C R) as (t1 & N1 & C1 & F1 & H1 & G1).
  - destruct (IH (S i) (gs ++ [grant_of_allocation a]) st1 N1 C1 H) as (t & N' & k & i' & C' & L).
    exists (t1 ++ t), N', k, i'. split; [done|]. eapply loop_follows_cons; [done..| |exact L].
    by apply G1.
  - injection H as <- <-. exists t1, N1, (n + m)%nat, (S i). split; [done|].
    split; [done|]. split; [lia|by left].
Qed.

(** The request as a [TaskInfo], and the number of calls it makes at most. *)
Definition task_of (peer : string) (r : WaitForStaringTaskRequest) : TaskInfo :=
  {| requester_ip := peer; min_version := wst_min_version r; env_desc := wst_env_desc r |}.
Definition calls_of (r : WaitForStaringTaskRequest) : nat :=
  Z.to_nat (wst_immeadiate_reqs r) + Z.to_nat (wst_prefetch_reqs r).

(** An answer with grants; the others issue at most [N]. *)
Lemma WaitForStaringTask_follows calls peer now r sv N status grants sv' :
  calls_follow calls (task_of peer r) (wst_next_keep_alive_in_ms r) (calls_of r) 0
    (dispatcher sv) N →
  WaitForStaringTask calls peer now r sv = Ret (Some (status, grants, sv')) → grants ≠ [] →
  ∃ t, follows (dispatcher sv) t (dispatcher sv') ∧ grants_of t ≤ N + Z.of_nat (calls_of r) ∧
    ∀ g, g ∈ grants → granted (task_of peer r) t g.
Proof.
  intros C. unfold WaitForStaringTask. fold (task_of peer r).
  destruct (Verify _ _); cbn [negb]; [|by intros [= _ <- _]].
  destruct (_ || _); [by intros [= _ <- _]|].
  intros ([first|] & H1 & H)%bind_Ret Hne; [|done].
  pose proof (immediate_follows _ _ _ _ _ _ _ _ _ _ _ _ C H1) as F1.
  destruct first as [[status1 st1]|[[gs i] st1]]; [by injection H as _ <- <-|].
  apply bind_Ret in H as ([[gs2 st2]|] & H2 & H); [|done].
  destruct F1 as (t1 & k & N1 & Hk & C1 & F1 & B1 & G1).
  assert (Hk' : k = (Z.to_nat (wst_prefetch_reqs r) + (k - Z.to_nat (wst_prefetch_reqs r)))%nat)
    by lia. rewrite Hk' in C1.
  destruct (prefetch_follows _ _ _ _ _ _ _ _ _ _ _ _ _ C1 H2) as
    (t2 & N2 & k' & i' & C2 & F2 & B2 & G2).
  pose proof (calls_follow_nonneg _ _ _ _ _ _ _ C2).
  assert (E : dispatcher sv' = st2 ∧ grants = gs2) by (destruct gs2; by injection H as _ <- <-).
  destruct E as [-> ->]. exists (t1 ++ t2). split; [by eapply follows_app|].
  rewrite grants_of_app. split; [unfold calls_of; lia|].
  intros g [[Hg%elem_of_nil|Hg]%G1|Hg]%G2; [done|..]; apply granted_app; auto.
Qed.

(** * Properties *)

(** An offered machine is one whose servant token was accepted. *)
Lemma beat_offers info e r :
  beat_of info e r → 0 < concurrency info →
  Verify servants (hb_token r) = true ∧ hb_location r = observed_location info ∧
  0 < hb_concurrency r ∧ hb_next_heart_beat_in_ms r ≠ 0 ∧
  env_decs info = hb_env_descs r ∧ version info = hb_version r.
Proof.
  intros (_ & _ & _ & _ & _ & observed & ->). cbn.
  destruct (Z.eqb_spec (hb_next_heart_beat_in_ms r) 0); [lia|].
  destruct (Verify servants (hb_token r)); cbn; [|lia].
  destruct (String.eqb_spec observed (hb_location r)); cbn; [by subst|lia].
Qed.

End history.

(** A machine, a client and nobody else. *)
Definition sample_request : WaitForStaringTaskRequest := {|
  wst_token := "nieyang"; wst_mills_to_wait := 1000; wst_env_desc := demo_env;
  wst_immeadiate_reqs := 1; wst_prefetch_reqs := 0; wst_next_keep_alive_in_ms := 5000;
  wst_min_version := 1 |}.
Definition sample_service : Service :=
  match HeartBeat demo_pton SchedService.demo_flags "d" "ipv4:10.0.0.2:5555" 7 demo_beat demo_service with
  | Ret (_, _, sv) => sv
  | _ => demo_service
  end.
Definition sample_response : list StartingTaskGrant :=
  [{| grant_task_grant_id := 0; grant_servant_location := "10.0.0.2:80" |}].

Lemma sample_answered : ∃ sv',
  WaitForStaringTask demo_calls "ipv4:10.0.0.9:1000" 8 sample_request sample_service =
  Ret (Some (OK, sample_response, sv')).
Proof. eexists. vm_compute. reflexivity. Qed.

Definition sample_history : list Label :=
  [L_keep_servant (heartbeat_info true "10.0.0.2:80" demo_beat) 10000 7;
   L_notify "10.0.0.2:80" [] []].

Lemma sample_follows :
  follows SchedService.demo_flags (MakeTokenVerifier "nieyang") (MakeTokenVerifier "nieyang")
    (TaskDispatcher_init 0) sample_history (dispatcher sample_service).
Proof.
  eapply (follows_app _ _ _ _ [_] _ [_]); apply follows_step; [apply l_keep_servant| |apply l_notify|done].
  - by split.
  - exists demo_beat. split; [by split|]. do 3 (split; [done|]). split; [by left|].
    by exists "10.0.0.2:80".
  - vm_compute. reflexivity.
Qed.

