(* ===== verification/SysInfo.v ===== *)
(** Sizes of the host: src/distribuild/daemon/sysinfo.h.  The content of /proc/meminfo is an
    argument, as are the answers of [get_nprocs] and [getloadavg]. *)
From S2P Require Import Prelude Text.
From Stdlib Require Import QArith Qround.
#[local] Open Scope Z_scope.

(** [back()] of an empty string is undefined; [stoul] may throw; the product is on
    64 bits. *)
Definition ParseMemorySize (size_str : string) : outcome Z :=
  match slast size_str with
  | None => Undef "back of an empty string"
  | Some c =>
    let '(scale, digits) :=
      if Ascii.eqb c "G" then (2 ^ 30, spop_back size_str)
      else if Ascii.eqb c "M" then (2 ^ 20, spop_back size_str)
      else if Ascii.eqb c "K" then (2 ^ 10, spop_back size_str)
      else if Ascii.eqb c "B" then (1, spop_back size_str)
      else (1, size_str) in
    n ← stoul digits; Ret (u64 (n * scale))
  end.

(** ** /proc/meminfo *)

Record ProcMemInfo := {
  mem_total : Z;
  mem_free : Z;
  mem_available : Z;
  buffers : Z;
  cached : Z;
  swap_total : Z;
  swap_free : Z
}.
Definition ProcMemInfo_init : ProcMemInfo := {|
  mem_total := -1; mem_free := -1; mem_available := -1; buffers := -1; cached := -1;
  swap_total := -1; swap_free := -1 |}.

(** What a loop around [getline] reads; [cur] is in front. *)
Fixpoint lines_from (cur s : string) : list string :=
  match s with
  | "" => if String.eqb cur "" then [] else [cur]
  | String c s =>
    if Ascii.eqb c ch_newline then cur :: lines_from "" s
    else lines_from (cur +:+ String c "") s
  end.
Definition lines (s : string) : list string := lines_from "" s.

(** [iss >> value]: nothing is assigned ([None]) when only blanks are left; otherwise what
    [strtol] reads, also when that is no number or does not fit. *)
Definition read_value (s : string) : option Z :=
  if String.eqb (skip_spaces s) "" then None else Some (strtol s).

Definition set_field (key : string) (v : Z) (i : ProcMemInfo) : option ProcMemInfo :=
  let set t f a b c st sf := Some {| mem_total := t; mem_free := f; mem_available := a;
    buffers := b; cached := c; swap_total := st; swap_free := sf |} in
  if String.eqb key "MemTotal:" then
    set v (mem_free i) (mem_available i) (buffers i) (cached i) (swap_total i) (swap_free i)
  else if String.eqb key "MemFree:" then
    set (mem_total i) v (mem_available i) (buffers i) (cached i) (swap_total i) (swap_free i)
  else if String.eqb key "MemAvailable:" then
    set (mem_total i) (mem_free i) v (buffers i) (cached i) (swap_total i) (swap_free i)
  else if String.eqb key "Buffers:" then
    set (mem_total i) (mem_free i) (mem_available i) v (cached i) (swap_total i) (swap_free i)
  else if String.eqb key "Cached:" then
    set (mem_total i) (mem_free i) (mem_available i) (buffers i) v (swap_total i) (swap_free i)
  else if String.eqb key "SwapTotal:" then
    set (mem_total i) (mem_free i) (mem_available i) (buffers i) (cached i) v (swap_free i)
  else if String.eqb key "SwapFree:" then
    set (mem_total i) (mem_free i) (mem_available i) (buffers i) (cached i) (swap_total i) v
  else None.

(** One line; the value of a key of interest is read although nothing was assigned to it. *)
Definition read_line (i : ProcMemInfo) (line : string) : outcome ProcMemInfo :=
  let '(key, rest) := read_word line in
  match set_field key (default 0 (read_value rest)) i with
  | None => Ret i
  | Some i' => if read_value rest is None then Undef "read of an uninitialised value" else Ret i'
  end.

(** [meminfo]: the content of the file. *)
Definition GetProcMemInfo (meminfo : string) : outcome ProcMemInfo :=
  foldl (λ m line, i ← m; read_line i line) (Ret ProcMemInfo_init) (lines meminfo).

(** [v * 1024] on [std::int64_t], as [std::size_t]. *)
Definition kilobytes (v : Z) : outcome Z :=
  if (v * 1024 <? LONG_MIN) || (LONG_MAX <? v * 1024) then Undef "signed overflow"
  else Ret (u64 (v * 1024)).

Definition GetAvailMemory (meminfo : string) : outcome Z :=
  info ← GetProcMemInfo meminfo; kilobytes (mem_available info).
Definition GetTotalMemory (meminfo : string) : outcome Z :=
  info ← GetProcMemInfo meminfo; kilobytes (mem_total info).

(** ** Processors and load *)

(** [kNumCpuCores]: the static variable, [None] before the first call; [get_nprocs] is an
    [int]. *)
Definition GetNumCPUCores (get_nprocs : Z) (kNumCpuCores : option Z) : Z * option Z :=
  match kNumCpuCores with
  | Some n => (n, Some n)
  | None => (u64 get_nprocs, Some (u64 get_nprocs))
  end.

(** [answer]: the load of the last minute, [None] when [getloadavg] fails, which is only
    logged; a finite [double] is a rational number.  The argument of the C++ function is not
    used.  A number that does not fit [std::size_t] is undefined. *)
Definition GetCurrentLoad (answer : option Q) : outcome Z :=
  let loadavg := default 0%Q answer in
  let n := Qceiling loadavg in
  if (0 <=? n) && (n <? 2 ^ 64) then Ret n else Undef "float to integer conversion".

(** * Theory *)

Definition unit_scale (c : ascii) : Z :=
  if Ascii.eqb c "G" then 2 ^ 30 else if Ascii.eqb c "M" then 2 ^ 20
  else if Ascii.eqb c "K" then 2 ^ 10 else 1.

Lemma slast_digits z c : slast (to_string z) = Some c → is_digit c = true.
Proof.
  pose proof (to_string_digits z) as H. revert H. generalize (to_string z). intros s.
  induction s as [|d s IH]; [done|]. cbn. intros [Hd Hs]%andb_true_iff.
  destruct s as [|e s]; [by intros [= <-]|]. by apply IH.
Qed.

Lemma slast_nonempty s : s ≠ "" → ∃ c, slast s = Some c.
Proof.
  induction s as [|d s IH]; [done|]. intros _. cbn. destruct s as [|e s]; [eauto|].
  destruct IH as [c Hc]; [done|]. by exists c.
Qed.

(** A number of bytes, with or without one of the units G, M, K and B, parses to
    the number times the unit, modulo 2^64: a size that does not fit wraps. *)
Theorem ParseMemorySize_spec n c :
  is_u64 n → c ∈ ["G"; "M"; "K"; "B"]%char →
  ParseMemorySize (to_string n +:+ String c "") = Ret (u64 (n * unit_scale c)) ∧
  ParseMemorySize (to_string n) = Ret n.
Proof.
  intros Hn Hc. split.
  - unfold ParseMemorySize. rewrite slast_snoc, spop_back_snoc.
    repeat (apply elem_of_cons in Hc as [-> | Hc]; [cbn; by rewrite stoul_to_string|]).
    by apply elem_of_nil in Hc.
  - unfold ParseMemorySize. destruct (slast_nonempty (to_string n) (to_string_nonempty n)) as [d Hd].
    rewrite Hd. apply slast_digits in Hd.
    assert (∀ e, is_digit e = false → Ascii.eqb d e = false) as E
      by (intros e He; apply Ascii.eqb_neq; intros ->; congruence).
    rewrite !E by done. rewrite stoul_to_string by done. cbn.
    by rewrite Z.mul_1_r, u64_id.
Qed.

Lemma ParseMemorySize_spec_witness : ParseMemorySize "2G" = Ret (2 ^ 31).
Proof.
  assert (H : is_u64 2) by (split; lia).
  assert (G : "G"%char ∈ ["G"; "M"; "K"; "B"]%char) by (by left).
  exact (proj1 (ParseMemorySize_spec 2 "G" H G)).
Defined.

(** ** /proc/meminfo *)

Lemma lines_from_app cur a r :
  no_char ch_newline a = true →
  lines_from cur (a +:+ String ch_newline r) = (cur +:+ a) :: lines r.
Proof.
  revert cur; induction a as [|c a IH]; intros cur; [by rewrite sapp_nil_r|].
  unfold no_char. cbn [sall]. intros [Hc Ha]%andb_true_iff. rewrite sapp_cons. cbn [lines_from].
  destruct (Ascii.eqb c ch_newline); [done|]. rewrite IH by done. by rewrite sapp_assoc.
Qed.

Definition no_space (s : string) : bool := sall (λ c, negb (is_space c)) s.

Lemma take_word_app w r :
  no_space w = true → take_word (w +:+ String " " r) = (w, String " " r).
Proof.
  induction w as [|c w IH]; [done|]. unfold no_space. cbn [sall]. intros [Hc Hw]%andb_true_iff.
  rewrite sapp_cons. cbn [take_word]. destruct (is_space c); [done|]. by rewrite IH.
Qed.

Lemma skip_spaces_word w : no_space w = true → skip_spaces w = w.
Proof.
  destruct w as [|c w]; [done|]. unfold no_space. cbn. intros [Hc _]%andb_true_iff.
  by destruct (is_space c).
Qed.

Lemma no_space_app a b : no_space (a +:+ b) = no_space a && no_space b.
Proof. apply sall_app. Qed.

Lemma digits_value_app s x r acc :
  sall is_digit s = true → digit_of x = None →
  digits_value acc (s +:+ String x r) = digits_value acc s.
Proof.
  intros Hs Hx. revert acc Hs; induction s as [|c s IH]; intros acc; [by cbn; rewrite Hx|].
  cbn [sall]. intros [Hc Hs]%andb_true_iff. rewrite sapp_cons. cbn [digits_value].
  destruct (digit_of c) as [d|] eqn:E; [by apply IH|]. unfold is_digit in Hc. by rewrite E in Hc.
Qed.

Lemma parse_int_to_string_app z r :
  0 ≤ z → parse_int (to_string z +:+ String " " r) = Some (false, z).
Proof.
  intros Hz. pose proof (to_string_digits z) as Hd. pose proof (to_string_nonempty z) as Hne.
  rewrite <- (digits_value_to_string z Hz) at 2.
  rewrite <- (digits_value_app (to_string z) " " r 0 Hd eq_refl).
  destruct (to_string z) as [|c s] eqn:E; [done|]. apply andb_prop in Hd as [Hc Hs].
  rewrite sapp_cons. unfold parse_int. cbn [skip_spaces]. rewrite (digit_not_space c Hc).
  unfold is_digit in Hc. destruct (digit_of c) eqn:Ec; [|done].
  destruct c as [[] [] [] [] [] [] [] []]; by rewrite ?Ec.
Qed.

Lemma read_value_blanks z r :
  0 ≤ z ≤ LONG_MAX →
  read_value (String " " ("     " +:+ to_string z +:+ String " " r)) = Some z.
Proof.
  intros Hz. unfold read_value, strtol.
  change (parse_int (String " " ("     " +:+ to_string z +:+ String " " r)))
    with (parse_int (to_string z +:+ String " " r)).
  change (skip_spaces (String " " ("     " +:+ to_string z +:+ String " " r)))
    with (skip_spaces (to_string z +:+ String " " r)).
  rewrite parse_int_to_string_app by lia.
  pose proof (to_string_digits z) as Hd. pose proof (to_string_nonempty z) as Hne.
  destruct (to_string z) as [|c s] eqn:E; [done|]. apply andb_prop in Hd as [Hc _].
  rewrite sapp_cons. cbn [skip_spaces]. rewrite (digit_not_space c Hc).
  cbn. f_equal. unfold LONG_MIN, LONG_MAX in *. lia.
Qed.

(** A line of the file: the name, a colon, blanks, the number and its unit. *)
Definition meminfo_line (kv : string * Z) : string :=
  kv.1 +:+ ":      " +:+ to_string kv.2 +:+ " kB" +:+ String ch_newline "".
Definition meminfo (l : list (string * Z)) : string := sconcat (meminfo_line <$> l).

(** Names without blanks, and numbers that fit. *)
Definition meminfo_ok (kv : string * Z) : Prop :=
  no_space kv.1 = true ∧ 0 ≤ kv.2 ≤ LONG_MAX.
#[export] Instance meminfo_ok_dec kv : Decision (meminfo_ok kv).
Proof. unfold meminfo_ok. apply _. Defined.

Lemma no_space_no_newline s : no_space s = true → no_char ch_newline s = true.
Proof.
  unfold no_space, no_char. induction s as [|c s IH]; [done|]. cbn. intros [Hc Hs]%andb_true_iff.
  rewrite IH by done. by destruct (Ascii.eqb_spec c ch_newline) as [->|].
Qed.

Lemma lines_meminfo kv l :
  meminfo_ok kv →
  lines (meminfo (kv :: l)) = (kv.1 +:+ ":      " +:+ to_string kv.2 +:+ " kB") :: lines (meminfo l).
Proof.
  intros [Hk _]. unfold meminfo. rewrite fmap_cons. cbn [sconcat]. unfold meminfo_line, lines at 1.
  replace ((kv.1 +:+ ":      " +:+ to_string kv.2 +:+ " kB" +:+ String ch_newline "") +:+
           sconcat (meminfo_line <$> l))
    with ((kv.1 +:+ ":      " +:+ to_string kv.2 +:+ " kB") +:+
          String ch_newline (sconcat (meminfo_line <$> l)))
    by (by rewrite !sapp_assoc).
  rewrite lines_from_app; [done|]. rewrite !no_char_app, no_space_no_newline by done.
  by rewrite to_string_no_char.
Qed.

Lemma read_line_spec i kv :
  meminfo_ok kv →
  read_line i (kv.1 +:+ ":      " +:+ to_string kv.2 +:+ " kB") =
  Ret (default i (set_field (kv.1 +:+ ":") kv.2 i)).
Proof.
  intros [Hk Hv]. unfold read_line, read_word.
  change (":      " +:+ to_string kv.2 +:+ " kB")
    with (":" +:+ String " " ("     " +:+ to_string kv.2 +:+ " kB")).
  rewrite <- sapp_assoc. assert (Hw : no_space (kv.1 +:+ ":") = true) by (by rewrite no_space_app, Hk).
  assert (Hs : skip_spaces ((kv.1 +:+ ":") +:+ String " " ("     " +:+ to_string kv.2 +:+ " kB")) =
    (kv.1 +:+ ":") +:+ String " " ("     " +:+ to_string kv.2 +:+ " kB")).
  { destruct (kv.1) as [|c k] eqn:E; [done|]. rewrite !sapp_cons. cbn [skip_spaces].
    unfold no_space in Hk. cbn in Hk. apply andb_true_iff in Hk as [Hc _]. by destruct (is_space c). }
  rewrite Hs, take_word_app by done.
  rewrite read_value_blanks by lia. cbn [default id].
  by destruct (set_field (kv.1 +:+ ":") kv.2 i).
Qed.

(** The values the file gives for a name: the last one counts. *)
Definition last_value (key : string) (l : list (string * Z)) (d : Z) : Z :=
  foldl (λ d kv, if String.eqb kv.1 key then kv.2 else d) d l.

Lemma colon_eqb a b : String.eqb (a +:+ ":") (b +:+ ":") = String.eqb a b.
Proof.
  destruct (String.eqb_spec a b) as [->|Hne]; [apply String.eqb_refl|].
  apply String.eqb_neq. intros E. apply Hne. apply (f_equal spop_back) in E.
  by rewrite !spop_back_snoc in E.
Qed.

Lemma set_field_available key v i :
  mem_available (default i (set_field (key +:+ ":") v i)) =
  if String.eqb key "MemAvailable" then v else mem_available i.
Proof.
  unfold set_field.
  change "MemTotal:" with ("MemTotal" +:+ ":").
  change "MemFree:" with ("MemFree" +:+ ":").
  change "MemAvailable:" with ("MemAvailable" +:+ ":").
  change "Buffers:" with ("Buffers" +:+ ":").
  change "Cached:" with ("Cached" +:+ ":").
  change "SwapTotal:" with ("SwapTotal" +:+ ":").
  change "SwapFree:" with ("SwapFree" +:+ ":").
  rewrite !colon_eqb.
  repeat match goal with |- context [String.eqb key ?s] => destruct (String.eqb_spec key s) as [->|] end;
    done.
Qed.

Lemma GetProcMemInfo_spec l i :
  Forall meminfo_ok l →
  ∃ i', foldl (λ m line, i ← m; read_line i line) (Ret i) (lines (meminfo l)) = Ret i' ∧
    mem_available i' = last_value "MemAvailable" l (mem_available i).
Proof.
  intros Hl. revert i; induction Hl as [|kv l Hkv Hl IH]; intros i; [by exists i|].
  rewrite lines_meminfo by done. cbn [foldl]. cbn [mbind outcome_bind].
  rewrite read_line_spec by done.
  destruct (IH (default i (set_field (kv.1 +:+ ":") kv.2 i))) as (i' & -> & E).
  exists i'. split; [done|]. rewrite E, set_field_available. done.
Qed.

Lemma last_value_range key l d :
  Forall meminfo_ok l → d = -1 ∨ 0 ≤ d → last_value key l d = -1 ∨ 0 ≤ last_value key l d.
Proof.
  intros Hl. revert d; induction Hl as [|kv l [_ Hkv] Hl IH]; intros d Hd; [done|].
  apply IH. destruct (String.eqb kv.1 key); [right; lia|done].
Qed.

(** The available memory is the kilobytes of the file in bytes, as long as they fit in 63
    bits; a file without the line gives the largest multiple of 1024 that 64 bits hold. *)
Theorem GetAvailMemory_spec l :
  Forall meminfo_ok l →
  let v := last_value "MemAvailable" l (-1) in
  GetAvailMemory (meminfo l) =
  if LONG_MAX <? v * 1024 then Undef "signed overflow"
  else Ret (if v <? 0 then 2 ^ 64 - 1024 else v * 1024).
Proof.
  intros Hl v. unfold GetAvailMemory, GetProcMemInfo.
  destruct (GetProcMemInfo_spec l ProcMemInfo_init Hl) as (i & -> & E).
  cbn [mbind outcome_bind]. rewrite E. change (mem_available ProcMemInfo_init) with (-1).
  fold v. assert (Hv : v = -1 ∨ 0 ≤ v).
  { apply last_value_range; [done|by left]. }
  unfold kilobytes, LONG_MIN, LONG_MAX.
  destruct (Z.ltb_spec (v * 1024) (- 2 ^ 63)); [lia|]. cbn [orb].
  destruct (Z.ltb_spec (2 ^ 63 - 1) (v * 1024)); [done|]. f_equal.
  destruct (Z.ltb_spec v 0); [by replace v with (-1) by lia|]. apply u64_id. split; lia.
Qed.

Lemma GetAvailMemory_spec_witness :
  GetAvailMemory (meminfo [("MemTotal", 32768); ("MemFree", 10); ("MemAvailable", 2048)]) =
  Ret 2097152 ∧
  GetAvailMemory (meminfo [("MemTotal", 32768); ("MemFree", 10)]) = Ret (2 ^ 64 - 1024).
Proof.
  split.
  - apply (GetAvailMemory_spec [("MemTotal", 32768); ("MemFree", 10); ("MemAvailable", 2048)]).
    by apply (bool_decide_unpack _); vm_compute.
  - apply (GetAvailMemory_spec [("MemTotal", 32768); ("MemFree", 10)]).
    by apply (bool_decide_unpack _); vm_compute.
Defined.

(** ** Load *)

(** The load a servant reports is the least whole number that is not below the load average,
    and 0 when the average is not known. *)
Theorem GetCurrentLoad_spec (q : Q) :
  (0 <= q)%Q → (q <= inject_Z (2 ^ 64 - 1))%Q →
  GetCurrentLoad None = Ret 0 ∧
  ∃ n, GetCurrentLoad (Some q) = Ret n ∧ (q <= inject_Z n)%Q ∧
       (∀ m, (q <= inject_Z m)%Q → n ≤ m).
Proof.
  intros H0 Hq. split; [done|].
  assert (Least : ∀ m, (q <= inject_Z m)%Q → Qceiling q ≤ m).
  { intros m Hm%Qceiling_resp_le. by rewrite Qceiling_Z in Hm. }
  exists (Qceiling q). split; [|split; [apply Qle_ceiling|done]].
  unfold GetCurrentLoad. change (default 0%Q (Some q)) with q. cbv zeta.
  pose proof (Least _ Hq). pose proof (Qceiling_resp_le _ _ H0) as Hc.
  change (Qceiling 0) with 0 in Hc.
  rewrite (proj2 (Z.leb_le 0 (Qceiling q))) by lia.
  rewrite (proj2 (Z.ltb_lt (Qceiling q) (2 ^ 64))) by lia. done.
Qed.

Lemma GetCurrentLoad_spec_witness : ∃ n, GetCurrentLoad (Some (7 # 2)) = Ret n ∧ n ≤ 4.
Proof.
  assert (H0 : (0 <= 7 # 2)%Q) by (unfold Qle; cbn; lia).
  assert (H1 : (7 # 2 <= inject_Z (2 ^ 64 - 1))%Q) by (unfold Qle; cbn; lia).
  destruct (GetCurrentLoad_spec (7 # 2) H0 H1) as (_ & n & E & _ & L).
  exists n. split; [done|]. apply L. unfold Qle; cbn; lia.
Defined.
