(* ===== verification/CloudTask.v ===== *)
(** The interfaces between the servant's executor and the rest of the servant:
    the task base class (src/distribuild/daemon/cloud/task.h) and the completion
    event.

    [Task] is what the executor asks of a task.  [PocoEvent] is [Poco::Event],
    which is code outside the sources: a class of parameters, with the documented
    behaviour of the default auto-reset event as laws. *)
From S2P Require Import Prelude.

(** [Task]: [exit_world] is what the world shows when the process has exited (for
    a compilation, the files in its working directory). *)
Class Task (T : Type) := {
  exit_world : Type;
  GetCmdLine : T → string;
  GetSource : T → string * T;
  OnCompleted : exit_world → T → Z → string → string → outcome T
}.

(** [tryWait] answers whether the event is, or becomes before the time out,
    signalled. *)
Class PocoEvent (E : Type) := {
  event_new : E;
  event_set : E → E;
  event_tryWait : E → bool * E
}.

(** Waiting for a signalled event succeeds once and resets it. *)
Class AutoReset (E : Type) `{PocoEvent E} : Prop := {
  tryWait_new : (event_tryWait event_new).1 = false;
  tryWait_set e : (event_tryWait (event_set e)).1 = true;
  tryWait_reset e :
    (event_tryWait e).1 = true → (event_tryWait (event_tryWait e).2).1 = false;
  tryWait_false e : (event_tryWait e).1 = false → (event_tryWait e).2 = e
}.

(** A flag is such an event: the laws can hold. *)
#[export] Instance flag_event : PocoEvent bool := {|
  event_new := false; event_set := λ _, true; event_tryWait := λ b, (b, false) |}.
#[export] Instance flag_auto_reset : AutoReset bool.
Proof. by split; try intros []. Qed.
