(* ===== verification/Executor.v ===== *)
(** The servant's executor: src/distribuild/daemon/cloud/executor.{h,cpp}.

    Task descriptions are shared: [tasks_] and a thread in [WaitForTask] hold
    [shared_ptr]s to them, so they live on a heap.  Every method body runs under
    [task_mutex_] and is one transition, but [WaitForTask], which looks the task up
    under the lock and then waits for its event without it, and [OnExitCallback],
    which completes the task after it released the lock (nothing else touches the
    task before its event is set, so it is one transition here).

    Input from the operating system (available memory, the temporary files and what a
    write to them took, the pid of a started process, what [wait] reaps, the output
    files, whether the thread pool has room) is an argument; the signals that are sent
    are part of the results.  An exception leaves a state too: what [TryQueueTask] and
    [OnExitCallback] changed before it stays changed.

    [waitpid_semaphore_] counts its permits without a bound, as libstdc++ does.  The code
    declares a [counting_semaphore<1>] (executor.h), for which the standard leaves a
    release above one permit undefined; ExecutorFacts [permits_above_one] shows a run
    that gets there. *)
From S2P Require Import Prelude Text SysInfo CloudTask.

Inductive ExecutionStatus := Unknown | Failed | Running | NotFound.

(** The flags of src/distribuild/daemon/config.cpp that the executor reads. *)
Record ExecutorFlags := {
  FLAGS_min_memory_for_starting_new_task : string;
  FLAGS_max_concurrency : Z;            (* int32 *)
  FLAGS_servant_priority : string;
  FLAGS_poor_cpu_cores_threshold : Z    (* uint32 *)
}.

Section executor.
Context {T E : Type} `{Task T} `{PocoEvent E}.

(** [task] is null in a description that an exception in [TryQueueTask] left behind;
    the output files are in the operating system. *)
Record TaskDesc := {
  pid : Z;
  is_running : bool;
  grant_id : Z;
  ref_count : Z;                      (* uint32 *)
  start_tp : Z;
  completed_tp : Z;
  task : option T;
  completion_event : E;
  cmd : string
}.

Definition dptr := nat.

Record Executor := {
  exiting_ : bool;
  next_task_id_ : Z;
  running_tasks_ : Z;
  max_concurrency_ : Z;
  min_memory_ : Z;
  task_ran_sum_ : Z;
  tasks_ : gmap Z dptr;
  waitpid_semaphore_ : Z;
  desc_heap : gmap dptr TaskDesc;     (* the [TaskDesc] objects *)
  next_dptr : dptr
}.

(** The concurrency the constructor computes. *)
Definition concurrency_of (f : ExecutorFlags) (num_cpu_cores : Z) : Z :=
  if FLAGS_max_concurrency f =? -1 then
    if String.eqb (FLAGS_servant_priority f) "dedicated"
    then u64 (num_cpu_cores * 95) / 100
    else if String.eqb (FLAGS_servant_priority f) "user" then
      if num_cpu_cores <? FLAGS_poor_cpu_cores_threshold f then 0
      else u64 (num_cpu_cores * 40) / 100
    else 0
  else u64 (FLAGS_max_concurrency f).

(** The check that the memory is positive only logs. *)
Definition Executor_init (f : ExecutorFlags) (num_cpu_cores : Z) : outcome Executor :=
  memory ← ParseMemorySize (FLAGS_min_memory_for_starting_new_task f);
  Ret {| exiting_ := false; next_task_id_ := 1; running_tasks_ := 0;
         max_concurrency_ := concurrency_of f num_cpu_cores; min_memory_ := memory;
         task_ran_sum_ := 0; tasks_ := ∅; waitpid_semaphore_ := 0;
         desc_heap := ∅; next_dptr := 0%nat |}.

Definition GetMaxConcurrency (ex : Executor) : Z := max_concurrency_ ex.

Definition with_counters (next running ran : Z) (ex : Executor) : Executor := {|
  exiting_ := exiting_ ex; next_task_id_ := next; running_tasks_ := running;
  max_concurrency_ := max_concurrency_ ex; min_memory_ := min_memory_ ex;
  task_ran_sum_ := ran; tasks_ := tasks_ ex;
  waitpid_semaphore_ := waitpid_semaphore_ ex; desc_heap := desc_heap ex;
  next_dptr := next_dptr ex |}.
Definition with_tasks (ts : gmap Z dptr) (ex : Executor) : Executor := {|
  exiting_ := exiting_ ex; next_task_id_ := next_task_id_ ex;
  running_tasks_ := running_tasks_ ex; max_concurrency_ := max_concurrency_ ex;
  min_memory_ := min_memory_ ex; task_ran_sum_ := task_ran_sum_ ex; tasks_ := ts;
  waitpid_semaphore_ := waitpid_semaphore_ ex; desc_heap := desc_heap ex;
  next_dptr := next_dptr ex |}.
Definition with_descs (h : gmap dptr TaskDesc) (ex : Executor) : Executor := {|
  exiting_ := exiting_ ex; next_task_id_ := next_task_id_ ex;
  running_tasks_ := running_tasks_ ex; max_concurrency_ := max_concurrency_ ex;
  min_memory_ := min_memory_ ex; task_ran_sum_ := task_ran_sum_ ex; tasks_ := tasks_ ex;
  waitpid_semaphore_ := waitpid_semaphore_ ex; desc_heap := h;
  next_dptr := next_dptr ex |}.
Definition with_semaphore (n : Z) (ex : Executor) : Executor := {|
  exiting_ := exiting_ ex; next_task_id_ := next_task_id_ ex;
  running_tasks_ := running_tasks_ ex; max_concurrency_ := max_concurrency_ ex;
  min_memory_ := min_memory_ ex; task_ran_sum_ := task_ran_sum_ ex; tasks_ := tasks_ ex;
  waitpid_semaphore_ := n; desc_heap := desc_heap ex; next_dptr := next_dptr ex |}.

(** [avail_memory]: what [GetAvailMemory] answers.  The increments that a refusal
    takes back are inside the lock. *)
Definition TryStartingNewTaskUnsafe (avail_memory : Z) (ex : Executor)
    : option Z * Executor :=
  if exiting_ ex then (None, ex)
  else
    let task_id := next_task_id_ ex in
    let next := u64 (task_id + 1) in
    if max_concurrency_ ex <? u64 (running_tasks_ ex + 1)
    then (None, with_counters next (u64 (u64 (running_tasks_ ex + 1) - 1)) (task_ran_sum_ ex) ex)
    else if avail_memory <? min_memory_ ex
    then (None, with_counters next (u64 (u64 (running_tasks_ ex + 1) - 1)) (task_ran_sum_ ex) ex)
    else (Some task_id,
          with_counters next (u64 (running_tasks_ ex + 1)) (u64 (task_ran_sum_ ex + 1)) ex).

(** What is given to [StartProgram]: the command and the content of its input, which the
    child reads from its beginning (excute.cpp seeks there). *)
Record Launch := { launch_cmd : string; launch_stdin : string }.

(** The temporary files of a task.  The constructor of a [TempFile] throws when the file
    cannot be made (temp_file.cpp: [readlink] fails and -1 is taken for a size).
    [tf_stdin]: the file for the input could not be made, or how many bytes the one
    [write] of [TempFile::Write] took, which nothing checks.  [tf_out], [tf_err]: the files
    for the output could be made. *)
Record TempFiles := { tf_stdin : option Z; tf_out : bool; tf_err : bool }.

(** The bytes of [source] that are in the input file. *)
Definition stdin_written (files : TempFiles) (source : string) : option string :=
  match tf_stdin files with
  | Some n => if tf_out files && tf_err files then Some (ztake n source) else None
  | None => None
  end.

(** All files were made and the write took all of [source]. *)
Definition whole_input (files : TempFiles) (source : string) : Prop :=
  (∃ n, tf_stdin files = Some n ∧ ssize source ≤ n) ∧ tf_out files = true ∧ tf_err files = true.

Lemma stdin_whole files source : whole_input files source → stdin_written files source = Some source.
Proof.
  intros ((n & Hn & Hle) & Ho & He). unfold stdin_written. rewrite Hn, Ho, He. cbn.
  unfold ztake. by rewrite (proj2 (Z.leb_le _ _) Hle).
Qed.

(** [make_shared<TaskDesc>()]. *)
Definition new_desc : TaskDesc := {|
  pid := 0; is_running := true; grant_id := 0; ref_count := 0; start_tp := 0;
  completed_tp := 0; task := None; completion_event := event_new; cmd := "" |}.

(** [tasks_[task_id] = make_shared<TaskDesc>()], with what the description becomes. *)
Definition add_desc (task_id : Z) (d : TaskDesc) (permits : Z) (ex : Executor) : Executor := {|
  exiting_ := exiting_ ex; next_task_id_ := next_task_id_ ex;
  running_tasks_ := running_tasks_ ex; max_concurrency_ := max_concurrency_ ex;
  min_memory_ := min_memory_ ex; task_ran_sum_ := task_ran_sum_ ex;
  tasks_ := <[task_id := next_dptr ex]> (tasks_ ex);
  waitpid_semaphore_ := waitpid_semaphore_ ex + permits;
  desc_heap := <[next_dptr ex := d]> (desc_heap ex);
  next_dptr := S (next_dptr ex) |}.

(** [new_pid]: the pid [StartProgram] returns, -1 when [fork] failed; the code goes on
    then.  When a temporary file cannot be made, the slot, the id and the half-made
    description stay. *)
Definition TryQueueTask (avail_memory : Z) (files : TempFiles) (new_pid now grant : Z)
    (user_task : T) (ex : Executor) : outcome (option (Z * Launch)) * Executor :=
  let '(task_id, ex) := TryStartingNewTaskUnsafe avail_memory ex in
  match task_id with
  | None => (Ret None, ex)
  | Some task_id =>
    let command := GetCmdLine user_task in
    let '(source, user_task) := GetSource user_task in
    match stdin_written files source with
    | None => (Throw "std::length_error", add_desc task_id new_desc 0 ex)
    | Some input =>
      let desc := {| pid := new_pid; is_running := true; grant_id := grant; ref_count := 1;
                     start_tp := now; completed_tp := 0; task := Some user_task;
                     completion_event := event_new; cmd := command |} in
      (Ret (Some (task_id, {| launch_cmd := command; launch_stdin := input |})),
       add_desc task_id desc 1 ex)
    end
  end.

Definition with_ref_count (n : Z) (d : TaskDesc) : TaskDesc := {|
  pid := pid d; is_running := is_running d; grant_id := grant_id d; ref_count := n;
  start_tp := start_tp d; completed_tp := completed_tp d; task := task d;
  completion_event := completion_event d; cmd := cmd d |}.
Definition with_event (e : E) (d : TaskDesc) : TaskDesc := {|
  pid := pid d; is_running := is_running d; grant_id := grant_id d; ref_count := ref_count d;
  start_tp := start_tp d; completed_tp := completed_tp d; task := task d;
  completion_event := e; cmd := cmd d |}.

Definition TryAddTaskRef (task_id : Z) (ex : Executor) : bool * Executor :=
  match tasks_ ex !! task_id with
  | Some p =>
    (true, with_descs (alter (λ d, with_ref_count (u32 (ref_count d + 1)) d) p (desc_heap ex)) ex)
  | None => (false, ex)
  end.

(** The first part of [WaitForTask], under the lock. *)
Definition WaitForTask_find (task_id : Z) (ex : Executor) : option dptr :=
  tasks_ ex !! task_id.

(** The second part, when the event is signalled or the wait times out. *)
Definition WaitForTask_event (p : dptr) (ex : Executor)
    : outcome (option T * ExecutionStatus * Executor) :=
  match desc_heap ex !! p with
  | None => Undef "null task"
  | Some d =>
    let '(signalled, e) := event_tryWait (completion_event d) in
    let ex := with_descs (<[p := with_event e d]> (desc_heap ex)) ex in
    if negb signalled then Ret (None, Running, ex)
    else Ret (task d, Unknown, ex)
  end.

(** [others] is what the other threads do during the wait. *)
Definition WaitForTask (task_id : Z) (others : Executor → Executor) (ex : Executor)
    : outcome (option T * ExecutionStatus * Executor) :=
  match WaitForTask_find task_id ex with
  | None => Ret (None, NotFound, ex)
  | Some p => WaitForTask_event p (others ex)
  end.

(** The argument of [kill(_, SIGKILL)], if it is called: 0, which is the daemon's own
    process group, for a half-made description, and 1 after a failed [fork]. *)
Definition KillTask (d : TaskDesc) : list Z :=
  if is_running d then [- pid d] else [].

Definition FreeTask (task_id : Z) (ex : Executor) : list Z * Executor :=
  match tasks_ ex !! task_id with
  | None => ([], ex)
  | Some p =>
    match desc_heap ex !! p with
    | None => ([], ex)
    | Some d =>
      let n := u32 (ref_count d - 1) in
      let ex := with_descs (<[p := with_ref_count n d]> (desc_heap ex)) ex in
      if 0 <? n then ([], ex)
      else (KillTask d, with_tasks (delete task_id (tasks_ ex)) ex)
    end
  end.

Record RunningTask := {
  rt_servant_task_id : Z;
  rt_task_grant_id : Z;
  rt_task : T
}.

(** The descriptions in iteration order. *)
Definition descs (ex : Executor) : list (Z * TaskDesc) :=
  omap (λ kv, (λ d, (kv.1, d)) <$> desc_heap ex !! kv.2) (map_to_list (tasks_ ex)).

Definition GetAllTasks (ex : Executor) : list RunningTask :=
  omap (λ kd, (λ t, {| rt_servant_task_id := kd.1; rt_task_grant_id := grant_id kd.2;
                       rt_task := t |}) <$> task kd.2) (descs ex).

Definition KillExpiredTasks (expired_grant_ids : gset Z) (ex : Executor) : list Z :=
  descs ex ≫= λ kd,
    if is_running kd.2 && bool_decide (grant_id kd.2 ∈ expired_grant_ids)
    then KillTask kd.2 else [].

Definition Stop (ex : Executor) : list Z * Executor :=
  (descs ex ≫= λ kd, KillTask kd.2,
   {| exiting_ := true; next_task_id_ := next_task_id_ ex;
      running_tasks_ := running_tasks_ ex; max_concurrency_ := max_concurrency_ ex;
      min_memory_ := min_memory_ ex; task_ran_sum_ := task_ran_sum_ ex;
      tasks_ := tasks_ ex; waitpid_semaphore_ := waitpid_semaphore_ ex + 1;
      desc_heap := desc_heap ex; next_dptr := next_dptr ex |}).

(** The test that ends the loop of [Join]. *)
Definition Join_done (ex : Executor) : bool :=
  forallb (λ kd, negb (is_running kd.2)) (descs ex).

Definition cleanable (now : Z) (d : TaskDesc) : bool :=
  negb (is_running d) && (completed_tp d + minutes 1 <? now).

Definition OnTimerClean (now : Z) (ex : Executor) : Executor :=
  with_tasks
    (filter (λ kv, (if desc_heap ex !! kv.2 is Some d then cleanable now d else false) = false)
       (tasks_ ex)) ex.

Definition completed (now : Z) (t : T) (d : TaskDesc) : TaskDesc := {|
  pid := pid d; is_running := false; grant_id := grant_id d; ref_count := ref_count d;
  start_tp := start_tp d; completed_tp := now; task := Some t;
  completion_event := event_set (completion_event d); cmd := cmd d |}.

(** What an exception in [ReadAll] or [OnCompleted] leaves of the description, and of its
    task ([left]): it does not run and its event is not set. *)
Definition uncompleted (now : Z) (left : T) (d : TaskDesc) : TaskDesc := {|
  pid := pid d; is_running := false; grant_id := grant_id d; ref_count := ref_count d;
  start_tp := start_tp d; completed_tp := now; task := Some left;
  completion_event := completion_event d; cmd := cmd d |}.

(** [out] and [err]: what [ReadAll] reads from the output files, or the exception it ends
    in; [left]: what an exception in [OnCompleted] leaves of the task.  The thread pool
    catches what is thrown. *)
Definition OnExitCallback (w : exit_world) (exited exit_code now : Z)
    (out err : outcome string) (left : T) (ex : Executor) : outcome () * Executor :=
  let found := list_find (λ kv, (if desc_heap ex !! kv.2 is Some d
                                 then pid d =? exited else false) = true)
                 (map_to_list (tasks_ ex)) in
  let ex := with_counters (next_task_id_ ex) (u64 (running_tasks_ ex - 1)) (task_ran_sum_ ex) ex in
  match found with
  | None => (Ret (), ex)
  | Some (_, (_, p)) =>
    match desc_heap ex !! p with
    | None => (Ret (), ex)
    | Some d =>
      match task d with
      | None => (Undef "std_out of a half-made task", ex)
      | Some t =>
        let result := o ← out; e ← err; OnCompleted w t exit_code o e in
        (_ ← result; Ret (),
         with_descs (<[p := if result is Ret t' then completed now t' d
                            else uncompleted now left d]> (desc_heap ex)) ex)
      end
    end
  end.

(** ** The waiter thread *)

Definition has_work (ex : Executor) : bool :=
  negb (exiting_ ex) || negb (running_tasks_ ex =? 0).

(** What [wait] returns: a reaped child with its status, or -1. *)
Inductive Reaped := Exited (pid code : Z) | Signaled (pid : Z) | WaitFailed.

Inductive WaiterStep :=
  | Waiter_blocked                        (* in [acquire] *)
  | Waiter_done                           (* the thread ended *)
  | Waiter_exit (pid exit_code : Z) (ex : Executor).   (* an [OnExitTask] is started *)

(** One pass through the loop.  After a failed [wait] that is not an exit the code
    reads an uninitialised status.  [room]: the thread pool has a thread for the
    [OnExitTask]; [TaskManager::start] throws when it has none, and the exception leaves
    the function of a [std::thread]. *)
Definition WaiterProc_pass (reaped : Reaped) (room : bool) (ex : Executor)
    : outcome WaiterStep :=
  if negb (has_work ex) then Ret Waiter_done
  else if waitpid_semaphore_ ex <=? 0 then Ret Waiter_blocked
  else
    let ex := with_semaphore (waitpid_semaphore_ ex - 1) ex in
    if negb (has_work ex) then Ret Waiter_done
    else
      match reaped with
      | WaitFailed => if exiting_ ex then Ret Waiter_done else Undef "uninitialised status"
      | Exited p code =>
        if room then Ret (Waiter_exit p code ex) else Fatal "std::terminate"
      | Signaled p => if room then Ret (Waiter_exit p (-1) ex) else Fatal "std::terminate"
      end.
End executor.
Arguments TaskDesc : clear implicits.
Arguments Executor : clear implicits.
Arguments RunningTask : clear implicits.
Arguments WaiterStep : clear implicits.
