(* ===== verification/ExecutorFacts.v ===== *)
(** The theory of the servant's executor (Executor): the executor together with
    the operating system's children, its invariant, and what each operation does. *)
From S2P Require Import Prelude Text SysInfo CloudTask Executor.

Section facts.
Context {T E : Type} `{Task T} `{AutoReset E}.
Implicit Types (ex : Executor T E) (d : TaskDesc T E) (files : TempFiles).

(** * The executor and its processes

    [children]: the started processes that the waiter thread has not reaped;
    [exits]: those it has reaped and whose callback has not run yet; [stops]: the
    calls of [Stop]; [thrown]: the calls of [TryQueueTask] that ended in an exception;
    [forkless]: those whose [fork] failed. *)
Record Sys := {
  sys_ex : Executor T E;
  children : list Z;
  exits : list Z;
  stops : nat;
  thrown : nat;
  forkless : nat
}.

Definition sys_upd ex (ch es : list Z) (s : Sys) : Sys := {|
  sys_ex := ex; children := ch; exits := es; stops := stops s; thrown := thrown s;
  forkless := forkless s |}.
Definition sys_with ex (s : Sys) : Sys := sys_upd ex (children s) (exits s) s.

(** The operating system starts a process under a pid that no unreaped child has.  A pass
    of the waiter that finds no room in the thread pool has no step: it ends the daemon. *)
Inductive sys_step (s : Sys) : Sys → Prop :=
  | sys_queue mem files new_pid now grant t id l ex' :
      next_task_id_ (sys_ex s) < 2 ^ 64 - 1 →
      TryQueueTask mem files new_pid now grant t (sys_ex s) = (Ret (Some (id, l)), ex') →
      0 < new_pid → new_pid ∉ children s →
      sys_step s (sys_upd ex' (new_pid :: children s) (exits s) s)
  | sys_fork_failed mem files now grant t id l ex' :
      next_task_id_ (sys_ex s) < 2 ^ 64 - 1 →
      TryQueueTask mem files (-1) now grant t (sys_ex s) = (Ret (Some (id, l)), ex') →
      sys_step s {| sys_ex := ex'; children := children s; exits := exits s;
                    stops := stops s; thrown := thrown s; forkless := S (forkless s) |}
  | sys_throw mem files new_pid now grant t what ex' :
      next_task_id_ (sys_ex s) < 2 ^ 64 - 1 →
      TryQueueTask mem files new_pid now grant t (sys_ex s) = (Throw what, ex') →
      sys_step s {| sys_ex := ex'; children := children s; exits := exits s;
                    stops := stops s; thrown := S (thrown s); forkless := forkless s |}
  | sys_refuse mem files new_pid now grant t ex' :
      next_task_id_ (sys_ex s) < 2 ^ 64 - 1 →
      TryQueueTask mem files new_pid now grant t (sys_ex s) = (Ret None, ex') →
      sys_step s (sys_with ex' s)
  | sys_reap r p code l1 l2 ex' :
      WaiterProc_pass r true (sys_ex s) = Ret (Waiter_exit p code ex') →
      children s = l1 ++ p :: l2 →
      sys_step s (sys_upd ex' (l1 ++ l2) (p :: exits s) s)
  | sys_callback w p code now out err left l1 l2 :
      exits s = l1 ++ p :: l2 →
      sys_step s (sys_upd (OnExitCallback w p code now out err left (sys_ex s)).2
                    (children s) (l1 ++ l2) s)
  | sys_add_ref id : sys_step s (sys_with (TryAddTaskRef id (sys_ex s)).2 s)
  | sys_wait p r ex' :
      WaitForTask_event p (sys_ex s) = Ret (r, ex') → sys_step s (sys_with ex' s)
  | sys_free id : sys_step s (sys_with (FreeTask id (sys_ex s)).2 s)
  | sys_clean now : sys_step s (sys_with (OnTimerClean now (sys_ex s)) s)
  | sys_stop :
      sys_step s {| sys_ex := (Stop (sys_ex s)).2; children := children s;
                    exits := exits s; stops := S (stops s); thrown := thrown s;
                    forkless := forkless s |}.

Definition start_sys ex : Sys := {|
  sys_ex := ex; children := []; exits := []; stops := 0%nat; thrown := 0%nat;
  forkless := 0%nat |}.

Inductive sys_reachable (f : ExecutorFlags) (cores : Z) : Sys → Prop :=
  | sys_init ex :
      - 2 ^ 31 ≤ FLAGS_max_concurrency f < 2 ^ 31 →
      Executor_init f cores = Ret ex → sys_reachable f cores (start_sys ex)
  | sys_next s s' : sys_reachable f cores s → sys_step s s' → sys_reachable f cores s'.

(** The tasks point to distinct live descriptions under ids below the next one. *)
Record tasks_ok ex : Prop := {
  tasks_live id p : tasks_ ex !! id = Some p → is_Some (desc_heap ex !! p);
  tasks_inj id id' p : tasks_ ex !! id = Some p → tasks_ ex !! id' = Some p → id = id';
  tasks_ids id p : tasks_ ex !! id = Some p → 1 ≤ id < next_task_id_ ex;
  heap_below p : is_Some (desc_heap ex !! p) → (p < next_dptr ex)%nat;
  next_id_range : 1 ≤ next_task_id_ ex < 2 ^ 64
}.

Record sys_inv (s : Sys) : Prop := {
  inv_tasks : tasks_ok (sys_ex s);
  inv_count : running_tasks_ (sys_ex s) =
    Z.of_nat (length (children s) + length (exits s) + thrown s + forkless s);
  inv_limit : running_tasks_ (sys_ex s) ≤ max_concurrency_ (sys_ex s);
  inv_max : max_concurrency_ (sys_ex s) < 2 ^ 64 - 1;
  inv_semaphore : waitpid_semaphore_ (sys_ex s) =
    Z.of_nat (length (children s) + stops s + forkless s);
  inv_exiting : exiting_ (sys_ex s) = false → stops s = 0%nat
}.

(** What the operations on descriptions leave alone. *)
Definition same_counters ex ex' : Prop :=
  exiting_ ex' = exiting_ ex ∧ next_task_id_ ex' = next_task_id_ ex ∧
  running_tasks_ ex' = running_tasks_ ex ∧ max_concurrency_ ex' = max_concurrency_ ex ∧
  waitpid_semaphore_ ex' = waitpid_semaphore_ ex ∧ next_dptr ex' = next_dptr ex.

Lemma same_counters_inv s ex' :
  sys_inv s → same_counters (sys_ex s) ex' → tasks_ok ex' → sys_inv (sys_with ex' s).
Proof.
  intros I (E1 & E2 & E3 & E4 & E5 & E6) O. split; cbn; [done|..];
    rewrite ?E1, ?E3, ?E4, ?E5; apply I.
Qed.

Lemma update_desc_ok ex p d :
  tasks_ok ex → is_Some (desc_heap ex !! p) →
  tasks_ok (with_descs (<[p := d]> (desc_heap ex)) ex).
Proof.
  intros O Hp. split; cbn; try apply O.
  - intros id q Hq. destruct (decide (p = q)) as [<-|]; [rewrite lookup_insert_eq; eauto|].
    rewrite lookup_insert_ne by done. by eapply O.
  - intros q [d' [[<- _]|[_ Hq]]%lookup_insert_Some]; apply O; eauto.
Qed.

Lemma with_tasks_ok ex m : tasks_ok ex → m ⊆ tasks_ ex → tasks_ok (with_tasks m ex).
Proof.
  intros O Hm. split; cbn; try apply O.
  - intros id p Hp. eapply O, lookup_weaken, Hm. done.
  - intros id id' p Hp Hp'. eapply O; eapply lookup_weaken; eauto.
  - intros id p Hp. eapply O, lookup_weaken, Hm. done.
Qed.

(** ** TryQueueTask *)

Definition accepts (mem : Z) ex : bool :=
  negb (exiting_ ex) && (u64 (running_tasks_ ex + 1) <=? max_concurrency_ ex) &&
  (min_memory_ ex <=? mem).

Lemma u64_back z : is_u64 z → u64 (u64 (z + 1) - 1) = z.
Proof.
  intros Hz. unfold u64. rewrite Zminus_mod_idemp_l.
  replace (z + 1 - 1) with z by lia. by apply Z.mod_small.
Qed.

Lemma TryStarting_cases mem ex :
  is_u64 (running_tasks_ ex) →
  (accepts mem ex = true ∧ TryStartingNewTaskUnsafe mem ex =
     (Some (next_task_id_ ex), with_counters (u64 (next_task_id_ ex + 1))
        (u64 (running_tasks_ ex + 1)) (u64 (task_ran_sum_ ex + 1)) ex)) ∨
  (accepts mem ex = false ∧
   TryStartingNewTaskUnsafe mem ex = (None,
     if exiting_ ex then ex
     else with_counters (u64 (next_task_id_ ex + 1)) (running_tasks_ ex) (task_ran_sum_ ex) ex)).
Proof.
  intros Hr. unfold accepts, TryStartingNewTaskUnsafe. rewrite u64_back by done.
  destruct (exiting_ ex); [by right|]. cbn [negb andb].
  destruct (Z.ltb_spec (max_concurrency_ ex) (u64 (running_tasks_ ex + 1))) as [Hl|Hl].
  - right. by rewrite (proj2 (Z.leb_gt _ _)).
  - rewrite (proj2 (Z.leb_le _ _) Hl). cbn [andb].
    destruct (Z.ltb_spec mem (min_memory_ ex)) as [Hm|Hm].
    + right. by rewrite (proj2 (Z.leb_gt _ _)).
    + left. by rewrite (proj2 (Z.leb_le _ _)).
Qed.

Lemma running_u64 s : sys_inv s → is_u64 (running_tasks_ (sys_ex s)).
Proof.
  intros I. pose proof (inv_count _ I). pose proof (inv_limit _ I). pose proof (inv_max _ I).
  split; lia.
Qed.

Lemma with_counters_ok ex n r k :
  tasks_ok ex → next_task_id_ ex ≤ n < 2 ^ 64 → tasks_ok (with_counters n r k ex).
Proof.
  intros O Hn. pose proof (next_id_range _ O). split; cbn; try apply O.
  - intros id p Hp. apply (tasks_ids _ O) in Hp. lia.
  - lia.
Qed.

(** The results of [TryQueueTask], in terms of the state before. *)
Definition taken ex : Executor T E :=
  with_counters (u64 (next_task_id_ ex + 1)) (u64 (running_tasks_ ex + 1))
    (u64 (task_ran_sum_ ex + 1)) ex.
Definition started_desc (new_pid now grant : Z) (t : T) : TaskDesc T E := {|
  pid := new_pid; is_running := true; grant_id := grant; ref_count := 1;
  start_tp := now; completed_tp := 0; task := Some (GetSource t).2;
  completion_event := event_new; cmd := GetCmdLine t |}.

Lemma TryQueueTask_cases mem files new_pid now grant t ex :
  is_u64 (running_tasks_ ex) →
  TryQueueTask mem files new_pid now grant t ex =
    if accepts mem ex then
      match stdin_written files (GetSource t).1 with
      | Some input =>
        (Ret (Some (next_task_id_ ex, {| launch_cmd := GetCmdLine t; launch_stdin := input |})),
         add_desc (next_task_id_ ex) (started_desc new_pid now grant t) 1 (taken ex))
      | None => (Throw "std::length_error",
                 add_desc (next_task_id_ ex) new_desc 0 (taken ex))
      end
    else
      (Ret None, if exiting_ ex then ex
        else with_counters (u64 (next_task_id_ ex + 1)) (running_tasks_ ex) (task_ran_sum_ ex) ex).
Proof.
  intros Hr. unfold TryQueueTask, started_desc.
  destruct (TryStarting_cases mem ex Hr) as [[-> ->]|[-> ->]]; [|done].
  by destruct (GetSource t) as [src t'].
Qed.

(** What an accepted task does to the executor, however it goes on. *)
Lemma taken_ok s mem d n :
  sys_inv s → next_task_id_ (sys_ex s) < 2 ^ 64 - 1 → accepts mem (sys_ex s) = true →
  let ex' := add_desc (next_task_id_ (sys_ex s)) d n (taken (sys_ex s)) in
  tasks_ok ex' ∧ running_tasks_ ex' = running_tasks_ (sys_ex s) + 1 ∧
  running_tasks_ ex' ≤ max_concurrency_ ex'.
Proof.
  intros I Hid Ha. cbv zeta. pose proof (inv_tasks _ I) as O. pose proof (next_id_range _ O).
  assert (Hc : u64 (running_tasks_ (sys_ex s) + 1) ≤ max_concurrency_ (sys_ex s)).
  { unfold accepts in Ha. rewrite !andb_true_iff in Ha. destruct Ha as [[_ Ha] _]. lia. }
  assert (Hr : u64 (running_tasks_ (sys_ex s) + 1) = running_tasks_ (sys_ex s) + 1).
  { pose proof (inv_limit _ I). pose proof (inv_max _ I). pose proof (running_u64 s I) as [? ?].
    apply u64_id. split; lia. }
  assert (Hn : ∀ q, is_Some (desc_heap (sys_ex s) !! q) → q ≠ next_dptr (sys_ex s))
    by (intros q Hq%(heap_below _ O); lia).
  split; [|by split; [exact Hr|]].
  assert (Hnx : u64 (next_task_id_ (sys_ex s) + 1) = next_task_id_ (sys_ex s) + 1)
    by (apply u64_id; split; lia).
  split; cbn; rewrite ?Hnx.
  - intros i p [[<- <-]|[_ Hp]]%lookup_insert_Some; [rewrite lookup_insert_eq; eauto|].
    apply (tasks_live _ O) in Hp. rewrite lookup_insert_ne; [done|]. symmetry. by apply Hn.
  - intros i i' p [[<- <-]|[? Hp]]%lookup_insert_Some [[<- E2]|[? Hp']]%lookup_insert_Some;
      try done; [| |by eapply O].
    + by apply (tasks_live _ O), Hn in Hp'.
    + subst p. by apply (tasks_live _ O), Hn in Hp.
  - intros i p [[<- <-]|[_ Hp]]%lookup_insert_Some; [lia|].
    apply (tasks_ids _ O) in Hp. lia.
  - intros q [d' [[<- _]|[_ Hq]]%lookup_insert_Some]; [lia|].
    pose proof (heap_below _ O q ltac:(eauto)). lia.
  - lia.
Qed.

(** The state after it, with the process, the exception or the failed [fork] counted. *)
Lemma taken_inv s mem d n ch k j :
  sys_inv s → next_task_id_ (sys_ex s) < 2 ^ 64 - 1 → accepts mem (sys_ex s) = true →
  (length ch + k + j = length (children s) + thrown s + forkless s + 1)%nat →
  Z.of_nat (length ch + j) = Z.of_nat (length (children s) + forkless s) + n →
  sys_inv {| sys_ex := add_desc (next_task_id_ (sys_ex s)) d n (taken (sys_ex s));
             children := ch; exits := exits s; stops := stops s; thrown := k; forkless := j |}.
Proof.
  intros I Hid Ha Hk Hn. destruct (taken_ok s mem d n I Hid Ha) as (O & Hr & Hl).
  split; cbn [sys_ex children exits stops thrown forkless]; [done|..| |]; try apply I; try done.
  - rewrite Hr, (inv_count _ I). lia.
  - cbn. rewrite (inv_semaphore _ I). lia.
Qed.

(** ** Inversion of the results *)

Lemma queue_accepted s mem files new_pid now grant t id l ex' :
  sys_inv s →
  TryQueueTask mem files new_pid now grant t (sys_ex s) = (Ret (Some (id, l)), ex') →
  accepts mem (sys_ex s) = true ∧ id = next_task_id_ (sys_ex s) ∧
  ex' = add_desc id (started_desc new_pid now grant t) 1 (taken (sys_ex s)).
Proof.
  intros I. rewrite TryQueueTask_cases by by apply running_u64.
  destruct (accepts _ _); [|done]. destruct (stdin_written _ _); [|done]. by intros [= <- _ <-].
Qed.

Lemma queue_thrown s mem files new_pid now grant t what ex' :
  sys_inv s → TryQueueTask mem files new_pid now grant t (sys_ex s) = (Throw what, ex') →
  accepts mem (sys_ex s) = true ∧
  ex' = add_desc (next_task_id_ (sys_ex s)) new_desc 0 (taken (sys_ex s)).
Proof.
  intros I. rewrite TryQueueTask_cases by by apply running_u64.
  destruct (accepts _ _); [|done]. destruct (stdin_written _ _); [done|]. by intros [= _ <-].
Qed.

Lemma queue_refused s mem files new_pid now grant t ex' :
  sys_inv s → TryQueueTask mem files new_pid now grant t (sys_ex s) = (Ret None, ex') →
  ex' = if exiting_ (sys_ex s) then sys_ex s
        else with_counters (u64 (next_task_id_ (sys_ex s) + 1)) (running_tasks_ (sys_ex s))
               (task_ran_sum_ (sys_ex s)) (sys_ex s).
Proof.
  intros I. rewrite TryQueueTask_cases by by apply running_u64.
  destruct (accepts _ _); [by destruct (stdin_written _ _)|]. by intros [= <-].
Qed.

Lemma refuse_inv s mem files new_pid now grant t ex' :
  sys_inv s → next_task_id_ (sys_ex s) < 2 ^ 64 - 1 →
  TryQueueTask mem files new_pid now grant t (sys_ex s) = (Ret None, ex') →
  sys_inv (sys_with ex' s).
Proof.
  intros I Hid ->%queue_refused; [|done].
  pose proof (inv_tasks _ I) as O. pose proof (next_id_range _ O).
  destruct (exiting_ (sys_ex s)) eqn:X; [by destruct s|].
  split; cbn; try apply I. apply with_counters_ok; [done|]. rewrite u64_id by (split; lia). lia.
Qed.

(** ** The waiter thread *)

Lemma Waiter_exit_inv r room p code ex ex' :
  WaiterProc_pass r room ex = Ret (Waiter_exit p code ex') →
  ex' = with_semaphore (waitpid_semaphore_ ex - 1) ex.
Proof.
  unfold WaiterProc_pass. cbn zeta. repeat (case_match; try done); by intros [= _ _ <-].
Qed.

Lemma reap_inv s r p code l1 l2 ex' :
  sys_inv s → WaiterProc_pass r true (sys_ex s) = Ret (Waiter_exit p code ex') →
  children s = l1 ++ p :: l2 → sys_inv (sys_upd ex' (l1 ++ l2) (p :: exits s) s).
Proof.
  intros I ->%Waiter_exit_inv Hc.
  pose proof (inv_count _ I) as C. pose proof (inv_semaphore _ I) as S.
  rewrite Hc, length_app in C, S. cbn in C, S.
  split; cbn; try apply I.
  - split; cbn; apply (inv_tasks _ I).
  - rewrite length_app. lia.
  - rewrite length_app. lia.
Qed.

(** The task that an exit callback completes: one with the pid of the process. *)
Definition found_by_pid ex (p : Z) (q : dptr) d : Prop :=
  (∃ id, tasks_ ex !! id = Some q) ∧ desc_heap ex !! q = Some d ∧ pid d = p.

(** What the callback makes of the description: nothing else changes it. *)
Definition exit_desc (w : exit_world) (code now : Z) (out err : outcome string) (left t : T) d
    : TaskDesc T E :=
  if o ← out; e ← err; OnCompleted w t code o e is Ret t' then completed now t' d
  else uncompleted now left d.

Lemma OnExitCallback_cases w p code now out err left ex :
  tasks_ok ex →
  let ex1 := with_counters (next_task_id_ ex) (u64 (running_tasks_ ex - 1)) (task_ran_sum_ ex) ex in
  (OnExitCallback w p code now out err left ex = (Ret (), ex1) ∧ ∀ q d, ¬ found_by_pid ex p q d) ∨
  (∃ q d, found_by_pid ex p q d ∧ task d = None ∧
    OnExitCallback w p code now out err left ex = (Undef "std_out of a half-made task", ex1)) ∨
  ∃ q d t, found_by_pid ex p q d ∧ task d = Some t ∧
    OnExitCallback w p code now out err left ex =
      (_ ← (o ← out; e ← err; OnCompleted w t code o e); Ret (),
       with_descs (<[q := exit_desc w code now out err left t d]> (desc_heap ex)) ex1).
Proof.
  intros O. cbv zeta. unfold OnExitCallback.
  destruct (list_find _ _) as [[i [id q]]|] eqn:F.
  - right. apply list_find_Some in F as (F1 & F2 & _). cbn in F2.
    apply list_elem_of_lookup_2, elem_of_map_to_list in F1.
    destruct (desc_heap ex !! q) as [d|] eqn:D; [|done].
    assert (Hf : found_by_pid ex p q d)
      by (split_and!; [by exists id|done|by apply Z.eqb_eq]).
    cbn. rewrite D. destruct (task d) as [t|] eqn:Ht; [right; by exists q, d, t|left; by exists q, d].
  - left. split; [done|]. intros q d ([id Hid] & Hd & Hp).
    apply list_find_None in F. rewrite Forall_forall in F.
    apply (F (id, q)); [by apply elem_of_map_to_list|]. cbn. rewrite Hd. by apply Z.eqb_eq.
Qed.

Lemma callback_inv s w p code now out err left l1 l2 :
  sys_inv s → exits s = l1 ++ p :: l2 →
  sys_inv (sys_upd (OnExitCallback w p code now out err left (sys_ex s)).2
             (children s) (l1 ++ l2) s).
Proof.
  intros I He. pose proof (inv_tasks _ I) as O. pose proof (next_id_range _ O) as N.
  pose proof (inv_count _ I) as C. rewrite He, length_app in C. cbn in C.
  pose proof (inv_limit _ I). pose proof (running_u64 s I) as [? ?].
  assert (Hr : u64 (running_tasks_ (sys_ex s) - 1) = running_tasks_ (sys_ex s) - 1)
    by (apply u64_id; split; lia).
  set (ex1 := with_counters (next_task_id_ (sys_ex s)) (u64 (running_tasks_ (sys_ex s) - 1))
    (task_ran_sum_ (sys_ex s)) (sys_ex s)).
  assert (I1 : sys_inv (sys_upd ex1 (children s) (l1 ++ l2) s)).
  { split; cbn; try apply I; [apply with_counters_ok; [done|lia]|..]; rewrite ?Hr; [|lia].
    rewrite length_app. lia. }
  destruct (OnExitCallback_cases w p code now out err left (sys_ex s) O)
    as [[E1 _]|[(q & d & _ & _ & E1)|(q & d & t & Hf & _ & E1)]]; rewrite E1; [exact I1..|].
  apply (same_counters_inv _ _ I1); [done|]. destruct Hf as (_ & Hd & _).
  apply (update_desc_ok ex1 q); [apply I1|]. cbn. eauto.
Qed.

Lemma init_inv f cores ex :
  0 ≤ cores → - 2 ^ 31 ≤ FLAGS_max_concurrency f < 2 ^ 31 → Executor_init f cores = Ret ex →
  sys_inv (start_sys ex).
Proof.
  intros Hc Hf (m & _ & [= <-])%bind_Ret.
  assert (B : 0 ≤ concurrency_of f cores < 2 ^ 64 - 1).
  { unfold concurrency_of. destruct (Z.eqb_spec (FLAGS_max_concurrency f) (-1)).
    - destruct (String.eqb _ _); [|destruct (String.eqb _ _); [destruct (_ <? _)|]]; try lia.
      + pose proof (u64_range (cores * 95)) as [? ?]. split; [by apply Z.div_pos|].
        apply Z.div_lt_upper_bound; lia.
      + pose proof (u64_range (cores * 40)) as [? ?]. split; [by apply Z.div_pos|].
        apply Z.div_lt_upper_bound; lia.
    - destruct (Z.ltb_spec (FLAGS_max_concurrency f) 0).
      + rewrite u64_neg; lia.
      + rewrite u64_id by (split; lia). lia. }
  split; cbn; try done; try lia.
  split; cbn; [intros id p H'|intros id id' p H'|intros id p H'|intros p [d H']|lia];
    by rewrite lookup_empty in H'.
Qed.

Lemma WaitForTask_event_Ret p ex r ex' :
  WaitForTask_event p ex = Ret (r, ex') →
  ∃ d, desc_heap ex !! p = Some d ∧
    ex' = with_descs (<[p := with_event (event_tryWait (completion_event d)).2 d]> (desc_heap ex)) ex ∧
    r = if (event_tryWait (completion_event d)).1 then (task d, Unknown) else (None, Running).
Proof.
  unfold WaitForTask_event. destruct (desc_heap ex !! p) as [d|]; [|done].
  intros Hr. exists d. revert Hr. destruct (event_tryWait (completion_event d)) as [b e]. cbn.
  by destruct b; intros [= <- <-].
Qed.

Lemma alter_desc_ok ex p f : tasks_ok ex → tasks_ok (with_descs (alter f p (desc_heap ex)) ex).
Proof.
  intros O. destruct (desc_heap ex !! p) as [d|] eqn:D.
  - assert (alter f p (desc_heap ex) = <[p := f d]> (desc_heap ex)) as ->.
    { apply map_eq. intros q. destruct (decide (p = q)) as [<-|].
      - by rewrite lookup_alter_eq, lookup_insert_eq, D.
      - by rewrite lookup_alter_ne, lookup_insert_ne. }
    apply update_desc_ok; eauto.
  - assert (alter f p (desc_heap ex) = desc_heap ex) as ->; [|by destruct ex].
    apply map_eq. intros q. destruct (decide (p = q)) as [<-|]; [|by rewrite lookup_alter_ne].
    by rewrite lookup_alter_eq, D.
Qed.

Lemma FreeTask_ok id ex : tasks_ok ex → tasks_ok (FreeTask id ex).2.
Proof.
  intros O. unfold FreeTask. destruct (tasks_ ex !! id) as [p|]; [|done].
  destruct (desc_heap ex !! p) as [d|] eqn:D; [|done]. cbn zeta.
  assert (O' : tasks_ok (with_descs (<[p := with_ref_count (u32 (ref_count d - 1)) d]>
    (desc_heap ex)) ex)) by (apply update_desc_ok; eauto).
  destruct (0 <? _); [done|]. cbn. apply (with_tasks_ok _ _ O'). apply delete_subseteq.
Qed.

Lemma FreeTask_counters id ex : same_counters ex (FreeTask id ex).2.
Proof.
  unfold FreeTask. destruct (tasks_ ex !! id); [|done]. destruct (desc_heap ex !! _); [|done].
  cbn zeta. by destruct (0 <? _).
Qed.

Lemma sys_step_inv s s' : sys_step s s' → sys_inv s → sys_inv s'.
Proof.
  intros St I. pose proof (inv_tasks _ I) as O.
  destruct St as [mem files np now gr t id l ex' Hid Hq|mem files now gr t id l ex' Hid Hq
    |mem files np now gr t what ex' Hid Hq| | | |id|p r ex' Hw|id|now|];
    eauto using refuse_inv, reap_inv, callback_inv.
  - apply queue_accepted in Hq as (Ha & -> & ->); [|done]. apply (taken_inv s mem); cbn; try done; lia.
  - apply queue_accepted in Hq as (Ha & -> & ->); [|done]. apply (taken_inv s mem); cbn; try done; lia.
  - apply queue_thrown in Hq as [Ha ->]; [|done]. apply (taken_inv s mem); cbn; try done; lia.
  - apply same_counters_inv; [done|..]; unfold TryAddTaskRef;
      destruct (tasks_ (sys_ex s) !! id); try done. by apply alter_desc_ok.
  - apply WaitForTask_event_Ret in Hw as (d & Hd & -> & _).
    apply same_counters_inv; [done..|]. apply update_desc_ok; eauto.
  - apply same_counters_inv; [done|apply FreeTask_counters|by apply FreeTask_ok].
  - apply same_counters_inv; [done..|]. apply with_tasks_ok; [done|]. apply map_filter_subseteq.
  - split; cbn; try apply I; [split; cbn; apply O|rewrite (inv_semaphore _ I); lia|done].
Qed.

Lemma sys_reachable_inv f cores s : 0 ≤ cores → sys_reachable f cores s → sys_inv s.
Proof.
  intros Hc. induction 1; [by eapply init_inv|by eapply sys_step_inv].
Qed.

(** ** Stopping *)

Lemma TryQueueTask_exiting mem files new_pid now grant t ex :
  exiting_ (TryQueueTask mem files new_pid now grant t ex).2 = exiting_ ex ∧
  (exiting_ ex = true → TryQueueTask mem files new_pid now grant t ex = (Ret None, ex)).
Proof.
  unfold TryQueueTask, TryStartingNewTaskUnsafe. destruct (exiting_ ex) eqn:X; [done|].
  split; [|done]. destruct (_ <? _); [done|]. destruct (_ <? _); [done|].
  destruct (GetSource t). by destruct (stdin_written _ _).
Qed.

Lemma OnExitCallback_exiting w p code now out err left ex :
  exiting_ (OnExitCallback w p code now out err left ex).2 = exiting_ ex.
Proof. unfold OnExitCallback. by repeat case_match. Qed.

Lemma sys_step_stop s s' :
  sys_step s s' →
  (exiting_ (sys_ex s') = exiting_ (sys_ex s) ∧ stops s' = stops s ∨
   exiting_ (sys_ex s') = true ∧ stops s' = S (stops s)) ∧
  (children s' = children s ∨ S (length (children s')) = length (children s) ∨
   exiting_ (sys_ex s) = false).
Proof.
  assert (Q : ∀ mem files new_pid now grant t r ex', TryQueueTask mem files new_pid now grant t
    (sys_ex s) = (r, ex') → exiting_ ex' = exiting_ (sys_ex s)).
  { intros mem files new_pid now grant t r ex' Hq.
    pose proof (TryQueueTask_exiting mem files new_pid now grant t (sys_ex s)) as [X _].
    by rewrite Hq in X. }
  intros [mem files np now gr t id l ex' _ Hq _ _|mem files now gr t id l ex' _ Hq
    |mem files np now gr t what ex' _ Hq|mem files np now gr t ex' _ Hq
    |rp p code l1 l2 ex' Hw Hc|w p code now out err left l1 l2 _|id|p rp ex' Hw|id|now|]; cbn.
  - split; [left; split; [by eapply Q|done]|]. right. right.
    destruct (exiting_ (sys_ex s)) eqn:X; [|done].
    rewrite (proj2 (TryQueueTask_exiting _ _ _ _ _ _ _) X) in Hq. done.
  - split; [left; split; [by eapply Q|done]|by left].
  - split; [left; split; [by eapply Q|done]|by left].
  - split; [left; split; [by eapply Q|done]|by left].
  - apply Waiter_exit_inv in Hw as ->. split; [by left|]. right. left.
    rewrite Hc, !length_app. cbn. lia.
  - split; [left|by left]. split; [apply OnExitCallback_exiting|done].
  - split; [left|by left]. unfold TryAddTaskRef. by destruct (tasks_ _ !! _).
  - split; [left|by left]. by apply WaitForTask_event_Ret in Hw as (d & _ & -> & _).
  - split; [left|by left]. split; [|done]. apply FreeTask_counters.
  - split; [by left|by left].
  - split; [by right|by left].
Qed.

Lemma exiting_stopped f cores s :
  sys_reachable f cores s → exiting_ (sys_ex s) = true → (0 < stops s)%nat.
Proof.
  induction 1 as [ex _ Hi|s s' _ IH Hs].
  - by apply bind_Ret in Hi as (m & _ & [= <-]).
  - destruct (sys_step_stop s s' Hs) as [[[-> ->]|[_ ->]] _]; [done|lia].
Qed.

(** * Properties *)

(** C8. In every reachable state the counter of running tasks is exactly the number
    of started processes whose exit has not been handled, and of the calls that took a
    slot and started no process: those in which a temporary file could not be made and
    those whose [fork] failed.  Their slots never come back: when they are all there are,
    every task is refused.  The counter is never more than the limit; task ids are fresh;
    and while the executor is not stopped, a process that has ended is never lost: the
    waiter thread holds a permit for every unreaped child and hands its exit on, but when
    the thread pool has no room for it the daemon ends.  The permit of a failed [fork]
    lets the waiter through with no child to wait for, where it reads a status nobody
    wrote. *)
Theorem executor_accounting f cores s :
  0 ≤ cores → sys_reachable f cores s →
  let ex := sys_ex s in
  running_tasks_ ex =
    Z.of_nat (length (children s) + length (exits s) + thrown s + forkless s) ∧
  running_tasks_ ex ≤ max_concurrency_ ex ∧
  tasks_ ex !! next_task_id_ ex = None ∧
  (Z.of_nat (thrown s + forkless s) = max_concurrency_ ex → ∀ mem files new_pid now grant t,
     (TryQueueTask mem files new_pid now grant t ex).1 = Ret None) ∧
  (exiting_ ex = false → ∀ p code room, p ∈ children s →
     WaiterProc_pass (Exited p code) room ex =
       if room then Ret (Waiter_exit p code (with_semaphore (waitpid_semaphore_ ex - 1) ex))
       else Fatal "std::terminate") ∧
  (exiting_ ex = false → (0 < forkless s)%nat → ∀ room,
     WaiterProc_pass WaitFailed room ex = Undef "uninitialised status").
Proof.
  intros Hc R. pose proof (sys_reachable_inv f cores s Hc R) as I. cbv zeta.
  assert (Pass : ∀ r room, exiting_ (sys_ex s) = false → 0 < waitpid_semaphore_ (sys_ex s) →
    WaiterProc_pass r room (sys_ex s) = match r with
      | WaitFailed => Undef "uninitialised status"
      | Exited p code => if room then Ret (Waiter_exit p code
          (with_semaphore (waitpid_semaphore_ (sys_ex s) - 1) (sys_ex s)))
        else Fatal "std::terminate"
      | Signaled p => if room then Ret (Waiter_exit p (-1)
          (with_semaphore (waitpid_semaphore_ (sys_ex s) - 1) (sys_ex s)))
        else Fatal "std::terminate"
      end).
  { intros r room X P. unfold WaiterProc_pass. cbn zeta.
    assert (W : ∀ n, has_work (with_semaphore n (sys_ex s)) = true)
      by (intros n; unfold has_work; cbn; by rewrite X).
    assert (has_work (sys_ex s) = true) as -> by (unfold has_work; by rewrite X).
    rewrite W. cbn. rewrite (proj2 (Z.leb_gt _ _)) by lia. destruct r; [done..|by rewrite X]. }
  split_and!; [apply I|apply I| | | |].
  - destruct (tasks_ (sys_ex s) !! next_task_id_ (sys_ex s)) as [q|] eqn:Q; [|done].
    apply (tasks_ids _ (inv_tasks _ I)) in Q. lia.
  - intros Hl mem files new_pid now grant t.
    rewrite TryQueueTask_cases by by apply running_u64.
    assert (accepts mem (sys_ex s) = false) as ->; [|done].
    pose proof (inv_count _ I). pose proof (inv_max _ I). pose proof (inv_limit _ I).
    unfold accepts. rewrite u64_id by (split; lia).
    rewrite (proj2 (Z.leb_gt (running_tasks_ (sys_ex s) + 1) _)) by lia. by rewrite andb_false_r.
  - intros X p code room Hp. apply (Pass (Exited p code)); [done|]. rewrite (inv_semaphore _ I).
    destruct (children s); [by apply elem_of_nil in Hp|cbn; lia].
  - intros X Hf room. apply (Pass WaitFailed); [done|]. rewrite (inv_semaphore _ I). lia.
Qed.

(** C19. A task is accepted exactly when the executor is not stopping, a slot is free
    and enough memory is available; a refused task starts nothing and takes no slot.  An
    accepted task gets a fresh id and takes a slot.  When its temporary files can be made,
    its description has one reference and the pid that [fork] returned (-1 when it failed,
    and nothing runs), and the process is given the command of the task and as much of its
    source as the one write to the input file took: all of it when the write was complete,
    a truncated source when it was not, which nothing notices.  When a file cannot be made
    the call throws, and leaves a description without a task that is never cleaned away. *)
Theorem TryQueueTask_spec f cores s mem files new_pid now grant t :
  0 ≤ cores → sys_reachable f cores s → next_task_id_ (sys_ex s) < 2 ^ 64 - 1 →
  let ex := sys_ex s in
  let id := next_task_id_ ex in
  let admitted := exiting_ ex = false ∧ running_tasks_ ex < max_concurrency_ ex ∧
                  min_memory_ ex ≤ mem in
  let '(r, ex') := TryQueueTask mem files new_pid now grant t ex in
  match r with
  | Ret None =>
    ¬ admitted ∧ tasks_ ex' = tasks_ ex ∧ desc_heap ex' = desc_heap ex ∧
    running_tasks_ ex' = running_tasks_ ex ∧ waitpid_semaphore_ ex' = waitpid_semaphore_ ex
  | Ret (Some (i, l)) =>
    admitted ∧ i = id ∧ tasks_ ex !! id = None ∧
    running_tasks_ ex' = running_tasks_ ex + 1 ∧
    waitpid_semaphore_ ex' = waitpid_semaphore_ ex + 1 ∧
    (∃ n, tf_stdin files = Some n ∧ launch_stdin l = ztake n (GetSource t).1 ∧
       (ssize (GetSource t).1 ≤ n → launch_stdin l = (GetSource t).1)) ∧
    launch_cmd l = GetCmdLine t ∧
    ∃ p d, tasks_ ex' = <[id := p]> (tasks_ ex) ∧ desc_heap ex !! p = None ∧
      desc_heap ex' = <[p := d]> (desc_heap ex) ∧ pid d = new_pid ∧ is_running d = true ∧
      grant_id d = grant ∧ ref_count d = 1 ∧ task d = Some (GetSource t).2
  | Throw _ =>
    admitted ∧ (tf_stdin files = None ∨ tf_out files = false ∨ tf_err files = false) ∧
    tasks_ ex !! id = None ∧ running_tasks_ ex' = running_tasks_ ex + 1 ∧
    waitpid_semaphore_ ex' = waitpid_semaphore_ ex ∧
    ∃ p d, tasks_ ex' = <[id := p]> (tasks_ ex) ∧ desc_heap ex !! p = None ∧
      desc_heap ex' = <[p := d]> (desc_heap ex) ∧ task d = None ∧ KillTask d = [0] ∧
      ∀ later, cleanable later d = false
  | _ => False
  end.
Proof.
  intros Hc R Hid. pose proof (sys_reachable_inv f cores s Hc R) as I.
  pose proof (inv_tasks _ I) as O. pose proof (running_u64 s I) as [H0' _].
  pose proof (inv_limit _ I). pose proof (inv_max _ I). cbv zeta.
  assert (Hr : u64 (running_tasks_ (sys_ex s) + 1) = running_tasks_ (sys_ex s) + 1)
    by (apply u64_id; split; lia).
  assert (A : accepts mem (sys_ex s) = true ↔ exiting_ (sys_ex s) = false ∧
    running_tasks_ (sys_ex s) < max_concurrency_ (sys_ex s) ∧ min_memory_ (sys_ex s) ≤ mem).
  { unfold accepts. rewrite Hr, !andb_true_iff, negb_true_iff, !Z.leb_le. intuition lia. }
  assert (F1 : tasks_ (sys_ex s) !! next_task_id_ (sys_ex s) = None).
  { destruct (tasks_ (sys_ex s) !! _) as [q|] eqn:Q; [|done].
    apply (tasks_ids _ O) in Q. lia. }
  assert (F2 : desc_heap (sys_ex s) !! next_dptr (sys_ex s) = None).
  { destruct (desc_heap (sys_ex s) !! _) as [d|] eqn:D; [|done].
    pose proof (heap_below _ O _ ltac:(eauto)). lia. }
  rewrite TryQueueTask_cases by by apply running_u64.
  destruct (accepts mem (sys_ex s)) eqn:Ha.
  - unfold stdin_written. destruct files as [[n|] out err]; cbn.
    + destruct (out && err) eqn:W; cbn; rewrite Hr; (split; [by apply A|]).
      * do 4 (split; [done|]). split; [|by split; [|do 2 eexists]].
        exists n. split_and!; [done..|]. intros Hn. unfold ztake. by rewrite (proj2 (Z.leb_le _ _) Hn).
      * split; [apply andb_false_iff in W as [->| ->]; tauto|].
        do 2 (split; [done|]). split; [lia|by do 2 eexists].
    + rewrite Hr. split; [by apply A|]. split; [by left|].
      do 2 (split; [done|]). split; [lia|by do 2 eexists].
  - split; [by intros HA; apply A in HA|]. by destruct (exiting_ (sys_ex s)).
Qed.

(** Waiting for a task: an unknown id is reported; otherwise the waiter gets the
    task when its completion event is signalled and "running" when not.  The event
    resets itself, so that of two waiters of a completed task only the first gets
    it; the second is told that the task still runs. *)
Theorem WaitForTask_spec id p d ex :
  tasks_ ex !! id = Some p → desc_heap ex !! p = Some d →
  (∀ id', tasks_ ex !! id' = None →
     WaitForTask id' (λ ex, ex) ex = Ret (None, NotFound, ex)) ∧
  (completion_event d = event_new →
     ∃ ex', WaitForTask id (λ ex, ex) ex = Ret (None, Running, ex')) ∧
  (∀ now t, ∃ ex1 ex2,
     let done := with_descs (<[p := completed now t d]> (desc_heap ex)) ex in
     WaitForTask id (λ ex, ex) done = Ret (Some t, Unknown, ex1) ∧
     WaitForTask id (λ ex, ex) ex1 = Ret (None, Running, ex2)).
Proof.
  intros Ht Hd. unfold WaitForTask, WaitForTask_find, WaitForTask_event. split_and!.
  - by intros id' ->.
  - intros He. rewrite Ht, Hd, He. pose proof tryWait_new as N.
    destruct (event_tryWait event_new) as [b e]. cbn in N. subst b. by eexists.
  - intros now t. cbn. rewrite Ht, lookup_insert_eq. cbn.
    pose proof (tryWait_set (completion_event d)) as S1.
    pose proof (tryWait_reset (event_set (completion_event d)) S1) as S2.
    destruct (event_tryWait (event_set (completion_event d))) as [b e]. cbn in S1, S2. subst b.
    destruct (event_tryWait e) as [b e'] eqn:Q. cbn in S2. subst b.
    do 2 eexists. split; [reflexivity|]. cbn. rewrite Ht, lookup_insert_eq. cbn.
    rewrite Q. reflexivity.
Qed.

(** Freeing a task drops one reference; only the last one removes it and then
    kills the process group of a process that still runs.  Other tasks are not
    touched. *)
Theorem FreeTask_refs id p d ex :
  tasks_ ex !! id = Some p → desc_heap ex !! p = Some d → 0 < ref_count d < 2 ^ 32 →
  let '(kills, ex') := FreeTask id ex in
  desc_heap ex' = <[p := with_ref_count (ref_count d - 1) d]> (desc_heap ex) ∧
  (1 < ref_count d → kills = [] ∧ tasks_ ex' = tasks_ ex) ∧
  (ref_count d = 1 → tasks_ ex' = delete id (tasks_ ex) ∧
     kills = if is_running d then [- pid d] else []).
Proof.
  intros Ht Hd Hr. unfold FreeTask. rewrite Ht, Hd. cbn zeta.
  assert (u32 (ref_count d - 1) = ref_count d - 1) as -> by (apply u32_id; split; lia).
  destruct (Z.ltb_spec 0 (ref_count d - 1)); split_and!; try done; lia.
Qed.

(** When a process with a unique pid exits, its slot is given back and exactly
    its task is completed: marked as not running, given the exit code and output,
    and its waiters are signalled.  When the output cannot be read or the task throws,
    the slot is given back too and the task no longer runs, but nobody is signalled.
    When no task has the pid (it was freed) only the slot is given back. *)
Theorem OnExitCallback_spec f cores s w p code now out err left l1 l2 :
  0 ≤ cores → sys_reachable f cores s → exits s = l1 ++ p :: l2 →
  let ex := sys_ex s in
  let '(r, ex') := OnExitCallback w p code now out err left ex in
  running_tasks_ ex' = running_tasks_ ex - 1 ∧ tasks_ ex' = tasks_ ex ∧
  ((∀ q d, ¬ found_by_pid ex p q d) → r = Ret () ∧ desc_heap ex' = desc_heap ex) ∧
  (∀ q d t o e, found_by_pid ex p q d → (∀ q' d', found_by_pid ex p q' d' → q' = q) →
     task d = Some t → out = Ret o → err = Ret e →
     match OnCompleted w t code o e with
     | Ret t' => r = Ret () ∧ desc_heap ex' = <[q := completed now t' d]> (desc_heap ex)
     | _ => r ≠ Ret () ∧ desc_heap ex' = <[q := uncompleted now left d]> (desc_heap ex)
     end).
Proof.
  intros Hc R He. pose proof (sys_reachable_inv f cores s Hc R) as I.
  pose proof (inv_tasks _ I) as O. cbv zeta.
  pose proof (inv_count _ I) as C. rewrite He, length_app in C. cbn in C.
  pose proof (running_u64 s I) as [? ?].
  assert (Hr : u64 (running_tasks_ (sys_ex s) - 1) = running_tasks_ (sys_ex s) - 1)
    by (apply u64_id; split; lia).
  destruct (OnExitCallback_cases w p code now out err left (sys_ex s) O)
    as [[E1 Hn]|[(q & d & Hf & Ht & E1)|(q & d & t & Hf & Ht & E1)]]; rewrite E1; cbn;
    (split; [exact Hr|]); (split; [done|]); split.
  - done.
  - intros q d t o e Hf. by apply Hn in Hf.
  - intros Hn. by apply Hn in Hf.
  - intros q' d' t o e Hf' Hu Ht'.
    assert (q = q') as -> by (by eapply Hu). assert (d = d') as ->
      by (destruct Hf as (_ & ? & _), Hf' as (_ & ? & _); congruence). congruence.
  - intros Hn. by apply Hn in Hf.
  - intros q' d' t' o e Hf' Hu Ht' -> ->.
    assert (q = q') as -> by (by eapply Hu). assert (d = d') as ->
      by (destruct Hf as (_ & ? & _), Hf' as (_ & ? & _); congruence).
    assert (t = t') as -> by congruence. unfold exit_desc. cbn.
    by destruct (OnCompleted w t' code o e).
Qed.

(** The cleaning timer removes exactly the tasks that completed more than a
    minute ago. *)
Theorem OnTimerClean_spec f cores s now id p d :
  0 ≤ cores → sys_reachable f cores s →
  desc_heap (sys_ex s) !! p = Some d →
  tasks_ (OnTimerClean now (sys_ex s)) !! id = Some p ↔
  tasks_ (sys_ex s) !! id = Some p ∧ ¬ (is_running d = false ∧ completed_tp d + minutes 1 < now).
Proof.
  intros Hc R Hd. cbn. rewrite map_lookup_filter_Some. cbn. rewrite Hd.
  unfold cleanable. split; intros [Ht Hx]; (split; [done|]).
  - intros [Hr Hl]. rewrite Hr in Hx. cbn in Hx. apply Z.ltb_ge in Hx. lia.
  - apply not_true_iff_false. rewrite andb_true_iff, negb_true_iff, Z.ltb_lt. done.
Qed.

(** What [wait] can return: a child, and -1 exactly when there is none. *)
Definition wait_answers (children : list Z) (r : Reaped) : Prop :=
  match r with
  | Exited p _ | Signaled p => p ∈ children
  | WaitFailed => children = []
  end.

(** C26. After [Stop] the waiter thread ends: it is never blocked on the semaphore again, and
    every pass through its loop ends the thread or takes one of the children that are left,
    or, when the thread pool has no room for the exit it took, ends the whole daemon; and
    no new child appears.  So the thread makes at most one pass more than there are children.
    The permits are counted without a bound (libstdc++); the declared maximum is one, and
    the release of [Stop] may be one that the standard leaves undefined. *)
Theorem stopped_waiter_ends f cores s :
  0 ≤ cores → sys_reachable f cores s → exiting_ (sys_ex s) = true →
  (∀ r room, wait_answers (children s) r →
     WaiterProc_pass r room (sys_ex s) = Ret Waiter_done ∨
     ∃ p, p ∈ children s ∧
       if room then ∃ code ex', WaiterProc_pass r room (sys_ex s) = Ret (Waiter_exit p code ex')
       else WaiterProc_pass r room (sys_ex s) = Fatal "std::terminate") ∧
  ∀ s', sys_step s s' → exiting_ (sys_ex s') = true ∧
    (children s' = children s ∨ S (length (children s')) = length (children s)).
Proof.
  intros Hc R X. pose proof (sys_reachable_inv f cores s Hc R) as I.
  pose proof (exiting_stopped f cores s R X) as Hs. split.
  - intros r room Hr. unfold WaiterProc_pass. destruct (has_work (sys_ex s)) eqn:W; cbn [negb]; [|by left].
    rewrite (proj2 (Z.leb_gt _ _)) by (rewrite (inv_semaphore _ I); lia). cbn zeta.
    change (has_work (with_semaphore _ _)) with (has_work (sys_ex s)). rewrite W. cbn [negb].
    destruct r as [p code|p|]; [right; exists p|right; exists p|left];
      [by destruct room; split_and!; eauto..|]. cbn. by rewrite X.
  - intros s' St. destruct (sys_step_stop s s' St) as [[[-> _]|[-> _]] [Hch|[Hch|Hf]]];
      (split; [done|]); try congruence; auto.
Qed.
End facts.

(** * Witnesses *)

(** A task that is its own command and source. *)
#[local] Instance demo_task : Task string := {|
  exit_world := unit; GetCmdLine := λ t, t; GetSource := λ t, (t, "");
  OnCompleted := λ _ t _ out _, Ret (t +:+ out) |}.
(** The files could be made, and the write took what it was given. *)
Definition demo_files : TempFiles := {| tf_stdin := Some 4096; tf_out := true; tf_err := true |}.
Definition demo_flags : ExecutorFlags := {|
  FLAGS_min_memory_for_starting_new_task := "2G"; FLAGS_max_concurrency := 2;
  FLAGS_servant_priority := "user"; FLAGS_poor_cpu_cores_threshold := 4 |}.
Definition demo_init : Executor string bool := {|
  exiting_ := false; next_task_id_ := 1; running_tasks_ := 0; max_concurrency_ := 2;
  min_memory_ := 2 ^ 31; task_ran_sum_ := 0; tasks_ := ∅; waitpid_semaphore_ := 0;
  desc_heap := ∅; next_dptr := 0%nat |}.
Definition demo_ex : Executor string bool := (TryQueueTask (2 ^ 32) demo_files 77 5 9 "cc" demo_init).2.
Definition demo_sys : Sys (T := string) (E := bool) := sys_upd demo_ex [77] [] (start_sys demo_init).
Definition demo_exited : Sys (T := string) (E := bool) :=
  sys_upd (with_semaphore 0 demo_ex) [] [77] demo_sys.

Lemma demo_start : sys_reachable demo_flags 8 (start_sys demo_init).
Proof. apply sys_init; [cbn; lia|vm_compute; reflexivity]. Qed.
Lemma demo_reachable : sys_reachable demo_flags 8 demo_sys.
Proof.
  apply (sys_next _ _ (start_sys demo_init)); [apply demo_start|].
  apply (sys_queue (start_sys demo_init) (2 ^ 32) demo_files 77 5 9 "cc" 1
    {| launch_cmd := "cc"; launch_stdin := "cc" |});
    [by vm_compute|vm_compute; reflexivity|lia|apply not_elem_of_nil].
Qed.
Lemma demo_exited_reachable : sys_reachable demo_flags 8 demo_exited.
Proof.
  apply (sys_next _ _ demo_sys); [apply demo_reachable|].
  apply (sys_reap demo_sys (Exited 77 0) 77 0 [] []); [vm_compute; reflexivity|reflexivity].
Qed.

(** A second task is queued, and its input file cannot be made. *)
Definition demo_no_files : TempFiles := {| tf_stdin := None; tf_out := true; tf_err := true |}.
Definition demo_thrown : Sys (T := string) (E := bool) := {|
  sys_ex := (TryQueueTask (2 ^ 32) demo_no_files 78 6 10 "cc" demo_ex).2;
  children := [77]; exits := []; stops := 0%nat; thrown := 1%nat; forkless := 0%nat |}.
Lemma demo_thrown_reachable : sys_reachable demo_flags 8 demo_thrown.
Proof.
  apply (sys_next _ _ demo_sys); [apply demo_reachable|].
  apply (sys_throw demo_sys (2 ^ 32) demo_no_files 78 6 10 "cc" "std::length_error");
    [by vm_compute|vm_compute; reflexivity].
Qed.

(** Two tasks are queued before the waiter thread runs: the semaphore, declared for one
    permit, has two. *)
Lemma permits_above_one : ∃ s : Sys (T := string) (E := bool),
  sys_reachable demo_flags 8 s ∧ waitpid_semaphore_ (sys_ex s) = 2.
Proof.
  eexists. split.
  - apply (sys_next _ _ demo_sys); [apply demo_reachable|].
    apply (sys_queue demo_sys (2 ^ 32) demo_files 78 6 10 "cc" 2
      {| launch_cmd := "cc"; launch_stdin := "cc" |});
      [by vm_compute|vm_compute; reflexivity|lia|by intros ?%list_elem_of_singleton].
  - vm_compute. reflexivity.
Qed.

Lemma executor_accounting_witness : running_tasks_ (sys_ex demo_thrown) = 2.
Proof.
  exact (proj1 (executor_accounting demo_flags 8 demo_thrown ltac:(done) demo_thrown_reachable)).
Defined.
Lemma TryQueueTask_spec_witness : ∃ p d,
  tasks_ (sys_ex demo_thrown) = <[2 := p]> (tasks_ demo_ex) ∧
  desc_heap (sys_ex demo_thrown) !! p = Some d ∧ KillTask d = [0].
Proof.
  pose proof (TryQueueTask_spec demo_flags 8 demo_sys (2 ^ 32) demo_no_files 78 6 10 "cc" ltac:(done)
    demo_reachable ltac:(done)) as W. cbv zeta in W.
  change (TryQueueTask (2 ^ 32) demo_no_files 78 6 10 "cc" (sys_ex demo_sys)) with
    (Throw "std::length_error" : outcome (option (Z * Launch)), sys_ex demo_thrown) in W.
  destruct W as (_ & _ & _ & _ & _ & p & d & Et & _ & Eh & _ & Ek & _).
  exists p, d. split; [exact Et|]. split; [|exact Ek]. rewrite Eh. apply lookup_insert_eq.
Defined.
Lemma WaitForTask_spec_witness :
  ∃ ex', WaitForTask 1 (λ ex, ex) demo_ex = Ret (None, Running, ex').
Proof.
  eapply (WaitForTask_spec (E := bool) 1 0%nat); vm_compute; reflexivity.
Defined.
Lemma FreeTask_refs_witness : (FreeTask 1 demo_ex).1 = [-77].
Proof.
  pose proof (FreeTask_refs (E := bool) 1 0%nat _ demo_ex eq_refl eq_refl) as W.
  destruct (FreeTask 1 demo_ex) as [kills ex']. apply W; vm_compute; done.
Defined.
Lemma OnExitCallback_spec_witness :
  (OnExitCallback (tt : @exit_world string demo_task) 77 0 8 (Ret "") (Ret "") ""
     (sys_ex demo_exited)).1 = Ret ().
Proof.
  pose proof (OnExitCallback_spec demo_flags 8 demo_exited (tt : @exit_world string demo_task) 77 0 8
    (Ret "") (Ret "") "" [] [] ltac:(done) demo_exited_reachable eq_refl) as W. cbv zeta in W.
  destruct (OnExitCallback _ _ _ _ _ _ _ _) as [r ex']. destruct W as (_ & _ & _ & W).
  refine (proj1 (W 0%nat (started_desc 77 5 9 "cc") "" "" "" _ _ eq_refl eq_refl eq_refl)).
  - split; [by exists 1|]. split; vm_compute; reflexivity.
  - intros q' d' ([id Hid] & _). vm_compute in Hid. repeat (case_match; try done); by simplify_eq.
Defined.
Lemma OnTimerClean_spec_witness :
  tasks_ (OnTimerClean (minutes 5) (sys_ex demo_sys)) !! 1 = Some 0%nat.
Proof.
  eapply (OnTimerClean_spec demo_flags 8 demo_sys (minutes 5) 1 0%nat);
    [done|apply demo_reachable|vm_compute; reflexivity|].
  split; [vm_compute; reflexivity|by intros [? _]].
Defined.

Definition demo_stopped : Sys (T := string) (E := bool) := {|
  sys_ex := (Stop demo_ex).2; children := [77]; exits := []; stops := 1%nat;
  thrown := 0%nat; forkless := 0%nat |}.
Lemma stopped_waiter_ends_witness :
  WaiterProc_pass (Signaled 77) true (sys_ex demo_stopped) = Ret Waiter_done ∨
  ∃ p, p ∈ children demo_stopped ∧
    ∃ code ex', WaiterProc_pass (Signaled 77) true (sys_ex demo_stopped) =
      Ret (Waiter_exit p code ex').
Proof.
  refine (proj1 (stopped_waiter_ends demo_flags 8 demo_stopped _ _ eq_refl) (Signaled 77) true _);
    [done| |].
  - eapply sys_next; [apply demo_reachable|]. apply (sys_stop demo_sys).
  - cbn. by left.
Defined.
