(* ===== verification/ExecutorTrace.v ===== *)
(** The servant's executor as its clients see it: whose result a waiting client gets.

    The processes and threads around the executor (ExecutorFacts [Sys]) with the clients that
    wait in [WaitForTask], and a trace of what is queued, reaped, completed and handed out.
    The executor finds the task of a process by its pid, so the results are right only while
    the system gives no new process the pid of one the executor still knows: that is a premise
    of [x_queue].  A call that takes an id without starting a process (its temporary files
    could not be made, or [fork] failed) is in the trace with a pid that no process has, 0
    or -1.  [results_are_own] is the theorem. *)
From S2P Require Import Prelude Text SysInfo CloudTask Executor ExecutorFacts.

Section trace.
Context {T E : Type} `{Task T} `{AutoReset E}.
Implicit Types (ex : Executor T E) (d : TaskDesc T E) (files : TempFiles).

(** * The transition system *)

(** An exit that is reaped has its code; a client that waits has looked its task up. *)
Record XSys := {
  x_ex : Executor T E;
  x_children : list Z;
  x_exits : list (Z * Z);
  x_stops : nat;
  x_thrown : nat;
  x_forkless : nat;
  x_waiters : list (Z * dptr)
}.

Definition sys_of (s : XSys) : Sys := {|
  sys_ex := x_ex s; children := x_children s; exits := ((x_exits s).*1); stops := x_stops s;
  thrown := x_thrown s; forkless := x_forkless s |}.

Inductive XLabel :=
  | X_queue (id pid : Z) (t : T)             (* [t] without its source *)
  | X_reap (pid code : Z)
  | X_exit (pid code : Z) (w : exit_world) (out err : outcome string)
  | X_deliver (id : Z) (t : T).

(** No process the executor knows has the pid. *)
Definition fresh_pid (p : Z) (s : XSys) : Prop :=
  (p ∉ x_children s) ∧ (p ∉ (x_exits s).*1) ∧ ∀ q d, ¬ found_by_pid (x_ex s) p q d.

Definition x_upd (ex : Executor T E) (ch : list Z) (es : list (Z * Z)) (ws : list (Z * dptr))
    (s : XSys) : XSys := {|
  x_ex := ex; x_children := ch; x_exits := es; x_stops := x_stops s; x_thrown := x_thrown s;
  x_forkless := x_forkless s; x_waiters := ws |}.
Definition with_ex (ex : Executor T E) (s : XSys) : XSys :=
  x_upd ex (x_children s) (x_exits s) (x_waiters s) s.

Inductive xstep (s : XSys) : list XLabel → XSys → Prop :=
  | x_queue mem files new_pid now grant t id l ex' :
      next_task_id_ (x_ex s) < 2 ^ 64 - 1 →
      TryQueueTask mem files new_pid now grant t (x_ex s) = (Ret (Some (id, l)), ex') →
      0 < new_pid → fresh_pid new_pid s →
      xstep s [X_queue id new_pid (GetSource t).2]
        (x_upd ex' (new_pid :: x_children s) (x_exits s) (x_waiters s) s)
  | x_fork_failed mem files now grant t id l ex' :
      next_task_id_ (x_ex s) < 2 ^ 64 - 1 →
      TryQueueTask mem files (-1) now grant t (x_ex s) = (Ret (Some (id, l)), ex') →
      xstep s [X_queue id (-1) (GetSource t).2]
        {| x_ex := ex'; x_children := x_children s; x_exits := x_exits s;
           x_stops := x_stops s; x_thrown := x_thrown s; x_forkless := S (x_forkless s);
           x_waiters := x_waiters s |}
  | x_throw mem files new_pid now grant t what ex' :
      next_task_id_ (x_ex s) < 2 ^ 64 - 1 →
      TryQueueTask mem files new_pid now grant t (x_ex s) = (Throw what, ex') →
      xstep s [X_queue (next_task_id_ (x_ex s)) 0 (GetSource t).2]
        {| x_ex := ex'; x_children := x_children s; x_exits := x_exits s;
           x_stops := x_stops s; x_thrown := S (x_thrown s); x_forkless := x_forkless s;
           x_waiters := x_waiters s |}
  | x_refuse mem files new_pid now grant t ex' :
      next_task_id_ (x_ex s) < 2 ^ 64 - 1 →
      TryQueueTask mem files new_pid now grant t (x_ex s) = (Ret None, ex') →
      xstep s [] (with_ex ex' s)
  | x_reap r p code l1 l2 ex' :
      WaiterProc_pass r true (x_ex s) = Ret (Waiter_exit p code ex') →
      x_children s = l1 ++ p :: l2 →
      xstep s [X_reap p code] (x_upd ex' (l1 ++ l2) ((p, code) :: x_exits s) (x_waiters s) s)
  | x_callback w p code now out err left l1 l2 :
      x_exits s = l1 ++ (p, code) :: l2 →
      xstep s [X_exit p code w out err]
        (x_upd (OnExitCallback w p code now out err left (x_ex s)).2 (x_children s) (l1 ++ l2)
           (x_waiters s) s)
  | x_find id p :
      WaitForTask_find id (x_ex s) = Some p →
      xstep s [] (x_upd (x_ex s) (x_children s) (x_exits s) ((id, p) :: x_waiters s) s)
  | x_wait id p l1 l2 r status ex' :
      x_waiters s = l1 ++ (id, p) :: l2 →
      WaitForTask_event p (x_ex s) = Ret (r, status, ex') →
      xstep s (if r is Some t then [X_deliver id t] else [])
        (x_upd ex' (x_children s) (x_exits s) (l1 ++ l2) s)
  | x_add_ref id : xstep s [] (with_ex (TryAddTaskRef id (x_ex s)).2 s)
  | x_free id : xstep s [] (with_ex (FreeTask id (x_ex s)).2 s)
  | x_clean now : xstep s [] (with_ex (OnTimerClean now (x_ex s)) s)
  | x_stop :
      xstep s [] {| x_ex := (Stop (x_ex s)).2; x_children := x_children s;
                    x_exits := x_exits s; x_stops := S (x_stops s); x_thrown := x_thrown s;
                    x_forkless := x_forkless s; x_waiters := x_waiters s |}.

Definition x_start ex : XSys := {|
  x_ex := ex; x_children := []; x_exits := []; x_stops := 0%nat; x_thrown := 0%nat;
  x_forkless := 0%nat; x_waiters := [] |}.

Inductive xreachable (f : ExecutorFlags) (cores : Z) : list XLabel → XSys → Prop :=
  | x_init ex :
      - 2 ^ 31 ≤ FLAGS_max_concurrency f < 2 ^ 31 → Executor_init f cores = Ret ex →
      xreachable f cores [] (x_start ex)
  | x_next trace s l s' :
      xreachable f cores trace s → xstep s l s' → xreachable f cores (trace ++ l) s'.

(** It is the system of ExecutorFacts. *)
Lemma xstep_sys s l s' : xstep s l s' → sys_step (sys_of s) (sys_of s') ∨ sys_of s' = sys_of s.
Proof.
  intros [? ? ? ? ? ? ? ? ? Hid Hq Hp (Hc & _)|?|?|?|?|w p code now out err left l1 l2 He|?|?|?|?|?|].
  - left. by eapply (sys_queue (sys_of s)).
  - left. by eapply (sys_fork_failed (sys_of s)).
  - left. by eapply (sys_throw (sys_of s)).
  - left. by eapply (sys_refuse (sys_of s)).
  - left. by eapply (sys_reap (sys_of s)).
  - left. unfold sys_of at 2. cbn. rewrite fmap_app.
    apply (sys_callback (sys_of s) w p code now out err left (l1.*1) (l2.*1)).
    cbn. by rewrite He, fmap_app.
  - by right.
  - left. by eapply (sys_wait (sys_of s)).
  - left. apply (sys_add_ref (sys_of s)).
  - left. apply (sys_free (sys_of s)).
  - left. apply (sys_clean (sys_of s)).
  - left. apply (sys_stop (sys_of s)).
Qed.

Lemma xreachable_sys f cores trace s :
  xreachable f cores trace s → sys_reachable f cores (sys_of s).
Proof.
  induction 1 as [ex Hf Hi|trace s l s' _ IH Hs]; [by apply sys_init|].
  destruct (xstep_sys s l s' Hs) as [St| ->]; [by eapply sys_next|done].
Qed.

(** * What a trace says *)

Definition queue_of (l : XLabel) : option (Z * Z * T) :=
  if l is X_queue id p t then Some (id, p, t) else None.
(** The n-th entry is the task whose description is the n-th object. *)
Definition queues (trace : list XLabel) : list (Z * Z * T) := omap queue_of trace.
Definition queued_ids (trace : list XLabel) : list Z := (λ e, e.1.1) <$> queues trace.

Definition no_queue (p : Z) (l : list XLabel) : Prop := ∀ id t, X_queue id p t ∉ l.

(** The last task that was started with the pid, and what happened since. *)
Definition started (trace : list XLabel) (p id : Z) (t : T) (rest : list XLabel) : Prop :=
  (∃ a, trace = a ++ X_queue id p t :: rest) ∧ no_queue p rest.

(** [t'] is what the task [t] became when the process that was started for it under [p]
    ended. *)
Definition own_result (trace : list XLabel) (id p : Z) (t t' : T) : Prop :=
  ∃ a b c z code w out err,
    trace = a ++ X_queue id p t :: b ++ X_reap p code ::
      c ++ X_exit p code w (Ret out) (Ret err) :: z ∧
    no_queue p (b ++ c) ∧ OnCompleted w t code out err = Ret t'.

Definition delivered (trace : list XLabel) (id : Z) : Prop := ∃ t, X_deliver id t ∈ trace.

Lemma queues_app t1 t2 : queues (t1 ++ t2) = queues t1 ++ queues t2.
Proof. apply omap_app. Qed.
Lemma queued_ids_app t1 t2 : queued_ids (t1 ++ t2) = queued_ids t1 ++ queued_ids t2.
Proof. unfold queued_ids. by rewrite queues_app, fmap_app. Qed.

Lemma no_queue_app p l1 l2 : no_queue p (l1 ++ l2) ↔ no_queue p l1 ∧ no_queue p l2.
Proof.
  split; [intros N; split; intros id t Hin; apply (N id t), elem_of_app; auto|].
  intros [N1 N2] id t [Hin|Hin]%elem_of_app; [by eapply N1|by eapply N2].
Qed.
Lemma no_queue_cons p l1 l2 : no_queue p (l1 :: l2) ↔ no_queue p [l1] ∧ no_queue p l2.
Proof. apply (no_queue_app p [l1] l2). Qed.
Lemma no_queue_quiet p l : queue_of l = None → no_queue p [l].
Proof. by intros Hl id t <-%list_elem_of_singleton. Qed.
Lemma no_queue_other p id p' t : p' ≠ p → no_queue p [X_queue id p' t].
Proof. intros Hne id' t' [= _ E' _]%list_elem_of_singleton. by apply Hne. Qed.

Lemma started_app trace p id t rest l :
  started trace p id t rest → no_queue p l → started (trace ++ l) p id t (rest ++ l).
Proof.
  intros [[a ->] Hn] Hl. split; [|by apply no_queue_app]. exists a. by rewrite <- app_assoc.
Qed.

Lemma started_inj trace p id t rest id' t' rest' :
  started trace p id t rest → started trace p id' t' rest' → id = id' ∧ t = t' ∧ rest = rest'.
Proof.
  intros [[a E1] N1] [[a' E2] N2]. rewrite E1 in E2.
  apply app_eq_inv in E2 as [(k & Ea & Ek)|(k & Ea & Ek)]; destruct k as [|x k];
    cbn in Ek; try (injection Ek as E3 E4 E5; by subst).
  - injection Ek as _ Er. rewrite Er in N2. exfalso. eapply N2, elem_of_app. right. by left.
  - injection Ek as _ Er. rewrite Er in N1. exfalso. eapply N1, elem_of_app. right. by left.
Qed.

Lemma own_result_app trace id p t t' l :
  own_result trace id p t t' → own_result (trace ++ l) id p t t'.
Proof.
  intros (a & b & c & z & code & w & out & err & -> & Hn & Hc).
  exists a, b, c, (z ++ l), code, w, out, err. split; [|done].
  by repeat (rewrite <- app_assoc; cbn).
Qed.

Lemma delivered_app trace l id : delivered (trace ++ l) id ↔ delivered trace id ∨ delivered l id.
Proof.
  split.
  - intros [t [Hin|Hin]%elem_of_app]; [left|right]; by exists t.
  - intros [[t Hin]|[t Hin]]; exists t; apply elem_of_app; auto.
Qed.

(** * The invariant *)

Definition signalled d : bool := (event_tryWait (completion_event d)).1.

(** The description [d] of the task queued as [t] under [id].  It is signalled only when
    its task was completed. *)
Definition phase (trace : list XLabel) (id : Z) (t : T) d : Prop :=
  if is_running d then (0 < pid d → task d = Some t) ∧ signalled d = false ∧ ¬ delivered trace id
  else signalled d = true →
       (∃ t', task d = Some t' ∧ own_result trace id (pid d) t t') ∧ ¬ delivered trace id.

Definition named (trace : list XLabel) (id : Z) (q : dptr) : Prop :=
  ∃ p t, queues trace !! q = Some (id, p, t).

Definition processes (s : XSys) : list Z := x_children s ++ (x_exits s).*1.

Record xinv (trace : list XLabel) (s : XSys) : Prop := {
  xi_next : next_dptr (x_ex s) = length (queues trace);
  xi_ids : NoDup (queued_ids trace);
  xi_below id : id ∈ queued_ids trace → id < next_task_id_ (x_ex s);
  xi_tasks id q : tasks_ (x_ex s) !! id = Some q → named trace id q;
  xi_waiters id q : (id, q) ∈ x_waiters s → named trace id q;
  xi_desc q d : desc_heap (x_ex s) !! q = Some d →
    ∃ id t, queues trace !! q = Some (id, pid d, t) ∧ phase trace id t d;
  xi_delivered id : delivered trace id → id ∈ queued_ids trace;
  xi_pids : NoDup (processes s);
  xi_real p : p ∈ processes s → 0 < p;
  xi_child p : p ∈ x_children s → ∃ id t rest, started trace p id t rest;
  xi_exit p code : (p, code) ∈ x_exits s →
    ∃ id t b c, started trace p id t (b ++ X_reap p code :: c);
  xi_found p q d : 0 < p → found_by_pid (x_ex s) p q d →
    ∃ id t rest, queues trace !! q = Some (id, p, t) ∧ started trace p id t rest ∧
                 (is_running d = false → p ∉ processes s)
}.

Lemma named_app trace l id q : named trace id q → named (trace ++ l) id q.
Proof.
  intros (p & t & Hq). exists p, t. rewrite queues_app. by apply lookup_app_l_Some.
Qed.

Lemma phase_app trace l id t d :
  phase trace id t d → ¬ delivered l id → phase (trace ++ l) id t d.
Proof.
  unfold phase. pose proof (delivered_app trace l id) as D. destruct (is_running d).
  - intros (? & ? & ?) Hl. split_and!; try done. tauto.
  - intros Hs Hl [(t' & Ht & Ho) Hnd]%Hs.
    split; [exists t'; split; [done|by apply own_result_app]|tauto].
Qed.

Lemma delivered_quiet l id : (∀ t, l ≠ X_deliver id t) → ¬ delivered [l] id.
Proof. intros Hl [t Ht%list_elem_of_singleton]. by destruct (Hl t). Qed.

(** A step that says nothing and leaves the descriptions, up to their reference counts. *)
Record quiet ex ex' : Prop := {
  quiet_next : next_dptr ex' = next_dptr ex;
  quiet_ids : next_task_id_ ex ≤ next_task_id_ ex';
  quiet_tasks : tasks_ ex' ⊆ tasks_ ex;
  quiet_desc q d' : desc_heap ex' !! q = Some d' → ∃ d, desc_heap ex !! q = Some d ∧
    pid d' = pid d ∧ is_running d' = is_running d ∧ task d' = task d ∧
    completion_event d' = completion_event d
}.

Lemma quiet_found ex ex' p q d' :
  quiet ex ex' → found_by_pid ex' p q d' →
  ∃ d, found_by_pid ex p q d ∧ is_running d' = is_running d.
Proof.
  intros Q ([id Hid] & Hd & <-). destruct (quiet_desc _ _ Q q d' Hd) as (d & Hd0 & Ep & Er & _).
  exists d. split; [|done]. split; [|done]. exists id. eapply lookup_weaken; [done|apply Q].
Qed.

(** A process stays the last one with its pid until another one gets it. *)
Lemma started_child trace s l p :
  xinv trace s → p ∈ x_children s → no_queue p l →
  ∃ id t rest, started (trace ++ l) p id t rest.
Proof.
  intros I Hp Hl. destruct (xi_child _ _ I p Hp) as (id & t & rest & Hs).
  exists id, t, (rest ++ l). by apply started_app.
Qed.

Lemma started_exit trace s l p code :
  xinv trace s → (p, code) ∈ x_exits s → no_queue p l →
  ∃ id t b c, started (trace ++ l) p id t (b ++ X_reap p code :: c).
Proof.
  intros I Hp Hl. destruct (xi_exit _ _ I p code Hp) as (id & t & b & c & Hs).
  exists id, t, b, (c ++ l). rewrite app_comm_cons, app_assoc. by apply started_app.
Qed.

(** The labels of such a step queue and deliver nothing. *)
Definition silent (l : list XLabel) : Prop :=
  Forall (λ x, queue_of x = None ∧ ∀ id t, x ≠ X_deliver id t) l.

Lemma silent_queues l : silent l → queues l = [].
Proof. induction 1 as [|x l [Hx _] _ IH]; [done|]. cbn. by rewrite Hx. Qed.
Lemma silent_delivered l id : silent l → ¬ delivered l id.
Proof.
  intros Hl [t Ht]. unfold silent in Hl. rewrite Forall_forall in Hl.
  by destruct (Hl _ Ht) as [_ Hd]; apply (Hd id t).
Qed.
Lemma silent_no_queue l p : silent l → no_queue p l.
Proof.
  intros Hl id t Ht. unfold silent in Hl. rewrite Forall_forall in Hl. by destruct (Hl _ Ht).
Qed.

Lemma quiet_inv trace s s' l :
  xinv trace s → quiet (x_ex s) (x_ex s') → silent l →
  (∀ id q, (id, q) ∈ x_waiters s' → (id, q) ∈ x_waiters s ∨ tasks_ (x_ex s) !! id = Some q) →
  NoDup (processes s') → (∀ p, p ∈ processes s' → p ∈ processes s) →
  (∀ p, p ∈ x_children s' → ∃ id t rest, started (trace ++ l) p id t rest) →
  (∀ p code, (p, code) ∈ x_exits s' →
     ∃ id t b c, started (trace ++ l) p id t (b ++ X_reap p code :: c)) →
  xinv (trace ++ l) s'.
Proof.
  intros I Q Sl W Nd Sub Ch Ex.
  assert (Eq : queues (trace ++ l) = queues trace)
    by (by rewrite queues_app, (silent_queues l Sl), app_nil_r).
  assert (Ei : queued_ids (trace ++ l) = queued_ids trace) by (unfold queued_ids; by rewrite Eq).
  split; rewrite ?Ei; try done; try apply I.
  - rewrite (quiet_next _ _ Q), Eq. apply I.
  - intros id Hid%(xi_below _ _ I). pose proof (quiet_ids _ _ Q). lia.
  - intros id q Hq. apply named_app, (xi_tasks _ _ I). eapply lookup_weaken; [done|apply Q].
  - intros id q [Hq|Hq]%W; apply named_app; [by apply (xi_waiters _ _ I)|by apply (xi_tasks _ _ I)].
  - intros q d' (d & Hd & Ep & Er & Et & Ee)%(quiet_desc _ _ Q).
    destruct (xi_desc _ _ I q d Hd) as (id & t & Hq & Hp). exists id, t.
    rewrite Ep, Eq. split; [done|]. apply phase_app; [|by apply silent_delivered].
    unfold phase, signalled. by rewrite Er, Ep, Et, Ee.
  - intros id [Hd|Hd]%delivered_app; [by apply (xi_delivered _ _ I)|].
    by apply silent_delivered in Hd.
  - intros p Hp%Sub. by apply (xi_real _ _ I).
  - intros p q d' Hp (d & Hd & Er)%(quiet_found _ _ _ _ _ Q). rewrite Er, Eq.
    destruct (xi_found _ _ I p q d Hp Hd) as (id & t & rest & Hq & Hs & Hr). exists id, t, (rest ++ l).
    split; [done|]. split; [by apply started_app; [|apply silent_no_queue]|].
    intros Hf Hin. by apply Hr; [|apply Sub].
Qed.

(** A step that only changes the executor, quietly, and the waiters. *)
Lemma quiet_inv_nil trace s s' :
  xinv trace s → quiet (x_ex s) (x_ex s') →
  x_children s' = x_children s → x_exits s' = x_exits s →
  (∀ id q, (id, q) ∈ x_waiters s' → (id, q) ∈ x_waiters s ∨ tasks_ (x_ex s) !! id = Some q) →
  xinv (trace ++ []) s'.
Proof.
  intros I Q Ec Ee W. unfold processes.
  apply (quiet_inv trace s); unfold processes; rewrite ?Ec, ?Ee, ?app_nil_r; try done;
    try apply I. by apply Forall_nil.
Qed.

(** ** The steps *)

Lemma refuse_quiet s mem files new_pid now grant t ex' :
  sys_inv s → next_task_id_ (sys_ex s) < 2 ^ 64 - 1 →
  TryQueueTask mem files new_pid now grant t (sys_ex s) = (Ret None, ex') → quiet (sys_ex s) ex'.
Proof.
  intros I Hid ->%queue_refused; [|done]. pose proof (next_id_range _ (inv_tasks _ I)).
  destruct (exiting_ (sys_ex s)); split; cbn; rewrite ?u64_id by (split; lia); try done; try lia;
    intros q d' Hd; by exists d'.
Qed.

(** An update of one description that keeps what matters. *)
Lemma insert_quiet ex q d d' ts :
  desc_heap ex !! q = Some d → pid d' = pid d → is_running d' = is_running d →
  task d' = task d → completion_event d' = completion_event d → ts ⊆ tasks_ ex →
  quiet ex (with_tasks ts (with_descs (<[q := d']> (desc_heap ex)) ex)).
Proof.
  intros Hd Ep Er Et Ee Hs. split; cbn; try done.
  intros q' x [[<- <-]|[_ Hx]]%lookup_insert_Some; [by exists d|by exists x].
Qed.

Lemma with_tasks_self ex : with_tasks (tasks_ ex) ex = ex.
Proof. by destruct ex. Qed.

Lemma same_quiet ex : quiet ex ex.
Proof. split; try done; try lia. intros q d Hd. by exists d. Qed.

Lemma add_ref_quiet ex id : tasks_ok ex → quiet ex (TryAddTaskRef id ex).2.
Proof.
  intros O. unfold TryAddTaskRef. destruct (tasks_ ex !! id) as [p|]; [|apply same_quiet].
  cbn. split; cbn; try done.
  intros q d' [[-> (d & Hd & ->)]|[_ Hd]]%lookup_alter_Some; [by exists d|by exists d'].
Qed.

Lemma free_quiet ex id : quiet ex (FreeTask id ex).2.
Proof.
  unfold FreeTask. destruct (tasks_ ex !! id) as [p|]; [|apply same_quiet].
  destruct (desc_heap ex !! p) as [d|] eqn:Hd; [|apply same_quiet]. cbn zeta.
  destruct (0 <? _); cbn [snd].
  - rewrite <- (with_tasks_self (with_descs _ _)). by eapply insert_quiet.
  - eapply insert_quiet; try done. apply delete_subseteq.
Qed.

Lemma clean_quiet ex now : quiet ex (OnTimerClean now ex).
Proof.
  split; cbn; try done; [apply map_filter_subseteq|]. intros q d Hd. by exists d.
Qed.

Lemma stop_quiet ex : quiet ex (Stop ex).2.
Proof. split; cbn; try done. intros q d Hd. by exists d. Qed.

Lemma wait_quiet ex p d :
  desc_heap ex !! p = Some d → signalled d = false →
  quiet ex (with_descs (<[p := with_event (event_tryWait (completion_event d)).2 d]>
    (desc_heap ex)) ex).
Proof.
  intros Hd Hs. rewrite <- (with_tasks_self (with_descs _ _)).
  eapply insert_quiet; try done. cbn. by apply tryWait_false.
Qed.

(** *** An id is taken *)

(** What is found by its pid after a description with an unknown pid, or with one that no
    process has, was added. *)
Lemma queue_found trace s ex' id t d p q d' :
  xinv trace s → tasks_ok (x_ex s) → (0 < pid d → fresh_pid (pid d) s) →
  tasks_ ex' = <[id := next_dptr (x_ex s)]> (tasks_ (x_ex s)) →
  desc_heap ex' = <[next_dptr (x_ex s) := d]> (desc_heap (x_ex s)) →
  is_running d = true → 0 < p → found_by_pid ex' p q d' →
  ∃ id' t' rest, queues (trace ++ [X_queue id (pid d) t]) !! q = Some (id', p, t') ∧
    started (trace ++ [X_queue id (pid d) t]) p id' t' rest ∧
    (is_running d' = false → p ≠ pid d ∧ p ∉ processes s).
Proof.
  intros I O Fr Et Eh Er Pos ([i Hi] & Hd & <-). rewrite Et in Hi. rewrite Eh in Hd.
  rewrite queues_app.
  apply lookup_insert_Some in Hd as [[<- <-]|[Hne Hd]].
  - exists id, t, []. rewrite Er. split; [rewrite (xi_next _ _ I); by apply list_lookup_middle|].
    split; [|done]. split; [by exists trace|]. by intros ? ? ?%elem_of_nil.
  - apply lookup_insert_Some in Hi as [[_ <-]|[_ Hi]]; [done|].
    assert (F : found_by_pid (x_ex s) (pid d') q d') by (split; [by exists i|done]).
    assert (Hp : pid d' ≠ pid d).
    { intros E'. destruct Fr as (_ & _ & Hf); [lia|]. apply (Hf q d'). by rewrite <- E'. }
    destruct (xi_found _ _ I _ q d' Pos F) as (i' & t' & rest & Hq' & Hs & Hr).
    exists i', t', (rest ++ [X_queue id (pid d) t]). split; [by apply lookup_app_l_Some|].
    split; [apply started_app; [done|]; apply no_queue_other; congruence|]. auto.
Qed.

(** [ch]: the children, with the process when one was started. *)
Lemma queue_xinv trace s ex' d t0 ch n :
  let id := next_task_id_ (x_ex s) in
  xinv trace s → sys_inv (sys_of s) → id < 2 ^ 64 - 1 →
  ex' = add_desc id d n (taken (x_ex s)) →
  is_running d = true → completion_event d = event_new → (0 < pid d → task d = Some t0) →
  (0 < pid d → fresh_pid (pid d) s) →
  ch = (if decide (0 < pid d) then pid d :: x_children s else x_children s) →
  ∀ s', x_ex s' = ex' → x_children s' = ch → x_exits s' = x_exits s →
    x_waiters s' = x_waiters s → xinv (trace ++ [X_queue id (pid d) t0]) s'.
Proof.
  cbv zeta. intros I SI Hid -> Er Ee Etk Fr -> s' Sx Sc Se Sw.
  pose proof (next_id_range _ (inv_tasks _ SI)) as Hrange. cbn in Hrange.
  set (id := next_task_id_ (x_ex s)) in *. set (l := [X_queue id (pid d) t0]).
  assert (Q : queues (trace ++ l) = queues trace ++ [(id, pid d, t0)]) by apply queues_app.
  assert (QL : queues (trace ++ l) !! next_dptr (x_ex s) = Some (id, pid d, t0))
    by (rewrite Q, (xi_next _ _ I); by apply list_lookup_middle).
  assert (QI : queued_ids (trace ++ l) = queued_ids trace ++ [id]) by apply queued_ids_app.
  assert (Hnew : id ∉ queued_ids trace) by (intros Hin%(xi_below _ _ I); unfold id in Hin; lia).
  assert (ND : ∀ i, ¬ delivered l i) by (intros i; by apply delivered_quiet).
  assert (Old : ∀ p, p ∈ processes s → no_queue p l).
  { intros p Hp. apply no_queue_other. intros <-.
    destruct Fr as (? & ? & _); [by apply (xi_real _ _ I)|].
    by apply elem_of_app in Hp as [?|?]. }
  assert (Ch : ∀ p, p ∈ x_children s' → (p = pid d ∧ 0 < pid d) ∨ p ∈ x_children s).
  { intros p. rewrite Sc. destruct (decide _) as [Hp|]; [|by right].
    intros [->|?]%elem_of_cons; [by left|by right]. }
  split; rewrite ?Sx, ?Se, ?Sw; cbn; fold id.
  - by rewrite Q, length_app, (xi_next _ _ I), Nat.add_comm.
  - rewrite QI. apply NoDup_app. split_and!; [apply I| |apply NoDup_singleton].
    by intros x Hx ->%list_elem_of_singleton.
  - intros i. rewrite QI, u64_id by (split; lia).
    intros [Hi%(xi_below _ _ I)| ->%list_elem_of_singleton]%elem_of_app; unfold id in *; lia.
  - intros i q [[<- <-]|[_ Hi]]%lookup_insert_Some; [by exists (pid d), t0|].
    by apply named_app, (xi_tasks _ _ I).
  - intros i q Hi. by apply named_app, (xi_waiters _ _ I).
  - intros q d' [[<- <-]|[_ Hd]]%lookup_insert_Some.
    + exists id, t0. split; [done|]. unfold phase, signalled. rewrite Er, Ee.
      split; [done|]. split; [apply tryWait_new|]. rewrite delivered_app.
      intros [Hd|Hd]; [|by apply (ND id)]. by apply Hnew, (xi_delivered _ _ I).
    + destruct (xi_desc _ _ I q d' Hd) as (i & t' & Hq' & Hp). exists i, t'.
      rewrite Q. split; [by apply lookup_app_l_Some|]. by apply phase_app.
  - intros i. rewrite delivered_app, QI, elem_of_app.
    intros [Hd%(xi_delivered _ _ I)|Hd]; [by left|by destruct (ND i)].
  - unfold processes. rewrite Sc, Se. destruct (decide _) as [Hp|]; [|apply I].
    apply NoDup_cons. split; [|apply I]. destruct (Fr Hp) as (? & ? & _). by intros [?|?]%elem_of_app.
  - intros p [[[-> ?]|?]%Ch|?]%elem_of_app; [done|..]; apply (xi_real _ _ I), elem_of_app;
      [by left|right; by rewrite <- Se].
  - intros p [[-> _]|Hp]%Ch.
    + exists id, t0, []. split; [by exists trace|]. by intros ? ? ?%elem_of_nil.
    + apply (started_child _ _ _ _ I Hp), Old, elem_of_app. by left.
  - intros p code Hp. apply (started_exit _ _ _ _ _ I Hp), Old, elem_of_app. right.
    apply list_elem_of_fmap. by exists (p, code).
  - intros p q d' Pos F.
    destruct (queue_found trace s (add_desc id d n (taken (x_ex s))) id t0 d p q d')
      as (i & t' & rest & Hq' & Hs & Hr); try done; [apply SI|]. exists i, t', rest.
    split_and!; [done..|]. intros [Hne Hn]%Hr [[[-> _]|?]%Ch|?]%elem_of_app; [done|..];
      apply Hn, elem_of_app; [by left|right; by rewrite <- Se].
Qed.

(** *** A process is reaped *)

Lemma reap_xinv trace s r room p code l1 l2 ex' :
  xinv trace s → WaiterProc_pass r room (x_ex s) = Ret (Waiter_exit p code ex') →
  x_children s = l1 ++ p :: l2 →
  xinv (trace ++ [X_reap p code])
    (x_upd ex' (l1 ++ l2) ((p, code) :: x_exits s) (x_waiters s) s).
Proof.
  intros I Hw Hc.
  assert (Sl : silent [X_reap p code]) by (by apply Forall_singleton).
  assert (Hp : processes s ≡ₚ (l1 ++ l2) ++ p :: (x_exits s).*1).
  { unfold processes. rewrite Hc. by rewrite <- !Permutation_middle. }
  apply (quiet_inv trace s); cbn; try done.
  - apply Waiter_exit_inv in Hw as ->. split; cbn; try done. intros q d Hd. by exists d.
  - intros id q Hq. by left.
  - unfold processes. cbn. rewrite <- Hp. apply I.
  - intros p'. unfold processes at 1. cbn. by rewrite Hp.
  - intros p' Hp'. apply (started_child _ s); [done| |by apply silent_no_queue].
    rewrite Hc. apply elem_of_app in Hp' as [?|?]; apply elem_of_app; [by left|by right; right].
  - intros p' code' [[= -> ->]|Hin]%elem_of_cons.
    + destruct (xi_child _ _ I p) as (id & t & rest & Hs).
      { rewrite Hc. apply elem_of_app. right. by left. }
      exists id, t, rest, []. apply started_app; [done|]. by apply silent_no_queue.
    + apply (started_exit _ s); [done..|]. by apply silent_no_queue.
Qed.

(** *** A task is completed *)

Lemma exit_quiet_inv trace s ex' w p code out err l1 l2 :
  xinv trace s → x_exits s = l1 ++ (p, code) :: l2 → quiet (x_ex s) ex' →
  xinv (trace ++ [X_exit p code w out err])
    (x_upd ex' (x_children s) (l1 ++ l2) (x_waiters s) s).
Proof.
  intros I He Q.
  assert (Sl : silent [X_exit p code w out err]) by (by apply Forall_singleton).
  assert (Hp : processes s ≡ₚ p :: x_children s ++ (l1 ++ l2).*1).
  { unfold processes. rewrite He, !fmap_app. cbn. by rewrite <- !Permutation_middle. }
  apply (quiet_inv trace s); cbn; try done.
  - intros id q Hq. by left.
  - pose proof (xi_pids _ _ I) as N. rewrite Hp in N. by apply NoDup_cons in N as [_ N].
  - intros p'. rewrite Hp. unfold processes. cbn. intros Hin. by right.
  - intros p' Hp'. apply (started_child _ s); [done..|]. by apply silent_no_queue.
  - intros p' code' Hin. apply (started_exit _ s); [done| |by apply silent_no_queue].
    rewrite He. apply elem_of_app in Hin as [?|?]; apply elem_of_app; [by left|by right; right].
Qed.

(** Replacing the description of a task that is still found by its pid. *)
Lemma complete_inv trace s q d d' id t :
  xinv trace s → desc_heap (x_ex s) !! q = Some d → pid d' = pid d →
  queues trace !! q = Some (id, pid d, t) → phase trace id t d' → pid d ∉ processes s →
  xinv trace (with_ex (with_descs (<[q := d']> (desc_heap (x_ex s))) (x_ex s)) s).
Proof.
  intros I Hd Ep Hq Hp Hn. split; cbn; try apply I.
  - intros q' x [[<- <-]|[_ Hx]]%lookup_insert_Some; [|by apply I].
    exists id, t. by rewrite Ep.
  - intros p q' x Pos ([i Hi] & Hx & <-). cbn in Hx.
    apply lookup_insert_Some in Hx as [[<- <-]|[_ Hx]].
    + destruct (xi_found _ _ I (pid d) q d) as (i' & t' & rest & Hq' & Hs & _);
        [by rewrite <- Ep|by split; [exists i|]|]. exists i', t', rest. rewrite Ep. by split_and!.
    + apply (xi_found _ _ I _ q' x Pos). by split; [exists i|].
Qed.

(** The task of a process that ended is running, and is what was queued. *)
Lemma exit_found trace s p code q d :
  xinv trace s → (p, code) ∈ x_exits s → found_by_pid (x_ex s) p q d →
  ∃ id t a b c, queues trace !! q = Some (id, p, t) ∧ is_running d = true ∧ task d = Some t ∧
    signalled d = false ∧ ¬ delivered trace id ∧
    trace = a ++ X_queue id p t :: b ++ X_reap p code :: c ∧ no_queue p (b ++ c).
Proof.
  intros I Hin Hf.
  assert (Hp : p ∈ processes s).
  { apply elem_of_app. right. apply list_elem_of_fmap. by exists (p, code). }
  pose proof (xi_real _ _ I p Hp) as Pos.
  destruct (xi_found _ _ I p q d Pos Hf) as (id & t & rest & Hq & Hs & Hr).
  destruct Hf as (_ & Hd & Ep).
  destruct (xi_desc _ _ I q d Hd) as (id' & t0 & Hq' & Ph). rewrite Ep, Hq in Hq'.
  injection Hq' as <- <-. unfold phase in Ph. rewrite Ep in Ph.
  destruct (is_running d); [|by destruct (Hr eq_refl)]. destruct Ph as (Et & Hsig & Hnd).
  destruct (xi_exit _ _ I p code Hin) as (i & t1 & b & c & Hs1).
  destruct (started_inj _ _ _ _ _ _ _ _ Hs Hs1) as (<- & <- & ->).
  destruct Hs as [[a Ea] Hnq]. exists id, t, a, b, c. split_and!; try done; [by apply Et|].
  apply no_queue_app in Hnq as [Hb Hc']. apply no_queue_app. split; [done|].
  by apply no_queue_cons in Hc' as [_ ?].
Qed.

Lemma callback_xinv trace s w p code now out err left l1 l2 :
  xinv trace s → sys_inv (sys_of s) → x_exits s = l1 ++ (p, code) :: l2 →
  xinv (trace ++ [X_exit p code w out err])
    (x_upd (OnExitCallback w p code now out err left (x_ex s)).2 (x_children s) (l1 ++ l2)
       (x_waiters s) s).
Proof.
  intros I SI He.
  set (ex1 := with_counters (next_task_id_ (x_ex s)) (u64 (running_tasks_ (x_ex s) - 1))
    (task_ran_sum_ (x_ex s)) (x_ex s)).
  assert (Q : quiet (x_ex s) ex1) by (split; cbn; try done; intros q d Hd; by exists d).
  pose proof (exit_quiet_inv trace s ex1 w p code out err l1 l2 I He Q) as I1.
  destruct (OnExitCallback_cases w p code now out err left (x_ex s) (inv_tasks _ SI))
    as [[E1 _]|[(q & d & _ & _ & E1)|(q & d & t1 & Hf & Ht & E1)]]; cbn in E1; rewrite E1;
    [exact I1..|].
  destruct (exit_found trace s p code q d I) as (id & t & a & b & c & Hq & Er & Et & Hsig & Hnd & Ea & Hn);
    [rewrite He; apply elem_of_app; right; by left|done|].
  assert (t1 = t) as -> by congruence. destruct Hf as (_ & Hd & Ep).
  assert (Nd : pid d ∉ processes (x_upd ex1 (x_children s) (l1 ++ l2) (x_waiters s) s)).
  { rewrite Ep. pose proof (xi_pids _ _ I) as N. unfold processes in N |- *. cbn.
    rewrite He, !fmap_app in N. cbn in N. rewrite <- !Permutation_middle in N.
    apply NoDup_cons in N as [N _]. by rewrite fmap_app. }
  apply (complete_inv _ _ q d _ id t I1); try done.
  - unfold exit_desc. by case_match.
  - rewrite queues_app, Ep. by apply lookup_app_l_Some.
  - unfold exit_desc. destruct out as [o| | |], err as [e| | |]; cbn;
      try (by unfold phase; cbn; intros Hx; unfold signalled in Hsig, Hx; cbn in Hx; congruence).
    destruct (OnCompleted w t code o e) as [t'| | |] eqn:Hc;
      try (by unfold phase; cbn; intros Hx; unfold signalled in Hsig, Hx; cbn in Hx; congruence).
    unfold phase. cbn. intros _. split.
    + exists t'. split; [done|]. exists a, b, c, [], code, w, o, e. cbn. rewrite Ep. split_and!; try done.
      rewrite Ea. by repeat (rewrite <- app_assoc; cbn).
    + intros [Hx|Hx]%delivered_app; [done|]. by apply (delivered_quiet _ id) in Hx.
Qed.

(** *** A result is handed out *)

Lemma deliver_xinv trace s id q d l1 l2 :
  xinv trace s → x_waiters s = l1 ++ (id, q) :: l2 → desc_heap (x_ex s) !! q = Some d →
  signalled d = true →
  ∃ t1, task d = Some t1 ∧ (∃ p t, own_result trace id p t t1) ∧ ¬ delivered trace id ∧
  xinv (trace ++ [X_deliver id t1])
    (x_upd (with_descs (<[q := with_event (event_tryWait (completion_event d)).2 d]>
       (desc_heap (x_ex s))) (x_ex s)) (x_children s) (x_exits s) (l1 ++ l2) s).
Proof.
  intros I Hw Hd Hs.
  destruct (xi_waiters _ _ I id q) as (p & t & Hq); [rewrite Hw; apply elem_of_app; right; by left|].
  destruct (xi_desc _ _ I q d Hd) as (id' & t' & Hq' & Ph). rewrite Hq in Hq'.
  injection Hq' as <- Ep <-.
  assert (Hrun : is_running d = false).
  { unfold phase in Ph. destruct (is_running d); [|done]. destruct Ph as (_ & Hs' & _). congruence. }
  unfold phase in Ph. rewrite Hrun in Ph. destruct (Ph Hs) as [(t1 & Et1 & Ho) Hnd]. clear Ph.
  exists t1. split; [done|].
  set (l := [X_deliver id t1]).
  assert (Eq : queues (trace ++ l) = queues trace) by (rewrite queues_app; apply app_nil_r).
  assert (Ei : queued_ids (trace ++ l) = queued_ids trace) by (unfold queued_ids; by rewrite Eq).
  assert (Nq : ∀ p, no_queue p l) by (intros p'; by apply no_queue_quiet).
  assert (Other : ∀ i p' t' q', q' ≠ q → queues trace !! q' = Some (i, p', t') → ¬ delivered l i).
  { intros i p' t' q' Hne Hi [x Hx%list_elem_of_singleton]. injection Hx as -> _. apply Hne.
    apply (NoDup_lookup (queued_ids trace) q' q id); [apply I|..]; unfold queued_ids;
      rewrite list_lookup_fmap; apply fmap_Some; [by exists (id, p', t')|by exists (id, p, t)]. }
  split; [by exists (pid d), t|]. split; [done|]. split; cbn; rewrite ?Ei; try apply I.
  - rewrite Eq. apply I.
  - intros i q' Hi. by apply named_app, (xi_tasks _ _ I).
  - intros i q' Hi. apply named_app, (xi_waiters _ _ I). rewrite Hw.
    apply elem_of_app in Hi as [?|?]; apply elem_of_app; [by left|by right; right].
  - intros q' x. rewrite Eq. intros [[<- <-]|[Hne Hx]]%lookup_insert_Some.
    + exists id, t. cbn. rewrite <- Ep. split; [done|]. unfold phase. cbn. rewrite Hrun.
      unfold signalled. cbn. by rewrite tryWait_reset.
    + destruct (xi_desc _ _ I q' x Hx) as (i & t' & Hi & Ph). exists i, t'. split; [done|].
      apply phase_app; [done|]. by eapply Other.
  - intros i [Hi|[x Hx%list_elem_of_singleton]]%delivered_app; [by apply (xi_delivered _ _ I)|].
    injection Hx as -> _. apply list_elem_of_fmap. exists (id, p, t). split; [done|].
    by eapply list_elem_of_lookup_2.
  - intros p' Hp. by apply (started_child _ s).
  - intros p' code Hp. by apply (started_exit _ s).
  - intros p' q' x Pos ([i Hi] & Hx & <-). cbn in Hi, Hx. rewrite Eq.
    assert (Hx0 : ∃ x0, found_by_pid (x_ex s) (pid x) q' x0 ∧ is_running x = is_running x0).
    { apply lookup_insert_Some in Hx as [[<- <-]|[_ Hx]].
      - exists d. split; [split; [by exists i|done]|done].
      - exists x. split; [split; [by exists i|done]|done]. }
    destruct Hx0 as (x0 & Hf & ->).
    destruct (xi_found _ _ I _ q' x0 Pos Hf) as (i' & t' & rest & Hq' & Hst & Hr).
    exists i', t', (rest ++ l). split; [done|]. split; [by apply started_app|done].
Qed.

(** *** All steps *)

(** What an event of the trace says. *)
Definition good_delivery (trace : list XLabel) (l : list XLabel) : Prop :=
  ∀ id t, X_deliver id t ∈ l → (∃ p t0, own_result trace id p t0 t) ∧ ¬ delivered trace id.

Lemma xstep_inv trace s l s' :
  xinv trace s → sys_inv (sys_of s) → xstep s l s' →
  good_delivery trace l ∧ xinv (trace ++ l) s'.
Proof.
  intros I SI Hs. pose proof (inv_tasks _ SI) as O.
  destruct Hs as [mem files new_pid now grant t id l ex' Hid Hq Hp Hf
    |mem files now grant t id l ex' Hid Hq|mem files new_pid now grant t what ex' Hid Hq
    |mem files new_pid now grant t ex' Hid Hq
    |r p code l1 l2 ex' Hw Hc|w p code now out err left l1 l2 He|id p Hf|id p l1 l2 r status ex' Hw Hr
    |id|id|now|].
  - split; [by intros i x [=]%list_elem_of_singleton|].
    apply (queue_accepted (sys_of s)) in Hq as (_ & -> & ->); [|done].
    eapply (queue_xinv trace s _ (started_desc new_pid now grant t) (GetSource t).2); try done.
    cbn. by destruct (decide _).
  - split; [by intros i x [=]%list_elem_of_singleton|].
    apply (queue_accepted (sys_of s)) in Hq as (_ & -> & ->); [|done].
    by eapply (queue_xinv trace s _ (started_desc (-1) now grant t) (GetSource t).2).
  - split; [by intros i x [=]%list_elem_of_singleton|].
    apply (queue_thrown (sys_of s)) in Hq as [_ ->]; [|done].
    by eapply (queue_xinv trace s _ new_desc (GetSource t).2).
  - split; [by intros i x ?%elem_of_nil|]. apply (quiet_inv_nil trace s); [done| |done..|by left].
    by eapply (refuse_quiet (sys_of s)).
  - split; [by intros i x [=]%list_elem_of_singleton|]. by eapply reap_xinv.
  - split; [by intros i x [=]%list_elem_of_singleton|]. by apply callback_xinv.
  - split; [by intros i x ?%elem_of_nil|].
    apply (quiet_inv_nil trace s); [done|apply same_quiet|done..|].
    intros i q [[= -> ->]|Hin]%elem_of_cons; [by right|by left].
  - apply WaitForTask_event_Ret in Hr as (d & Hd & -> & Er).
    destruct ((event_tryWait (completion_event d)).1) eqn:Sg; injection Er as -> ->.
    + destruct (deliver_xinv trace s id p d l1 l2 I Hw Hd Sg) as (t1 & Et & Ho & Hn & I').
      rewrite Et. split; [|done]. intros i x [= -> ->]%list_elem_of_singleton. by split.
    + split; [by intros i x ?%elem_of_nil|].
      apply (quiet_inv_nil trace s); [done|by apply wait_quiet|done..|].
      intros i q Hin. left. rewrite Hw.
      apply elem_of_app in Hin as [?|?]; apply elem_of_app; [by left|by right; right].
  - split; [by intros i x ?%elem_of_nil|]. apply (quiet_inv_nil trace s); [done| |done..|by left].
    by apply add_ref_quiet.
  - split; [by intros i x ?%elem_of_nil|]. apply (quiet_inv_nil trace s); [done| |done..|by left].
    apply free_quiet.
  - split; [by intros i x ?%elem_of_nil|]. apply (quiet_inv_nil trace s); [done| |done..|by left].
    apply clean_quiet.
  - split; [by intros i x ?%elem_of_nil|]. apply (quiet_inv_nil trace s); [done| |done..|by left].
    apply stop_quiet.
Qed.

Lemma init_xinv f cores ex :
  Executor_init f cores = Ret ex →
  xinv [] (x_start ex).
Proof.
  intros (m & _ & [= <-])%bind_Ret. split; cbn; try done; try constructor;
    try by (intros; match goal with Hin : _ ∈ [] |- _ => by apply elem_of_nil in Hin end).
  - by intros id [t Ht%elem_of_nil].
  - by intros p q d _ ([id Hid] & _).
Qed.

Lemma xreachable_inv f cores trace s : 0 ≤ cores → xreachable f cores trace s → xinv trace s.
Proof.
  intros Hc. induction 1 as [ex Hf Hi|trace s l s' R IH Hs]; [by eapply init_xinv|].
  apply (xstep_inv trace s l s'); [done| |done].
  apply (sys_reachable_inv f cores); [done|]. by eapply xreachable_sys.
Qed.

Lemma xstep_short s l s' : xstep s l s' → (length l ≤ 1)%nat.
Proof. intros []; cbn; try lia. destruct r; cbn; lia. Qed.

Lemma app_snoc_inv {A} (t l a b : list A) x :
  (length l ≤ 1)%nat → t ++ l = a ++ x :: b →
  (∃ b', t = a ++ x :: b') ∨ (t = a ∧ l = [x]).
Proof.
  intros Hl E'. destruct l as [|y [|z l]]; cbn in Hl; try lia.
  - rewrite app_nil_r in E'. left. by exists b.
  - destruct b as [|b0 b _] using rev_ind.
    + apply app_inj_tail in E' as [-> ->]. by right.
    + rewrite app_comm_cons, app_assoc in E'. apply app_inj_tail in E' as [-> _]. left. by exists b.
Qed.

(** * Property *)

(** C3. A client gets the result of its own task: whenever the executor hands out a task under an
    id, that id was queued before, once, its process was started under a pid that no other
    process got until it was reaped and its exit handled, and the task handed out is the
    queued one, completed with that exit code and output.  Each result is handed out at
    most once.  This is while the system does not reuse the pid of a process the executor
    still knows. *)
Theorem results_are_own f cores trace s a id t b :
  0 ≤ cores → xreachable f cores trace s → trace = a ++ X_deliver id t :: b →
  (∃ p t0, own_result a id p t0 t) ∧ NoDup (queued_ids trace) ∧ ¬ delivered a id.
Proof.
  intros Hc R. assert (N : NoDup (queued_ids trace)) by by apply (xreachable_inv f cores trace s Hc R).
  revert a b. induction R as [ex Hf Hi|trace s l s' R IH Hs]; intros a b E1; [by destruct a|].
  assert (N' : NoDup (queued_ids trace)) by by apply (xreachable_inv f cores trace s Hc R).
  apply app_snoc_inv in E1 as [[b' E1]|[-> E1]]; [| |by eapply xstep_short].
  - destruct (IH N' a b' E1) as (? & _ & ?). by split_and!.
  - destruct (xstep_inv a s l s') as [G _]; [by eapply xreachable_inv| |done|].
    { apply (sys_reachable_inv f cores); [done|]. by eapply xreachable_sys. }
    destruct (G id t) as [Ho Hn]; [rewrite E1; by left|]. by split_and!.
Qed.
End trace.

(** * Witness *)

#[local] Instance sample_task : Task string := {|
  exit_world := unit; GetCmdLine := λ t, t; GetSource := λ t, (t, "");
  OnCompleted := λ _ t _ out _, Ret (t +:+ out) |}.

Definition sample_completed : Executor string bool :=
  (OnExitCallback (tt : @exit_world string sample_task) 77 0 8 (Ret "done") (Ret "") ""
     (with_semaphore 0 demo_ex)).2.

Definition sample_exit : XLabel :=
  X_exit 77 0 (tt : @exit_world string sample_task) (Ret "done") (Ret "").
Definition sample_labels : list XLabel := [X_queue 1 77 ""; X_reap 77 0; sample_exit].
Definition sample_state (ex : Executor string bool) children exits : XSys :=
  x_upd ex children exits [(1, 0%nat)] (x_start demo_init).

Lemma sample_completed_reachable :
  xreachable (H := sample_task) demo_flags 8 sample_labels (sample_state sample_completed [] []).
Proof.
  apply (x_next demo_flags 8 [X_queue 1 77 ""; X_reap 77 0]
    (sample_state (with_semaphore 0 demo_ex) [] [(77, 0)]) [sample_exit]).
  2: { apply (x_callback (sample_state (with_semaphore 0 demo_ex) [] [(77, 0)]) _ 77 0 8
         (Ret "done") (Ret "") "" [] []). reflexivity. }
  apply (x_next demo_flags 8 [X_queue 1 77 ""] (sample_state demo_ex [77] []) [X_reap 77 0]).
  2: { apply (x_reap (sample_state demo_ex [77] []) (Exited 77 0) 77 0 [] []);
         [vm_compute; reflexivity|reflexivity]. }
  pose (s1 := x_upd demo_ex [77] [] [] (x_start demo_init)).
  apply (x_next demo_flags 8 [X_queue 1 77 ""] s1 []).
  2: { apply (x_find s1 1 0%nat). vm_compute. reflexivity. }
  apply (x_next demo_flags 8 [] (x_start demo_init) [X_queue 1 77 ""]).
  2: { apply (x_queue (H := sample_task) (x_start demo_init) (2 ^ 32) demo_files 77 5 9 "cc" 1
           {| launch_cmd := "cc"; launch_stdin := "cc" |} demo_ex);
         [by vm_compute|vm_compute; reflexivity|lia|].
       split; [apply not_elem_of_nil|]. split; [apply not_elem_of_nil|].
       intros q d (_ & Hd & _). cbn in Hd. by rewrite lookup_empty in Hd. }
  apply x_init; [cbn; lia|vm_compute; reflexivity].
Qed.

Lemma sample_delivered : ∃ s,
  xreachable (H := sample_task) demo_flags 8 (sample_labels ++ [X_deliver 1 "done"]) s.
Proof.
  eexists. eapply x_next; [apply sample_completed_reachable|].
  apply (x_wait (sample_state sample_completed [] []) 1 0%nat [] [] (Some "done") Unknown);
    [reflexivity|vm_compute; reflexivity].
Qed.

Lemma results_are_own_witness :
  ∃ p t0, own_result (H := sample_task) sample_labels 1 p t0 "done".
Proof.
  destruct sample_delivered as [s R].
  exact (proj1 (results_are_own demo_flags 8 _ s sample_labels 1 "done" [] ltac:(done) R eq_refl)).
Defined.
