(* ===== verification/CompileTask.v ===== *)
(** The compilation task of the servant:
    src/distribuild/daemon/cloud/compile_task/cxx_task.{h,cpp}, with what it uses of
    src/distribuild/daemon/cloud/task.h and temp_dir.h.

    blake3 and zstd are code outside the sources: parameters.  Hashing several
    pieces is hashing their concatenation ([blake3_hasher_update]). *)
From S2P Require Import Prelude Text MultiChunk Proto CloudTask.
From Stdlib Require Import Sorting.Sorted.

(** * The scan for time macros *)

Definition kRejectMacros : list string := ["__TIME__"; "__DATE__"; "__TIMESTAMP__"].

(** [std::search] finds it. *)
Definition contains (pat s : string) : bool := if sfind pat s is Some _ then true else false.

(** The promise after the loop of [runTask]; [true] beside it: a second [set_value]
    threw and ended the task. *)
Fixpoint scan_loop (macros : list string) (source : string) (promise : option bool)
    : option bool * bool :=
  match macros with
  | [] => match promise with None => (Some true, false) | Some v => (Some v, true) end
  | macro :: macros =>
    if contains macro source then
      match promise with
      | None => scan_loop macros source (Some false)
      | Some v => (Some v, true)
      end
    else scan_loop macros source promise
  end.

(** [PrepareCachePocoTask::runTask]. *)
Definition runTask (source : string) : option bool * bool := scan_loop kRejectMacros source None.

(** * Paths in the output files *)

Record Location := { position : Z; loc_length : Z; loc_suffix : Z }.

Definition PATH_MAX : nat := 4096.
Definition nul : string := String "000" "".

(** The [while (true)] loop; [start] is an offset into [file] and [None] is out of
    fuel.  The fields of a location are [uint32]. *)
Fixpoint FindPathLocations_loop (fuel : nat) (file prefix : string) (start : nat)
    : option (list Location) :=
  match fuel with
  | O => None
  | S fuel =>
    match sfind prefix (sdrop start file) with
    | None => Some []
    | Some d =>
      let pos := (start + d)%nat in
      if (pos =? String.length file)%nat then Some []
      else
        let stop := if sfind nul (sdrop pos file) is Some e then (pos + e)%nat
                    else String.length file in
        if (stop =? String.length file)%nat || (PATH_MAX <? stop - pos)%nat
        then FindPathLocations_loop fuel file prefix stop
        else
          rest ← FindPathLocations_loop fuel file prefix stop;
          Some ({| position := u32 (Z.of_nat pos); loc_length := u32 (Z.of_nat (stop - pos));
                   loc_suffix := u32 (Z.of_nat (stop - pos) - ssize prefix) |} :: rest)
    end
  end.

Definition FindPathLocations (file prefix : string) : option (list Location) :=
  FindPathLocations_loop (S (String.length file)) file prefix 0.

(** [CxxExtraInfo]: the locations by file name. *)
Abbreviation CxxExtraInfo := (gmap string (list Location)).

(** * The task *)

(** src/distribuild/daemon/cache.h: [CacheEntry]. *)
Record CacheEntry := {
  entry_exit_code : Z;
  entry_std_out : string;
  entry_std_err : string;
  entry_extra_info : option CxxExtraInfo;
  entry_packed : string
}.

(** [write_cache_future_] holds a future whose scan has not run, that is ready, or
    that [get] has consumed. *)
Inductive Future := Future_pending | Future_ready (v : bool) | Future_consumed.

(** [exit_code_] is not initialised by the constructor and is read only after
    [OnCompleted].  [cache_writes] collects the calls of [CacheWriter::AsyncWrite]. *)
Record CxxCompileTask := {
  exit_code_ : Z;
  stdout_ : string;
  stderr_ : string;
  write_cache_future_ : option Future;
  env_desc_ : EnviromentDesc;
  cmdline_ : string;
  args_ : string;
  source_ : string;
  source_path_ : string;
  source_digest_ : string;
  work_dir_ : string;
  temp_sub_dir_ : string;
  file_pack_ : string;
  extra_info_ : option CxxExtraInfo;
  cache_writes : list (string * CacheEntry)
}.

Definition with_source (s : string) (t : CxxCompileTask) : CxxCompileTask := {|
  exit_code_ := exit_code_ t; stdout_ := stdout_ t; stderr_ := stderr_ t;
  write_cache_future_ := write_cache_future_ t; env_desc_ := env_desc_ t;
  cmdline_ := cmdline_ t; args_ := args_ t; source_ := s; source_path_ := source_path_ t;
  source_digest_ := source_digest_ t; work_dir_ := work_dir_ t;
  temp_sub_dir_ := temp_sub_dir_ t; file_pack_ := file_pack_ t; extra_info_ := extra_info_ t;
  cache_writes := cache_writes t |}.
Definition with_future (f : option Future) (t : CxxCompileTask) : CxxCompileTask := {|
  exit_code_ := exit_code_ t; stdout_ := stdout_ t; stderr_ := stderr_ t;
  write_cache_future_ := f; env_desc_ := env_desc_ t;
  cmdline_ := cmdline_ t; args_ := args_ t; source_ := source_ t;
  source_path_ := source_path_ t; source_digest_ := source_digest_ t;
  work_dir_ := work_dir_ t; temp_sub_dir_ := temp_sub_dir_ t; file_pack_ := file_pack_ t;
  extra_info_ := extra_info_ t; cache_writes := cache_writes t |}.
Definition with_result (code : Z) (out err pack : string) (info : option CxxExtraInfo)
    (t : CxxCompileTask) : CxxCompileTask := {|
  exit_code_ := code; stdout_ := out; stderr_ := err;
  write_cache_future_ := write_cache_future_ t; env_desc_ := env_desc_ t;
  cmdline_ := cmdline_ t; args_ := args_ t; source_ := source_ t;
  source_path_ := source_path_ t; source_digest_ := source_digest_ t;
  work_dir_ := work_dir_ t; temp_sub_dir_ := temp_sub_dir_ t; file_pack_ := pack;
  extra_info_ := info; cache_writes := cache_writes t |}.
Definition add_cache_write (key : string) (e : CacheEntry) (t : CxxCompileTask)
    : CxxCompileTask := {|
  exit_code_ := exit_code_ t; stdout_ := stdout_ t; stderr_ := stderr_ t;
  write_cache_future_ := write_cache_future_ t; env_desc_ := env_desc_ t;
  cmdline_ := cmdline_ t; args_ := args_ t; source_ := source_ t;
  source_path_ := source_path_ t; source_digest_ := source_digest_ t;
  work_dir_ := work_dir_ t; temp_sub_dir_ := temp_sub_dir_ t; file_pack_ := file_pack_ t;
  extra_info_ := extra_info_ t; cache_writes := cache_writes t ++ [(key, e)] |}.

(** The constructor: [dir] is the path of the new working directory. *)
Definition CxxCompileTask_init (dir : string) : CxxCompileTask := {|
  exit_code_ := 0; stdout_ := ""; stderr_ := ""; write_cache_future_ := None;
  env_desc_ := {| compiler_digest := "" |}; cmdline_ := ""; args_ := ""; source_ := "";
  source_path_ := ""; source_digest_ := ""; work_dir_ := dir; temp_sub_dir_ := "";
  file_pack_ := ""; extra_info_ := None; cache_writes := [] |}.

(** [std::move]d from, a [std::string] is empty. *)
Definition CxxCompileTask_GetSource (t : CxxCompileTask) : string * CxxCompileTask :=
  (source_ t, with_source "" t).

(** The pool thread runs the scan on the task's [source_] as it is then. *)
Definition run_scan (t : CxxCompileTask) : CxxCompileTask :=
  match write_cache_future_ t with
  | Some Future_pending =>
    with_future (Future_ready <$> (runTask (source_ t)).1) t
  | _ => t
  end.

(** The test of [PrepareCache]. *)
Definition all_macros_defined (args : string) : bool :=
  forallb (λ macro, contains ("-D" +:+ macro +:+ "=") args) kRejectMacros.

Definition PrepareCache (t : CxxCompileTask) : CxxCompileTask :=
  if all_macros_defined (args_ t) then t else with_future (Some Future_pending) t.

Definition MakeRelativeDir (base_path dir_name : string) : string :=
  sdrop (String.length base_path + 1) (base_path +:+ "/" +:+ dir_name).

Inductive CompressType := COMPRESS_TYPE_UNKNOWN | COMPRESS_TYPE_ZSTD.

#[export] Instance CompressType_eq_dec : EqDecision CompressType.
Proof. solve_decision. Defined.

Record QueueCxxTaskRequest := {
  qct_token : string;
  qct_task_grant_id : Z;
  qct_env_desc : EnviromentDesc;
  qct_source_path : string;
  qct_args : string;
  qct_compress_type : CompressType;
  qct_fill_cache : bool
}.

(** The loop of [GetOutput] over the files of the working directory: [substr] past
    the end throws; a repeated suffix overwrites the locations. *)
Fixpoint output_loop (files : list (string * string)) (output_path_prefix path_prefix : string)
    (infos : CxxExtraInfo) : outcome (list (string * string) * CxxExtraInfo) :=
  match files with
  | [] => Ret ([], infos)
  | (filename, file) :: files =>
    if (String.length filename <? String.length output_path_prefix)%nat
    then Throw "std::out_of_range"
    else
      let suffix := sdrop (String.length output_path_prefix) filename in
      match FindPathLocations file path_prefix with
      | None => Undef "endless loop"
      | Some ls =>
        '(rest, infos) ← output_loop files output_path_prefix path_prefix (<[suffix := ls]> infos);
        Ret ((suffix, file) :: rest, infos)
      end
  end.

(** [GetOutput]; [files] is what the working directory holds.  Waiting for the
    future is waiting for the scan. *)
Definition GetOutput (files : list (string * string)) (exit_code : Z) (t : CxxCompileTask)
    : outcome (option (list (string * string) * option CxxExtraInfo) * CxxCompileTask) :=
  let t := run_scan t in
  if negb (exit_code =? 0) then Ret (Some ([], None), t)
  else
    let output_path_prefix := temp_sub_dir_ t +:+ "/output" in
    '(out, infos) ← output_loop files output_path_prefix
                      (work_dir_ t +:+ "/" +:+ output_path_prefix) ∅;
    Ret (Some (out, Some infos), t).

Section task.
Context (blake3 : string → string).
Context (ZSTDCompress ZSTDDecompress : string → option string).

Definition digest_of (t : CxxCompileTask) : string :=
  EncodeHex (blake3 (compiler_digest (env_desc_ t) +:+ args_ t +:+ source_digest_ t)) false.

(** [get] consumes the future; a future that was consumed has no state. *)
Definition GetCacheKey (t : CxxCompileTask) : outcome (option string * CxxCompileTask) :=
  match write_cache_future_ t with
  | None => Ret (None, t)
  | Some Future_pending => Undef "get blocks for ever"
  | Some Future_consumed => Undef "get on a future without state"
  | Some (Future_ready v) =>
    let t := with_future (Some Future_consumed) t in
    if v then Ret (None, t)
    else Ret (Some ("distribuild-cxx-cache-" +:+ digest_of t), t)
  end.

Definition GetDigest (t : CxxCompileTask) : string :=
  "distribuild-cxx-digest-" +:+ digest_of t.

(** The compression loop; the check of the result only logs. *)
Fixpoint compress_files (files : list (string * string)) : outcome (list (string * string)) :=
  match files with
  | [] => Ret []
  | (name, content) :: files =>
    match ZSTDCompress content with
    | None => Undef "dereference of an empty optional"
    | Some c => rest ← compress_files files; Ret ((name, c) :: rest)
    end
  end.

Definition CxxCompileTask_OnCompleted (world : list (string * string)) (t : CxxCompileTask)
    (exit_code : Z) (std_out std_err : string) : outcome CxxCompileTask :=
  let t := with_result exit_code std_out std_err (file_pack_ t) (extra_info_ t) t in
  '(output, t) ← GetOutput world exit_code t;
  match output with
  | None => Ret (with_result (-1) "" "" (file_pack_ t) (extra_info_ t) t)
  | Some (output_files, info) =>
    files ← compress_files output_files;
    let t := with_result (exit_code_ t) (stdout_ t) (stderr_ t) (PackFiles files) info t in
    '(key, t) ← GetCacheKey t;
    match key with
    | Some key =>
      if exit_code =? 0 then
        Ret (add_cache_write key {|
          entry_exit_code := exit_code_ t; entry_std_out := stdout_ t;
          entry_std_err := stderr_ t; entry_extra_info := extra_info_ t;
          entry_packed := file_pack_ t |} t)
      else Ret t
    | None => Ret t
    end
  end.

#[export] Instance cxx_compile_task : Task CxxCompileTask := {|
  exit_world := list (string * string);
  GetCmdLine := cmdline_;
  GetSource := CxxCompileTask_GetSource;
  OnCompleted := CxxCompileTask_OnCompleted |}.

(** [compiler]: the answer of [Compilers::TryGetPath]. *)
Definition Prepare (compiler : option string) (request : QueueCxxTaskRequest) (file : string)
    (t : CxxCompileTask) : StatusCode * CxxCompileTask :=
  match compiler with
  | None => (Proto.NOT_FOUND, t)
  | Some compiler =>
    if negb (bool_decide (qct_compress_type request = COMPRESS_TYPE_ZSTD))
    then (Proto.NOT_FOUND, t)
    else
      match ZSTDDecompress file with
      | None => (Proto.NOT_FOUND, t)
      | Some source =>
        let digest := EncodeHex (blake3 source) false in
        let t := {|
          exit_code_ := exit_code_ t; stdout_ := stdout_ t; stderr_ := stderr_ t;
          write_cache_future_ := write_cache_future_ t; env_desc_ := qct_env_desc request;
          cmdline_ := cmdline_ t; args_ := qct_args request; source_ := source;
          source_path_ := qct_source_path request; source_digest_ := digest;
          work_dir_ := work_dir_ t; temp_sub_dir_ := temp_sub_dir_ t;
          file_pack_ := file_pack_ t; extra_info_ := extra_info_ t;
          cache_writes := cache_writes t |} in
        let t := if qct_fill_cache request then PrepareCache t else t in
        let sub_dir := MakeRelativeDir (work_dir_ t) digest in
        (Proto.OK, {|
          exit_code_ := exit_code_ t; stdout_ := stdout_ t; stderr_ := stderr_ t;
          write_cache_future_ := write_cache_future_ t; env_desc_ := env_desc_ t;
          cmdline_ := compiler +:+ " " +:+ args_ t +:+ " -o " +:+ work_dir_ t +:+ "/" +:+
                      sub_dir +:+ "/output.o";
          args_ := args_ t; source_ := source_ t; source_path_ := source_path_ t;
          source_digest_ := source_digest_ t; work_dir_ := work_dir_ t;
          temp_sub_dir_ := sub_dir; file_pack_ := file_pack_ t;
          extra_info_ := extra_info_ t; cache_writes := cache_writes t |})
      end
  end.
End task.

(** * Theory *)

(** ** Searching *)

Definition occurs_at (pat s : string) (i : nat) : Prop := ∃ r, sdrop i s = pat +:+ r.

Lemma occurs_0 pat s : occurs_at pat s 0 ↔ String.prefix pat s = true.
Proof. unfold occurs_at. by rewrite sprefix_iff. Qed.

Lemma sfind_cases pat s :
  (∃ n, sfind pat s = Some n ∧ occurs_at pat s n ∧ (∀ m, (m < n)%nat → ¬ occurs_at pat s m) ∧
        (n + String.length pat ≤ String.length s)%nat) ∨
  (sfind pat s = None ∧ ∀ m, (m ≤ String.length s)%nat → ¬ occurs_at pat s m).
Proof.
  induction s as [|c s IH].
  - cbn [sfind]. destruct (String.prefix pat "") eqn:P.
    + left. exists 0%nat. split; [done|]. split; [by apply occurs_0|]. split; [lia|].
      apply sprefix_iff in P as [r P]. destruct pat; [cbn; lia|done].
    + right. split; [done|]. intros m Hm Ho. assert (m = 0)%nat as -> by (cbn in Hm; lia).
      apply occurs_0 in Ho. congruence.
  - cbn [sfind]. destruct (String.prefix pat (String c s)) eqn:P.
    + left. exists 0%nat. split; [done|]. split; [by apply occurs_0|]. split; [lia|].
      apply sprefix_iff in P as [r P]. rewrite P, slength_app. lia.
    + destruct IH as [(n & -> & Ho & Hm & Hl)|[-> Hm]].
      * left. exists (S n). split; [done|]. split; [done|]. split; [|cbn; lia].
        intros [|m] Hlt Ho'; [apply occurs_0 in Ho'; congruence|]. apply (Hm m); [lia|done].
      * right. split; [done|]. intros [|m] Hlt Ho'; [apply occurs_0 in Ho'; congruence|].
        apply (Hm m); [cbn in Hlt; lia|done].
Qed.

Lemma occurs_sdrop pat s a i : occurs_at pat (sdrop a s) i ↔ occurs_at pat s (a + i).
Proof. unfold occurs_at. by rewrite sdrop_sdrop. Qed.

Lemma occurs_nul_get s i : occurs_at nul s i ↔ String.get i s = Some "000"%char.
Proof.
  unfold occurs_at, nul. revert s; induction i as [|i IH]; intros [|c s]; cbn.
  - split; [by intros [r ?]|done].
  - split; [by intros [r [= -> ->]]|intros [= ->]; by eexists].
  - split; [by intros [r ?]|done].
  - apply IH.
Qed.

(** A prefix without NUL ends before the next NUL. *)
Lemma occurs_before_nul prefix s i e :
  no_char "000" prefix = true → occurs_at prefix s i → occurs_at nul s (i + e) →
  (String.length prefix ≤ e)%nat.
Proof.
  unfold occurs_at. rewrite <- sdrop_sdrop. intros Hn [r ->] [r' E]. revert e E Hn.
  induction prefix as [|c p IH]; intros e E; [intros _; cbn; lia|].
  intros [Hc Hp]%andb_true_iff. destruct e as [|e].
  - cbn in E. injection E as -> _. done.
  - cbn in *. apply le_n_S. by eapply IH.
Qed.

(** ** FindPathLocations *)

(** Offset [i] is in a string that the search rejects: one without an end, or one
    whose first occurrence of the prefix starts more than [PATH_MAX] before it. *)
Definition rejected (file prefix : string) (i : nat) : Prop :=
  (∀ j, (i ≤ j)%nat → ¬ occurs_at nul file j) ∨
  ∃ a b, (a ≤ i < b)%nat ∧ occurs_at prefix file a ∧ occurs_at nul file b ∧
         (PATH_MAX < b - a)%nat ∧ ∀ j, (a ≤ j < b)%nat → ¬ occurs_at nul file j.

(** A location is an occurrence of the prefix up to the next NUL. *)
Definition located (file prefix : string) (l : Location) : Prop :=
  ∃ a n, position l = Z.of_nat a ∧ loc_length l = Z.of_nat n ∧
    loc_suffix l = Z.of_nat n - ssize prefix ∧ 0 ≤ loc_suffix l ∧
    (n ≤ PATH_MAX)%nat ∧ occurs_at prefix file a ∧ occurs_at nul file (a + n) ∧
    ∀ j, (a ≤ j < a + n)%nat → ¬ occurs_at nul file j.

Definition covers (l : Location) (i : nat) : Prop :=
  position l ≤ Z.of_nat i < position l + loc_length l.

Definition ordered (l l' : Location) : Prop := position l + loc_length l ≤ position l'.

Section find.
Context (file prefix : string).
Context (Hp : prefix ≠ "") (Hn : no_char "000" prefix = true).
Context (Hf : ssize file < 2 ^ 32).

Lemma occurs_le pat i : pat ≠ "" → occurs_at pat file i → (i < String.length file)%nat.
Proof.
  intros Hpat [r E]. pose proof (sdrop_length i file) as L. rewrite E, slength_app in L.
  destruct pat; [done|]. cbn in L. lia.
Qed.

(** [sfind] from an offset on. *)
Lemma next_occurrence pat start :
  pat ≠ "" →
  (∃ d, sfind pat (sdrop start file) = Some d ∧ occurs_at pat file (start + d) ∧
        (start + d < String.length file)%nat ∧
        ∀ i, (start ≤ i < start + d)%nat → ¬ occurs_at pat file i) ∨
  (sfind pat (sdrop start file) = None ∧ ∀ i, (start ≤ i)%nat → ¬ occurs_at pat file i).
Proof.
  intros Hpat.
  assert (Hback : ∀ i, (start ≤ i)%nat → occurs_at pat file i →
    occurs_at pat (sdrop start file) (i - start)).
  { intros i Hi Hoi. rewrite occurs_sdrop. by replace (start + (i - start))%nat with i by lia. }
  destruct (sfind_cases pat (sdrop start file)) as [(d & -> & Ho & Hm & _)|[-> Hm]].
  - left. exists d. rewrite occurs_sdrop in Ho. split_and!; try done; [by eapply occurs_le|].
    intros i Hi Hoi. apply (Hm (i - start)%nat); [lia|]. apply Hback; [lia|done].
  - right. split; [done|]. intros i Hi Hoi. pose proof (occurs_le _ _ Hpat Hoi).
    apply (Hm (i - start)%nat); [rewrite sdrop_length; lia|by apply Hback].
Qed.

(** [ls] is what the loop is to find from [start] on. *)
Record scans (start : nat) (ls : list Location) : Prop := {
  scans_located : Forall (located file prefix) ls;
  scans_behind : Forall (λ l, Z.of_nat start ≤ position l) ls;
  scans_ordered : StronglySorted ordered ls;
  scans_all i : (start ≤ i)%nat → occurs_at prefix file i →
    (∃ l, l ∈ ls ∧ covers l i) ∨ rejected file prefix i
}.

Lemma scans_none start :
  (∀ i, (start ≤ i)%nat → occurs_at prefix file i → rejected file prefix i) → scans start [].
Proof. intros H. split; [constructor..|]. intros i Hi Ho. right. by apply H. Qed.

(** What lies before the first occurrence, and a string that is rejected, adds nothing. *)
Lemma scans_skip start stop ls :
  (start ≤ stop)%nat →
  (∀ i, (start ≤ i < stop)%nat → occurs_at prefix file i → rejected file prefix i) →
  scans stop ls → scans start ls.
Proof.
  intros Hle Hr [L1 L2 L3 L4]. split; try done.
  - eapply Forall_impl; [exact L2|]. cbn. lia.
  - intros i Hi Ho. destruct (decide (stop ≤ i)%nat); [by apply L4|]. right. apply Hr; [lia|done].
Qed.

(** A string that is taken. *)
Lemma scans_cons pos e ls :
  occurs_at prefix file pos → occurs_at nul file (pos + e) → (e ≤ PATH_MAX)%nat →
  (∀ j, (pos ≤ j < pos + e)%nat → ¬ occurs_at nul file j) → scans (pos + e) ls →
  scans pos ({| position := u32 (Z.of_nat pos); loc_length := u32 (Z.of_nat e);
                loc_suffix := u32 (Z.of_nat e - ssize prefix) |} :: ls).
Proof.
  intros Ho Hoe Hshort NoNul [L1 L2 L3 L4].
  pose proof (occurs_before_nul prefix file pos e Hn Ho Hoe) as Hpe.
  pose proof (occurs_le nul _ ltac:(done) Hoe) as Hstop.
  assert (Hu : ∀ z, 0 ≤ z ≤ ssize file → u32 z = z) by (intros z Hz; apply u32_id; split; lia).
  rewrite !Hu by (unfold ssize; lia). split.
  - constructor; [|done]. exists pos, e. cbn. unfold ssize. split_and!; try done; lia.
  - constructor; [done|]. eapply Forall_impl; [exact L2|]. cbn. lia.
  - constructor; [done|]. eapply Forall_impl; [exact L2|]. intros l Hl. unfold ordered. cbn in *. lia.
  - intros i Hi Hoi. destruct (decide (pos + e ≤ i)%nat) as [Hge|Hlt].
    + destruct (L4 i Hge Hoi) as [(l & Hl & Hc)|Hr]; [|by right].
      left. exists l. split; [by right|done].
    + left. eexists. split; [by left|]. unfold covers. cbn. lia.
Qed.

Lemma FindPathLocations_loop_spec fuel start :
  (start ≤ String.length file)%nat → (String.length file - start < fuel)%nat →
  ∃ ls, FindPathLocations_loop fuel file prefix start = Some ls ∧ scans start ls.
Proof.
  revert start; induction fuel as [|fuel IH]; intros start Hs Hfuel; [lia|].
  cbn [FindPathLocations_loop].
  destruct (next_occurrence prefix start Hp) as [(d & -> & Ho & Hpos & First)|[-> Hnone]].
  2: { exists []. split; [done|]. apply scans_none. intros i Hi Hoi. by destruct (Hnone i Hi). }
  rewrite (proj2 (Nat.eqb_neq _ _)) by lia. set (pos := (start + d)%nat) in *.
  assert (Skip : ∀ ls, scans pos ls → scans start ls).
  { intros ls. apply scans_skip; [lia|]. intros i Hi Hoi. by destruct (First i Hi). }
  destruct (next_occurrence nul pos ltac:(done)) as [(e & -> & Hoe & Hstop & NoNul)|[-> NoNul]].
  - pose proof (occurs_before_nul prefix file pos e Hn Ho Hoe) as Hpe.
    assert (0 < String.length prefix)%nat by (destruct prefix; [done|cbn; lia]).
    rewrite (proj2 (Nat.eqb_neq (pos + e) _)) by lia. cbn [orb].
    destruct (IH (pos + e)%nat) as (ls & E & L); [lia|lia|]. rewrite E.
    replace (pos + e - pos)%nat with e by lia. destruct (Nat.ltb_spec PATH_MAX e) as [Hlong|Hshort].
    + exists ls. split; [done|]. apply Skip, (scans_skip pos (pos + e)); [lia| |done].
      intros i Hi Hoi. right. exists pos, (pos + e)%nat. split_and!; try done; lia.
    + eexists. split; [reflexivity|]. by apply Skip, scans_cons.
  - rewrite Nat.eqb_refl. cbn [orb]. destruct (IH (String.length file)) as (ls & E & L); [lia|lia|].
    exists ls. split; [done|]. apply Skip, (scans_skip pos (String.length file)); [lia| |done].
    intros i Hi Hoi. left. intros j Hj. apply NoNul. lia.
Qed.
End find.

(** C21. Searching an output file for paths below the working directory ends, and finds
    exactly the paths: every location is an occurrence of the prefix, free of NUL
    and followed by one, at most [PATH_MAX] long, with the right suffix length; the
    locations are in order and disjoint; and every occurrence of the prefix is inside
    a location, unless its string has no end or is too long. *)
Theorem FindPathLocations_spec file prefix :
  prefix ≠ "" → no_char "000" prefix = true → ssize file < 2 ^ 32 →
  ∃ ls, FindPathLocations file prefix = Some ls ∧
    Forall (located file prefix) ls ∧ StronglySorted ordered ls ∧
    ∀ i, occurs_at prefix file i →
      (∃ l, l ∈ ls ∧ covers l i) ∨ rejected file prefix i.
Proof.
  intros Hp Hn Hf.
  destruct (FindPathLocations_loop_spec file prefix Hp Hn Hf (S (String.length file)) 0)
    as (ls & E & [L1 _ L3 L4]); [lia|lia|].
  exists ls. split_and!; [done..|]. intros i. apply L4. lia.
Qed.

Lemma FindPathLocations_spec_witness :
  ∃ ls, FindPathLocations ("xx/tmp/a.c" +:+ nul +:+ "/tmp/b" +:+ nul) "/tmp" = Some ls.
Proof.
  destruct (FindPathLocations_spec ("xx/tmp/a.c" +:+ nul +:+ "/tmp/b" +:+ nul) "/tmp")
    as (ls & E & _); [done|reflexivity|vm_compute; reflexivity|].
  by exists ls.
Defined.

(** ** Preparing a task *)

Lemma PrepareCache_same t :
  env_desc_ (PrepareCache t) = env_desc_ t ∧ args_ (PrepareCache t) = args_ t ∧
  source_ (PrepareCache t) = source_ t ∧ source_digest_ (PrepareCache t) = source_digest_ t ∧
  work_dir_ (PrepareCache t) = work_dir_ t.
Proof. unfold PrepareCache. by destruct (all_macros_defined _). Qed.

Lemma Prepare_OK blake3 ZSTDDecompress c r f t t' :
  Prepare blake3 ZSTDDecompress c r f t = (OK, t') →
  ∃ compiler, c = Some compiler ∧ qct_compress_type r = COMPRESS_TYPE_ZSTD ∧
    ZSTDDecompress f = Some (source_ t') ∧ env_desc_ t' = qct_env_desc r ∧
    args_ t' = qct_args r ∧ source_digest_ t' = EncodeHex (blake3 (source_ t')) false ∧
    cmdline_ t' = compiler +:+ " " +:+ qct_args r +:+ " -o " +:+ work_dir_ t +:+ "/" +:+
      temp_sub_dir_ t' +:+ "/output.o".
Proof.
  unfold Prepare. destruct c as [compiler|]; [|done].
  destruct (bool_decide_reflect (qct_compress_type r = COMPRESS_TYPE_ZSTD)); [|done].
  cbn [negb]. destruct (ZSTDDecompress f) as [source|] eqn:Z; [|done]. cbv zeta.
  match goal with |- context [PrepareCache ?x] => set (t0 := x) end. intros [= <-].
  exists compiler. cbn.
  destruct (qct_fill_cache r); [|done].
  by destruct (PrepareCache_same t0) as (-> & -> & -> & -> & ->).
Qed.

(** ** The cache *)

Lemma scan_loop_false macros source : (scan_loop macros source (Some false)).1 = Some false.
Proof.
  induction macros as [|m macros IH]; [done|]. cbn. by destruct (contains m source).
Qed.

Lemma scan_loop_spec macros source :
  (scan_loop macros source None).1 = Some (forallb (λ m, negb (contains m source)) macros).
Proof.
  induction macros as [|m macros IH]; [done|]. cbn. destruct (contains m source); [|done].
  apply scan_loop_false.
Qed.

Definition has_time_macro (source : string) : bool :=
  existsb (λ m, contains m source) kRejectMacros.
#[global] Arguments has_time_macro : simpl never.

Lemma runTask_spec source : (runTask source).1 = Some (negb (has_time_macro source)).
Proof.
  unfold runTask, has_time_macro. rewrite scan_loop_spec. f_equal. cbn.
  by rewrite !negb_orb.
Qed.

Lemma run_scan_same t :
  source_ (run_scan t) = source_ t ∧ cache_writes (run_scan t) = cache_writes t ∧
  write_cache_future_ (run_scan t) =
    match write_cache_future_ t with
    | Some Future_pending => Some (Future_ready (negb (has_time_macro (source_ t))))
    | f => f
    end.
Proof.
  unfold run_scan. destruct (write_cache_future_ t) as [[| |]|] eqn:F; try done.
  by rewrite runTask_spec.
Qed.

Lemma GetOutput_Ret files code t r t' :
  GetOutput files code t = Ret (r, t') → is_Some r ∧ t' = run_scan t.
Proof.
  unfold GetOutput. destruct (negb _); [by intros [= <- <-]|].
  intros ([out infos] & _ & [= <- <-])%bind_Ret. eauto.
Qed.

Section cache.
Context (blake3 : string → string) (ZSTDCompress : string → option string).

(** What is cached: of a successful compilation that was asked to fill the cache,
    the result is written to the cache exactly when the scanned source contains
    one of [__TIME__], [__DATE__] and [__TIMESTAMP__] - the sources that must not
    be cached.  A failed compilation is never cached.  When the scan runs only after
    the executor has moved the source away, nothing is cached. *)
Theorem cache_only_time_dependent w t code out err t' :
  write_cache_future_ t = Some Future_pending →
  CxxCompileTask_OnCompleted blake3 ZSTDCompress w t code out err = Ret t' →
  (cache_writes t' ≠ cache_writes t ↔ code = 0 ∧ has_time_macro (source_ t) = true) ∧
  (source_ t = "" → cache_writes t' = cache_writes t).
Proof.
  intros Hf. unfold CxxCompileTask_OnCompleted. cbv zeta.
  intros ([o t1] & (Ho & ->)%GetOutput_Ret & Hc)%bind_Ret.
  set (t0 := with_result code out err (file_pack_ t) (extra_info_ t) t) in *.
  destruct (run_scan_same t0) as (S1 & S2 & S3). cbn in S1, S2, S3. rewrite Hf in S3.
  destruct o as [[fs info]|]; [|by destruct Ho].
  apply bind_Ret in Hc as (files & _ & ([key t2] & Hk & Hc)%bind_Ret).
  unfold GetCacheKey in Hk. cbn in Hk. rewrite S3 in Hk.
  assert (M : has_time_macro "" = false) by reflexivity.
  destruct (has_time_macro (source_ t)) eqn:HM; cbn in Hk; injection Hk as <- <-.
  - assert (source_ t ≠ "") by (intros E; rewrite E in HM; congruence).
    revert Hc. destruct (Z.eqb_spec code 0) as [Hcode|Hcode]; intros [= <-]; cbn; rewrite S2;
      (split; [|done]).
    + split; [done|]. intros _ E%(f_equal length). rewrite length_app in E. cbn in E. lia.
    + split; [done|by intros [? _]].
  - injection Hc as <-. cbn. rewrite S2. split; [|done]. split; [done|by intros [_ ?]].
Qed.

(** Two tasks with the same digest have the same compiler, arguments and source,
    unless they exhibit a collision of the hash function: the pieces that are
    hashed in sequence have fixed lengths at both ends. *)
Theorem GetDigest_collision ZSTDDecompress c1 c2 r1 r2 f1 f2 t1 t2 t1' t2' :
  Prepare blake3 ZSTDDecompress c1 r1 f1 t1 = (OK, t1') →
  Prepare blake3 ZSTDDecompress c2 r2 f2 t2 = (OK, t2') →
  (∀ s, String.length (blake3 s) = 32%nat) →
  String.length (compiler_digest (qct_env_desc r1)) = 64%nat →
  String.length (compiler_digest (qct_env_desc r2)) = 64%nat →
  GetDigest blake3 t1' = GetDigest blake3 t2' →
  (env_desc_ t1' = env_desc_ t2' ∧ args_ t1' = args_ t2' ∧ source_ t1' = source_ t2') ∨
  ∃ x y, x ≠ y ∧ blake3 x = blake3 y.
Proof.
  intros P1 P2 Hlen L1 L2. unfold GetDigest, digest_of.
  apply Prepare_OK in P1 as (k1 & _ & _ & _ & E1 & _ & D1 & _).
  apply Prepare_OK in P2 as (k2 & _ & _ & _ & E2 & _ & D2 & _).
  intros [= H]. apply (f_equal decode_hex) in H. rewrite !decode_EncodeHex in H.
  rewrite E1, E2, D1, D2 in *.
  set (x := compiler_digest (qct_env_desc r1) +:+ _) in H.
  set (y := compiler_digest (qct_env_desc r2) +:+ _) in H.
  destruct (decide (x = y)) as [E|]; [|right; by exists x, y].
  unfold x, y in E. clear H x y.
  assert (Split : ∀ a b a' b', String.length a = String.length a' →
    a +:+ b = a' +:+ b' → a = a' ∧ b = b').
  { induction a as [|c a IH]; intros b [|c' a'] b'; cbn; try done.
    intros [= Hl] [= -> He]. by destruct (IH _ _ _ Hl He) as [-> ->]. }
  apply Split in E as [Ec E]; [|by rewrite L1, L2].
  assert (La : String.length (args_ t1') = String.length (args_ t2')).
  { apply (f_equal String.length) in E.
    rewrite !slength_app, !EncodeHex_length, !Hlen in E. lia. }
  apply Split in E as [Ea Es]; [|done].
  apply (f_equal decode_hex) in Es. rewrite !decode_EncodeHex in Es.
  destruct (decide (source_ t1' = source_ t2')) as [|Hs]; [|right; by eexists _, _].
  left. split_and!; try done. destruct (qct_env_desc r1), (qct_env_desc r2). cbn in Ec. by f_equal.
Qed.
End cache.

Definition demo_blake3 (s : string) : string := "0123456789abcdef0123456789abcdef".
Definition demo_digest : string := EncodeHex (demo_blake3 "") false.
Definition demo_request : QueueCxxTaskRequest := {|
  qct_token := ""; qct_task_grant_id := 1; qct_env_desc := {| compiler_digest := demo_digest |};
  qct_source_path := "a.cc"; qct_args := "-c"; qct_compress_type := COMPRESS_TYPE_ZSTD;
  qct_fill_cache := true |}.
Definition demo_task (source : string) : CxxCompileTask :=
  (Prepare demo_blake3 Some (Some "/usr/bin/g++") demo_request source
    (CxxCompileTask_init "/tmp/w")).2.

Lemma cache_only_time_dependent_witness :
  ∃ t', CxxCompileTask_OnCompleted demo_blake3 Some
    [("0.o", "x")] (demo_task "a __DATE__ b") 1 "" "" = Ret t' ∧
  (cache_writes t' ≠ [] ↔ 1 = 0 ∧ has_time_macro "a __DATE__ b" = true).
Proof.
  eexists. split; [vm_compute; reflexivity|].
  eapply (cache_only_time_dependent demo_blake3 Some [("0.o", "x")] (demo_task "a __DATE__ b") 1 "" "");
    [reflexivity|vm_compute; reflexivity].
Defined.

Lemma GetDigest_collision_witness :
  source_ (demo_task "a") = source_ (demo_task "a") ∨ ∃ x y, x ≠ y ∧ demo_blake3 x = demo_blake3 y.
Proof.
  destruct (GetDigest_collision demo_blake3 Some (Some "/usr/bin/g++") (Some "/usr/bin/g++")
    demo_request demo_request "a" "a" (CxxCompileTask_init "/tmp/w") (CxxCompileTask_init "/tmp/w")
    (demo_task "a") (demo_task "a")) as [(_ & _ & E)|C];
    [vm_compute; reflexivity|vm_compute; reflexivity|reflexivity|vm_compute; reflexivity|
     vm_compute; reflexivity|reflexivity|by left|by right].
Defined.
