(* ===== verification/Compilers.v ===== *)
(** The servant's compiler registry: src/distribuild/daemon/cloud/compilers.{h,cpp}.

    What the operating system answers is a record of functions; blake3 is a
    parameter. *)
From S2P Require Import Prelude Text Proto.

Record Stat := { st_uid : Z; st_gid : Z; st_mode : Z }.

(** The host: [lstat] and [realpath] of a path, the effective ids and the content of a
    file that can be opened. *)
Record Host := {
  lstat : string → option Stat;
  realpath : string → option string;
  geteuid : Z;
  getegid : Z;
  read_file : string → option string
}.

Definition S_IXUSR : Z := 64.
Definition S_IXGRP : Z := 8.
Definition S_IXOTH : Z := 1.

Definition has_bit (mode bit : Z) : bool := negb (Z.land mode bit =? 0).

Definition GetPathHasCompiler (h : Host) (path : string) : option string :=
  match lstat h path with
  | None => None
  | Some st =>
    match realpath h path with
    | None => None
    | Some buf =>
      let compiler :=
        (geteuid h =? st_uid st) && has_bit (st_mode st) S_IXUSR ||
        (getegid h =? st_gid st) && has_bit (st_mode st) S_IXGRP ||
        has_bit (st_mode st) S_IXOTH in
      if negb compiler then None else Some buf
    end
  end.

(** The iteration order of this hash set is unspecified. *)
Definition kSupportedCompilers : list string := ["gcc"; "g++"].

Definition candidate_path (dir compiler : string) : string :=
  if String.eqb dir "" || bool_decide (slast dir = Some "/"%char)
  then dir +:+ compiler else dir +:+ "/" +:+ compiler.

Definition SearchCompiler (h : Host) (dir : string) : list string :=
  omap (λ compiler, GetPathHasCompiler h (candidate_path dir compiler)) kSupportedCompilers.

Record Compilers := {
  compilers_ : list EnviromentDesc;
  compiler_paths_ : gmap string string
}.

Definition Compilers_init : Compilers := {| compilers_ := []; compiler_paths_ := ∅ |}.

Definition GetAll (c : Compilers) : list EnviromentDesc := compilers_ c.

Definition TryGetPath (c : Compilers) (env : EnviromentDesc) : option string :=
  compiler_paths_ c !! compiler_digest env.

Section scan.
Context (blake3 : string → string) (h : Host).

Definition TryGetFileDigest (path : string) : option string :=
  (λ content, EncodeHex (blake3 content) false) <$> read_file h path.

(** The two containers that a scan fills. *)
Definition AddEnvTo (found : Compilers) (path : string) : Compilers :=
  match TryGetFileDigest path with
  | None => found
  | Some digest =>
    if decide (compiler_paths_ found !! digest = None) then
      {| compilers_ := compilers_ found ++ [{| compiler_digest := digest |}];
         compiler_paths_ := <[digest := path]> (compiler_paths_ found) |}
    else found
  end.

Definition scan_dirs (dirs : list string) (found : Compilers) : Compilers :=
  foldl AddEnvTo found (dirs ≫= SearchCompiler h).

(** [path_env]: the PATH variable; a null pointer cannot be made a
    [string_view]. *)
Definition OnTimerRescan (path_env : option string) (FLAGS_compiler_dir_path : string)
    : outcome Compilers :=
  match path_env with
  | None => Undef "string_view of a null pointer"
  | Some path_env =>
    let found := scan_dirs (Split_char path_env ":" true) Compilers_init in
    Ret (scan_dirs (Split_char FLAGS_compiler_dir_path ":" true) found)
  end.

(** * Theory *)

(** The registry is consistent: no compiler twice, and every one at a path whose
    file has its digest. *)
Record registry_ok (c : Compilers) : Prop := {
  reg_nodup : NoDup (compilers_ c);
  reg_same env : env ∈ compilers_ c ↔ is_Some (compiler_paths_ c !! compiler_digest env);
  reg_digest d p : compiler_paths_ c !! d = Some p → TryGetFileDigest p = Some d
}.

Lemma AddEnvTo_ok c path : registry_ok c → registry_ok (AddEnvTo c path).
Proof.
  intros [N S D]. unfold AddEnvTo. destruct (TryGetFileDigest path) as [d|] eqn:F; [|done].
  destruct (decide _) as [Hd|]; [|done]. split; cbn.
  - apply NoDup_app. split_and!; [done| |apply NoDup_singleton].
    intros env He ->%list_elem_of_singleton. apply S in He. cbn in He. rewrite Hd in He. by destruct He.
  - intros [e]. rewrite elem_of_app, list_elem_of_singleton, S. cbn.
    destruct (decide (d = e)) as [<-|Hne].
    + rewrite lookup_insert_eq. split; eauto.
    + rewrite lookup_insert_ne by done. split; [intros [?|[=]]; [done|congruence]|by left].
  - intros d' p [[<- <-]|[_ Hp]]%lookup_insert_Some; eauto.
Qed.

Lemma AddEnvTo_sub c path : compiler_paths_ c ⊆ compiler_paths_ (AddEnvTo c path).
Proof.
  unfold AddEnvTo. destruct (TryGetFileDigest path); [|done]. destruct (decide _); [|done].
  cbn. by apply insert_subseteq.
Qed.

Lemma AddEnvTo_adds c path d :
  TryGetFileDigest path = Some d → is_Some (compiler_paths_ (AddEnvTo c path) !! d).
Proof.
  intros F. unfold AddEnvTo. rewrite F. destruct (decide _) as [|Hd]; cbn.
  - rewrite lookup_insert_eq. eauto.
  - by destruct (compiler_paths_ c !! d).
Qed.

Lemma foldl_AddEnvTo paths c :
  registry_ok c →
  registry_ok (foldl AddEnvTo c paths) ∧
  compiler_paths_ c ⊆ compiler_paths_ (foldl AddEnvTo c paths) ∧
  (∀ p d, p ∈ paths → TryGetFileDigest p = Some d →
     is_Some (compiler_paths_ (foldl AddEnvTo c paths) !! d)) ∧
  (∀ d p, compiler_paths_ (foldl AddEnvTo c paths) !! d = Some p →
     compiler_paths_ c !! d = Some p ∨ p ∈ paths).
Proof.
  revert c; induction paths as [|q paths IH]; intros c O; cbn [foldl].
  { split_and!; [done|done|by intros ? ? ?%elem_of_nil|by left]. }
  destruct (IH (AddEnvTo c q) (AddEnvTo_ok _ _ O)) as (I1 & I2 & I3 & I4). split_and!.
  - done.
  - etrans; [apply AddEnvTo_sub|done].
  - intros p d [->|Hp]%elem_of_cons Hd; [|by eapply I3].
    destruct (AddEnvTo_adds c q d Hd) as [x Hx]. exists x. by eapply lookup_weaken.
  - intros d p [H|H]%I4; [|right; by right]. revert H. unfold AddEnvTo.
    destruct (TryGetFileDigest q); [|by left]. destruct (decide _); [|by left]. cbn.
    intros [[_ <-]|[_ H]]%lookup_insert_Some; [right; by left|by left].
Qed.

Lemma init_ok : registry_ok Compilers_init.
Proof.
  split; cbn; [constructor| |intros d p H; by rewrite lookup_empty in H].
  intros env. split; [by intros ?%elem_of_nil|intros [x H]; by rewrite lookup_empty in H].
Qed.

(** The executables that a scan of some directories looks at. *)
Definition found_in (dirs : string) (p : string) : Prop :=
  ∃ dir c, dir ∈ Split_char dirs ":" true ∧ c ∈ kSupportedCompilers ∧
           GetPathHasCompiler h (candidate_path dir c) = Some p.

Lemma found_in_spec dirs p : p ∈ Split_char dirs ":" true ≫= SearchCompiler h ↔ found_in dirs p.
Proof.
  rewrite list_elem_of_bind. unfold SearchCompiler, found_in. split.
  - intros (dir & (c & Hc & Hp)%list_elem_of_omap & Hd). eauto 10.
  - intros (dir & c & Hd & Hc & Hp). exists dir. split; [|done].
    apply list_elem_of_omap. eauto.
Qed.

(** A scan registers exactly the readable compilers of the PATH and of the
    configured directories: the lookup of an environment gives the path of a found
    executable whose file has that digest, every found executable's digest is
    registered, and the list of environments has no duplicate and agrees with the
    lookup. *)
Theorem OnTimerRescan_spec path_env dirs :
  ∃ c, OnTimerRescan (Some path_env) dirs = Ret c ∧ NoDup (GetAll c) ∧
  (∀ env, env ∈ GetAll c ↔ is_Some (TryGetPath c env)) ∧
  (∀ env p, TryGetPath c env = Some p →
     (found_in path_env p ∨ found_in dirs p) ∧ TryGetFileDigest p = Some (compiler_digest env)) ∧
  (∀ p d, found_in path_env p ∨ found_in dirs p → TryGetFileDigest p = Some d →
     ∃ p', TryGetPath c {| compiler_digest := d |} = Some p').
Proof.
  eexists. split; [reflexivity|]. unfold scan_dirs, GetAll, TryGetPath.
  destruct (foldl_AddEnvTo (Split_char path_env ":" true ≫= SearchCompiler h) _ init_ok)
    as (O1 & _ & A1 & B1).
  destruct (foldl_AddEnvTo (Split_char dirs ":" true ≫= SearchCompiler h) _ O1)
    as (O2 & S2 & A2 & B2).
  split_and!; [apply O2|apply O2| |].
  - intros env p Hp. split; [|by apply O2].
    apply B2 in Hp as [Hp|Hp]; [|right; by apply found_in_spec].
    apply B1 in Hp as [Hp|Hp]; [cbn in Hp; by rewrite lookup_empty in Hp|left; by apply found_in_spec].
  - intros p d [Hp%found_in_spec|Hp%found_in_spec] Hd.
    + destruct (A1 p d Hp Hd) as [x Hx]. exists x. by eapply lookup_weaken.
    + by destruct (A2 p d Hp Hd) as [x Hx]; exists x.
Qed.
End scan.
