(* ===== verification/CacheData.v ===== *)
(** Cache entries on the wire: src/distribuild/daemon/cache.h.

    zstd, blake3 and the protobuf encoding of [CacheMeta] are code outside the
    sources: parameters. *)
From S2P Require Import Prelude Text Proto CompileTask.

(** [CacheHeader] in memory: a 64-bit and two 32-bit little-endian integers. *)
Fixpoint le_bytes (n : nat) (z : Z) : string :=
  match n with
  | O => ""
  | S n => String (ascii_of_N (Z.to_N (z mod 256))) (le_bytes n (z / 256))
  end.

Fixpoint le_value (s : string) : Z :=
  match s with
  | "" => 0
  | String c s => Z.of_N (N_of_ascii c) + 256 * le_value s
  end.

Definition sizeof_CacheHeader : nat := 16.

(** [compression_algorithm] is not initialised by name, so it is 0. *)
Definition header_bytes (packed_size meta_size : Z) : string :=
  le_bytes 8 packed_size +:+ le_bytes 4 meta_size +:+ le_bytes 4 0.

Record CacheMeta := {
  meta_exit_code : Z;
  meta_stdout : string;
  meta_stderr : string;
  meta_extra_info : option CxxExtraInfo;
  meta_files_check_hash : string
}.

Section cache_data.
Context (blake3 : string → string).
Context (ZSTDCompress ZSTDDecompress : string → option string).
Context (SerializeAsString : CacheMeta → string).
Context (ParseFromString : string → option CacheMeta).

Definition meta_of (entry : CacheEntry) : CacheMeta := {|
  meta_exit_code := entry_exit_code entry; meta_stdout := entry_std_out entry;
  meta_stderr := entry_std_err entry; meta_extra_info := entry_extra_info entry;
  meta_files_check_hash := blake3 (entry_packed entry) |}.

(** The uncompressed entry. *)
Definition layout (entry : CacheEntry) : string :=
  let meta_str := SerializeAsString (meta_of entry) in
  header_bytes (ssize (entry_packed entry)) (u32 (ssize meta_str)) +:+ meta_str +:+
  entry_packed entry.

Definition TryMakeCacheData (entry : CacheEntry) : option string :=
  ZSTDCompress (layout entry).

(** [substr] past the end throws. *)
Definition TryParseCacheEntry (data : string) : outcome (option CacheEntry) :=
  match ZSTDDecompress data with
  | None => Ret None
  | Some decompressed =>
    if (String.length decompressed <? sizeof_CacheHeader)%nat then Ret None
    else
      let packed_size := le_value (stake 8 decompressed) in
      let meta_size := le_value (stake 4 (sdrop 8 decompressed)) in
      if negb (u64 (meta_size + packed_size + Z.of_nat sizeof_CacheHeader) =? ssize data)
      then Ret None
      else
        let body := sdrop sizeof_CacheHeader decompressed in
        let meta_str := ztake meta_size body in
        match ParseFromString meta_str with
        | None => Ret None
        | Some meta =>
          if ssize body <? meta_size then Throw "std::out_of_range"
          else
            let packed := zdrop meta_size body in
            if negb (String.eqb (meta_files_check_hash meta) (blake3 packed)) then Ret None
            else Ret (Some {|
              entry_exit_code := meta_exit_code meta; entry_std_out := meta_stdout meta;
              entry_std_err := meta_stderr meta; entry_extra_info := meta_extra_info meta;
              entry_packed := packed |})
        end
  end.

(** * Theory *)

Lemma le_bytes_length n z : String.length (le_bytes n z) = n.
Proof. revert z; induction n; intros z; cbn; [done|]. by rewrite IHn. Qed.

Lemma le_value_bytes n z : 0 ≤ z < 256 ^ Z.of_nat n → le_value (le_bytes n z) = z.
Proof.
  revert z; induction n as [|n IH]; intros z Hz; [cbn in *; lia|].
  rewrite Nat2Z.inj_succ, Z.pow_succ_r in Hz by lia. cbn [le_bytes le_value].
  pose proof (Z.mod_pos_bound z 256 ltac:(lia)).
  rewrite N_ascii_embedding by lia. rewrite Z2N.id by lia. rewrite IH.
  - pose proof (Z.div_mod z 256). lia.
  - split; [apply Z.div_pos; lia|]. apply Z.div_lt_upper_bound; lia.
Qed.

Lemma entry_header entry :
  ssize (entry_packed entry) < 2 ^ 64 →
  let d := layout entry in
  let m := SerializeAsString (meta_of entry) in
  le_value (stake 8 d) = ssize (entry_packed entry) ∧
  le_value (stake 4 (sdrop 8 d)) = u32 (ssize m) ∧
  sdrop 16 d = m +:+ entry_packed entry ∧ (16 ≤ String.length d)%nat.
Proof.
  intros Hp. cbv zeta. unfold layout, header_bytes. cbv zeta.
  set (m := SerializeAsString _). rewrite !sapp_assoc.
  pose proof (stake_app (le_bytes 8 (ssize (entry_packed entry)))) as T8.
  pose proof (sdrop_app (le_bytes 8 (ssize (entry_packed entry)))) as D8.
  pose proof (stake_app (le_bytes 4 (u32 (ssize m)))) as T4.
  pose proof (sdrop_app (le_bytes 4 (u32 (ssize m)))) as D4.
  pose proof (sdrop_app (le_bytes 4 0)) as D0.
  rewrite le_bytes_length in *. rewrite T8, D8, T4.
  pose proof (ssize_nonneg (entry_packed entry)). pose proof (u32_range (ssize m)) as [? ?].
  rewrite !le_value_bytes by (cbn; lia). split_and!; try done.
  rewrite !slength_app, !le_bytes_length. lia.
Qed.

Section laws.
(** The documented behaviour of the two encodings: decoding undoes encoding. *)
Context (zstd_law : ∀ s c, ZSTDCompress s = Some c → ZSTDDecompress c = Some s).

(** A cache entry that was written is read back unchanged only when its
    compressed size happens to equal its uncompressed size: the reader compares
    the uncompressed layout with the size of the compressed data, and otherwise
    treats the entry as corrupt. *)
Theorem TryParseCacheEntry_roundtrip entry data :
  ParseFromString (SerializeAsString (meta_of entry)) = Some (meta_of entry) →
  ssize (SerializeAsString (meta_of entry)) < 2 ^ 32 →
  ssize (layout entry) < 2 ^ 64 →
  TryMakeCacheData entry = Some data →
  TryParseCacheEntry data =
    Ret (if ssize data =? ssize (layout entry) then Some entry else None).
Proof.
  intros meta_law Hm Hl Hd. unfold TryParseCacheEntry. rewrite (zstd_law _ _ Hd).
  pose proof (ssize_nonneg (entry_packed entry)) as Hp0.
  pose proof (ssize_nonneg (SerializeAsString (meta_of entry))) as Hm0.
  assert (Hs : ssize (layout entry) = ssize (SerializeAsString (meta_of entry)) +
    ssize (entry_packed entry) + 16).
  { unfold layout, header_bytes, ssize. cbv zeta. rewrite !slength_app, !le_bytes_length. lia. }
  destruct (entry_header entry) as (E1 & E2 & E3 & E4); [lia|].
  unfold sizeof_CacheHeader. rewrite (proj2 (Nat.ltb_ge _ _) E4), E1, E2, E3.
  rewrite (u32_id (ssize _)) by (split; lia). cbv zeta.
  rewrite u64_id by (split; lia). change (Z.of_nat 16) with 16. rewrite <- Hs.
  rewrite Z.eqb_sym. destruct (ssize data =? ssize (layout entry)); [|done]. cbn [negb].
  rewrite ztake_app, meta_law, zdrop_app, ssize_app.
  rewrite (proj2 (Z.ltb_ge _ _)) by lia. cbn [meta_files_check_hash meta_of].
  rewrite String.eqb_refl. cbn. by destruct entry.
Qed.
End laws.
End cache_data.

Definition demo_meta (m : CacheMeta) : string := "m".
Definition demo_entry : CacheEntry := {|
  entry_exit_code := 0; entry_std_out := ""; entry_std_err := ""; entry_extra_info := None;
  entry_packed := "abc" |}.

(** A compressor that adds a byte. *)
Definition demo_compress (s : string) : option string := Some (String "Z" s).
Definition demo_decompress (s : string) : option string := Some (sdrop 1 s).

Lemma TryParseCacheEntry_roundtrip_witness :
  ∃ data, TryMakeCacheData (λ _, "") demo_compress demo_meta demo_entry = Some data ∧
    TryParseCacheEntry (λ _, "") demo_decompress (λ _, Some (meta_of (λ _, "") demo_entry)) data
      = Ret None.
Proof.
  eexists. split; [reflexivity|].
  refine (TryParseCacheEntry_roundtrip (λ _, "") demo_compress demo_decompress demo_meta
    (λ _, Some (meta_of (λ _, "") demo_entry)) _ demo_entry _ eq_refl eq_refl eq_refl eq_refl).
  intros s c [= <-]. reflexivity.
Defined.
