(* ===== verification/Stream.v ===== *)
(** The receiving side of the streaming calls: the loop over request chunks that
    [DaemonServiceImpl::QueueCxxTask] and [CacheServiceImpl::PutEntry] share, word
    for word.  The first chunk carries the request, the others the file. *)
From S2P Require Import Prelude Text Proto.

(** A chunk message: the sub-message, if it is set, and the bytes. *)
Record Chunk (R : Type) := { chunk_request : option R; chunk_file : string }.
Arguments Build_Chunk {R} _ _.
Arguments chunk_request {R} _.
Arguments chunk_file {R} _.

(** What the loop ends with: an early return, or the request (null when no chunk
    came) and the file. *)
Inductive Received (R : Type) :=
  | Refused (status : StatusCode)
  | Got (request : option R) (file : string).
Arguments Refused {R} _.
Arguments Got {R} _ _.

Section receive.
Context {R : Type} (token_ok : R → bool).

(** The loop after the first chunk. *)
Fixpoint receive_rest (request : R) (file : string) (chunks : list (Chunk R)) : Received R :=
  match chunks with
  | [] => Got (Some request) file
  | c :: chunks =>
    match chunk_request c with
    | Some _ => Refused PERMISSION_DENIED
    | None => receive_rest request (file +:+ chunk_file c) chunks
    end
  end.

Definition receive (chunks : list (Chunk R)) : Received R :=
  match chunks with
  | [] => Got None ""
  | c :: chunks =>
    match chunk_request c with
    | None => Refused PERMISSION_DENIED
    | Some request =>
      if negb (String.eqb (chunk_file c) "") then Refused PERMISSION_DENIED
      else if negb (token_ok request) then Refused PERMISSION_DENIED
      else receive_rest request "" chunks
    end
  end.

(** The stream a well-behaved sender makes of a request and pieces of a file. *)
Definition stream_of (request : R) (pieces : list string) : list (Chunk R) :=
  Build_Chunk (Some request) "" :: (Build_Chunk None <$> pieces).

Lemma receive_rest_pieces request file pieces :
  receive_rest request file (Build_Chunk None <$> pieces) = Got (Some request) (file +:+ sconcat pieces).
Proof.
  revert file; induction pieces as [|p pieces IH]; intros file.
  - change (receive_rest request file []= Got (Some request) (file +:+ "")). by rewrite sapp_nil_r.
  - rewrite fmap_cons. cbn [receive_rest chunk_request chunk_file]. rewrite IH.
    cbn [sconcat]. by rewrite sapp_assoc.
Qed.

Lemma receive_stream request pieces :
  receive (stream_of request pieces) =
  if token_ok request then Got (Some request) (sconcat pieces) else Refused PERMISSION_DENIED.
Proof.
  unfold receive, stream_of. cbn [chunk_request chunk_file]. change (negb (String.eqb "" "")) with false.
  cbn iota. destruct (token_ok request); [|done]. apply (receive_rest_pieces request "").
Qed.

Lemma receive_rest_Got request file chunks r f :
  receive_rest request file chunks = Got r f →
  r = Some request ∧ ∃ pieces, chunks = Build_Chunk None <$> pieces ∧ f = file +:+ sconcat pieces.
Proof.
  revert file; induction chunks as [|[q p] chunks IH]; intros file; cbn.
  - intros [= <- <-]. split; [done|]. exists []. by rewrite sapp_nil_r.
  - destruct q; [done|]. intros (-> & pieces & -> & ->)%IH. split; [done|].
    exists (p :: pieces). rewrite fmap_cons. cbn [sconcat]. by rewrite sapp_assoc.
Qed.

(** A stream is accepted only when it has this form, or is empty. *)
Lemma receive_Got chunks r f :
  receive chunks = Got r f →
  (chunks = [] ∧ r = None ∧ f = "") ∨
  ∃ request pieces, chunks = stream_of request pieces ∧ token_ok request = true ∧
    r = Some request ∧ f = sconcat pieces.
Proof.
  destruct chunks as [|[[q|] p] chunks]; cbn; [|destruct (String.eqb_spec p "") as [->|]; [|done]|done].
  - intros [= <- <-]. by left.
  - cbn [negb]. destruct (token_ok q) eqn:T; [|done]. cbn [negb].
    intros (-> & pieces & -> & ->)%receive_rest_Got. right. by exists q, pieces.
Qed.

Lemma receive_status chunks st : receive chunks = Refused st → st = PERMISSION_DENIED.
Proof.
  assert (Hr : ∀ q f cs, receive_rest q f cs = Refused st → st = PERMISSION_DENIED).
  { intros q f cs; revert f; induction cs as [|[[q'|] p] cs IH]; intros f; cbn;
      [done|by intros [= <-]|apply IH]. }
  destruct chunks as [|[[q|] p] chunks]; cbn; [done| |by intros [= <-]].
  destruct (negb _); [by intros [= <-]|]. destruct (negb _); [by intros [= <-]|apply Hr].
Qed.
End receive.
