(* ===== verification/CacheService.v ===== *)
(** The cache server: src/distribuild/cache/cache_service_impl.{h,cpp} and the
    interface of its engines, src/distribuild/cache/cache_engine.h.

    The sources contain no engine: an engine is anything of the class [CacheEngine],
    and [EngineLaws] is what the interface promises. *)
From S2P Require Import Prelude Text Proto Token MultiChunk Stream.

Class CacheEngine (C : Type) := {
  engine_GetKeys : C → list string;
  engine_TryGet : C → string → option string * C;
  engine_Put : C → string → string → C;
  engine_Purge : C → C
}.

(** What was put last is found. *)
Class EngineLaws (C : Type) `{CacheEngine C} : Prop := {
  TryGet_Put c k v : (engine_TryGet (engine_Put c k v) k).1 = Some v;
  TryGet_Put_ne c k k' v :
    k ≠ k' → (engine_TryGet (engine_Put c k v) k').1 = (engine_TryGet c k').1
}.

(** A map is an engine: the laws can hold. *)
#[export] Instance map_engine : CacheEngine (gmap string string) := {|
  engine_GetKeys m := (map_to_list m).*1; engine_TryGet m k := (m !! k, m);
  engine_Put m k v := <[k := v]> m; engine_Purge m := m |}.
#[export] Instance map_engine_laws : EngineLaws (gmap string string).
Proof. split; intros; cbn; [apply lookup_insert_eq|by apply lookup_insert_ne]. Qed.

Record PutEntryRequest := { put_token : string; put_key : string }.
Record TryGetEntryRequest := { get_token : string; get_key : string }.

Record CacheFlags := {
  FLAGS_chunk_size : Z;
  FLAGS_user_token : string;
  FLAGS_servant_token : string
}.

Section service.
Context {C : Type} `{CacheEngine C}.

(** [added]: the keys given to the bloom filter, whose code is not in the
    sources. *)
Record CacheServiceImpl := {
  user_token_verifier_ : TokenVerifier;
  servant_token_verifier_ : TokenVerifier;
  cache_miss_ : Z;
  cache_hits_ : Z;
  L1_cache_ : option C;
  L2_cache_ : option C;
  added : list string
}.

(** The constructor never makes the engines ("TODO"). *)
Definition CacheServiceImpl_init (f : CacheFlags) : CacheServiceImpl := {|
  user_token_verifier_ := MakeTokenVerifier (FLAGS_user_token f);
  servant_token_verifier_ := MakeTokenVerifier (FLAGS_servant_token f);
  cache_miss_ := 0; cache_hits_ := 0; L1_cache_ := None; L2_cache_ := None; added := [] |}.

Definition with_caches (l1 l2 : C) (miss hits : Z) (keys : list string) (sv : CacheServiceImpl)
    : CacheServiceImpl := {|
  user_token_verifier_ := user_token_verifier_ sv;
  servant_token_verifier_ := servant_token_verifier_ sv;
  cache_miss_ := miss; cache_hits_ := hits; L1_cache_ := Some l1; L2_cache_ := Some l2;
  added := keys |}.

(** A [unique_ptr] is dereferenced. *)
Definition deref {A} (p : option A) : outcome A :=
  match p with Some a => Ret a | None => Undef "null pointer" end.

(** The status, the chunks that are written and the new state. *)
Definition TryGetEntry (f : CacheFlags) (r : TryGetEntryRequest) (sv : CacheServiceImpl)
    : outcome (StatusCode * list string * CacheServiceImpl) :=
  if negb (Verify (user_token_verifier_ sv) (get_token r)) then Ret (PERMISSION_DENIED, [], sv)
  else
    l1 ← deref (L1_cache_ sv);
    let '(bytes, l1) := engine_TryGet l1 (get_key r) in
    '(bytes, sv) ←
      (if bytes is Some _ then
         Ret (bytes, {|
           user_token_verifier_ := user_token_verifier_ sv;
           servant_token_verifier_ := servant_token_verifier_ sv;
           cache_miss_ := cache_miss_ sv; cache_hits_ := cache_hits_ sv;
           L1_cache_ := Some l1; L2_cache_ := L2_cache_ sv; added := added sv |})
       else
         l2 ← deref (L2_cache_ sv);
         let '(bytes, l2) := engine_TryGet l2 (get_key r) in
         Ret (bytes, with_caches l1 l2 (cache_miss_ sv) (cache_hits_ sv) (added sv) sv));
    match bytes with
    | None =>
      Ret (NOT_FOUND, [], {|
        user_token_verifier_ := user_token_verifier_ sv;
        servant_token_verifier_ := servant_token_verifier_ sv;
        cache_miss_ := u64 (cache_miss_ sv + 1); cache_hits_ := cache_hits_ sv;
        L1_cache_ := L1_cache_ sv; L2_cache_ := L2_cache_ sv; added := added sv |})
    | Some bytes =>
      l1 ← deref (L1_cache_ sv);
      l2 ← deref (L2_cache_ sv);
      let sv := with_caches l1 (engine_Put l2 (get_key r) bytes) (cache_miss_ sv)
                  (u64 (cache_hits_ sv + 1)) (added sv) sv in
      match file_chunks (FLAGS_chunk_size f) bytes with
      | None => Undef "endless loop"
      | Some chunks => Ret (OK, chunks, sv)
      end
    end.

Definition PutEntry (chunks : list (Chunk PutEntryRequest)) (sv : CacheServiceImpl)
    : outcome (StatusCode * CacheServiceImpl) :=
  match receive (λ r, Verify (servant_token_verifier_ sv) (put_token r)) chunks with
  | Refused status => Ret (status, sv)
  | Got request file =>
    request ← deref request;
    l1 ← deref (L1_cache_ sv);
    l2 ← deref (L2_cache_ sv);
    Ret (OK, with_caches (engine_Put l1 (put_key request) file) (engine_Put l2 (put_key request) file)
      (cache_miss_ sv) (cache_hits_ sv) (added sv ++ [put_key request]) sv)
  end.

(** [FetchBloomFilter] answers an empty response. *)
Definition FetchBloomFilter (sv : CacheServiceImpl) : StatusCode := OK.

Definition GetKeys (sv : CacheServiceImpl) : outcome (list string) :=
  l1 ← deref (L1_cache_ sv); l2 ← deref (L2_cache_ sv);
  Ret (engine_GetKeys l1 ++ engine_GetKeys l2).

Definition OnTimerPurge (sv : CacheServiceImpl) : outcome CacheServiceImpl :=
  l1 ← deref (L1_cache_ sv);
  Ret {| user_token_verifier_ := user_token_verifier_ sv;
         servant_token_verifier_ := servant_token_verifier_ sv;
         cache_miss_ := cache_miss_ sv; cache_hits_ := cache_hits_ sv;
         L1_cache_ := Some (engine_Purge l1); L2_cache_ := L2_cache_ sv; added := added sv |}.

(** * Theory *)

(** With engines in place, an entry that a servant put in pieces is what a user
    gets, cut into chunks of at most the chunk size, and it counts as a hit. *)
Theorem PutEntry_TryGetEntry `{!EngineLaws C} f sv l1 l2 r pieces g :
  L1_cache_ sv = Some l1 → L2_cache_ sv = Some l2 →
  Verify (servant_token_verifier_ sv) (put_token r) = true →
  Verify (user_token_verifier_ sv) (get_token g) = true → get_key g = put_key r →
  0 < FLAGS_chunk_size f → ssize (sconcat pieces) + FLAGS_chunk_size f < 2 ^ 64 →
  ∃ sv1 sv2 chunks,
    PutEntry (stream_of r pieces) sv = Ret (OK, sv1) ∧
    TryGetEntry f g sv1 = Ret (OK, chunks, sv2) ∧
    sconcat chunks = sconcat pieces ∧
    Forall (λ c, 0 < ssize c ≤ FLAGS_chunk_size f) chunks ∧
    cache_hits_ sv2 = u64 (cache_hits_ sv + 1) ∧ cache_miss_ sv2 = cache_miss_ sv.
Proof.
  intros H1 H2 Vs Vu Hk Hc Hs. unfold PutEntry. rewrite receive_stream, Vs.
  cbn [mbind outcome_bind deref]. rewrite H1, H2. cbn [mbind outcome_bind deref].
  destruct (file_chunks_ok (FLAGS_chunk_size f) (sconcat pieces) Hc Hs) as (chunks & E & Ec & F).
  pose proof (TryGet_Put l1 (put_key r) (sconcat pieces)) as T.
  destruct (engine_TryGet (engine_Put l1 _ _) _) as [b l1'] eqn:G. cbn in T. subst b.
  do 2 eexists. exists chunks. split; [reflexivity|].
  split; [|split; [exact Ec|split; [exact F|]]].
  - unfold TryGetEntry. cbn [user_token_verifier_ with_caches L1_cache_ L2_cache_].
    rewrite Vu. cbn [negb deref mbind outcome_bind]. rewrite Hk, G.
    cbn. rewrite E. reflexivity.
  - done.
Qed.

(** The server as it is constructed has no engine: every request with a valid
    token dereferences a null pointer. *)
Theorem fresh_service_fails f g r pieces :
  Verify (MakeTokenVerifier (FLAGS_user_token f)) (get_token g) = true →
  Verify (MakeTokenVerifier (FLAGS_servant_token f)) (put_token r) = true →
  TryGetEntry f g (CacheServiceImpl_init f) = Undef "null pointer" ∧
  PutEntry (stream_of r pieces) (CacheServiceImpl_init f) = Undef "null pointer".
Proof.
  intros Vu Vs. split.
  - unfold TryGetEntry. cbn [user_token_verifier_ CacheServiceImpl_init]. by rewrite Vu.
  - unfold PutEntry. rewrite receive_stream. cbn [servant_token_verifier_ CacheServiceImpl_init].
    by rewrite Vs.
Qed.
End service.
Arguments CacheServiceImpl : clear implicits.

Definition demo_flags : CacheFlags := {|
  FLAGS_chunk_size := 2; FLAGS_user_token := "u"; FLAGS_servant_token := "s" |}.
Definition demo_service : CacheServiceImpl (gmap string string) :=
  with_caches ∅ ∅ 0 0 [] (CacheServiceImpl_init demo_flags).

Lemma PutEntry_TryGetEntry_witness :
  ∃ sv1 sv2 chunks,
    PutEntry (stream_of {| put_token := "s"; put_key := "k" |} ["ab"; "c"]) demo_service
      = Ret (OK, sv1) ∧
    TryGetEntry demo_flags {| get_token := "u"; get_key := "k" |} sv1 = Ret (OK, chunks, sv2) ∧
    sconcat chunks = "abc".
Proof.
  edestruct (PutEntry_TryGetEntry demo_flags demo_service ∅ ∅ {| put_token := "s"; put_key := "k" |}
    ["ab"; "c"] {| get_token := "u"; get_key := "k" |}) as (sv1 & sv2 & chunks & E1 & E2 & E3 & _);
    [by vm_compute..|].
  by exists sv1, sv2, chunks.
Defined.

Lemma fresh_service_fails_witness :
  TryGetEntry (C := gmap string string) demo_flags {| get_token := "u"; get_key := "k" |}
    (CacheServiceImpl_init demo_flags) = Undef "null pointer".
Proof.
  refine (proj1 (fresh_service_fails demo_flags {| get_token := "u"; get_key := "k" |}
    {| put_token := "s"; put_key := "k" |} [] _ _)); by vm_compute.
Defined.
