(* ===== verification/DaemonService.v ===== *)
(** The servant's gRPC service and its heart beat:
    src/distribuild/daemon/cloud/daemon_service_impl.{h,cpp}.

    The executor runs [CxxCompileTask]s.  blake3, zstd and [Poco::Event] are
    parameters; a response whose call fails is not sent. *)
From S2P Require Import Prelude Text Proto Token MultiChunk Stream SysInfo CloudTask.
From S2P Require Import Executor CompileTask Compilers.

Definition DISTRIBUILD_VERSION : Z := 1.

(** daemon.proto *)

Inductive TaskStatus :=
  | TASK_STATUS_UNKNOWN | TASK_STATUS_RUNNING | TASK_STATUS_DONE | TASK_STATUS_FAILED
  | TASK_STATUS_NOT_FOUND.

Record WaitForTaskRequest := {
  wft_token : string;
  wft_task_id : Z;
  wft_wait_ms : Z;
  wft_version : Z;
  wft_acceptable_compress_types : list CompressType
}.

Record WaitForTaskResponse := {
  wr_task_status : TaskStatus;
  wr_exit_code : Z;
  wr_compress_type : CompressType;
  wr_err : string;
  wr_output : string;
  wr_extra_info : option CxxExtraInfo
}.

Record DaemonFlags := {
  FLAGS_scheduler_token : string;
  FLAGS_servant_priority : string;
  FLAGS_chunk_size : Z
}.

(** What the heart beat reads from the host. *)
Record HostLoad := {
  avail_memory : Z;
  total_memory : Z;
  num_cpu_cores : Z;
  current_load : Z
}.

Section service.
Context {E : Type} `{PocoEvent E}.
Context (blake3 : string → string).
Context (ZSTDCompress ZSTDDecompress : string → option string).

#[local] Instance the_task : Task CxxCompileTask := cxx_compile_task blake3 ZSTDCompress.

Record DaemonServiceImpl := {
  location_ : string;
  token_verifier_ : TokenVerifier;
  executor : Executor CxxCompileTask E;      (* [Executor::Instance()] *)
  compilers : Compilers                      (* [Compilers::Instance()] *)
}.

Definition DaemonServiceImpl_init (location : string) (ex : Executor CxxCompileTask E)
    (c : Compilers) : DaemonServiceImpl := {|
  location_ := location; token_verifier_ := TokenVerifier_default; executor := ex;
  compilers := c |}.

Definition with_executor (ex : Executor CxxCompileTask E) (sv : DaemonServiceImpl)
    : DaemonServiceImpl := {|
  location_ := location_ sv; token_verifier_ := token_verifier_ sv; executor := ex;
  compilers := compilers sv |}.

Definition IsTokenAcceptable (token : string) (sv : DaemonServiceImpl) : bool :=
  Verify (token_verifier_ sv) token.

Definition UpdateTokens (tokens : gset string) (sv : DaemonServiceImpl) : DaemonServiceImpl := {|
  location_ := location_ sv; token_verifier_ := {| recognized_tokens_ := tokens |};
  executor := executor sv; compilers := compilers sv |}.

(** ** The heart beat *)

(** [kServantPriorityMap.at]. *)
Definition priority_of (s : string) : outcome ServantPriority :=
  if String.eqb s "user" then Ret SERVANT_PRIORITY_USER
  else if String.eqb s "dedicated" then Ret SERVANT_PRIORITY_DEDICATED
  else Throw "std::out_of_range".

Definition heartbeat_request (f : DaemonFlags) (h : HostLoad) (sv : DaemonServiceImpl)
    : outcome HeartBeatRequest :=
  prio ← priority_of (FLAGS_servant_priority f);
  Ret {| hb_token := FLAGS_scheduler_token f;
         hb_next_heart_beat_in_ms := 10000;
         hb_version := DISTRIBUILD_VERSION;
         hb_location := location_ sv;
         hb_num_cpu_cores := u32 (num_cpu_cores h);
         hb_current_load := u32 (current_load h);
         hb_priority := prio;
         hb_concurrency := u32 (GetMaxConcurrency (executor sv));
         hb_not_accepting_reason := 0;
         hb_total_memory_in_bytes := total_memory h;
         hb_avail_memory_in_bytes := avail_memory h;
         hb_env_descs := GetAll (compilers sv);
         hb_running_tasks := (λ e, {|
           Proto.servant_task_id := rt_servant_task_id e;
           Proto.task_grant_id := rt_task_grant_id e;
           Proto.servant_location := location_ sv;
           Proto.task_digest := GetDigest blake3 (rt_task e) |}) <$> GetAllTasks (executor sv) |}.

(** [call] is the remote call: [None] when it fails.  The result is the signals that
    are sent and the new state. *)
Definition OnTimerHeartbeat (f : DaemonFlags) (h : HostLoad)
    (call : HeartBeatRequest → option HeartBeatResponse) (sv : DaemonServiceImpl)
    : outcome (list Z * DaemonServiceImpl) :=
  req ← heartbeat_request f h sv;
  match call req with
  | None => Ret ([], sv)
  | Some resp =>
    Ret (KillExpiredTasks (list_to_set (hb_expired_tasks resp)) (executor sv),
         UpdateTokens (list_to_set (hb_tokens resp)) sv)
  end.

(** ** The calls *)

(** [dir]: the working directory of the new task; the other arguments are what the
    executor gets from the host.  gRPC catches what a handler throws. *)
Definition QueueCxxTask (dir : string) (mem : Z) (tmp : TempFiles) (new_pid now : Z)
    (chunks : list (Chunk QueueCxxTaskRequest)) (sv : DaemonServiceImpl)
    : outcome (StatusCode * option Z * DaemonServiceImpl) :=
  match receive (λ r, IsTokenAcceptable (qct_token r) sv) chunks with
  | Refused status => Ret (status, None, sv)
  | Got None _ => Undef "null request"
  | Got (Some request) file =>
    let '(status, task) :=
      Prepare blake3 ZSTDDecompress (TryGetPath (compilers sv) (qct_env_desc request))
        request file (CxxCompileTask_init dir) in
    if negb (bool_decide (status = Proto.OK)) then Ret (status, None, sv)
    else
      let '(r, ex) :=
        TryQueueTask mem tmp new_pid now (qct_task_grant_id request) task (executor sv) in
      match r with
      | Ret None => Ret (PERMISSION_DENIED, None, with_executor ex sv)
      | Ret (Some (task_id, _)) => Ret (Proto.OK, Some task_id, with_executor ex sv)
      | Throw _ => Ret (Proto.UNKNOWN, None, with_executor ex sv)
      | Undef what => Undef what
      | Fatal what => Fatal what
      end
  end.

Definition AddTaskRef (token : string) (task_id : Z) (sv : DaemonServiceImpl)
    : StatusCode * DaemonServiceImpl :=
  if negb (IsTokenAcceptable token sv) then (PERMISSION_DENIED, sv)
  else
    let '(ok, ex) := TryAddTaskRef task_id (executor sv) in
    if negb ok then (Proto.NOT_FOUND, with_executor ex sv)
    else (Proto.OK, with_executor ex sv).

Definition FreeTask (token : string) (task_id : Z) (sv : DaemonServiceImpl)
    : StatusCode * list Z * DaemonServiceImpl :=
  if negb (IsTokenAcceptable token sv) then (PERMISSION_DENIED, [], sv)
  else
    let '(kills, ex) := Executor.FreeTask task_id (executor sv) in
    (Proto.OK, kills, with_executor ex sv).

(** The response of a finished task. *)
Definition done_response (t : CxxCompileTask) : WaitForTaskResponse := {|
  wr_task_status := TASK_STATUS_DONE; wr_exit_code := exit_code_ t;
  wr_compress_type := COMPRESS_TYPE_ZSTD; wr_err := stderr_ t; wr_output := stdout_ t;
  wr_extra_info := extra_info_ t |}.

(** The status, and what is written: the response, then the file in chunks.  [at(0)]
    of an empty repeated field ends the process.  [others] run during the wait. *)
Definition WaitForTask (f : DaemonFlags) (r : WaitForTaskRequest)
    (others : Executor CxxCompileTask E → Executor CxxCompileTask E) (sv : DaemonServiceImpl)
    : outcome (StatusCode * option (WaitForTaskResponse * list string) * DaemonServiceImpl) :=
  if negb (IsTokenAcceptable (wft_token r) sv) then Ret (PERMISSION_DENIED, None, sv)
  else
    match wft_acceptable_compress_types r with
    | [] => Fatal "repeated field index out of range"
    | c :: _ =>
      if negb (bool_decide (c = COMPRESS_TYPE_ZSTD)) then Ret (INVALID_ARGUMENT, None, sv)
      else
        '(output, _, ex) ← Executor.WaitForTask (wft_task_id r) others (executor sv);
        match output with
        | None => Ret (Proto.NOT_FOUND, None, with_executor ex sv)
        | Some task =>
          match file_chunks (FLAGS_chunk_size f) (file_pack_ task) with
          | None => Undef "endless loop"
          | Some chunks =>
            Ret (Proto.OK, Some (done_response task, chunks), with_executor ex sv)
          end
        end
    end.

(** * Theory *)

(** The results of [TryQueueTask], for any state of the executor. *)
Lemma TryQueueTask_results mem tmp new_pid now grant t (ex : Executor CxxCompileTask E) :
  let '(r, ex') := TryQueueTask mem tmp new_pid now grant t ex in
  match r with
  | Ret None => tasks_ ex' = tasks_ ex
  | Ret (Some (id, l)) =>
    (∃ n, tf_stdin tmp = Some n ∧ launch_stdin l = ztake n (source_ t)) ∧
    launch_cmd l = cmdline_ t ∧
    ∃ p d, tasks_ ex' !! id = Some p ∧ desc_heap ex' !! p = Some d ∧
      grant_id d = grant ∧ pid d = new_pid ∧ ref_count d = 1 ∧
      task d = Some (with_source "" t) ∧ cmd d = cmdline_ t
  | Throw _ => (tf_stdin tmp = None ∨ tf_out tmp = false ∨ tf_err tmp = false) ∧
    ∃ id p d, tasks_ ex' = <[id := p]> (tasks_ ex) ∧ desc_heap ex' !! p = Some d ∧
      task d = None
  | _ => False
  end.
Proof.
  unfold TryQueueTask, TryStartingNewTaskUnsafe. destruct (exiting_ ex); [done|].
  cbv zeta. destruct (_ <? _); [done|]. destruct (_ <? _); [done|].
  cbn. unfold stdin_written. destruct tmp as [[n|] out err]; cbn.
  - destruct (out && err) eqn:W; cbn.
    + split; [by exists n|]. split; [done|]. do 2 eexists. by rewrite !lookup_insert_eq.
    + split; [apply andb_false_iff in W as [->| ->]; tauto|].
      do 3 eexists. by rewrite lookup_insert_eq.
  - split; [by left|]. do 3 eexists. by rewrite lookup_insert_eq.
Qed.

Lemma TryQueueTask_Some mem tmp new_pid now grant t (ex : Executor CxxCompileTask E) id l ex' :
  TryQueueTask mem tmp new_pid now grant t ex = (Ret (Some (id, l)), ex') →
  (∃ n, tf_stdin tmp = Some n ∧ launch_stdin l = ztake n (source_ t)) ∧
  launch_cmd l = cmdline_ t ∧
  ∃ p d, tasks_ ex' !! id = Some p ∧ desc_heap ex' !! p = Some d ∧
    grant_id d = grant ∧ pid d = new_pid ∧ ref_count d = 1 ∧ task d = Some (with_source "" t) ∧
    cmd d = cmdline_ t.
Proof.
  intros Q. pose proof (TryQueueTask_results mem tmp new_pid now grant t ex) as W.
  by rewrite Q in W.
Qed.


(** A client that waits for a task it may wait for gets the result and the packed
    files in chunks once the task is done.  A task that still runs and a task that
    does not exist are answered in the same way, by NOT_FOUND and no response: the
    task status that was computed is lost. *)
Theorem WaitForTask_reply f r sv ex' out st :
  IsTokenAcceptable (wft_token r) sv = true →
  head (wft_acceptable_compress_types r) = Some COMPRESS_TYPE_ZSTD →
  Executor.WaitForTask (wft_task_id r) (λ ex, ex) (executor sv) = Ret (out, st, ex') →
  0 < FLAGS_chunk_size f →
  (∀ t, out = Some t → ssize (file_pack_ t) + FLAGS_chunk_size f < 2 ^ 64) →
  match out with
  | None => WaitForTask f r (λ ex, ex) sv = Ret (Proto.NOT_FOUND, None, with_executor ex' sv) ∧
            (st = Running ∨ st = Executor.NotFound ∨
             ∃ q d, desc_heap (executor sv) !! q = Some d ∧ task d = None)
  | Some t => ∃ chunks,
      WaitForTask f r (λ ex, ex) sv
        = Ret (Proto.OK, Some (done_response t, chunks), with_executor ex' sv) ∧
      sconcat chunks = file_pack_ t
  end.
Proof.
  intros Ht Hc Hw Hs Hl. unfold WaitForTask. rewrite Ht. cbn [negb].
  destruct (wft_acceptable_compress_types r) as [|c cs]; [done|]. injection Hc as ->.
  cbn [negb]. rewrite Hw. cbn. destruct out as [t|].
  - destruct (file_chunks_ok (FLAGS_chunk_size f) (file_pack_ t) Hs (Hl t eq_refl))
      as (chunks & -> & Ec & _). by exists chunks.
  - split; [done|]. revert Hw. unfold Executor.WaitForTask, WaitForTask_event.
    destruct (WaitForTask_find _ _) as [q|]; [|intros [= <- _]; by right; left].
    destruct (desc_heap _ !! _) as [d|] eqn:D; [|done].
    destruct (event_tryWait _) as [b e]. destruct b; [|intros [= <- _]; by left].
    destruct (task d) eqn:Td; [done|]. intros [= <- _]. right. right. by exists q, d.
Qed.

(** After a successful heart beat the servant accepts exactly the tokens of the
    response, and the processes it kills are exactly the running ones whose grant
    the scheduler called expired.  Before the first one it accepts no token. *)
Theorem OnTimerHeartbeat_spec f h call sv kills sv' req resp :
  heartbeat_request f h sv = Ret req → call req = Some resp →
  OnTimerHeartbeat f h call sv = Ret (kills, sv') →
  (∀ token, IsTokenAcceptable token sv' = true ↔ token ∈ hb_tokens resp) ∧
  (∀ k, k ∈ kills ↔ ∃ id p d, tasks_ (executor sv) !! id = Some p ∧
     desc_heap (executor sv) !! p = Some d ∧ is_running d = true ∧
     grant_id d ∈ hb_expired_tasks resp ∧ k = - pid d) ∧
  (∀ token location ex c, IsTokenAcceptable token (DaemonServiceImpl_init location ex c) = false).
Proof.
  intros Hr Hcall. unfold OnTimerHeartbeat. rewrite Hr. cbn. rewrite Hcall. intros [= <- <-].
  split_and!.
  - intros token. unfold IsTokenAcceptable. rewrite Verify_elem. cbn. apply elem_of_list_to_set.
  - intros k. unfold KillExpiredTasks. rewrite list_elem_of_bind. split.
    + intros ([id d] & Hk & Hd). unfold descs in Hd.
      apply list_elem_of_omap in Hd as ([id' p] & Hm & Hd). cbn in Hd.
      destruct (desc_heap _ !! p) as [d'|] eqn:D; [|done]. injection Hd as <- <-. cbn in Hk.
      apply elem_of_map_to_list in Hm. unfold KillTask in Hk.
      destruct (is_running d') eqn:X; [|by apply elem_of_nil in Hk].
      destruct (bool_decide_reflect (grant_id d' ∈ (list_to_set (hb_expired_tasks resp) : gset Z)))
        as [G|]; [|by apply elem_of_nil in Hk].
      apply list_elem_of_singleton in Hk. apply elem_of_list_to_set in G. eauto 10.
    + intros (id & p & d & Hp & Hd & X & G & ->). exists (id, d). cbn. split.
      * rewrite X, bool_decide_true by (by apply elem_of_list_to_set). unfold KillTask. rewrite X.
        by apply list_elem_of_singleton.
      * unfold descs. apply list_elem_of_omap. exists (id, p).
        rewrite elem_of_map_to_list. cbn. by rewrite Hd.
  - intros token location ex c. unfold IsTokenAcceptable, Verify. cbn.
    apply bool_decide_eq_false, not_elem_of_empty.
Qed.
End service.

(** * Witnesses *)

Definition demo_hash (s : string) : string := "h".
Definition demo_executor : Executor CxxCompileTask bool := {|
  exiting_ := false; next_task_id_ := 1; running_tasks_ := 0; max_concurrency_ := 2;
  min_memory_ := 0; task_ran_sum_ := 0; tasks_ := ∅; waitpid_semaphore_ := 0;
  desc_heap := ∅; next_dptr := 0%nat |}.
Definition demo_compilers : Compilers := {|
  compilers_ := [{| compiler_digest := "gcc" |}];
  compiler_paths_ := {[ "gcc" := "/usr/bin/gcc" ]} |}.
Definition demo_daemon : DaemonServiceImpl (E := bool) :=
  UpdateTokens {[ "t" ]} (DaemonServiceImpl_init "10.0.0.2:80" demo_executor demo_compilers).
Definition demo_queue : QueueCxxTaskRequest := {|
  qct_token := "t"; qct_task_grant_id := 7; qct_env_desc := {| compiler_digest := "gcc" |};
  qct_source_path := "a.cc"; qct_args := "-c -x c++ -"; qct_compress_type := COMPRESS_TYPE_ZSTD;
  qct_fill_cache := false |}.
Definition demo_flags : DaemonFlags := {|
  FLAGS_scheduler_token := "nieyang"; FLAGS_servant_priority := "user"; FLAGS_chunk_size := 4 |}.
Definition demo_load : HostLoad := {|
  avail_memory := 0; total_memory := 0; num_cpu_cores := 2; current_load := 0 |}.
Definition demo_files : TempFiles := {| tf_stdin := Some 4096; tf_out := true; tf_err := true |}.
Definition demo_busy : DaemonServiceImpl (E := bool) :=
  match QueueCxxTask (E := bool) demo_hash Some Some "/tmp/w" 10 demo_files 77 0
          (stream_of demo_queue ["int ";"x;"]) demo_daemon with
  | Ret (_, _, sv) => sv
  | _ => demo_daemon
  end.
Definition demo_wait : WaitForTaskRequest := {|
  wft_token := "t"; wft_task_id := 1; wft_wait_ms := 0; wft_version := 1;
  wft_acceptable_compress_types := [COMPRESS_TYPE_ZSTD] |}.


Lemma WaitForTask_reply_witness :
  ∃ ex', WaitForTask demo_flags demo_wait (λ ex, ex) demo_busy
    = Ret (Proto.NOT_FOUND, None, with_executor ex' demo_busy).
Proof.
  eexists.
  refine (proj1 (WaitForTask_reply demo_flags demo_wait demo_busy _ None Running _ _ _ _ _));
    [vm_compute; reflexivity|reflexivity|vm_compute; reflexivity|done|done].
Defined.

Lemma OnTimerHeartbeat_spec_witness :
  ∃ kills sv', OnTimerHeartbeat demo_hash demo_flags demo_load
      (λ _, Some {| hb_tokens := ["u"]; hb_expired_tasks := [7] |}) demo_busy = Ret (kills, sv') ∧
    (IsTokenAcceptable "u" sv' = true ↔ "u" ∈ ["u"]).
Proof.
  do 2 eexists. split; [vm_compute; reflexivity|].
  refine (proj1 (OnTimerHeartbeat_spec demo_hash demo_flags demo_load
    (λ _, Some {| hb_tokens := ["u"]; hb_expired_tasks := [7] |}) demo_busy _ _ _
    {| hb_tokens := ["u"]; hb_expired_tasks := [7] |} _ _ _) "u");
    [vm_compute; reflexivity|reflexivity|vm_compute; reflexivity].
Defined.
