(* ===== verification/GrantKeeper.v ===== *)
(** The grants of the user-side daemon: src/distribuild/daemon/local/task_grant_keeper.{h,cpp}.

    A keeper has an entry per environment, with a queue of grants, the threads that wait for
    one and a fetcher thread that asks the scheduler.  The threads are program counters
    ([Caller], [Fetcher]); [step] has one transition for what a thread does while it holds a
    mutex.  Only [Stop] changes what a fetcher tests without holding the fetcher's mutex, so
    the fetcher has a state between its test and its sleep ([F_block]); everything else that
    holds the mutex of an entry is one transition, and none of them is enabled in that state.

    A trace records where the grants come from and go to.  [keeper_invariant] holds in every
    reachable state. *)
From S2P Require Import Prelude Text Proto.

Module Grants.

Record GrantDesc := { expire_tp : Z; grant_id : Z; location : string }.

(** A thread of [GrantFetcherProc]: at the head of its loop; about to test its condition;
    found nothing to do and about to sleep, with the mutex; asleep; in the call to the
    scheduler; ended; or never started. *)
Inductive Fetcher :=
  | F_top
  | F_test
  | F_block
  | F_asleep
  | F_call (req : WaitForStaringTaskRequest)
  | F_ended
  | F_none.

Record EnvGrantKeeper := {
  env_desc : EnviromentDesc;
  waiters : Z;                       (* uint32 *)
  remaining : list GrantDesc;        (* a queue, front first *)
  fetcher : Fetcher
}.

Definition with_state (w : Z) (r : list GrantDesc) (k : EnvGrantKeeper) : EnvGrantKeeper :=
  {| env_desc := env_desc k; waiters := w; remaining := r; fetcher := fetcher k |}.
Definition with_fetcher (f : Fetcher) (k : EnvGrantKeeper) : EnvGrantKeeper :=
  {| env_desc := env_desc k; waiters := waiters k; remaining := remaining k; fetcher := f |}.

(** [need_more_cv.notify_all()] *)
Definition notify_need_more (k : EnvGrantKeeper) : EnvGrantKeeper :=
  match fetcher k with F_asleep => with_fetcher F_test k | _ => k end.

(** A thread in [Get]: it has its entry, or waits for a grant. *)
Inductive Caller := C_found (digest : string) | C_waiting (digest : string).

Record TaskGrantKeeper := {
  leaving_ : bool;
  keepers_ : gmap string EnvGrantKeeper;
  callers : gmap nat Caller
}.

Definition TaskGrantKeeper_init : TaskGrantKeeper :=
  {| leaving_ := false; keepers_ := ∅; callers := ∅ |}.

Definition with_env (digest : string) (e : EnvGrantKeeper) (k : TaskGrantKeeper) : TaskGrantKeeper :=
  {| leaving_ := leaving_ k; keepers_ := <[digest := e]> (keepers_ k); callers := callers k |}.
Definition with_callers (c : gmap nat Caller) (k : TaskGrantKeeper) : TaskGrantKeeper :=
  {| leaving_ := leaving_ k; keepers_ := keepers_ k; callers := c |}.

(** ** Get *)

(** The entry for an environment, created when it is new.  [started] is whether the task
    manager has a thread for the fetcher; without one its [start] throws, and the entry stays
    in the map. *)
Definition Get_keeper (started : bool) (desc : EnviromentDesc) (k : TaskGrantKeeper)
    : outcome () * TaskGrantKeeper :=
  let digest := compiler_digest desc in
  match keepers_ k !! digest with
  | Some _ => (Ret (), k)
  | None =>
    let e := {| env_desc := desc; waiters := 0; remaining := [];
                fetcher := if started then F_top else F_none |} in
    (if started then Ret () else Throw "NoThreadAvailableException", with_env digest e k)
  end.

(** The loop that pops expired grants from the front; it reads the clock for each. *)
Fixpoint drop_expired (now : nat → Z) (l : list GrantDesc) : list GrantDesc * list GrantDesc :=
  match l with
  | [] => ([], [])
  | g :: l' =>
    if expire_tp g <? now O
    then let '(dropped, rest) := drop_expired (λ i, now (S i)) l' in (g :: dropped, rest)
    else ([], l)
  end.

(** [Get] with the mutex of its entry up to its wait: what it drops, and the grant it has at
    once; without one the thread waits and the fetcher is notified. *)
Definition Get_begin (now : nat → Z) (e : EnvGrantKeeper)
    : list GrantDesc * option GrantDesc * EnvGrantKeeper :=
  match drop_expired now (remaining e) with
  | (dropped, g :: rest) => (dropped, Some g, with_state (waiters e) rest e)
  | (dropped, []) =>
    (dropped, None, notify_need_more (with_state (u32 (waiters e + 1)) [] e))
  end.

(** [Get] behind its wait, which ends when [remaining] is not empty or at the time out.  The
    check that no other thread waits only logs. *)
Definition Get_end (e : EnvGrantKeeper) : option GrantDesc * EnvGrantKeeper :=
  match remaining e with
  | [] => (None, with_state (u32 (waiters e - 1)) [] e)
  | g :: rest => (Some g, with_state (u32 (waiters e - 1)) rest e)
  end.

(** ** GrantFetcherProc *)

Definition kMaxWait : Z := secs 5.
Definition kNetworkDelayTolerance : Z := secs 5.
Definition kExpiresIn : Z := secs 15.

Definition fetch_request (token : string) (version : Z) (e : EnvGrantKeeper)
    : WaitForStaringTaskRequest := {|
  wst_token := token;
  wst_mills_to_wait := kMaxWait / ms 1;
  wst_env_desc := env_desc e;
  wst_immeadiate_reqs := waiters e;
  wst_prefetch_reqs := 1;
  wst_next_keep_alive_in_ms := kExpiresIn / ms 1;
  wst_min_version := version |}.

(** The grants of the response are queued; [now] reads the clock for each. *)
Definition new_grants (now : nat → Z) (grants : list StartingTaskGrant) : list GrantDesc :=
  imap (λ i g, {| expire_tp := now i + kMaxWait - kNetworkDelayTolerance;
                  grant_id := grant_task_grant_id g;
                  location := grant_servant_location g |}) grants.

(** What the fetcher does next on its own; [None] when it waits for something. *)
Definition fetcher_step (token : string) (version : Z) (leaving : bool) (e : EnvGrantKeeper)
    : option EnvGrantKeeper :=
  match fetcher e with
  | F_top => Some (with_fetcher (if leaving then F_ended else F_test) e)
  | F_test =>
    Some (with_fetcher
      (if leaving then F_ended
       else if decide (remaining e = []) then F_call (fetch_request token version e)
       else F_block) e)
  | F_block => Some (with_fetcher F_asleep e)
  | F_asleep | F_call _ | F_ended | F_none => None
  end.

(** The scheduler answers, with the grants or with an error ([None]). *)
Definition fetch_answer (now : nat → Z) (answer : option (list StartingTaskGrant))
    (e : EnvGrantKeeper) : EnvGrantKeeper :=
  with_fetcher F_top
    (if answer is Some grants
     then with_state (waiters e) (remaining e ++ new_grants now grants) e else e).

(** ** Stop and Free *)

Definition Stop (k : TaskGrantKeeper) : TaskGrantKeeper :=
  {| leaving_ := true; keepers_ := notify_need_more <$> keepers_ k; callers := callers k |}.

(** What [Free] sends, without waiting for an answer. *)
Definition free_request (token : string) (grant : Z) : FreeTaskRequst :=
  {| ftr_token := token; ftr_task_grant_ids := [grant] |}.

(** ** Interleaving *)

Inductive Event :=
  | E_in (digest : string) (g : GrantDesc)             (* came from the scheduler *)
  | E_dropped (digest : string) (g : GrantDesc)
  | E_handed (digest : string) (thread : nat) (g : GrantDesc).

Definition mutex_free (e : EnvGrantKeeper) : Prop := fetcher e ≠ F_block.

Section steps.
Context (token : string) (version : Z).

(** What [thread] gets, if it gets one. *)
Definition handed_event (digest : string) (thread : nat) (r : option GrantDesc) : list Event :=
  if r is Some g then [E_handed digest thread g] else [].

Inductive step : TaskGrantKeeper → list Event → TaskGrantKeeper → Prop :=
  | step_keeper thread started desc k r k' :
      callers k !! thread = None → Get_keeper started desc k = (r, k') →
      step k [] (if r is Ret _
                 then with_callers (<[thread := C_found (compiler_digest desc)]> (callers k')) k'
                 else k')
  | step_begin thread digest now k e dropped r e' :
      callers k !! thread = Some (C_found digest) → keepers_ k !! digest = Some e →
      mutex_free e → Get_begin now e = (dropped, r, e') →
      step k ((E_dropped digest <$> dropped) ++ handed_event digest thread r)
        (with_callers (if r is Some _ then delete thread (callers k)
                       else <[thread := C_waiting digest]> (callers k)) (with_env digest e' k))
  | step_end thread digest k e r e' :
      callers k !! thread = Some (C_waiting digest) → keepers_ k !! digest = Some e →
      mutex_free e → Get_end e = (r, e') →
      step k (handed_event digest thread r)
        (with_callers (delete thread (callers k)) (with_env digest e' k))
  | step_fetcher digest k e e' :
      keepers_ k !! digest = Some e → fetcher_step token version (leaving_ k) e = Some e' →
      step k [] (with_env digest e' k)
  | step_wakeup digest k e :                           (* a spurious one *)
      keepers_ k !! digest = Some e → fetcher e = F_asleep →
      step k [] (with_env digest (with_fetcher F_test e) k)
  | step_answer digest now answer k e req :
      keepers_ k !! digest = Some e → fetcher e = F_call req →
      step k (E_in digest <$> new_grants now (default [] answer))
        (with_env digest (fetch_answer now answer e) k)
  | step_stop k : step k [] (Stop k).

Inductive reachable : TaskGrantKeeper → list Event → Prop :=
  | reach_init : reachable TaskGrantKeeper_init []
  | reach_step k trace evs k' : reachable k trace → step k evs k' → reachable k' (trace ++ evs).
End steps.

(** * Theory *)

(** ** Single operations *)

Lemma drop_expired_spec now l :
  let '(dropped, rest) := drop_expired now l in
  l = dropped ++ rest ∧ (∀ i g, dropped !! i = Some g → expire_tp g < now i) ∧
  match rest with [] => True | g :: _ => now (length dropped) ≤ expire_tp g end.
Proof.
  revert now; induction l as [|g l IH]; intros now; [done|]. cbn.
  destruct (Z.ltb_spec (expire_tp g) (now O)) as [Hg|Hg]; [|by split_and!].
  specialize (IH (λ i, now (S i))). destruct (drop_expired _ l) as [dropped rest].
  destruct IH as (-> & Hd & Hr). split; [done|]. split; [|done].
  intros [|i] x Hx; cbn in Hx; [by injection Hx as <-|]. by apply Hd.
Qed.

(** [Get] hands out the oldest grant that has not expired and drops exactly the expired ones
    in front of it, by the clock of each; without one it becomes a waiter and wakes the
    fetcher. *)
Theorem Get_begin_spec now e :
  let '(dropped, r, e') := Get_begin now e in
  remaining e = dropped ++ (if r is Some g then [g] else []) ++ remaining e' ∧
  (∀ i g, dropped !! i = Some g → expire_tp g < now i) ∧ env_desc e' = env_desc e ∧
  match r with
  | Some g => now (length dropped) ≤ expire_tp g ∧ waiters e' = waiters e ∧ fetcher e' = fetcher e
  | None => remaining e' = [] ∧ waiters e' = u32 (waiters e + 1) ∧ fetcher e' ≠ F_asleep
  end.
Proof.
  unfold Get_begin. pose proof (drop_expired_spec now (remaining e)) as D.
  destruct (drop_expired now (remaining e)) as [dropped [|g rest]]; destruct D as (E & Hd & Hr).
  - unfold notify_need_more. cbn. destruct (fetcher e) eqn:F; cbn; rewrite ?F; by split_and!.
  - by split_and!.
Qed.

Lemma Get_end_spec e :
  let '(r, e') := Get_end e in
  remaining e = (if r is Some g then [g] else []) ++ remaining e' ∧
  (r = None ↔ remaining e = []) ∧ env_desc e' = env_desc e ∧
  waiters e' = u32 (waiters e - 1) ∧ fetcher e' = fetcher e.
Proof. unfold Get_end. destruct (remaining e) as [|g rest]; by split_and!. Qed.

Lemma fetcher_step_same token version leaving e e' :
  fetcher_step token version leaving e = Some e' →
  env_desc e' = env_desc e ∧ waiters e' = waiters e ∧ remaining e' = remaining e.
Proof. unfold fetcher_step. by destruct (fetcher e); intros [= <-]. Qed.

Lemma fetch_answer_remaining now answer e :
  remaining (fetch_answer now answer e) = remaining e ++ new_grants now (default [] answer).
Proof. destruct answer; cbn; [done|]. by rewrite app_nil_r. Qed.

Lemma notify_same e :
  env_desc (notify_need_more e) = env_desc e ∧ waiters (notify_need_more e) = waiters e ∧
  remaining (notify_need_more e) = remaining e.
Proof. unfold notify_need_more. by destruct (fetcher e). Qed.

(** ** The invariant *)

Definition arrived (digest : string) (trace : list Event) : list GrantDesc :=
  omap (λ ev, match ev with
              | E_in d g => if decide (d = digest) then Some g else None
              | _ => None
              end) trace.
Definition departed (digest : string) (trace : list Event) : list GrantDesc :=
  omap (λ ev, match ev with
              | E_dropped d g | E_handed d _ g => if decide (d = digest) then Some g else None
              | _ => None
              end) trace.

Definition queue (k : TaskGrantKeeper) (digest : string) : list GrantDesc :=
  if keepers_ k !! digest is Some e then remaining e else [].

Definition digest_of (c : Caller) : string :=
  match c with C_found d | C_waiting d => d end.
Definition waits_for (digest : string) (c : Caller) : bool :=
  match c with C_waiting d => String.eqb d digest | C_found _ => false end.
Definition waiting (k : TaskGrantKeeper) (digest : string) : Z :=
  Z.of_nat (count_where (waits_for digest) (callers k)).

(** Per environment: the grants that came are, in this order, those that went and those that
    are left; [waiters] is the number of threads that wait; a call to the scheduler asks for
    the environment. *)
Record env_ok (k : TaskGrantKeeper) (digest : string) (e : EnvGrantKeeper) : Prop := {
  ok_waiters : waiters e = u32 (waiting k digest);
  ok_desc : compiler_digest (env_desc e) = digest;
  ok_call req : fetcher e = F_call req → wst_env_desc req = env_desc e
}.

Record inv (k : TaskGrantKeeper) (trace : list Event) : Prop := {
  inv_queue digest : arrived digest trace = departed digest trace ++ queue k digest;
  inv_env digest e : keepers_ k !! digest = Some e → env_ok k digest e;
  inv_known thread c : callers k !! thread = Some c → is_Some (keepers_ k !! digest_of c)
}.

Lemma arrived_app digest t1 t2 : arrived digest (t1 ++ t2) = arrived digest t1 ++ arrived digest t2.
Proof. apply omap_app. Qed.
Lemma departed_app digest t1 t2 :
  departed digest (t1 ++ t2) = departed digest t1 ++ departed digest t2.
Proof. apply omap_app. Qed.

Lemma arrived_in digest d l : arrived digest (E_in d <$> l) = if decide (d = digest) then l else [].
Proof.
  induction l as [|g l IH]; cbn; [by case_decide|]. unfold arrived in IH.
  case_decide; cbn; by rewrite IH.
Qed.
Lemma departed_in digest d l : departed digest (E_in d <$> l) = [].
Proof. by induction l. Qed.
Lemma departed_dropped digest d l :
  departed digest (E_dropped d <$> l) = if decide (d = digest) then l else [].
Proof.
  induction l as [|g l IH]; cbn; [by case_decide|]. unfold departed in IH.
  case_decide; cbn; by rewrite IH.
Qed.
Lemma arrived_dropped digest d l : arrived digest (E_dropped d <$> l) = [].
Proof. by induction l. Qed.
Lemma departed_handed digest d t r :
  departed digest (handed_event d t r) =
  if decide (d = digest) then (if r is Some g then [g] else []) else [].
Proof. destruct r; cbn; by case_decide. Qed.
Lemma arrived_handed digest d t r : arrived digest (handed_event d t r) = [].
Proof. by destruct r. Qed.

Lemma queue_with_env digest d e k c :
  queue (with_callers c (with_env d e k)) digest =
  if decide (d = digest) then remaining e else queue k digest.
Proof.
  unfold queue. cbn. case_decide as D; [by rewrite D, lookup_insert_eq|by rewrite lookup_insert_ne].
Qed.

Section reach.
Context (token : string) (version : Z).

Abbreviation step := (step token version).
Abbreviation reachable := (reachable token version).

(** A new entry for [d], other callers: what is to show of the changed entry alone. *)
Lemma inv_update k trace evs d e e' c :
  inv k trace → keepers_ k !! d = Some e →
  (∀ digest, d ≠ digest → arrived digest evs = [] ∧ departed digest evs = []) →
  remaining e ++ arrived d evs = departed d evs ++ remaining e' →
  env_desc e' = env_desc e →
  waiters e' = u32 (Z.of_nat (count_where (waits_for d) c)) →
  (∀ req, fetcher e' = F_call req → wst_env_desc req = env_desc e) →
  (∀ digest, d ≠ digest → count_where (waits_for digest) c =
                          count_where (waits_for digest) (callers k)) →
  (∀ thread x, c !! thread = Some x → digest_of x = d ∨ callers k !! thread = Some x) →
  inv (with_callers c (with_env d e' k)) (trace ++ evs).
Proof.
  intros [Iq Ie Ik] Hd Hevs Hrem Hdesc Hw Hcall Hcount Hc. split.
  - intros digest. rewrite arrived_app, departed_app, queue_with_env, Iq. case_decide as D.
    + subst digest. unfold queue. by rewrite Hd, <- !app_assoc, Hrem.
    + destruct (Hevs digest D) as [-> ->]. by rewrite !app_nil_r.
  - intros digest x. cbn. rewrite lookup_insert_Some. intros [[<- <-]|[Hne Hx]].
    + destruct (Ie d e Hd) as [_ H2 _]. split; [done|by rewrite Hdesc|]. rewrite Hdesc. apply Hcall.
    + destruct (Ie digest x Hx) as [H1 H2 H3]. split; [|done..]. rewrite H1. unfold waiting. cbn.
      by rewrite Hcount.
  - intros thread x Hx. cbn in *. rewrite lookup_insert_is_Some.
    destruct (decide (d = digest_of x)); [by left|right]. split; [done|].
    destruct (Hc thread x Hx) as [<-|Hk]; [done|]. by eapply Ik.
Qed.

Lemma u32_add_l a b : u32 (u32 a + b) = u32 (a + b).
Proof. unfold u32. apply Z.add_mod_idemp_l. lia. Qed.

Lemma waits_for_self d : waits_for d (C_waiting d) = true.
Proof. apply String.eqb_refl. Qed.
Lemma waits_for_ne d digest : d ≠ digest → waits_for digest (C_waiting d) = false.
Proof. apply String.eqb_neq. Qed.

Lemma with_callers_id k : with_callers (callers k) k = k.
Proof. by destruct k. Qed.

Lemma inv_new k trace desc f :
  inv k trace → keepers_ k !! compiler_digest desc = None → (∀ req, f ≠ F_call req) →
  inv (with_env (compiler_digest desc)
         {| env_desc := desc; waiters := 0; remaining := []; fetcher := f |} k) trace.
Proof.
  intros [Iq Ie Ik] Hn Hf. set (d := compiler_digest desc) in *. split.
  - intros digest. rewrite Iq. f_equal.
    rewrite <- (with_callers_id (with_env d _ k)), queue_with_env. case_decide as D; [|done].
    subst digest. unfold queue. by rewrite Hn.
  - intros digest x. cbn. rewrite lookup_insert_Some. intros [[<- <-]|[Hne Hx]].
    + split; cbn; [|done|intros req E; by apply Hf in E]. unfold waiting. cbn.
      rewrite count_where_0; [done|]. intros t c Hc. destruct c as [d'|d']; [done|].
      destruct (decide (d' = d)) as [->|Hne]; [|by apply waits_for_ne].
      apply Ik in Hc. cbn in Hc. rewrite Hn in Hc. by destruct Hc.
    + destruct (Ie digest x Hx) as [H1 H2 H3]. by split.
  - intros thread c Hc. cbn in *. rewrite lookup_insert_is_Some'. right. by eapply Ik.
Qed.

Lemma inv_found k trace thread d :
  inv k trace → is_Some (keepers_ k !! d) → callers k !! thread = None →
  inv (with_callers (<[thread := C_found d]> (callers k)) k) trace.
Proof.
  intros [Iq Ie Ik] Hd Ht. split.
  - exact Iq.
  - intros digest x Hx. destruct (Ie digest x Hx) as [H1 H2 H3]. split; [|done..].
    rewrite H1. unfold waiting. cbn. by rewrite count_where_insert.
  - intros t c. cbn. rewrite lookup_insert_Some. intros [[<- <-]|[_ Hc]]; [done|]. by eapply Ik.
Qed.

Lemma inv_keeper k trace thread started desc r k' :
  inv k trace → callers k !! thread = None → Get_keeper started desc k = (r, k') →
  inv (if r is Ret _ then with_callers (<[thread := C_found (compiler_digest desc)]> (callers k')) k'
       else k') trace.
Proof.
  intros I Ht. unfold Get_keeper. destruct (keepers_ k !! compiler_digest desc) as [e|] eqn:Hk.
  - intros [= <- <-]. apply inv_found; [done|by rewrite Hk|done].
  - intros [= <- <-]. assert (I' := inv_new k trace desc (if started then F_top else F_none) I Hk).
    destruct started; [|by apply I'].
    apply inv_found; [by apply I'| |done]. cbn. rewrite lookup_insert_eq. eauto.
Qed.

Lemma inv_begin k trace thread d now e dropped r e' :
  inv k trace → callers k !! thread = Some (C_found d) → keepers_ k !! d = Some e →
  Get_begin now e = (dropped, r, e') →
  inv (with_callers (if r is Some _ then delete thread (callers k)
                     else <[thread := C_waiting d]> (callers k)) (with_env d e' k))
      (trace ++ (E_dropped d <$> dropped) ++ handed_event d thread r).
Proof.
  intros I Ht Hd Hg. pose proof (Get_begin_spec now e) as G. rewrite Hg in G.
  destruct G as (Hrem & _ & Hdesc & Hr). pose proof (inv_env _ _ I d e Hd) as [Hw Hdig Hcall].
  pose proof (count_where_delete (waits_for d) (callers k) thread _ Ht) as Hc. cbn in Hc.
  assert (Hc' : ∀ digest, count_where (waits_for digest) (delete thread (callers k)) =
                          count_where (waits_for digest) (callers k)).
  { intros digest. by rewrite (count_where_delete (waits_for digest) (callers k) thread _ Ht). }
  apply (inv_update k trace _ d e e'); [done|done| | |done| | | |].
  - intros digest Hne. rewrite arrived_app, departed_app, arrived_dropped, arrived_handed,
      departed_dropped, departed_handed. by rewrite !decide_False.
  - rewrite arrived_app, departed_app, arrived_dropped, arrived_handed, departed_dropped,
      departed_handed, !decide_True by done. by rewrite app_nil_r, Hrem, <- !app_assoc.
  - destruct r as [g|]; destruct Hr as (? & Hw' & _).
    + by rewrite Hc', Hw', Hw.
    + rewrite Hw', Hw, u32_add_l. f_equal. unfold waiting.
      rewrite <- insert_delete_eq, count_where_insert by apply lookup_delete_eq.
      rewrite waits_for_self, Hc'. lia.
  - intros req E. apply Hcall. destruct r as [g|]; [by destruct Hr as (_ & _ & <-)|].
    revert Hg E. unfold Get_begin. destruct (drop_expired now (remaining e)) as [? [|]]; [|done].
    intros [= _ <-]. unfold notify_need_more, with_state. cbn. by destruct (fetcher e).
  - intros digest Hne. destruct r; [apply Hc'|].
    rewrite <- insert_delete_eq, count_where_insert by apply lookup_delete_eq.
    by rewrite waits_for_ne, Hc'.
  - intros t x. destruct r as [g|].
    + intros [_ H]%lookup_delete_Some. by right.
    + intros [[_ <-]|[_ H]]%lookup_insert_Some; [by left|by right].
Qed.

Lemma inv_end k trace thread d e r e' :
  inv k trace → callers k !! thread = Some (C_waiting d) → keepers_ k !! d = Some e →
  Get_end e = (r, e') →
  inv (with_callers (delete thread (callers k)) (with_env d e' k)) (trace ++ handed_event d thread r).
Proof.
  intros I Ht Hd Hg. pose proof (Get_end_spec e) as G. rewrite Hg in G.
  destruct G as (Hrem & _ & Hdesc & Hw' & Hf). pose proof (inv_env _ _ I d e Hd) as [Hw Hdig Hcall].
  apply (inv_update k trace _ d e e'); [done|done| | |done| | | |].
  - intros digest Hne. by rewrite arrived_handed, departed_handed, decide_False.
  - by rewrite arrived_handed, departed_handed, decide_True, app_nil_r, Hrem.
  - rewrite Hw', Hw. unfold Z.sub. rewrite u32_add_l. f_equal. unfold waiting.
    rewrite (count_where_delete (waits_for d) (callers k) thread _ Ht), waits_for_self. lia.
  - intros req E. apply Hcall. congruence.
  - intros digest Hne.
    by rewrite (count_where_delete (waits_for digest) (callers k) thread _ Ht), waits_for_ne.
  - intros t x [_ H]%lookup_delete_Some. by right.
Qed.

(** A step of a fetcher. *)
Lemma inv_fetch k trace d e e' evs :
  inv k trace → keepers_ k !! d = Some e →
  env_desc e' = env_desc e → waiters e' = waiters e →
  (∃ l, evs = (E_in d <$> l) ∧ remaining e' = remaining e ++ l) →
  (∀ req, fetcher e' = F_call req → wst_env_desc req = env_desc e) →
  inv (with_env d e' k) (trace ++ evs).
Proof.
  intros I Hd Hdesc Hw' (l & -> & Hl) Hcall'.
  pose proof (inv_env _ _ I d e Hd) as [Hw Hdig Hcall].
  rewrite <- (with_callers_id (with_env d e' k)).
  apply (inv_update k trace _ d e e'); try done.
  - intros digest Hne. by rewrite arrived_in, departed_in, decide_False.
  - by rewrite arrived_in, departed_in, decide_True, Hl.
  - by rewrite Hw', Hw.
  - intros t x Hx. by right.
Qed.

Lemma inv_stop k trace : inv k trace → inv (Stop k) trace.
Proof.
  intros [Iq Ie Ik]. split.
  - intros digest. rewrite Iq. f_equal. unfold queue. cbn. rewrite lookup_fmap.
    destruct (keepers_ k !! digest) as [e|]; [|done]. cbn. symmetry. apply notify_same.
  - intros digest x. cbn. rewrite lookup_fmap. intros (e & He & ->)%fmap_Some.
    destruct (Ie digest e He) as [H1 H2 H3], (notify_same e) as (E1 & E2 & E3).
    split; [by rewrite E2|by rewrite E1|]. rewrite E1. intros req. unfold notify_need_more.
    destruct (fetcher e) eqn:F; cbn; rewrite ?F; try done. by intros [= <-]; apply H3.
  - intros t c Hc. cbn. rewrite lookup_fmap, fmap_is_Some. by eapply Ik.
Qed.

Lemma inv_step k trace evs k' : inv k trace → step k evs k' → inv k' (trace ++ evs).
Proof.
  intros I. destruct 1 as [thread started desc k r k' Ht Hg|thread d now k e dropped r e' Ht Hd _ Hg|
    thread d k e r e' Ht Hd _ Hg|d k e e' Hd Hs|d k e Hd Hs|d now answer k e req Hd Hs|k].
  - rewrite app_nil_r. by eapply inv_keeper.
  - by eapply inv_begin.
  - by eapply inv_end.
  - pose proof (fetcher_step_same _ _ _ _ _ Hs) as (H1 & H2 & H3).
    eapply inv_fetch; [done..| |].
    + exists []. by rewrite app_nil_r.
    + intros req E. revert Hs. unfold fetcher_step.
      destruct (fetcher e); intros [= <-]; cbn in *; repeat case_match; try done.
      by injection E as <-.
  - eapply inv_fetch; [done..| |done]. exists []. by rewrite app_nil_r.
  - eapply inv_fetch; [done|done| | | |].
    + by destruct answer.
    + by destruct answer.
    + eexists. split; [done|]. apply fetch_answer_remaining.
    + done.
  - rewrite app_nil_r. by apply inv_stop.
Qed.

Lemma reachable_inv k trace : reachable k trace → inv k trace.
Proof.
  induction 1 as [|k trace evs k' _ IH Hs]; [|by eapply inv_step]. by split.
Qed.

(** C10. In every interleaving of the threads that ask for grants, the fetchers and [Stop]: per
    environment the grants that came from the scheduler are, in their order, those that were
    handed out or dropped and those that are queued, so that no grant is handed out twice; and
    [waiters] is the number of threads that wait. *)
Theorem keeper_invariant k trace :
  reachable k trace →
  (∀ digest, arrived digest trace = departed digest trace ++ queue k digest) ∧
  (∀ digest, NoDup (grant_id <$> arrived digest trace) →
     NoDup (grant_id <$> departed digest trace)) ∧
  (∀ digest e, keepers_ k !! digest = Some e → waiters e = u32 (waiting k digest)).
Proof.
  intros I%reachable_inv. split_and!.
  - apply I.
  - intros digest. rewrite (inv_queue _ _ I), fmap_app. by intros [? _]%NoDup_app.
  - intros digest e He. apply (inv_env _ _ I digest e He).
Qed.

(** A fetcher that calls the scheduler found no grant left, and asks for as many as threads
    wait in its environment, for this environment, and for one in advance. *)
Theorem fetcher_request k trace digest e e' req :
  reachable k trace → keepers_ k !! digest = Some e →
  fetcher_step token version (leaving_ k) e = Some e' → fetcher e' = F_call req →
  leaving_ k = false ∧ remaining e = [] ∧
  wst_token req = token ∧ wst_min_version req = version ∧
  compiler_digest (wst_env_desc req) = digest ∧
  wst_immeadiate_reqs req = u32 (waiting k digest) ∧ wst_prefetch_reqs req = 1 ∧
  wst_mills_to_wait req = 5000 ∧ wst_next_keep_alive_in_ms req = 15000.
Proof.
  intros I%reachable_inv Hd Hs Hr. pose proof (inv_env _ _ I digest e Hd) as [Hw Hdig _].
  revert Hs Hr. unfold fetcher_step.
  destruct (fetcher e); intros [= <-]; cbn; repeat case_match; try done.
  intros [= <-]. by split_and!.
Qed.

(** [Stop] ends a fetcher with its next step, or with the step behind the answer it waits for,
    unless it comes between the fetcher's test and its sleep: that fetcher sleeps on. *)
Theorem Stop_fetcher k digest e :
  keepers_ k !! digest = Some e →
  ∃ e1, keepers_ (Stop k) !! digest = Some e1 ∧ leaving_ (Stop k) = true ∧
  let own := fetcher_step token version true in
  match fetcher e with
  | F_top | F_test | F_asleep => fetcher <$> own e1 = Some F_ended
  | F_call _ => ∀ now answer, fetcher <$> own (fetch_answer now answer e1) = Some F_ended
  | F_block => ∃ e2, own e1 = Some e2 ∧ fetcher e2 = F_asleep ∧ own e2 = None
  | F_ended | F_none => e1 = e
  end.
Proof.
  intros Hd. exists (notify_need_more e). split; [by cbn; rewrite lookup_fmap, Hd|].
  split; [done|]. unfold notify_need_more, fetcher_step. destruct (fetcher e) eqn:F; cbn; rewrite ?F; try done.
  by eexists.
Qed.
End reach.

Definition demo_grants : list StartingTaskGrant :=
  [{| grant_task_grant_id := 7; grant_servant_location := "10.0.0.2:8334" |}].
Definition demo_env : EnviromentDesc := {| compiler_digest := "gcc" |}.
Definition demo_entry (r : list GrantDesc) (w : Z) (f : Fetcher) : EnvGrantKeeper :=
  {| env_desc := demo_env; waiters := w; remaining := r; fetcher := f |}.

(** A run: a thread creates the entry; the fetcher asks before the thread waits, and gets a
    grant. *)
Definition demo_state : TaskGrantKeeper := {|
  leaving_ := false;
  keepers_ := {[ "gcc" := demo_entry (new_grants (λ _, 0) demo_grants) 0 F_block ]};
  callers := {[ 1%nat := C_found "gcc" ]} |}.

Lemma demo_run : reachable "t" 1 demo_state (E_in "gcc" <$> new_grants (λ _, 0) demo_grants).
Proof.
  pose proof (reach_init "t" 1) as H0.
  eapply reach_step in H0 as H1;
    [|eapply (step_keeper "t" 1 1%nat true demo_env); [done|reflexivity]].
  eapply reach_step in H1 as H2; [|eapply (step_fetcher "t" 1 "gcc"); [done|reflexivity]].
  eapply reach_step in H2 as H3; [|eapply (step_fetcher "t" 1 "gcc"); [done|reflexivity]].
  eapply reach_step in H3 as H4;
    [|eapply (step_answer "t" 1 "gcc" (λ _, 0) (Some demo_grants)); [done|reflexivity]].
  eapply reach_step in H4 as H5; [|eapply (step_fetcher "t" 1 "gcc"); [done|reflexivity]].
  eapply reach_step in H5 as H6; [|eapply (step_fetcher "t" 1 "gcc"); [done|reflexivity]].
  exact H6.
Qed.

(** The lost wake-up happens: a fetcher that sleeps although the daemon leaves. *)
Lemma lost_wakeup : ∃ k trace e,
  reachable "t" 1 k trace ∧ leaving_ k = true ∧ keepers_ k !! "gcc" = Some e ∧
  fetcher e = F_asleep ∧ fetcher_step "t" 1 true e = None.
Proof.
  pose proof demo_run as H.
  eapply reach_step in H as H1; [|apply step_stop].
  eapply reach_step in H1 as H2; [|eapply (step_fetcher "t" 1 "gcc"); reflexivity].
  do 3 eexists. split; [exact H2|]. by split_and!.
Qed.

Lemma keeper_invariant_witness :
  ∃ k trace, reachable "t" 1 k trace ∧
    arrived "gcc" trace = departed "gcc" trace ++ queue k "gcc" ∧
    length (departed "gcc" trace) = 1%nat.
Proof.
  pose proof demo_run as H.
  (* the fetcher sleeps, the thread takes the grant *)
  eapply reach_step in H as H1; [|eapply (step_fetcher "t" 1 "gcc"); reflexivity].
  eapply reach_step in H1 as H2;
    [|eapply (step_begin "t" 1 1%nat "gcc" (λ _, 0)); [reflexivity|reflexivity|done|reflexivity]].
  do 2 eexists. split; [exact H2|].
  split; [exact (proj1 (keeper_invariant "t" 1 _ _ H2) "gcc")|done].
Defined.

Lemma fetcher_request_witness :
  ∃ k trace e e' req, reachable "t" 1 k trace ∧ keepers_ k !! "gcc" = Some e ∧
    fetcher_step "t" 1 (leaving_ k) e = Some e' ∧ fetcher e' = F_call req ∧
    wst_immeadiate_reqs req = 1.
Proof.
  pose proof (reach_init "t" 1) as H0.
  eapply reach_step in H0 as H1;
    [|eapply (step_keeper "t" 1 1%nat true demo_env); [done|reflexivity]].
  eapply reach_step in H1 as H2;
    [|eapply (step_begin "t" 1 1%nat "gcc" (λ _, 0)); [done|reflexivity|done|reflexivity]].
  eapply reach_step in H2 as H3; [|eapply (step_fetcher "t" 1 "gcc"); [done|reflexivity]].
  do 2 eexists. exists (demo_entry [] 1 F_test).
  exists (demo_entry [] 1 (F_call (fetch_request "t" 1 (demo_entry [] 1 F_test)))).
  exists (fetch_request "t" 1 (demo_entry [] 1 F_test)).
  split; [exact H3|]. split; [done|]. split; [done|]. split; [done|].
  exact (proj1 (proj2 (proj2 (proj2 (proj2 (proj2
    (fetcher_request "t" 1 _ _ "gcc" (demo_entry [] 1 F_test) _ _ H3 eq_refl eq_refl eq_refl))))))).
Defined.

Lemma Stop_fetcher_witness :
  ∃ e1, keepers_ (Stop (with_env "gcc" (demo_entry [] 0 F_asleep) TaskGrantKeeper_init)) !! "gcc"
        = Some e1 ∧ fetcher <$> fetcher_step "t" 1 true e1 = Some F_ended.
Proof.
  destruct (Stop_fetcher "t" 1 (with_env "gcc" (demo_entry [] 0 F_asleep) TaskGrantKeeper_init)
    "gcc" (demo_entry [] 0 F_asleep) eq_refl) as (e1 & H1 & _ & H2). by exists e1.
Defined.

(** ** Expiry *)

Lemma drop_expired_all now l :
  (∀ i g, l !! i = Some g → expire_tp g < now i) → drop_expired now l = (l, []).
Proof.
  revert now; induction l as [|g l IH]; intros now H; [done|]. cbn.
  rewrite (proj2 (Z.ltb_lt _ _) (H O g eq_refl)).
  rewrite IH; [done|]. intros i x Hx. by apply (H (S i)).
Qed.

(** Grants that were fetched in advance are never used: they expire the moment they arrive,
    so a [Get] at any later time drops all of them and waits, while the scheduler still counts
    them. *)
Theorem prefetched_grants_expire now later grants e :
  (∀ i, now i < later i) → remaining e = [] →
  let '(dropped, r, e') := Get_begin later (fetch_answer now (Some grants) e) in
  dropped = new_grants now grants ∧ r = None ∧ remaining e' = [].
Proof.
  intros Hl Hr. unfold Get_begin. rewrite fetch_answer_remaining, Hr. cbn [default].
  rewrite app_nil_l, drop_expired_all; [split_and!; [done..|]; by apply notify_same|].
  intros i g (s & _ & ->)%list_lookup_imap_Some. cbn.
  specialize (Hl i). unfold kMaxWait, kNetworkDelayTolerance. lia.
Qed.

Lemma prefetched_grants_expire_witness :
  (Get_begin (λ _, 8) (fetch_answer (λ _, 7) (Some demo_grants) (demo_entry [] 0 F_top))).1.2 = None.
Proof.
  exact (proj1 (proj2 (prefetched_grants_expire (λ _, 7) (λ _, 8) demo_grants
    (demo_entry [] 0 F_top) (λ _, eq_refl) eq_refl))).
Defined.
End Grants.
