(* ===== verification/LocalKeepers.v ===== *)
(** The small keepers of the user-side daemon, src/distribuild/daemon/local:
    [TaskRunKeeper] (tasks that run elsewhere), [ConfigKeeper] (the token for the servants),
    [FileCache] (digests of known files) and [TaskMonitor] (how many local tasks may run at
    once).

    A remote call is the answer it gives ([None] when it fails). *)
From S2P Require Import Prelude Text Proto.

(** * task_run_keeper.{h,cpp} *)
Module Runs.

Record TaskDesc := { desc_servant_location : string; desc_servant_task_id : Z }.

Record TaskRunKeeper := {
  running_tasks_ : gmap string TaskDesc;
  last_update_time_ : Z
}.

Definition TaskRunKeeper_init (now : Z) : TaskRunKeeper :=
  {| running_tasks_ := ∅; last_update_time_ := now |}.

Definition TryFindTask (digest : string) (k : TaskRunKeeper) : option TaskDesc :=
  running_tasks_ k !! digest.

(** A later task with the same digest overwrites an earlier one. *)
Definition tasks_map (tasks : list RunningTask) : gmap string TaskDesc :=
  foldl (λ m t, <[task_digest t := {| desc_servant_location := servant_location t;
                                      desc_servant_task_id := servant_task_id t |}]> m) ∅ tasks.

Definition OnTimerRefresh (now : Z) (response : option (list RunningTask)) (k : TaskRunKeeper)
    : TaskRunKeeper :=
  match response with
  | None =>
    if secs 5 <? now - last_update_time_ k
    then {| running_tasks_ := ∅; last_update_time_ := last_update_time_ k |} else k
  | Some tasks => {| running_tasks_ := tasks_map tasks; last_update_time_ := now |}
  end.

Lemma tasks_map_snoc tasks t :
  tasks_map (tasks ++ [t]) =
  <[task_digest t := {| desc_servant_location := servant_location t;
                        desc_servant_task_id := servant_task_id t |}]> (tasks_map tasks).
Proof. unfold tasks_map. by rewrite foldl_app. Qed.

Lemma tasks_map_lookup tasks d x :
  tasks_map tasks !! d = Some x →
  ∃ t, t ∈ tasks ∧ task_digest t = d ∧ desc_servant_location x = servant_location t ∧
       desc_servant_task_id x = servant_task_id t.
Proof.
  induction tasks as [|t tasks IH] using rev_ind; [cbn; by rewrite lookup_empty|].
  rewrite tasks_map_snoc. intros [[<- <-]|[_ H]]%lookup_insert_Some.
  - exists t. split; [|done]. apply elem_of_app. right. by left.
  - apply IH in H as (t' & Ht & H). exists t'. split; [|done]. apply elem_of_app. by left.
Qed.

Lemma tasks_map_found tasks t : t ∈ tasks → is_Some (tasks_map tasks !! task_digest t).
Proof.
  induction tasks as [|t' tasks IH] using rev_ind; [by intros ?%elem_of_nil|].
  rewrite tasks_map_snoc. intros [H| ->%list_elem_of_singleton]%elem_of_app.
  - destruct (decide (task_digest t' = task_digest t)) as [->|]; [rewrite lookup_insert_eq; eauto|].
    rewrite lookup_insert_ne by done. by apply IH.
  - rewrite lookup_insert_eq. eauto.
Qed.

(** After a refresh that the scheduler answers, a digest is found exactly when some
    reported task has it, with that task's servant and id; when the scheduler does
    not answer the old tasks are kept for five seconds and then forgotten. *)
Theorem OnTimerRefresh_spec now k d :
  (∀ tasks,
     (is_Some (TryFindTask d (OnTimerRefresh now (Some tasks) k)) ↔
        ∃ t, t ∈ tasks ∧ task_digest t = d) ∧
     (∀ x, TryFindTask d (OnTimerRefresh now (Some tasks) k) = Some x →
        ∃ t, t ∈ tasks ∧ task_digest t = d ∧ desc_servant_location x = servant_location t ∧
             desc_servant_task_id x = servant_task_id t)) ∧
  TryFindTask d (OnTimerRefresh now None k) =
    (if secs 5 <? now - last_update_time_ k then None else TryFindTask d k).
Proof.
  split.
  - intros tasks. unfold TryFindTask. cbn. split; [split|].
    + intros [x Hx]. apply tasks_map_lookup in Hx as (t & Ht & Hd & _). eauto.
    + intros (t & Ht & <-). by apply tasks_map_found.
    + intros x. apply tasks_map_lookup.
  - unfold TryFindTask. cbn. by destruct (_ <? _); cbn; rewrite ?lookup_empty.
Qed.
End Runs.

(** * config_keeper.{h,cpp} *)
Module Config.
Record ConfigKeeper := { serving_daemon_token_ : string }.

Definition GetServingDaemonToken (k : ConfigKeeper) : string := serving_daemon_token_ k.

Definition OnTimerFetchConfig (response : option string) (k : ConfigKeeper) : ConfigKeeper :=
  match response with
  | None => k
  | Some token => {| serving_daemon_token_ := token |}
  end.
End Config.

(** * file_cache.{h,cpp}

    [Set] changes the map under a shared lock; the model takes calls one after the
    other. *)
Module Files.
Record CacheDesc := { size : Z; mtime : Z; hash : string }.
Record FileCache := { caches_ : gmap string CacheDesc }.

Definition FileCache_init : FileCache := {| caches_ := ∅ |}.

Definition TryGet (path : string) (sz mt : Z) (c : FileCache) : option string :=
  match caches_ c !! path with
  | Some d => if (size d =? sz) && (mtime d =? mt) then Some (hash d) else None
  | None => None
  end.

Definition Set_ (path : string) (sz mt : Z) (h : string) (c : FileCache) : FileCache :=
  {| caches_ := <[path := {| size := sz; mtime := mt; hash := h |}]> (caches_ c) |}.

(** The file cache answers the digest that was set last for a path, and only for
    the same size and modification time; setting one path does not affect others. *)
Theorem Set_TryGet path sz mt h c :
  (∀ sz' mt', TryGet path sz' mt' (Set_ path sz mt h c) =
     if bool_decide (sz' = sz ∧ mt' = mt) then Some h else None) ∧
  (∀ path' sz' mt', path' ≠ path → TryGet path' sz' mt' (Set_ path sz mt h c) = TryGet path' sz' mt' c).
Proof.
  unfold TryGet. cbn. split.
  - intros sz' mt'. rewrite lookup_insert_eq. cbn.
    destruct (Z.eqb_spec sz sz') as [->|], (Z.eqb_spec mt mt') as [->|]; cbn;
      [by rewrite bool_decide_true|rewrite bool_decide_false; [done|intros [? ?]; congruence]..].
  - intros path' sz' mt' Hne. by rewrite lookup_insert_ne.
Qed.
End Files.

(** * task_monitor.{h,cpp} *)
Module Monitor.

Record TaskMonitor := {
  max_heavy_tasks_ : Z;
  max_light_tasks_ : Z;
  heavy_tasks_ : Z;
  light_tasks_ : Z;
  permissions_granted_ : gset Z
}.

(** [max_heavy_tasks_ * 1.5], truncated; the numbers are far below 2^52. *)
Definition TaskMonitor_init (FLAGS_max_concurrency hardware_concurrency : Z) : TaskMonitor :=
  let heavy := if 0 <? FLAGS_max_concurrency then FLAGS_max_concurrency
               else hardware_concurrency in
  {| max_heavy_tasks_ := heavy; max_light_tasks_ := heavy * 3 / 2;
     heavy_tasks_ := 0; light_tasks_ := 0; permissions_granted_ := ∅ |}.

(** The second word of a line, as [ss >> x >> y] reads it. *)
Definition second_word (s : string) : string := (read_word (read_word s).2).1.

(** The lines of a file: [getline] ends at the last newline. *)
Definition lines (content : string) : list string :=
  let l := Split_char content ch_newline true in
  if bool_decide (last l = Some "") then removelast l else l.

Fixpoint find_state (ls : list string) : outcome bool :=
  match ls with
  | [] => Fatal "process not found"
  | str :: ls =>
    if StartWith str "State:" then
      let y := second_word str in
      Ret (negb (String.eqb y "Z") && negb (String.eqb y "x") && negb (String.eqb y "X"))
    else find_state ls
  end.

(** [status]: the content of /proc/<pid>/status, if it can be opened. *)
Definition IsAliveProc (status : option string) : outcome bool :=
  match status with
  | None => Ret false
  | Some content => find_state (lines content)
  end.

(** The predicate of the wait. *)
Definition may_run (lightweight : bool) (m : TaskMonitor) : bool :=
  Z.of_nat (base.size (permissions_granted_ m)) <?
  max_heavy_tasks_ m + (if lightweight then max_light_tasks_ m else 0).

(** [waiter.fetch_add]; the [unique_ptr] that should undo it holds a null pointer, so
    its deleter never runs. *)
Definition count_waiter (lightweight : bool) (m : TaskMonitor) : TaskMonitor := {|
  max_heavy_tasks_ := max_heavy_tasks_ m; max_light_tasks_ := max_light_tasks_ m;
  heavy_tasks_ := if lightweight then heavy_tasks_ m else u64 (heavy_tasks_ m + 1);
  light_tasks_ := if lightweight then u64 (light_tasks_ m + 1) else light_tasks_ m;
  permissions_granted_ := permissions_granted_ m |}.

Definition with_permissions (s : gset Z) (m : TaskMonitor) : TaskMonitor := {|
  max_heavy_tasks_ := max_heavy_tasks_ m; max_light_tasks_ := max_light_tasks_ m;
  heavy_tasks_ := heavy_tasks_ m; light_tasks_ := light_tasks_ m;
  permissions_granted_ := s |}.

(** [WaitForNewTask] in the state [m] in which its wait ends: the predicate decides,
    whether the wait was satisfied or timed out.  Adding a pid again is allowed. *)
Definition WaitForNewTask_end (pid : Z) (lightweight : bool) (m : TaskMonitor) : bool * TaskMonitor :=
  if may_run lightweight m then (true, with_permissions ({[ pid ]} ∪ permissions_granted_ m) m)
  else (false, m).

(** [others] run during the wait. *)
Definition WaitForNewTask (pid : Z) (lightweight : bool) (others : TaskMonitor → TaskMonitor)
    (m : TaskMonitor) : bool * TaskMonitor :=
  let m := count_waiter lightweight m in
  if may_run lightweight m then WaitForNewTask_end pid lightweight m
  else WaitForNewTask_end pid lightweight (others m).

(** The flag is whether the waiters are notified. *)
Definition DropTask (pid : Z) (m : TaskMonitor) : TaskMonitor * bool :=
  if decide (pid ∈ permissions_granted_ m)
  then (with_permissions (permissions_granted_ m ∖ {[ pid ]}) m, true)
  else (m, false).

(** The processes that are gone are removed; [proc] is the file of each. *)
Fixpoint check_alive (proc : Z → option string) (pids : list Z) (granted : gset Z)
    : outcome (gset Z) :=
  match pids with
  | [] => Ret granted
  | pid :: pids =>
    alive ← IsAliveProc (proc pid);
    check_alive proc pids (if (alive : bool) then granted else granted ∖ {[ pid ]})
  end.

Definition OnTimerCheckAliveProc (proc : Z → option string) (m : TaskMonitor)
    : outcome TaskMonitor :=
  granted ← check_alive proc (elements (permissions_granted_ m)) (permissions_granted_ m);
  Ret (with_permissions granted m).

(** ** Theory *)

Inductive step (m : TaskMonitor) : TaskMonitor → Prop :=
  | step_count light : step m (count_waiter light m)
  | step_wait pid light : step m (WaitForNewTask_end pid light m).2
  | step_drop pid : step m (DropTask pid m).1
  | step_check proc m' : OnTimerCheckAliveProc proc m = Ret m' → step m m'.

Inductive reachable (flag cores : Z) : TaskMonitor → Prop :=
  | reach_init : reachable flag cores (TaskMonitor_init flag cores)
  | reach_step m m' : reachable flag cores m → step m m' → reachable flag cores m'.

Lemma check_alive_sub proc pids g g' : check_alive proc pids g = Ret g' → g' ⊆ g.
Proof.
  revert g; induction pids as [|p pids IH]; intros g; cbn; [by intros [= <-]|].
  intros (b & _ & H)%bind_Ret. apply IH in H. destruct b; [done|]. set_solver.
Qed.

(** The local tasks that run with permission never exceed the two limits together,
    and a heavy task is only admitted while fewer tasks than the heavy limit run; a
    task that is refused changes no permission. *)
Theorem monitor_limits flag cores m :
  0 ≤ cores → reachable flag cores m →
  Z.of_nat (base.size (permissions_granted_ m)) ≤ max_heavy_tasks_ m + max_light_tasks_ m ∧
  ∀ pid light, match WaitForNewTask_end pid light m with
    | (true, m') => Z.of_nat (base.size (permissions_granted_ m)) <
          max_heavy_tasks_ m + (if light then max_light_tasks_ m else 0) ∧
        permissions_granted_ m' = {[ pid ]} ∪ permissions_granted_ m
    | (false, m') => permissions_granted_ m' = permissions_granted_ m
    end.
Proof.
  intros Hc R. split.
  2: { intros pid light. unfold WaitForNewTask_end, may_run. destruct (Z.ltb_spec (Z.of_nat
         (base.size (permissions_granted_ m)))
         (max_heavy_tasks_ m + (if light then max_light_tasks_ m else 0))); done. }
  assert (P : 0 ≤ max_light_tasks_ m ∧
    Z.of_nat (base.size (permissions_granted_ m)) ≤ max_heavy_tasks_ m + max_light_tasks_ m);
    [|apply P].
  induction R as [|m m' _ IH St].
  - cbn. rewrite size_empty. destruct (Z.ltb_spec 0 flag); split; try apply Z.div_pos; try lia;
      cbn; match goal with |- context [?a / 2] => pose proof (Z.div_pos a 2) end; lia.
  - destruct IH as [H0 IH]. destruct St as [light|pid light|pid|proc m' Hm].
    + by destruct light.
    + unfold WaitForNewTask_end, may_run.
      destruct (Z.ltb_spec (Z.of_nat (base.size (permissions_granted_ m)))
        (max_heavy_tasks_ m + (if light then max_light_tasks_ m else 0))); [|done].
      cbn. split; [done|].
      assert (base.size ({[pid]} ∪ permissions_granted_ m) ≤ 1 + base.size (permissions_granted_ m))%nat.
      { rewrite size_union_alt, size_singleton.
        assert (base.size (permissions_granted_ m ∖ {[pid]}) ≤ base.size (permissions_granted_ m))%nat
          by (apply subseteq_size; set_solver). lia. }
      destruct light; lia.
    + unfold DropTask. destruct (decide _); [|done]. cbn. split; [done|].
      assert (base.size (permissions_granted_ m ∖ {[pid]}) ≤ base.size (permissions_granted_ m))%nat
        by (apply subseteq_size; set_solver). lia.
    + apply bind_Ret in Hm as (g & Hg & [= <-]). cbn. split; [done|].
      apply check_alive_sub, subseteq_size in Hg. lia.
Qed.

Lemma monitor_limits_witness :
  Z.of_nat (base.size (permissions_granted_ (TaskMonitor_init 4 8))) ≤ 10.
Proof. exact (proj1 (monitor_limits 4 8 _ ltac:(done) (reach_init 4 8))). Defined.
End Monitor.
