(* ===== verification/DistTask.v ===== *)
(** The distributed task of the user-side daemon:
    src/distribuild/daemon/local/dist_task.h (the interface the dispatcher works
    with) and src/distribuild/daemon/local/dist_task/cxx_task.{h,cpp} (the compilation
    that implements it).

    blake3 is a parameter.  A streaming call is the answers of its [Write]s and what
    [Finish] makes of the chunks: the task id of the response, or [None] for a status
    that is not ok. *)
From S2P Require Import Prelude Text Proto MultiChunk Stream CloudTask Executor CompileTask.
From S2P Require Import Compilers DaemonService LocalKeepers.

(** * dist_task.h *)

Record DistOutput := {
  do_exit_code : Z;
  do_std_out : string;
  do_std_err : string;
  do_extra_info : option CxxExtraInfo;
  do_output_files : list (string * string)
}.

(** The remote call of [StartTask]. *)
Record QueueCall := {
  call_Write : nat → bool;
  call_Finish : list (Chunk QueueCxxTaskRequest) → option Z
}.

Class DistTask (T : Type) := {
  dt_CacheControl : T → bool;
  dt_CacheKey : T → string;
  dt_GetDigest : T → string;
  dt_GetRequesterPid : T → Z;
  dt_GetEnviromentDesc : T → EnviromentDesc;
  dt_OnCompleted : DistOutput → T → T;
  dt_StartTask : QueueCall → string → Z → T → outcome (option Z * T)
}.

(** * dist_task/cxx_task.{h,cpp} *)

(** http_service.proto *)
Record FileDesc := { fd_path : string; fd_size : Z; fd_mtime : Z }.

Record SubmitCxxTaskRequest := {
  sct_requestor_pid : Z;                (* int32 *)
  sct_source_path : string;
  sct_source_digest : string;
  sct_cache_control : Z;                (* int32 *)
  sct_compiler_args : string;
  sct_compiler : FileDesc
}.

(** [patches] is never filled. *)
Record WaitForCXXTaskResponse := {
  wcr_exit_code : Z;
  wcr_std_out : string;
  wcr_std_err : string;
  wcr_file_extensions : list string
}.

(** The members the constructor leaves uninitialised ([cache_control_],
    [requester_pid_]) are read only after [Prepare]. *)
Record CxxDistTask := {
  d_cache_control : bool;
  d_requester_pid : Z;
  d_env_desc : EnviromentDesc;
  d_source_path : string;
  d_source_digest : string;
  d_args : string;
  d_source : string;
  d_output : WaitForCXXTaskResponse * list string
}.

Definition CxxDistTask_init : CxxDistTask := {|
  d_cache_control := false; d_requester_pid := 0; d_env_desc := {| compiler_digest := "" |};
  d_source_path := ""; d_source_digest := ""; d_args := ""; d_source := "";
  d_output := ({| wcr_exit_code := 0; wcr_std_out := ""; wcr_std_err := "";
                  wcr_file_extensions := [] |}, []) |}.

Definition with_dist_source (s : string) (t : CxxDistTask) : CxxDistTask := {|
  d_cache_control := d_cache_control t; d_requester_pid := d_requester_pid t;
  d_env_desc := d_env_desc t; d_source_path := d_source_path t;
  d_source_digest := d_source_digest t; d_args := d_args t; d_source := s;
  d_output := d_output t |}.

(** [Prepare]: [bytes[0]] of an empty vector is undefined. *)
Definition CxxDistTask_Prepare (files : Files.FileCache) (req : SubmitCxxTaskRequest)
    (bytes : list string) (t : CxxDistTask) : outcome (StatusCode * CxxDistTask) :=
  if (sct_requestor_pid req <=? 1) || String.eqb (sct_source_path req) "" ||
     String.eqb (sct_compiler_args req) "" || String.eqb (sct_source_digest req) ""
  then Ret (INVALID_ARGUMENT, t)
  else
    match Files.TryGet (fd_path (sct_compiler req)) (fd_size (sct_compiler req))
            (fd_mtime (sct_compiler req)) files with
    | None => Ret (INVALID_ARGUMENT, t)
    | Some compiler =>
      match bytes with
      | [] => Undef "index 0 of an empty vector"
      | source :: _ =>
        Ret (Proto.OK, {|
          d_cache_control := negb (sct_cache_control req =? 0);
          d_requester_pid := sct_requestor_pid req;
          d_env_desc := {| compiler_digest := compiler |};
          d_source_path := sct_source_digest req;
          d_source_digest := sct_source_digest req;
          d_args := sct_compiler_args req;
          d_source := source;
          d_output := d_output t |})
      end
    end.

(** The request of the first chunk: the path it sends is the digest. *)
Definition queue_request (token : string) (grant_id : Z) (t : CxxDistTask)
    : QueueCxxTaskRequest := {|
  qct_token := token; qct_task_grant_id := grant_id; qct_env_desc := d_env_desc t;
  qct_source_path := d_source_digest t; qct_args := d_args t;
  qct_compress_type := COMPRESS_TYPE_ZSTD; qct_fill_cache := d_cache_control t |}.

(** [StartTask]: [return false] from a function that returns an
    [optional<uint64_t>] is the id 0. *)
Definition CxxDistTask_StartTask (chunk_size : Z) (call : QueueCall) (token : string)
    (grant_id : Z) (t : CxxDistTask) : outcome (option Z * CxxDistTask) :=
  if negb (call_Write call 0) then Ret (Some 0, t)
  else
    match file_chunks chunk_size (d_source t) with
    | None => Undef "endless loop"
    | Some pieces =>
      if negb (forallb (call_Write call) (seq 1 (length pieces))) then Ret (Some 0, t)
      else Ret (call_Finish call (stream_of (queue_request token grant_id t) pieces),
                with_dist_source "" t)
    end.

(** [RebuildOutput] never fails. *)
Definition RebuildOutput (output : DistOutput) : WaitForCXXTaskResponse * list string :=
  if do_exit_code output <? 0 then
    ({| wcr_exit_code := do_exit_code output; wcr_std_out := do_std_out output;
        wcr_std_err := do_std_err output; wcr_file_extensions := [] |}, [])
  else
    ({| wcr_exit_code := do_exit_code output; wcr_std_out := do_std_out output;
        wcr_std_err := do_std_err output;
        wcr_file_extensions := (do_output_files output).*1 |}, (do_output_files output).*2).

Definition CxxDistTask_OnCompleted (output : DistOutput) (t : CxxDistTask) : CxxDistTask := {|
  d_cache_control := d_cache_control t; d_requester_pid := d_requester_pid t;
  d_env_desc := d_env_desc t; d_source_path := d_source_path t;
  d_source_digest := d_source_digest t; d_args := d_args t; d_source := d_source t;
  d_output := RebuildOutput output |}.

Definition CxxDistTask_GetOutput (t : CxxDistTask) : option (WaitForCXXTaskResponse * list string) :=
  Some (d_output t).

Section task.
Context (blake3 : string → string) (chunk_size : Z).

Definition dist_digest (t : CxxDistTask) : string :=
  EncodeHex (blake3 (compiler_digest (d_env_desc t) +:+ d_args t +:+ d_source_digest t)) false.

Definition CxxDistTask_CacheKey (t : CxxDistTask) : string :=
  "distribuild-cxx-cache-" +:+ dist_digest t.

Definition CxxDistTask_GetDigest (t : CxxDistTask) : string :=
  "distribuild-cxx-digest-" +:+ dist_digest t.

#[export] Instance cxx_dist_task : DistTask CxxDistTask := {|
  dt_CacheControl := d_cache_control;
  dt_CacheKey := CxxDistTask_CacheKey;
  dt_GetDigest := CxxDistTask_GetDigest;
  dt_GetRequesterPid := d_requester_pid;
  dt_GetEnviromentDesc := d_env_desc;
  dt_OnCompleted := CxxDistTask_OnCompleted;
  dt_StartTask := CxxDistTask_StartTask chunk_size |}.
End task.

(** * Theory *)

(** A task queued with [Prepare] has the digest the sender computed, when the sender's
    source digest is the hash of the source. *)
Lemma Prepare_digest blake3 ZSTDDecompress c token grant f t ct ct' :
  Prepare blake3 ZSTDDecompress c (queue_request token grant t) f ct = (OK, ct') →
  d_source_digest t = EncodeHex (blake3 (source_ ct')) false →
  digest_of blake3 ct' = dist_digest blake3 t.
Proof.
  intros (k & _ & _ & _ & E1 & E2 & E3 & _)%Prepare_OK Hd.
  unfold digest_of, dist_digest. by rewrite E1, E2, E3, <- Hd.
Qed.

Lemma StartTask_sent chunk_size call token grant t :
  0 < chunk_size → ssize (d_source t) + chunk_size < 2 ^ 64 → (∀ i, call_Write call i = true) →
  ∃ pieces, sconcat pieces = d_source t ∧
    CxxDistTask_StartTask chunk_size call token grant t =
      Ret (call_Finish call (stream_of (queue_request token grant t) pieces),
           with_dist_source "" t).
Proof.
  intros Hc Hs Hw. unfold CxxDistTask_StartTask. rewrite Hw. cbn [negb].
  destruct (file_chunks_ok chunk_size (d_source t) Hc Hs) as (pieces & -> & Ep & _).
  exists pieces. split; [done|]. rewrite (proj2 (forallb_forall _ _)); [done|]. intros i _. apply Hw.
Qed.

Section distribute.
Context {E : Type} `{PocoEvent E}.
Context (blake3 : string → string) (ZSTDCompress ZSTDDecompress : string → option string).

#[local] Instance servant_task : CloudTask.Task CxxCompileTask :=
  cxx_compile_task blake3 ZSTDCompress.

(** The servant's side of the call: what its handler answers to the chunks. *)
Definition servant_answer (dir : string) (mem : Z) (tmp : TempFiles) (new_pid now : Z) (sv : DaemonServiceImpl (E := E))
    (chunks : list (Chunk QueueCxxTaskRequest)) : option Z :=
  match QueueCxxTask blake3 ZSTDCompress ZSTDDecompress dir mem tmp new_pid now chunks sv with
  | Ret (Proto.OK, id, _) => id
  | _ => None
  end.

(** What the servant makes of the chunks of such a call when it can take the task. *)
Lemma servant_takes token grant t pieces dir mem tmp new_pid now (sv : DaemonServiceImpl (E := E))
    compiler source next :
  sconcat pieces = d_source t → IsTokenAcceptable token sv = true →
  TryGetPath (compilers sv) (d_env_desc t) = Some compiler →
  ZSTDDecompress (d_source t) = Some source →
  TryStartingNewTaskUnsafe mem (executor sv) = (Some (next_task_id_ (executor sv)), next) →
  whole_input tmp source →
  ∃ ct ex l,
    Prepare blake3 ZSTDDecompress (Some compiler) (queue_request token grant t) (d_source t)
      (CxxCompileTask_init dir) = (OK, ct) ∧
    TryQueueTask mem tmp new_pid now grant ct (executor sv)
      = (Ret (Some (next_task_id_ (executor sv), l)), ex) ∧
    launch_cmd l = cmdline_ ct ∧ launch_stdin l = source ∧ source_ ct = source ∧
    QueueCxxTask blake3 ZSTDCompress ZSTDDecompress dir mem tmp new_pid now
      (stream_of (queue_request token grant t) pieces) sv
    = Ret (OK, Some (next_task_id_ (executor sv)), with_executor ex sv).
Proof.
  intros Ep Ht Hp Hz Hn Hw. unfold QueueCxxTask. rewrite receive_stream.
  cbn [qct_token queue_request]. rewrite Ht, Ep.
  change (qct_env_desc (queue_request token grant t)) with (d_env_desc t). rewrite Hp.
  destruct (Prepare _ _ _ _ _ _) as [st ct] eqn:P.
  assert (st = OK) as -> by (revert P; unfold Prepare; cbn; rewrite Hz; by intros [= <- _]).
  rewrite bool_decide_true by done. cbn [negb].
  change (qct_task_grant_id (queue_request token grant t)) with grant.
  assert (Es : source_ ct = source).
  { apply Prepare_OK in P as (_ & _ & _ & Z & _). rewrite Hz in Z. by injection Z. }
  destruct (TryQueueTask _ _ _ _ _ _ _) as [r ex] eqn:Q.
  assert (r = Ret (Some (next_task_id_ (executor sv),
    {| launch_cmd := cmdline_ ct; launch_stdin := source |}))) as ->.
  { revert Q. unfold TryQueueTask. rewrite Hn. cbn. rewrite Es, stdin_whole by done.
    by intros [= <- _]. }
  exists ct, ex. eexists. by split_and!.
Qed.

(** A task the user-side daemon sends to a servant that accepts its token, has its
    compiler, has room and can write its input file is queued there: the servant starts that compiler, with the
    arguments of the task, on exactly the source the client compressed, under the
    grant; and both sides compute the same digest for it, so that other daemons
    find it, provided that the client hashed what it compressed. *)
Theorem StartTask_reaches_servant chunk_size call token grant t dir mem tmp new_pid now sv
    compiler source next :
  0 < chunk_size → ssize (d_source t) + chunk_size < 2 ^ 64 →
  (∀ i, call_Write call i = true) →
  call_Finish call = servant_answer dir mem tmp new_pid now sv →
  IsTokenAcceptable token sv = true →
  TryGetPath (compilers sv) (d_env_desc t) = Some compiler →
  ZSTDDecompress (d_source t) = Some source →
  TryStartingNewTaskUnsafe mem (executor sv) = (Some (next_task_id_ (executor sv)), next) →
  whole_input tmp source →
  ∃ pieces id sv' p d,
    CxxDistTask_StartTask chunk_size call token grant t = Ret (Some id, with_dist_source "" t) ∧
    QueueCxxTask blake3 ZSTDCompress ZSTDDecompress dir mem tmp new_pid now
      (stream_of (queue_request token grant t) pieces) sv = Ret (OK, Some id, sv') ∧
    tasks_ (executor sv') !! id = Some p ∧ desc_heap (executor sv') !! p = Some d ∧
    grant_id d = grant ∧
    StartWith (cmd d) (compiler +:+ " " +:+ d_args t +:+ " -o ") = true ∧
    ∃ ct, task d = Some (CompileTask.with_source "" ct) ∧ source_ ct = source ∧
    (d_source_digest t = EncodeHex (blake3 source) false →
       CompileTask.GetDigest blake3 (CompileTask.with_source "" ct) =
       CxxDistTask_GetDigest blake3 t).
Proof.
  intros Hc Hs Hw Hf Ht Hp Hz Hn Hwi.
  destruct (StartTask_sent chunk_size call token grant t Hc Hs Hw) as (pieces & Ep & ->).
  destruct (servant_takes token grant t pieces dir mem tmp new_pid now sv compiler source next)
    as (ct & ex & l & P & Q & _ & _ & _ & R); [done..|].
  pose proof (Prepare_OK _ _ _ _ _ _ _ P) as (k & [= <-] & _ & Z & _ & _ & _ & Hcmd).
  rewrite Hz in Z. injection Z as Z.
  apply TryQueueTask_Some in Q as (_ & _ & p & d & Hq & Hd & Hg & _ & _ & Hk & Hcm).
  exists pieces, (next_task_id_ (executor sv)), (with_executor ex sv), p, d.
  rewrite Hf. unfold servant_answer. rewrite R. split_and!; try done.
  - rewrite Hcm, Hcmd. apply StartWith_iff. eexists. by rewrite !sapp_assoc.
  - exists ct. split; [done|]. split; [done|]. rewrite Z. intros D. unfold CompileTask.GetDigest, CxxDistTask_GetDigest.
    by rewrite <- (Prepare_digest _ _ _ _ _ _ _ _ _ P D).
Qed.
End distribute.

(** A failed [Write] of the request or of the file makes [StartTask] answer the task
    id 0 instead of no task, whatever the servant says; the source is kept. *)
Theorem StartTask_write_failure chunk_size call token grant t pieces :
  file_chunks chunk_size (d_source t) = Some pieces →
  (∃ i, (i ≤ length pieces)%nat ∧ call_Write call i = false) →
  CxxDistTask_StartTask chunk_size call token grant t = Ret (Some 0, t).
Proof.
  intros Hp (i & Hi & Hf). unfold CxxDistTask_StartTask.
  destruct (call_Write call 0) eqn:W0; [|done]. cbn [negb]. rewrite Hp.
  destruct (forallb _ _) eqn:F; [|done]. exfalso.
  rewrite forallb_forall in F. destruct i as [|i]; [congruence|].
  rewrite (F (S i)) in Hf; [done|]. apply in_seq. lia.
Qed.

(** A submission is accepted exactly when its fields are set, the requester is a real
    process and the digest of the compiler, of that size and time, is known; the
    task then carries the request, and asks for a cache fill unless the control is 0.
    A request that was preprocessed without a digest (caching disallowed) is
    refused. *)
Theorem CxxDistTask_Prepare_spec files req source bytes t :
  ∃ st t', CxxDistTask_Prepare files req (source :: bytes) t = Ret (st, t') ∧
  let compiler := Files.TryGet (fd_path (sct_compiler req)) (fd_size (sct_compiler req))
                    (fd_mtime (sct_compiler req)) files in
  (st = OK ↔ 1 < sct_requestor_pid req ∧ sct_source_path req ≠ "" ∧
     sct_compiler_args req ≠ "" ∧ sct_source_digest req ≠ "" ∧ is_Some compiler) ∧
  (st ≠ OK → st = INVALID_ARGUMENT ∧ t' = t) ∧
  (st = OK → compiler = Some (compiler_digest (d_env_desc t')) ∧ d_source t' = source ∧
     d_args t' = sct_compiler_args req ∧ d_source_digest t' = sct_source_digest req ∧
     d_requester_pid t' = sct_requestor_pid req ∧
     (d_cache_control t' = true ↔ sct_cache_control req ≠ 0)).
Proof.
  unfold CxxDistTask_Prepare. cbv zeta.
  destruct (Z.leb_spec (sct_requestor_pid req) 1);
    [|destruct (String.eqb_spec (sct_source_path req) "");
      [|destruct (String.eqb_spec (sct_compiler_args req) "");
        [|destruct (String.eqb_spec (sct_source_digest req) "");
          [|destruct (Files.TryGet _ _ _ files) as [c|]]]]]; cbn [orb];
    do 2 eexists; (split; [reflexivity|]).
  5: { split_and!; [split; [intros _; split_and!; done|done]|done|].
       intros _. split_and!; try done. cbn.
       destruct (Z.eqb_spec (sct_cache_control req) 0); cbn; [split; [done|tauto]|done]. }
  all: split_and!; [split; [done|]|done..]; try tauto; try lia.
  intros (_ & _ & _ & _ & [? [=]]).
Qed.

(** * Witnesses *)

Definition demo_dist : CxxDistTask := {|
  d_cache_control := false; d_requester_pid := 5; d_env_desc := {| compiler_digest := "gcc" |};
  d_source_path := "h"; d_source_digest := "68"; d_args := "-c -x c++ -"; d_source := "int x;";
  d_output := d_output CxxDistTask_init |}.
Definition demo_call (w : bool) : QueueCall := {|
  call_Write := λ _, w;
  call_Finish := servant_answer (E := bool) demo_hash Some Some "/tmp/w" 10 demo_files 77 0 demo_daemon |}.

Lemma StartTask_reaches_servant_witness :
  ∃ id, CxxDistTask_StartTask 4 (demo_call true) "t" 7 demo_dist
    = Ret (Some id, with_dist_source "" demo_dist).
Proof.
  destruct (StartTask_reaches_servant (E := bool) demo_hash Some Some 4 (demo_call true) "t" 7 demo_dist
    "/tmp/w" 10 demo_files 77 0 demo_daemon "/usr/bin/gcc" "int x;"
    (TryStartingNewTaskUnsafe 10 (executor demo_daemon)).2)
    as (_ & id & _ & _ & _ & H & _); try (vm_compute; reflexivity).
  { split; [exists 4096; split; [reflexivity|vm_compute; discriminate]|by split]. }
  by exists id.
Defined.

Lemma StartTask_write_failure_witness :
  CxxDistTask_StartTask 4 (demo_call false) "t" 7 demo_dist = Ret (Some 0, demo_dist).
Proof.
  apply (StartTask_write_failure 4 (demo_call false) "t" 7 demo_dist ["int ";"x;"]);
    [vm_compute; reflexivity|exists O; split; [lia|reflexivity]].
Defined.
