(* ===== verification/CacheClient.v ===== *)
(** The clients of the cache server: src/distribuild/daemon/local/cache_reader.{h,cpp}
    (with src/distribuild/daemon/bloom_filter.h) and
    src/distribuild/daemon/cloud/cache_writer.{h,cpp}.

    A remote call is the answers it gives. *)
From S2P Require Import Prelude Text Proto Token MultiChunk Stream CompileTask CacheData.
From S2P Require Import CacheService.

(** * bloom_filter.h: the filter that is empty for ever *)

Definition BloomFilter : Type := unit.
Definition BloomFilter_Add (key : string) (b : BloomFilter) : BloomFilter := b.
Definition PossiblyContains (key : string) (b : BloomFilter) : bool := false.

(** * cache_reader.cpp *)

(** [stub_] is whether there is a stub; clocks are in nanoseconds. *)
Record CacheReader := {
  stub_ : bool;
  last_bf_update_ : Z;
  last_bf_full_update_ : Z;
  bloom_filter_ : BloomFilter
}.

(** cache.proto *)
Record FetchBloomFilterRequest := {
  fbf_token : string;
  fbf_secs_last_fetch : Z;              (* uint32 *)
  fbf_secs_last_full_fetch : Z          (* uint32 *)
}.
Record FetchBloomFilterResponse := {
  fbf_incremental : bool;
  fbf_newly_populated_keys : list string
}.

Definition bloom_request (token : string) (now : Z) (c : CacheReader) : FetchBloomFilterRequest :=
  if last_bf_full_update_ c =? 0
  then {| fbf_token := token; fbf_secs_last_fetch := 0x7fffffff;
          fbf_secs_last_full_fetch := 0x7fffffff |}
  else {| fbf_token := token;
          fbf_secs_last_fetch := u32 (Z.quot (now - last_bf_update_ c) (secs 1));
          fbf_secs_last_full_fetch := u32 (Z.quot (now - last_bf_full_update_ c) (secs 1)) |}.

(** [call]: the remote call, [None] for a status that is not ok. *)
Definition OnTimerLoadBloomFilter (token : string)
    (call : FetchBloomFilterRequest → option FetchBloomFilterResponse) (now : Z)
    (c : CacheReader) : CacheReader :=
  match call (bloom_request token now c) with
  | None => c
  | Some resp =>
    if fbf_incremental resp then {|
      stub_ := stub_ c; last_bf_update_ := now; last_bf_full_update_ := last_bf_full_update_ c;
      bloom_filter_ := foldl (λ b e, BloomFilter_Add e b) (bloom_filter_ c)
                         (fbf_newly_populated_keys resp) |}
    else {|
      stub_ := stub_ c; last_bf_update_ := now; last_bf_full_update_ := now;
      bloom_filter_ := bloom_filter_ c |}
  end.

(** The constructor; [now] is the clock of the first load, [later] that of the two
    assignments behind it. *)
Definition CacheReader_init (FLAGS_cache_server_location token : string)
    (call : FetchBloomFilterRequest → option FetchBloomFilterResponse) (now later : Z)
    : CacheReader :=
  let c := {| stub_ := false; last_bf_update_ := 0; last_bf_full_update_ := 0;
              bloom_filter_ := tt |} in
  if String.eqb FLAGS_cache_server_location "" then c
  else
    let c := {| stub_ := true; last_bf_update_ := 0; last_bf_full_update_ := 0;
                bloom_filter_ := tt |} in
    let c := OnTimerLoadBloomFilter token call now c in
    {| stub_ := stub_ c; last_bf_update_ := later; last_bf_full_update_ := later;
       bloom_filter_ := bloom_filter_ c |}.

(** [TryRead] returns before it looks at anything; the rest of its body is dead. *)
Definition TryRead (key : string) (c : CacheReader) : option CacheEntry := None.

Section reader.
Context (blake3 : string → string) (ZSTDDecompress : string → option string).
Context (ParseFromString : string → option CacheMeta).

(** The part of the dead code that asks the server; [call]: the status and the chunks of the
    answer. *)
Definition read_entry (token : string) (call : TryGetEntryRequest → StatusCode * list string)
    (key : string) : outcome (option CacheEntry) :=
  let '(status, chunks) := call {| get_token := token; get_key := key |} in
  match status with
  | Proto.OK => TryParseCacheEntry blake3 ZSTDDecompress ParseFromString (sconcat chunks)
  | _ => Ret None
  end.

(** All of the dead code, cache_reader.cpp:43-84, which no run reaches. *)
Definition TryRead_dead (token : string) (call : TryGetEntryRequest → StatusCode * list string)
    (now : Z) (key : string) (c : CacheReader) : outcome (option CacheEntry) :=
  if negb (stub_ c) then Ret None
  else if (now + minutes 10 <? last_bf_update_ c) || negb (PossiblyContains key (bloom_filter_ c))
  then Ret None
  else read_entry token call key.
End reader.

(** * cache_writer.cpp *)

(** The streaming call: the answers of [Write] and the status of [Finish], which may
    depend on the chunks. *)
Record PutCall := {
  put_writer : bool;
  put_Write : nat → bool;
  put_Finish : list (Chunk PutEntryRequest) → StatusCode
}.

(** [promise::set_value] of a satisfied promise throws. *)
Definition set_value (v : bool) (p : option bool) : option bool * outcome () :=
  match p with
  | None => (Some v, Ret ())
  | Some _ => (p, Throw "std::future_error")
  end.

(** The writes of the file: each failure sets the promise and goes on. *)
Fixpoint write_pieces (call : PutCall) (i : nat) (pieces : list string) (p : option bool)
    : option bool * outcome () :=
  match pieces with
  | [] => (p, Ret ())
  | _ :: pieces =>
    if put_Write call i then write_pieces call (S i) pieces p
    else
      let '(p, r) := set_value false p in
      match r with
      | Ret _ => write_pieces call (S i) pieces p
      | _ => (p, r)
      end
  end.

(** [WriteCacheDataPocoTask::runTask]: what the promise holds in the end, and how the
    task ended.  A null writer is used all the same. *)
Definition write_cache_data (chunk_size : Z) (token : string) (call : option PutCall)
    (key data : string) : option bool * outcome () :=
  match call with
  | None => (None, Undef "null stub")
  | Some call =>
    if negb (put_writer call) then (Some false, Undef "null writer")
    else
      let request := {| put_token := token; put_key := key |} in
      let '(p, r) := if put_Write call 0 then (None, Ret ()) else set_value false None in
      match file_chunks chunk_size data with
      | None => (p, Undef "endless loop")
      | Some pieces =>
        let '(p, r) := write_pieces call 1 pieces p in
        match r with
        | Ret _ =>
          let '(p, r) := if bool_decide (put_Finish call (stream_of request pieces) = Proto.OK)
                         then (p, Ret ()) else set_value false p in
          match r with
          | Ret _ => set_value true p
          | _ => (p, r)
          end
        | _ => (p, r)
        end
      end
  end.

Section writer.
Context (blake3 : string → string) (ZSTDCompress : string → option string).
Context (SerializeAsString : CacheMeta → string).

(** [AsyncWrite]: the data a [WriteCacheDataPocoTask] is started with, if one is.  A
    missing stub is only logged. *)
Definition AsyncWrite (entry : CacheEntry) : option string :=
  if negb (entry_exit_code entry =? 0) then None
  else TryMakeCacheData blake3 ZSTDCompress SerializeAsString entry.
End writer.

(** * Theory *)

Lemma write_pieces_all call i pieces p :
  (∀ j, (i ≤ j < i + length pieces)%nat → put_Write call j = true) →
  write_pieces call i pieces p = (p, Ret ()).
Proof.
  revert i; induction pieces as [|x pieces IH]; intros i Hw; [done|]. cbn in *.
  rewrite Hw by lia. apply IH. intros j Hj. apply Hw. lia.
Qed.

Lemma write_pieces_cases call i pieces p :
  p = None ∨ p = Some false →
  (write_pieces call i pieces p = (p, Ret ()) ∧
     ∀ j, (i ≤ j < i + length pieces)%nat → put_Write call j = true) ∨
  ((∃ r, write_pieces call i pieces p = (Some false, r) ∧
      (r = Ret () ∨ r = Throw "std::future_error")) ∧
     ∃ j, (i ≤ j < i + length pieces)%nat ∧ put_Write call j = false).
Proof.
  revert i p; induction pieces as [|x pieces IH]; intros i p Hp.
  { left. split; [done|]. cbn. lia. }
  cbn. destruct (put_Write call i) eqn:W.
  - destruct (IH (S i) p Hp) as [[E Hw]|[E (j & Hj & F)]].
    + left. split; [done|]. intros j Hj. destruct (decide (j = i)) as [->|]; [done|]. apply Hw. lia.
    + right. split; [done|]. exists j. split; [lia|done].
  - right. split; [|exists i; split; [lia|done]]. destruct Hp as [-> | ->]; cbn; [|eauto].
    destruct (IH (S i) (Some false) (or_intror eq_refl)) as [[-> _]|[E _]]; eauto.
Qed.

(** The future of a write is made ready in every case, once the call could be made;
    it says true exactly when every chunk was written and the server answered ok, and
    the chunks then are the request followed by the data in pieces.  After a failure
    the task ends by throwing, because it sets its promise a second time. *)
Theorem write_cache_data_spec chunk_size token call key data pieces :
  put_writer call = true → file_chunks chunk_size data = Some pieces →
  let request := {| put_token := token; put_key := key |} in
  ∃ b r, write_cache_data chunk_size token (Some call) key data = (Some b, r) ∧
  (b = true ↔ (∀ j, (j ≤ length pieces)%nat → put_Write call j = true) ∧
              put_Finish call (stream_of request pieces) = Proto.OK) ∧
  (b = true → r = Ret ()) ∧ (b = false → r = Throw "std::future_error").
Proof.
  intros Hw Hp request. unfold write_cache_data. rewrite Hw. cbn [negb]. rewrite Hp.
  fold request. destruct (put_Write call 0) eqn:W0.
  - destruct (write_pieces_cases call 1 pieces None (or_introl eq_refl)) as [[-> H]|[(r & -> & H) (j & Hj & F)]].
    + destruct (bool_decide_reflect (put_Finish call (stream_of request pieces) = OK)) as [S|S]; cbn.
      * exists true. eexists. split; [reflexivity|]. split_and!; [|done..].
        split; [|done]. intros _. split; [|done]. intros [|j] Hj; [done|]. apply H. lia.
      * exists false. eexists. split; [reflexivity|]. split_and!; [split; [done|tauto]|done..].
    + exists false, (Throw "std::future_error"). destruct H as [-> | ->]; cbn.
      * split; [by destruct (bool_decide _)|]. split_and!; [|done..].
        split; [done|]. intros [Hall _]. rewrite Hall in F; [done|lia].
      * split; [done|]. split_and!; [|done..].
        split; [done|]. intros [Hall _]. rewrite Hall in F; [done|lia].
  - exists false, (Throw "std::future_error"). cbn.
    destruct (write_pieces_cases call 1 pieces (Some false) (or_intror eq_refl))
      as [[-> _]|[(r & -> & [-> | ->]) _]]; cbn; (split; [by try destruct (bool_decide _)|]);
      (split_and!; [|done..]); split; try done; intros [Hall _];
      (rewrite Hall in W0; [done|lia]).
Qed.

(** What a servant writes for a successful compilation arrives in the cache: the
    server, if it had its engines (CacheService: its constructor makes none), stores, under
    the key, exactly the data that [AsyncWrite] made of the entry, and the future is true; an
    entry with another exit code is not written. *)
Theorem AsyncWrite_stores `{CacheEngine C} blake3 ZSTDCompress SerializeAsString chunk_size token
    entry key data (sv : CacheServiceImpl C) l1 l2 call :
  AsyncWrite blake3 ZSTDCompress SerializeAsString entry = Some data →
  L1_cache_ sv = Some l1 → L2_cache_ sv = Some l2 →
  Verify (servant_token_verifier_ sv) token = true →
  0 < chunk_size → ssize data + chunk_size < 2 ^ 64 →
  put_writer call = true → (∀ i, put_Write call i = true) →
  (∀ chunks, put_Finish call chunks =
     if PutEntry chunks sv is Ret (st, _) then st else UNAVAILABLE) →
  entry_exit_code entry = 0 ∧
  write_cache_data chunk_size token (Some call) key data = (Some true, Ret ()) ∧
  ∃ chunks sv', PutEntry chunks sv = Ret (OK, sv') ∧
    L1_cache_ sv' = Some (engine_Put l1 key data) ∧ L2_cache_ sv' = Some (engine_Put l2 key data).
Proof.
  intros Ha H1 H2 Hv Hc Hs Hw HW HF.
  destruct (file_chunks_ok chunk_size data Hc Hs) as (pieces & Hp & Ep & _).
  assert (HP : ∃ sv', PutEntry (stream_of {| put_token := token; put_key := key |} pieces) sv
      = Ret (OK, sv') ∧ L1_cache_ sv' = Some (engine_Put l1 key data) ∧
        L2_cache_ sv' = Some (engine_Put l2 key data)).
  { unfold PutEntry. rewrite receive_stream. cbn [put_token]. rewrite Hv, Ep. cbn.
    rewrite H1, H2. cbn. by eexists. }
  destruct HP as (sv' & HP & HL). split; [|split].
  - unfold AsyncWrite in Ha. by destruct (Z.eqb_spec (entry_exit_code entry) 0).
  - unfold write_cache_data. rewrite Hw. cbn [negb]. rewrite HW, Hp.
    rewrite write_pieces_all by (intros; apply HW). rewrite HF, HP.
    by rewrite bool_decide_true.
  - eauto.
Qed.

(** Nothing is ever asked for: [TryRead] returns first, and what follows its [return] would
    find a filter that is empty for ever. *)
Lemma reader_never_asks blake3 ZSTDDecompress ParseFromString token call now key c :
  TryRead key c = None ∧
  TryRead_dead blake3 ZSTDDecompress ParseFromString token call now key c = Ret None.
Proof.
  split; [done|]. unfold TryRead_dead, PossiblyContains.
  destruct (stub_ c); [|done]. cbn. by rewrite orb_true_r.
Qed.

Definition demo_put (ok : bool) : PutCall := {|
  put_writer := true; put_Write := λ i, ok;
  put_Finish := λ chunks, if PutEntry chunks demo_service is Ret (st, _) then st else UNAVAILABLE |}.

Lemma write_cache_data_spec_witness :
  ∃ b r, write_cache_data 2 "s" (Some (demo_put false)) "k" "abc" = (Some b, r) ∧ b = false.
Proof.
  destruct (write_cache_data_spec 2 "s" (demo_put false) "k" "abc" ["ab"; "c"] eq_refl eq_refl)
    as (b & r & E & Hb & _).
  exists b, r. split; [exact E|]. destruct b; [|reflexivity].
  destruct (proj1 Hb eq_refl) as [H _]. discriminate (H O (Nat.le_0_l _)).
Defined.

Lemma AsyncWrite_stores_witness :
  write_cache_data 2 "s" (Some (demo_put true)) "k" "Zd" = (Some true, Ret ()).
Proof.
  refine (proj1 (proj2 (AsyncWrite_stores (λ _, "") (λ _, Some "Zd") (λ _, "m") 2 "s"
    {| entry_exit_code := 0; entry_std_out := ""; entry_std_err := ""; entry_extra_info := None;
       entry_packed := "d" |} "k" "Zd" demo_service ∅ ∅ (demo_put true) _ _ _ _ _ _ _ _ _)));
    try (vm_compute; reflexivity); reflexivity.
Defined.
