(* ===== verification/LocalDispatch.v ===== *)
(** The dispatcher of the user-side daemon:
    src/distribuild/daemon/local/task_dispatcher.{h,cpp}.

    [TaskDesc]s are shared by the map of tasks, the thread that performs the task and
    the threads in [WaitForTask], so they live on a heap.  The thread of a task is a
    program counter with the local variables of [PerformTask] and of what it calls;
    the code between two remote calls is one transition.  Threads, timers and calls
    interleave at will.

    What the other components and the remote ends answer is the record [World]; the
    remote calls whose answer is not used are in the list of effects.  The calls [AddTaskRef]
    and [FreeTask] have no deadline: when one does not come back, the thread has no next
    step ([comes_back]).  An exception
    that leaves [PerformTask] runs the deferred completion like a return does, and
    [Poco::Task] catches it.  Output that was moved from is not read again and is
    left as it was. *)
From S2P Require Import Prelude Text Proto MultiChunk Stream CloudTask CompileTask.
From S2P Require Import DaemonService GrantKeeper LocalKeepers DistTask.

Inductive TaskState := Pending | Ready | Dispatched | Done.
Inductive DispWaitStatus := Wait_OK | Wait_Timeout | Wait_NotFound.

#[export] Instance TaskState_eq_dec : EqDecision TaskState.
Proof. solve_decision. Defined.

Abbreviation tptr := nat.

Definition NO_OUTPUT : Z := -114514.
Definition EXIT_FAILED : Z := -125.
Definition kRetries : nat := 5.

(** * Remote calls *)

(** The answer of a [WaitForTask] call: the chunks that were read and whether the
    final status is ok. *)
Record WaitAnswer := { wa_chunks : list (Chunk WaitForTaskResponse); wa_ok : bool }.

Definition default_response : WaitForTaskResponse := {|
  wr_task_status := TASK_STATUS_UNKNOWN; wr_exit_code := 0;
  wr_compress_type := COMPRESS_TYPE_UNKNOWN; wr_err := ""; wr_output := "";
  wr_extra_info := None |}.

(** The loop over the chunks: the last response counts. *)
Fixpoint read_chunks (chunks : list (Chunk WaitForTaskResponse)) (resp : WaitForTaskResponse)
    (file : string) : WaitForTaskResponse * string :=
  match chunks with
  | [] => (resp, file)
  | c :: chunks =>
    read_chunks chunks (if chunk_request c is Some r then r else resp) (file +:+ chunk_file c)
  end.

(** The second [WaitServantTask]: the output, or the code of the error. *)
Definition wait_request (token : string) (servant_task_id : Z) : WaitForTaskRequest := {|
  wft_token := token; wft_task_id := servant_task_id; wft_wait_ms := 2000;
  wft_version := DISTRIBUILD_VERSION; wft_acceptable_compress_types := [COMPRESS_TYPE_ZSTD] |}.

Definition WaitServantTask_call (answer : WaitAnswer) : outcome (option DistOutput * Z) :=
  let '(resp, file) := read_chunks (wa_chunks answer) default_response "" in
  if negb (wa_ok answer) then Ret (None, 1)
  else
    match wr_task_status resp with
    | TASK_STATUS_RUNNING => Ret (None, 2)
    | TASK_STATUS_DONE =>
      let output files := {|
        do_exit_code := wr_exit_code resp; do_std_out := wr_output resp;
        do_std_err := wr_err resp; do_extra_info := wr_extra_info resp;
        do_output_files := files |} in
      if wr_exit_code resp =? 0 then
        files ← TryUnpackFiles file;
        if files is Some files then Ret (Some (output files), 0) else Ret (None, 3)
      else Ret (Some (output []), 0)
    | _ => Ret (None, 3)
    end.

(** What the rest of the world answers during a step of a thread.  [None] and [false] for
    the calls without a deadline: they do not come back.  [Get] throws when the thread of a
    new fetcher cannot be started. *)
Record World := {
  w_now : Z;
  w_token : string;                                   (* [ConfigKeeper] *)
  w_TryRead : string → option CacheEntry;             (* [CacheReader] *)
  w_TryFindTask : string → option Runs.TaskDesc;      (* [TaskRunKeeper] *)
  w_AddTaskRef : string → string → Z → option bool;   (* address, token, task *)
  w_FreeTask : string → string → Z → bool;            (* address, token, task *)
  w_Get : EnviromentDesc → outcome (option Grants.GrantDesc);   (* [TaskGrantKeeper] *)
  w_QueueCxxTask : string → QueueCall;
  w_WaitForTask : string → WaitForTaskRequest → WaitAnswer
}.

Inductive Effect :=
  | FreeServantTask (location token : string) (servant_task_id : Z)
  | FreeGrant (grant_id : Z).                         (* [TaskGrantKeeper::Free] *)

Section dispatcher.
Context {T E : Type} `{DistTask T} `{PocoEvent E}.

(** [task] is null once it has been handed out. *)
Record TaskDesc := {
  state : TaskState;
  completion_event : E;
  task_id : Z;
  task : option T;
  start_deadline : Z;
  aborted : bool;
  output : DistOutput;
  start_tp : Z;
  ready_tp : Z;
  dispatched_tp : Z;
  completed_tp : Z;
  task_grant_id : Z;
  servant_location : string;
  servant_task_id : Z;
  last_keep_alive_tp : Z
}.

Definition no_output : DistOutput := {|
  do_exit_code := 0; do_std_out := ""; do_std_err := ""; do_extra_info := None;
  do_output_files := [] |}.

Definition with_output (o : DistOutput) (d : TaskDesc) : TaskDesc := {|
  state := state d; completion_event := completion_event d; task_id := task_id d;
  task := task d; start_deadline := start_deadline d; aborted := aborted d; output := o;
  start_tp := start_tp d; ready_tp := ready_tp d; dispatched_tp := dispatched_tp d;
  completed_tp := completed_tp d; task_grant_id := task_grant_id d;
  servant_location := servant_location d; servant_task_id := servant_task_id d;
  last_keep_alive_tp := last_keep_alive_tp d |}.
Definition with_aborted (b : bool) (d : TaskDesc) : TaskDesc := {|
  state := state d; completion_event := completion_event d; task_id := task_id d;
  task := task d; start_deadline := start_deadline d; aborted := b; output := output d;
  start_tp := start_tp d; ready_tp := ready_tp d; dispatched_tp := dispatched_tp d;
  completed_tp := completed_tp d; task_grant_id := task_grant_id d;
  servant_location := servant_location d; servant_task_id := servant_task_id d;
  last_keep_alive_tp := last_keep_alive_tp d |}.
Definition with_keep_alive (tp : Z) (d : TaskDesc) : TaskDesc := {|
  state := state d; completion_event := completion_event d; task_id := task_id d;
  task := task d; start_deadline := start_deadline d; aborted := aborted d;
  output := output d; start_tp := start_tp d; ready_tp := ready_tp d;
  dispatched_tp := dispatched_tp d; completed_tp := completed_tp d;
  task_grant_id := task_grant_id d; servant_location := servant_location d;
  servant_task_id := servant_task_id d; last_keep_alive_tp := tp |}.
Definition with_task (t : option T) (e : E) (d : TaskDesc) : TaskDesc := {|
  state := state d; completion_event := e; task_id := task_id d;
  task := t; start_deadline := start_deadline d; aborted := aborted d;
  output := output d; start_tp := start_tp d; ready_tp := ready_tp d;
  dispatched_tp := dispatched_tp d; completed_tp := completed_tp d;
  task_grant_id := task_grant_id d; servant_location := servant_location d;
  servant_task_id := servant_task_id d; last_keep_alive_tp := last_keep_alive_tp d |}.

Definition exit_with (code : Z) (o : DistOutput) : DistOutput := {|
  do_exit_code := code; do_std_out := do_std_out o; do_std_err := do_std_err o;
  do_extra_info := do_extra_info o; do_output_files := do_output_files o |}.

(** * PerformTask *)

(** Where a thread is: the next thing it does. *)
Inductive Pc :=
  | At_start
  | At_cache                                           (* [TryReadCache] *)
  | At_existed                                         (* [TryGetExistedResult] *)
  | At_grant                                           (* the loop of [StartNewServantTask] *)
  | At_submit (g : Grants.GrantDesc)                   (* [StartTask] *)
  | At_wait (fresh : option Grants.GrantDesc) (channel : string) (retries : nat)
                                                       (* the loop of [WaitServantTask] *)
  | At_free (fresh : option Grants.GrantDesc) (channel : string)
                                                       (* [FreeServantTask], then [Free] *)
  | At_finish                                          (* the deferred completion *)
  | At_end.

(** [TryReadCache]: whether the cache had a result. *)
Definition TryReadCache (w : World) (t : T) (d : TaskDesc) : outcome (bool * TaskDesc) :=
  match (if dt_CacheControl t then w_TryRead w (dt_CacheKey t) else None) with
  | None => Ret (false, d)
  | Some entry =>
    files ← TryUnpackFiles (entry_packed entry);
    match files with
    | None => Ret (false, d)
    | Some files =>
      Ret (true, with_output {|
        do_exit_code := 0; do_std_out := entry_std_out entry;
        do_std_err := entry_std_err entry; do_extra_info := entry_extra_info entry;
        do_output_files := files |} d)
    end
  end.

(** [TryGetExistedResult] up to its wait.  The channel is made for the location of the
    task, which is set only afterwards. *)
Definition TryGetExistedResult (w : World) (t : T) (d : TaskDesc) : option (string * TaskDesc) :=
  match w_TryFindTask w (dt_GetDigest t) with
  | None => None
  | Some running =>
    let channel := servant_location d in
    if negb (bool_decide (w_AddTaskRef w channel (w_token w)
                            (Runs.desc_servant_task_id running) = Some true)) then None
    else Some (channel, {|
      state := Dispatched; completion_event := completion_event d; task_id := task_id d;
      task := task d; start_deadline := start_deadline d; aborted := aborted d;
      output := output d; start_tp := start_tp d; ready_tp := w_now w;
      dispatched_tp := w_now w; completed_tp := completed_tp d; task_grant_id := 0;
      servant_location := Runs.desc_servant_location running;
      servant_task_id := Runs.desc_servant_task_id running;
      last_keep_alive_tp := w_now w |})
  end.

(** One turn of the loop that waits for a grant, and what follows it. *)
Definition StartNewServantTask_grant (w : World) (t : T) (d : TaskDesc)
    : outcome (Pc * TaskDesc) :=
  if aborted d then Ret (At_finish, d)
  else
    grant ← w_Get w (dt_GetEnviromentDesc t);
    match grant with
    | None => Ret (At_grant, d)
    | Some g => Ret (At_submit g, {|
        state := Ready; completion_event := completion_event d; task_id := task_id d;
        task := task d; start_deadline := start_deadline d; aborted := aborted d;
        output := output d; start_tp := start_tp d; ready_tp := w_now w;
        dispatched_tp := dispatched_tp d; completed_tp := completed_tp d;
        task_grant_id := Grants.grant_id g; servant_location := Grants.location g;
        servant_task_id := servant_task_id d; last_keep_alive_tp := w_now w |})
    end.

(** The submission to the servant. *)
Definition StartNewServantTask_submit (w : World) (g : Grants.GrantDesc) (t : T) (d : TaskDesc)
    : outcome (Pc * TaskDesc * list Effect) :=
  let channel := servant_location d in
  '(id, t) ← dt_StartTask (w_QueueCxxTask w channel) (w_token w) (Grants.grant_id g) t;
  let d := with_task (Some t) (completion_event d) d in
  match id with
  | None => Ret (At_finish, d, [FreeGrant (Grants.grant_id g)])
  | Some id =>
    Ret (At_wait (Some g) channel kRetries, {|
      state := Dispatched; completion_event := completion_event d; task_id := task_id d;
      task := task d; start_deadline := start_deadline d; aborted := aborted d;
      output := output d; start_tp := start_tp d; ready_tp := ready_tp d;
      dispatched_tp := w_now w; completed_tp := completed_tp d;
      task_grant_id := task_grant_id d; servant_location := servant_location d;
      servant_task_id := id; last_keep_alive_tp := last_keep_alive_tp d |}, [])
  end.

(** One turn of the loop of the first [WaitServantTask].  A task that is still running
    resets the retries and then dereferences the missing output. *)
Definition WaitServantTask (w : World) (fresh : option Grants.GrantDesc) (channel : string)
    (retries : nat) (d : TaskDesc) : outcome (Pc * TaskDesc) :=
  match retries with
  | O => Ret (At_free fresh channel, d)
  | S retries =>
    if aborted d then Ret (At_free fresh channel, d)
    else
      '(first, second) ← WaitServantTask_call
        (w_WaitForTask w channel (wait_request (w_token w) (servant_task_id d)));
      match first with
      | Some o => Ret (At_free fresh channel, with_output o d)
      | None =>
        if second =? 1 then Ret (At_wait fresh channel retries, d)
        else if second =? 3
        then Ret (At_free fresh channel, with_output (exit_with EXIT_FAILED (output d)) d)
        else Undef "dereference of an empty optional"
      end
  end.

(** The deferred function of [PerformTask]. *)
Definition complete (w : World) (t : T) (d : TaskDesc) : TaskDesc := {|
  state := Done; completion_event := event_set (completion_event d); task_id := task_id d;
  task := Some (dt_OnCompleted (output d) t); start_deadline := start_deadline d;
  aborted := aborted d; output := output d; start_tp := start_tp d; ready_tp := ready_tp d;
  dispatched_tp := dispatched_tp d; completed_tp := w_now w;
  task_grant_id := task_grant_id d; servant_location := servant_location d;
  servant_task_id := servant_task_id d; last_keep_alive_tp := last_keep_alive_tp d |}.

(** One step of the thread of a task. *)
Definition perform (w : World) (pc : Pc) (d : TaskDesc) : outcome (Pc * TaskDesc * list Effect) :=
  match task d with
  | None => Undef "null task"
  | Some t =>
    match pc with
    | At_start => Ret (At_cache, with_output (exit_with NO_OUTPUT (output d)) d, [])
    | At_cache =>
      '(hit, d) ← TryReadCache w t d;
      Ret (if (hit : bool) then At_finish else At_existed, d, [])
    | At_existed =>
      match TryGetExistedResult w t d with
      | None => Ret (At_grant, d, [])
      | Some (channel, d) => Ret (At_wait None channel kRetries, d, [])
      end
    | At_grant => '(pc, d) ← StartNewServantTask_grant w t d; Ret (pc, d, [])
    | At_submit g => StartNewServantTask_submit w g t d
    | At_wait fresh channel retries =>
      '(pc, d) ← WaitServantTask w fresh channel retries d; Ret (pc, d, [])
    | At_free fresh channel =>
      Ret (At_finish, d,
           FreeServantTask channel (w_token w) (servant_task_id d) ::
           (if fresh is Some g then [FreeGrant (Grants.grant_id g)] else []))
    | At_finish => Ret (At_end, complete w t d, [])
    | At_end => Ret (At_end, d, [])
    end
  end.

(** The calls without a deadline that the step makes come back. *)
Definition comes_back (w : World) (pc : Pc) (d : TaskDesc) : bool :=
  match pc with
  | At_existed =>
    match task d with
    | Some t =>
      match w_TryFindTask w (dt_GetDigest t) with
      | Some running => bool_decide (is_Some (w_AddTaskRef w (servant_location d) (w_token w)
                                                (Runs.desc_servant_task_id running)))
      | None => true
      end
    | None => true
    end
  | At_free _ channel => w_FreeTask w channel (w_token w) (servant_task_id d)
  | _ => true
  end.

(** With exceptions: the stack is unwound to the deferred function.  [Undef] stands for
    "no next step" too: the thread hangs in its call. *)
Definition perform_step (w : World) (pc : Pc) (d : TaskDesc) : outcome (Pc * TaskDesc * list Effect) :=
  if negb (comes_back w pc d) then Undef "a call that does not come back"
  else
    match perform w pc d with
    | Throw _ => Ret (At_finish, d, [])
    | r => r
    end.

(** * The dispatcher *)

(** [last_id]: the counter of [NextTaskId]; [threads]: the threads of the tasks. *)
Record TaskDispatcher := {
  tasks_ : gmap Z tptr;
  desc_heap : gmap tptr TaskDesc;
  next_ptr : tptr;
  last_id : Z;
  threads : gmap tptr Pc
}.

Definition TaskDispatcher_init : TaskDispatcher :=
  {| tasks_ := ∅; desc_heap := ∅; next_ptr := 0%nat; last_id := 0; threads := ∅ |}.

Definition with_descs (h : gmap tptr TaskDesc) (s : TaskDispatcher) : TaskDispatcher := {|
  tasks_ := tasks_ s; desc_heap := h; next_ptr := next_ptr s; last_id := last_id s;
  threads := threads s |}.
Definition with_tasks (ts : gmap Z tptr) (s : TaskDispatcher) : TaskDispatcher := {|
  tasks_ := ts; desc_heap := desc_heap s; next_ptr := next_ptr s; last_id := last_id s;
  threads := threads s |}.

Definition new_desc (id now deadline : Z) (t : T) : TaskDesc := {|
  state := Pending; completion_event := event_new; task_id := id; task := Some t;
  start_deadline := deadline; aborted := false; output := no_output; start_tp := now;
  ready_tp := 0; dispatched_tp := 0; completed_tp := 0; task_grant_id := 0;
  servant_location := ""; servant_task_id := 0; last_keep_alive_tp := 0 |}.

(** [room]: whether the thread pool has a thread left; if not, [TaskManager::start]
    throws after the task was put in the map. *)
Definition QueueTask (room : bool) (t : T) (now deadline : Z) (s : TaskDispatcher)
    : outcome Z * TaskDispatcher :=
  let id := u64 (last_id s + 1) in
  let p := next_ptr s in
  (if room then Ret id else Throw "Poco::NoThreadAvailableException",
   {| tasks_ := <[id := p]> (tasks_ s); desc_heap := <[p := new_desc id now deadline t]> (desc_heap s);
      next_ptr := S p; last_id := id;
      threads := if room then <[p := At_start]> (threads s) else threads s |}).

(** [WaitForTask] up to its wait. *)
Definition WaitForTask_find (id : Z) (s : TaskDispatcher) : option tptr := tasks_ s !! id.

(** [WaitForTask] from the end of its wait: nothing but the event is looked at between
    the wait and the two locked blocks. *)
Definition WaitForTask_event (id : Z) (p : tptr) (s : TaskDispatcher)
    : outcome (option T * DispWaitStatus * TaskDispatcher) :=
  match desc_heap s !! p with
  | None => Undef "null task"
  | Some d =>
    let '(signalled, e) := event_tryWait (completion_event d) in
    if negb signalled
    then Ret (None, Wait_Timeout, with_descs (<[p := with_task (task d) e d]> (desc_heap s)) s)
    else Ret (task d, Wait_OK,
              with_tasks (delete id (tasks_ s))
                (with_descs (<[p := with_task None e d]> (desc_heap s)) s))
  end.

(** [others]: what happens during the wait. *)
Definition WaitForTask (id : Z) (others : TaskDispatcher → TaskDispatcher) (s : TaskDispatcher)
    : outcome (option T * DispWaitStatus * TaskDispatcher) :=
  match WaitForTask_find id s with
  | None => Ret (None, Wait_NotFound, s)
  | Some p => WaitForTask_event id p (others s)
  end.

(** ** The timers *)

(** A loop over [tasks_] that changes each description on its own. *)
Definition update_tasks (f : TaskDesc → TaskDesc) (s : TaskDispatcher) : TaskDispatcher :=
  with_descs (foldr (λ kp h, alter f kp.2 h) (desc_heap s) (map_to_list (tasks_ s))) s.

Definition timeout_abort (now : Z) (d : TaskDesc) : TaskDesc :=
  if start_deadline d <? now then with_aborted true d else d.

Definition OnTimerTimeoutAbort (now : Z) (s : TaskDispatcher) : TaskDispatcher :=
  update_tasks (timeout_abort now) s.

(** The tests of [OnTimerKeepAlive], in order. *)
Definition in_flight (d : TaskDesc) : bool :=
  negb (bool_decide (state d = Pending) || bool_decide (state d = Done)) && negb (aborted d).
Definition keep_alive_lost (now : Z) (d : TaskDesc) : bool :=
  minutes 1 <? now - last_keep_alive_tp d.

Definition keep_alive_abort (now : Z) (d : TaskDesc) : TaskDesc :=
  if in_flight d && keep_alive_lost now d then with_aborted true d else d.

(** [OnTimerKeepAlive] up to its call: the ids of tasks and grants, in iteration
    order. *)
Definition keep_alive_ids (now : Z) (s : TaskDispatcher) : list (Z * Z) :=
  omap (λ kp, match desc_heap s !! kp.2 with
              | Some d => if in_flight d && negb (keep_alive_lost now d)
                          then Some (task_id d, task_grant_id d) else None
              | None => None
              end) (map_to_list (tasks_ s)).

Definition OnTimerKeepAlive_begin (now : Z) (s : TaskDispatcher) : list (Z * Z) * TaskDispatcher :=
  (keep_alive_ids now s, update_tasks (keep_alive_abort now) s).

Definition keep_alive_request (token : string) (ids : list (Z * Z)) : KeepTaskAliveRequest := {|
  kta_token := token; kta_task_grant_ids := ids.*2; kta_next_keep_alive_in_ms := 10000 |}.

(** The answers are applied to the tasks that are still in the map. *)
Fixpoint apply_statues (now : Z) (ids : list (Z * Z)) (statues : list bool) (s : TaskDispatcher)
    : TaskDispatcher :=
  match ids, statues with
  | (id, _) :: ids, ok :: statues =>
    apply_statues now ids statues
      (if ok : bool then
         match tasks_ s !! id with
         | Some p => with_descs (alter (with_keep_alive now) p (desc_heap s)) s
         | None => s
         end
       else s)
  | _, _ => s
  end.

(** [response]: [None] for a status that is not ok.  No call is made without ids. *)
Definition OnTimerKeepAlive_end (now : Z) (ids : list (Z * Z)) (response : option (list bool))
    (s : TaskDispatcher) : TaskDispatcher :=
  if bool_decide (ids = []) then s
  else
    match response with
    | None => s
    | Some statues =>
      if negb (length statues =? length ids)%nat then s else apply_statues now ids statues s
    end.

(** [alive]: [IsProcAlive].  A description without its task is undefined. *)
Definition killed_abort (alive : Z → bool) (d : TaskDesc) : TaskDesc :=
  if negb (aborted d) && negb (if task d is Some t then alive (dt_GetRequesterPid t) else true)
  then with_aborted true d else d.

Definition OnTimerKilledAbort (alive : Z → bool) (s : TaskDispatcher) : outcome TaskDispatcher :=
  if forallb (λ kp, if desc_heap s !! kp.2 is Some d then aborted d || bool_decide (is_Some (task d))
                    else true) (map_to_list (tasks_ s))
  then Ret (update_tasks (killed_abort alive) s)
  else Undef "null task".

Definition clearable (now : Z) (d : TaskDesc) : bool :=
  bool_decide (state d = Done) && (aborted d || (start_deadline d + minutes 1 <? now)).

Definition OnTimerClear (now : Z) (s : TaskDispatcher) : TaskDispatcher :=
  with_tasks
    (filter (λ kp, (if desc_heap s !! kp.2 is Some d then clearable now d else false) = false)
       (tasks_ s)) s.

(** * The transition system *)

(** The thread of [p] makes a step. *)
Inductive thread_step (p : tptr) (s : TaskDispatcher) : list Effect → TaskDispatcher → Prop :=
  | thread_step_intro w pc d pc' d' effects :
      threads s !! p = Some pc → pc ≠ At_end → desc_heap s !! p = Some d →
      perform_step w pc d = Ret (pc', d', effects) →
      thread_step p s effects {|
        tasks_ := tasks_ s; desc_heap := <[p := d']> (desc_heap s); next_ptr := next_ptr s;
        last_id := last_id s; threads := <[p := pc']> (threads s) |}.

(** Everything else but new tasks. *)
Inductive env_step (s : TaskDispatcher) : TaskDispatcher → Prop :=
  | step_wait id p d r s' :
      (* the waiter found the task earlier *)
      desc_heap s !! p = Some d → task_id d = id →
      WaitForTask_event id p s = Ret (r, s') → env_step s s'
  | step_timeout_abort now : env_step s (OnTimerTimeoutAbort now s)
  | step_keep_alive_begin now : env_step s (OnTimerKeepAlive_begin now s).2
  | step_keep_alive_end now ids response : env_step s (OnTimerKeepAlive_end now ids response s)
  | step_killed_abort alive s' : OnTimerKilledAbort alive s = Ret s' → env_step s s'
  | step_clear now : env_step s (OnTimerClear now s).

(** [n] tasks have been queued. *)
Inductive reachable : Z → TaskDispatcher → Prop :=
  | reachable_init : reachable 0 TaskDispatcher_init
  | reachable_queue n s room t now deadline :
      reachable n s → reachable (n + 1) (QueueTask room t now deadline s).2
  | reachable_thread n s p effects s' :
      reachable n s → thread_step p s effects s' → reachable n s'
  | reachable_env n s s' : reachable n s → env_step s s' → reachable n s'.
End dispatcher.
Arguments TaskDesc : clear implicits.
Arguments TaskDispatcher : clear implicits.
