(* ===== verification/LocalDispatchFacts.v ===== *)
(** The theory of the user-side dispatcher (LocalDispatch): the life of a task, what a
    waiter gets, when a task ends, and what the dispatcher makes of a servant's
    answers. *)
From S2P Require Import Prelude Text Proto MultiChunk Stream CloudTask Executor CompileTask.
From S2P Require Import DaemonService GrantKeeper LocalKeepers DistTask LocalDispatch.

(** Returns or throws. *)
Definition benign {A} (m : outcome A) : Prop :=
  match m with Ret _ | Throw _ => True | _ => False end.

Lemma benign_bind {A B} (m : outcome A) (f : A → outcome B) :
  benign m → (∀ a, benign (f a)) → benign (m ≫= f).
Proof. destruct m; cbn; auto. Qed.

Lemma TryUnpackFiles_benign s : benign (TryUnpackFiles s).
Proof.
  assert (Hstol : ∀ x, benign (stol x)) by (intros x; unfold stol; repeat case_match; done).
  assert (Hstoul : ∀ x, benign (stoul x)) by (intros x; unfold stoul; repeat case_match; done).
  assert (Hl : ∀ es pos, benign (unpack_loop s pos es)).
  { induction es as [|[e sz] es IH]; intros pos; cbn; [done|].
    apply benign_bind; [done|]. intros len. destruct (_ <? _); [done|]. by apply benign_bind. }
  unfold TryUnpackFiles. destruct (getline s) as [l1 s1]. apply benign_bind; [done|]. intros sz.
  destruct (getline s1) as [l2 s2], (getline s2) as [l3 s3].
  destruct (negb _); [done|]. destruct (negb _); [done|]. by apply benign_bind.
Qed.

Section facts.
Context {T E : Type} {dist : DistTask T} {event : PocoEvent E} {event_laws : AutoReset E}.
Implicit Types (d : TaskDesc T E) (s : TaskDispatcher T E) (pc : Pc).

(** * One step of a thread *)

Definition pc_measure (pc : Pc) : nat :=
  match pc with
  | At_end => 0
  | At_finish => 1
  | At_free _ _ => 2
  | At_wait _ _ retries => 3 + retries
  | At_submit _ => 9
  | At_grant => 10
  | At_existed => 11
  | At_cache => 12
  | At_start => 13
  end.

(** The states a task is in while its thread is at a place. *)
Definition pc_state (pc : Pc) (st : TaskState) : Prop :=
  match pc with
  | At_start | At_cache | At_existed | At_grant => st = Pending
  | At_submit _ => st = Ready
  | At_wait _ _ retries => st = Dispatched ∧ (retries ≤ kRetries)%nat
  | At_free _ _ => st = Dispatched
  | At_finish => st ≠ Done
  | At_end => st = Done
  end.

(** The grant a thread holds. *)
Definition held (pc : Pc) : option Grants.GrantDesc :=
  match pc with
  | At_submit g => Some g
  | At_wait g _ _ | At_free g _ => g
  | _ => None
  end.

(** What a step that does not complete the task keeps and changes. *)
Record moved (pc pc' : Pc) (d d' : TaskDesc T E) : Prop := {
  mv_pc : pc' ≠ At_end;
  mv_event : completion_event d' = completion_event d;
  mv_id : task_id d' = task_id d;
  mv_task : is_Some (task d');
  mv_aborted : aborted d' = aborted d;
  mv_deadline : start_deadline d' = start_deadline d;
  mv_state : pc_state pc (state d) → pc_state pc' (state d');
  mv_measure : (pc_measure pc' < pc_measure pc)%nat ∨
    (pc = At_grant ∧ pc' = At_grant ∧ aborted d = false)
}.

Lemma moved_finish pc d d' :
  pc ≠ At_end → pc ≠ At_finish → is_Some (task d') → completion_event d' = completion_event d →
  task_id d' = task_id d → aborted d' = aborted d → start_deadline d' = start_deadline d →
  state d' = state d → moved pc At_finish d d'.
Proof.
  intros H1 H2 ? ? ? ? ? Hs. split; try done.
  - intros Hp. cbn. rewrite Hs. destruct pc; cbn in Hp; destruct_and?; congruence.
  - left. destruct pc; cbn; lia || done.
Qed.

Lemma TryReadCache_keeps w t d b d' :
  TryReadCache w t d = Ret (b, d') → d' = d ∨ ∃ o, d' = with_output o d.
Proof.
  unfold TryReadCache. destruct (if dt_CacheControl t then _ else _) as [e|]; [|by intros [= _ <-]; left].
  intros (fs & _ & Hr)%bind_Ret. destruct fs; injection Hr as _ <-; [right|left]; eauto.
Qed.

Lemma WaitServantTask_keeps w fresh channel r d pc' d' :
  WaitServantTask w fresh channel r d = Ret (pc', d') →
  (∃ o, d' = with_output o d ∧ pc' = At_free fresh channel) ∨
  d' = d ∧ (pc' = At_free fresh channel ∨ ∃ r', r = S r' ∧ pc' = At_wait fresh channel r').
Proof.
  destruct r as [|r]; cbn; [intros [= <- <-]; eauto|].
  destruct (aborted d); [intros [= <- <-]; eauto|].
  intros ([o c] & _ & Hr)%bind_Ret. destruct o; [injection Hr as <- <-; eauto|].
  destruct (c =? 1); [injection Hr as <- <-; eauto 10|].
  destruct (c =? 3); [injection Hr as <- <-; eauto 10|done].
Qed.

Lemma perform_step_back w pc d :
  comes_back w pc d = true →
  perform_step w pc d = match perform w pc d with Throw _ => Ret (At_finish, d, []) | r => r end.
Proof. unfold perform_step. by intros ->. Qed.

Lemma perform_step_Ret w pc d r :
  perform_step w pc d = Ret r →
  perform w pc d = Ret r ∨ (∃ x, perform w pc d = Throw x) ∧ r = (At_finish, d, []).
Proof.
  unfold perform_step. destruct (negb _); [done|].
  destruct (perform w pc d); [intros [= ->]; by left|intros [= <-]; eauto|done|done].
Qed.

Lemma perform_cases (w : World) pc d t pc' d' effects :
  task d = Some t → pc ≠ At_end → perform_step w pc d = Ret (pc', d', effects) →
  (pc = At_finish ∧ pc' = At_end ∧ d' = complete w t d ∧ effects = []) ∨ moved pc pc' d d'.
Proof.
  intros Ht Hpc [P|[[x P] [= -> -> ->]]]%perform_step_Ret.
  2: { right. apply moved_finish; eauto. intros ->. unfold perform in P. by rewrite Ht in P. }
  unfold perform in P. rewrite Ht in P. destruct pc; try done.
  - injection P as <- <- <-. right. split; try done; cbn; eauto; lia.
  - apply bind_Ret in P as ([b d1] & P & [= <- <- <-]). apply TryReadCache_keeps in P. right.
    assert (moved At_cache (if b then At_finish else At_existed) d d1); [|done].
    destruct P as [-> |[o ->]], b; split; try done; try (by cbn; intros ->); cbn; eauto; lia.
  - right. destruct (TryGetExistedResult w t d) as [[ch d1]|] eqn:X.
    + injection P as <- <- <-. revert X. unfold TryGetExistedResult.
      destruct (w_TryFindTask w _); [|done]. destruct (negb _); [done|]. intros [= <- <-].
      split; try done; cbn; eauto; lia.
    + injection P as <- <- <-. split; try done; cbn; eauto; lia.
  - right. apply bind_Ret in P as ([pc1 d1] & P & [= <- <- <-]).
    unfold StartNewServantTask_grant in P. destruct (aborted d) eqn:A.
    { injection P as <- <-. apply moved_finish; eauto. }
    apply bind_Ret in P as ([g|] & _ & P); injection P as <- <-; split; try done; cbn; eauto; lia.
  - right. unfold StartNewServantTask_submit in P. apply bind_Ret in P as ([[id|] t'] & _ & P);
      injection P as <- <- <-; [split; try done; cbn; eauto; lia|apply moved_finish; cbn; eauto].
  - right. apply bind_Ret in P as ([pc1 d1] & P & [= <- <- <-]).
    apply WaitServantTask_keeps in P as [(o & -> & ->)|[-> [-> |(r' & -> & ->)]]];
      split; try done; cbn; try (intros [? ?]; try split; done || lia); eauto; lia.
  - right. injection P as <- <- <-. apply moved_finish; eauto.
  - injection P as <- <- <-. by left.
Qed.

(** * The invariant *)

(** A task and its thread: the event is signalled from the completion until the task
    is handed out, and only then. *)
Record desc_ok (th : option Pc) (d : TaskDesc T E) : Prop := {
  ok_state : match th with Some pc => pc_state pc (state d) | None => state d = Pending end;
  ok_event : (event_tryWait (completion_event d)).1 = true ↔ th = Some At_end ∧ is_Some (task d);
  ok_task : th ≠ Some At_end → is_Some (task d);
  ok_output : ∀ t, th = Some At_end → task d = Some t → ∃ t0, t = dt_OnCompleted (output d) t0
}.

Record Inv (n : Z) s : Prop := {
  inv_last : last_id s = n ∧ 0 ≤ n;
  inv_heap : ∀ p d, desc_heap s !! p = Some d →
    (p < next_ptr s)%nat ∧ 1 ≤ task_id d ≤ n ∧ desc_ok (threads s !! p) d;
  inv_ids : ∀ p1 p2 d1 d2, desc_heap s !! p1 = Some d1 → desc_heap s !! p2 = Some d2 →
    task_id d1 = task_id d2 → p1 = p2;
  inv_threads : ∀ p, is_Some (threads s !! p) → is_Some (desc_heap s !! p);
  inv_tasks : ∀ id p, tasks_ s !! id = Some p →
    ∃ d, desc_heap s !! p = Some d ∧ task_id d = id ∧ is_Some (task d);
  inv_open : ∀ p d, desc_heap s !! p = Some d → threads s !! p ≠ Some At_end →
    tasks_ s !! task_id d = Some p
}.

Lemma fresh_Inv : Inv 0 TaskDispatcher_init.
Proof. by split; cbn; intros; rewrite ?lookup_empty in *; try (by destruct_and?); simplify_eq; destruct_and?. Qed.

(** Steps that change descriptions in place. *)
Lemma update_Inv n s s' :
  Inv n s → next_ptr s' = next_ptr s → last_id s' = last_id s →
  (∀ p d', desc_heap s' !! p = Some d' → ∃ d, desc_heap s !! p = Some d ∧
     task_id d' = task_id d ∧ desc_ok (threads s' !! p) d' ∧
     (∀ id, tasks_ s' !! id = Some p → is_Some (task d) → is_Some (task d'))) →
  (∀ p, is_Some (desc_heap s !! p) → is_Some (desc_heap s' !! p)) →
  (∀ p, is_Some (threads s' !! p) → is_Some (threads s !! p)) →
  (∀ p, threads s !! p = Some At_end → threads s' !! p = Some At_end) →
  (∀ id p, tasks_ s' !! id = Some p → tasks_ s !! id = Some p) →
  (∀ id p, tasks_ s !! id = Some p → threads s' !! p ≠ Some At_end → tasks_ s' !! id = Some p) →
  Inv n s'.
Proof.
  intros I Hn Hl Hh Hd Ht He Hsub Hkeep. split.
  - rewrite Hl. apply I.
  - intros p d' (d & Hp & Hi & Hok & _)%Hh. rewrite Hn, Hi.
    destruct (inv_heap _ _ I _ _ Hp) as (? & ? & _). done.
  - intros p1 p2 d1 d2 (e1 & P1 & -> & _)%Hh (e2 & P2 & -> & _)%Hh. by apply I.
  - intros p Hp%Ht%(inv_threads _ _ I). by apply Hd.
  - intros id p Hp. pose proof (inv_tasks _ _ I id p (Hsub _ _ Hp)) as (d & Hd1 & Hid & Hs).
    destruct (Hd p ltac:(eauto)) as [d' Hd'].
    destruct (Hh _ _ Hd') as (d0 & Hd0 & Hi & _ & Hk). simplify_eq.
    exists d'. split_and!; [done|done|eauto].
  - intros p d' Hp Hth. destruct (Hh _ _ Hp) as (d & Hd0 & -> & _).
    apply Hkeep; [|done]. apply (inv_open _ _ I); [done|]. intros ?%He. done.
Qed.

(** ** Queueing *)

Lemma new_desc_ok th id now deadline t :
  th = None ∨ th = Some At_start → desc_ok th (new_desc id now deadline t).
Proof.
  pose proof tryWait_new as Hn. intros Hth. split; cbn.
  - by destruct Hth as [-> | ->].
  - rewrite Hn. split; [done|]. by destruct Hth as [-> | ->]; intros [? _].
  - eauto.
  - by destruct Hth as [-> | ->].
Qed.

Lemma queue_Inv n s room t now deadline :
  Inv n s → n + 1 < 2 ^ 64 → Inv (n + 1) (QueueTask room t now deadline s).2.
Proof.
  intros I Hn. pose proof (inv_last _ _ I) as [Hl H0].
  assert (Hu : u64 (last_id s + 1) = n + 1) by (rewrite Hl; apply u64_id; split; lia).
  assert (Hfresh : desc_heap s !! next_ptr s = None).
  { destruct (desc_heap s !! next_ptr s) as [d|] eqn:D; [|done].
    apply (inv_heap _ _ I) in D as [? _]. lia. }
  assert (Hth : threads s !! next_ptr s = None).
  { apply eq_None_not_Some. intros ?%(inv_threads _ _ I). rewrite Hfresh in *. by destruct H. }
  unfold QueueTask. rewrite Hu. split; cbn.
  - lia.
  - intros p d [[<- <-]|[Hne Hp]]%lookup_insert_Some.
    + split_and!; [lia|cbn; lia|cbn; lia|]. apply new_desc_ok.
      destruct room; rewrite ?lookup_insert_eq; auto.
    + destruct (inv_heap _ _ I _ _ Hp) as (? & ? & ?). split_and!; [lia..|].
      destruct room; rewrite ?lookup_insert_ne by done; done.
  - intros p1 p2 d1 d2 [[<- <-]|[N1 P1]]%lookup_insert_Some [[<- <-]|[N2 P2]]%lookup_insert_Some;
      cbn; intros Hid; [done| | |by eapply (inv_ids _ _ I)].
    + apply (inv_heap _ _ I) in P2. lia.
    + apply (inv_heap _ _ I) in P1. lia.
  - intros p Hp. destruct (decide (p = next_ptr s)) as [->|]; [by rewrite lookup_insert_eq|].
    rewrite lookup_insert_ne by done. apply (inv_threads _ _ I).
    destruct room; [by rewrite lookup_insert_ne in Hp|done].
  - intros id p [[<- <-]|[Hne Hp]]%lookup_insert_Some.
    + rewrite lookup_insert_eq. eexists. split; [done|]. cbn. eauto.
    + apply (inv_tasks _ _ I) in Hp as (d & Hd & ? & ?). exists d.
      rewrite lookup_insert_ne; [done|]. intros <-. congruence.
  - intros p d [[<- <-]|[Hne Hp]]%lookup_insert_Some Hend; cbn; [by rewrite lookup_insert_eq|].
    destruct (inv_heap _ _ I _ _ Hp) as (_ & ? & _). rewrite lookup_insert_ne by lia.
    apply (inv_open _ _ I); [done|]. by destruct room; rewrite ?lookup_insert_ne in Hend by done.
Qed.

(** ** Threads *)

Lemma complete_ok w t d : desc_ok (Some At_end) (complete w t d).
Proof.
  split; cbn; [done| |done|].
  - rewrite tryWait_set. split; [eauto|done].
  - intros t' _ [= <-]. eauto.
Qed.

Lemma moved_ok pc pc' d d' :
  pc ≠ At_end → moved pc pc' d d' → desc_ok (Some pc) d → desc_ok (Some pc') d'.
Proof.
  intros Hpc M O. pose proof (mv_pc _ _ _ _ M) as Hm. split.
  - apply (mv_state _ _ _ _ M), (ok_state _ _ O).
  - rewrite (mv_event _ _ _ _ M), (ok_event _ _ O). split; intros [[= ->] _]; done.
  - intros _. apply M.
  - intros t [= ->]. done.
Qed.

Lemma thread_step_cases n s p effects s' :
  Inv n s → thread_step p s effects s' → ∃ pc d pc' d',
    threads s !! p = Some pc ∧ pc ≠ At_end ∧ desc_heap s !! p = Some d ∧
    desc_heap s' = <[p := d']> (desc_heap s) ∧ threads s' = <[p := pc']> (threads s) ∧
    tasks_ s' = tasks_ s ∧ next_ptr s' = next_ptr s ∧ last_id s' = last_id s ∧
    (pc = At_finish ∧ pc' = At_end ∧ (∃ w t, task d = Some t ∧ d' = complete w t d) ∨
     moved pc pc' d d').
Proof.
  intros I [w pc d pc' d' eff Hpc Hne Hd P]. exists pc, d, pc', d'. split_and!; try done.
  destruct (inv_heap _ _ I _ _ Hd) as (_ & _ & O).
  destruct (ok_task _ _ O) as [t Ht]; [congruence|].
  apply (perform_cases _ _ _ _ _ _ _ Ht Hne) in P as [(-> & -> & -> & _)|M]; eauto 10.
Qed.

Lemma thread_Inv n s p effects s' : Inv n s → thread_step p s effects s' → Inv n s'.
Proof.
  intros I S. pose proof (thread_step_cases _ _ _ _ _ I S)
    as (pc & d & pc' & d' & Hpc & Hne & Hd & Eh & Et & Ek & En & El & C). clear S.
  destruct (inv_heap _ _ I _ _ Hd) as (_ & _ & O). rewrite Hpc in O.
  apply (update_Inv n s s' I En El).
  - intros q e. rewrite Eh, Et, Ek. intros [[<- <-]|[Hq He]]%lookup_insert_Some.
    + exists d. rewrite lookup_insert_eq. split; [done|].
      destruct C as [(-> & -> & w & t & Ht & ->)|M].
      * split; [done|]. split; [apply complete_ok|]. intros _ _ _. cbn. eauto.
      * split; [apply M|]. split; [by eapply moved_ok|]. intros _ _ _. apply M.
    + exists e. rewrite lookup_insert_ne by done. split; [done|]. split; [done|].
      split; [by apply (inv_heap _ _ I)|done].
  - intros q Hq. rewrite Eh. destruct (decide (p = q)) as [<-|]; [by rewrite lookup_insert_eq|].
    by rewrite lookup_insert_ne.
  - intros q. rewrite Et. destruct (decide (p = q)) as [<-|]; [by rewrite Hpc|].
    by rewrite lookup_insert_ne.
  - intros q Hq. rewrite Et. destruct (decide (p = q)) as [<-|]; [congruence|].
    by rewrite lookup_insert_ne.
  - by rewrite Ek.
  - intros id q Hq _. by rewrite Ek.
Qed.

(** ** Timers *)

(** Changes that neither the waiters nor the thread of a task can see. *)
Definition same_core d d' : Prop :=
  state d' = state d ∧ completion_event d' = completion_event d ∧ task_id d' = task_id d ∧
  task d' = task d ∧ output d' = output d.

Lemma same_core_refl d : same_core d d.
Proof. by repeat split. Qed.

Lemma same_core_ok th d d' : same_core d d' → desc_ok th d → desc_ok th d'.
Proof.
  intros (E1 & E2 & _ & E3 & E4) O. split; rewrite ?E1, ?E2, ?E3, ?E4; apply O.
Qed.

Lemma same_core_Inv n s s' :
  Inv n s → next_ptr s' = next_ptr s → last_id s' = last_id s → tasks_ s' = tasks_ s →
  threads s' = threads s →
  (∀ p d', desc_heap s' !! p = Some d' → ∃ d, desc_heap s !! p = Some d ∧ same_core d d') →
  (∀ p, is_Some (desc_heap s !! p) → is_Some (desc_heap s' !! p)) → Inv n s'.
Proof.
  intros I En El Ek Et Hh Hd. apply (update_Inv n s s' I En El); try rewrite Ek; try rewrite Et; auto.
  intros p d' (d & Hp & C)%Hh. exists d. split; [done|]. split; [apply C|].
  split; [apply (same_core_ok _ _ _ C), (inv_heap _ _ I _ _ Hp)|].
  intros _ _. destruct C as (_ & _ & _ & -> & _). done.
Qed.

Lemma fold_alter_lookup (f : TaskDesc T E → TaskDesc T E) l (h : gmap tptr (TaskDesc T E)) p :
  NoDup l.*2 →
  foldr (λ (kp : Z * tptr) h, alter f kp.2 h) h l !! p =
  if bool_decide (p ∈ l.*2) then f <$> h !! p else h !! p.
Proof.
  induction l as [|[k q] l IH]; [done|]. rewrite fmap_cons. intros [Hq Hl]%NoDup_cons.
  cbn [foldr snd]. destruct (decide (q = p)) as [->|Hne].
  - rewrite lookup_alter_eq, IH by done. rewrite bool_decide_false by done.
    rewrite bool_decide_true by (by left). done.
  - rewrite lookup_alter_ne, IH by done. apply (f_equal (λ b : bool, if b then _ else _)).
    apply bool_decide_ext.
    rewrite elem_of_cons. split; [by right|]. by intros [->|].
Qed.

Lemma tasks_NoDup n s : Inv n s → NoDup (map_to_list (tasks_ s)).*2.
Proof.
  intros I. apply NoDup_fmap_2_strong; [|apply NoDup_map_to_list].
  intros [i p] [j q] Hi%elem_of_map_to_list Hj%elem_of_map_to_list. cbn. intros <-.
  apply (inv_tasks _ _ I) in Hi as (d & Hd & <- & _), Hj as (d' & Hd' & <- & _). congruence.
Qed.

Definition in_map s (p : tptr) : bool := bool_decide (p ∈ (map_to_list (tasks_ s)).*2).

Lemma in_map_true s p : in_map s p = true ↔ ∃ id, tasks_ s !! id = Some p.
Proof.
  unfold in_map. rewrite bool_decide_eq_true, list_elem_of_fmap. split.
  - intros ([i q] & -> & Hi%elem_of_map_to_list). eauto.
  - intros [id Hid]. exists (id, p). by rewrite elem_of_map_to_list.
Qed.

(** A loop over the tasks of the map changes exactly their descriptions. *)
Lemma update_tasks_lookup n s f p :
  Inv n s → desc_heap (update_tasks f s) !! p =
    if in_map s p then f <$> desc_heap s !! p else desc_heap s !! p.
Proof. intros I. apply fold_alter_lookup. by eapply tasks_NoDup. Qed.

Lemma update_tasks_Inv n s f :
  Inv n s → (∀ d, same_core d (f d)) → Inv n (update_tasks f s).
Proof.
  intros I Hf. apply (same_core_Inv n s); try done.
  - intros p d'. rewrite (update_tasks_lookup n) by done. destruct (in_map s p).
    + intros (d & Hp & ->)%fmap_Some. eauto.
    + intros Hp. eauto using same_core_refl.
  - intros p [d Hp]. rewrite (update_tasks_lookup n), Hp by done. destruct (in_map s p); cbn; eauto.
Qed.

Lemma timeout_abort_core now d : same_core d (timeout_abort now d).
Proof. unfold timeout_abort. by destruct (_ <? _). Qed.
Lemma keep_alive_abort_core now d : same_core d (keep_alive_abort now d).
Proof. unfold keep_alive_abort. by destruct (_ && _). Qed.
Lemma killed_abort_core alive d : same_core d (killed_abort alive d).
Proof. unfold killed_abort. by destruct (_ && _). Qed.

Lemma alter_core_Inv n s f p :
  Inv n s → (∀ d, same_core d (f d)) → Inv n (with_descs (alter f p (desc_heap s)) s).
Proof.
  intros I Hf. apply (same_core_Inv n s); try done; cbn.
  - intros q d' [(-> & d & Hd & ->)|[_ Hq]]%lookup_alter_Some; [eauto|].
    eauto using same_core_refl.
  - intros q [d Hq]. destruct (decide (p = q)) as [<-|].
    + rewrite lookup_alter_eq, Hq. eauto.
    + rewrite lookup_alter_ne by done. eauto.
Qed.

Lemma apply_statues_Inv n now ids statues s : Inv n s → Inv n (apply_statues now ids statues s).
Proof.
  revert statues s; induction ids as [|[id g] ids IH]; intros [|[] statues] s I; cbn; try done.
  - destruct (tasks_ s !! id); apply IH; [|done]. by apply alter_core_Inv.
  - by apply IH.
Qed.

Lemma clear_Inv n s now : Inv n s → Inv n (OnTimerClear now s).
Proof.
  intros I. apply (update_Inv n s); try done; cbn.
  - intros p d Hd. exists d. split_and!; [done|done|by apply (inv_heap _ _ I)|done].
  - intros id p [Hp _]%map_lookup_filter_Some. done.
  - intros id p Hp Hth. apply map_lookup_filter_Some. split; [done|]. cbn.
    destruct (inv_tasks _ _ I _ _ Hp) as (d & Hd & _). rewrite Hd.
    unfold clearable. rewrite bool_decide_false; [done|]. intros Hs.
    destruct (inv_heap _ _ I _ _ Hd) as (_ & _ & O). pose proof (ok_state _ _ O) as St.
    destruct (threads s !! p) as [[]|]; cbn in *; destruct_and?; congruence.
Qed.

(** ** Waiting *)

(** What a waiter that found the task gets when its wait ends. *)
Lemma WaitForTask_event_cases n s id p d :
  Inv n s → desc_heap s !! p = Some d → task_id d = id →
  (∃ t e, threads s !! p = Some At_end ∧ task d = Some t ∧
     (event_tryWait e).1 = false ∧
     WaitForTask_event id p s = Ret (Some t, Wait_OK,
       with_tasks (delete id (tasks_ s)) (with_descs (<[p := with_task None e d]> (desc_heap s)) s))) ∨
  (¬ (threads s !! p = Some At_end ∧ is_Some (task d)) ∧
   WaitForTask_event id p s = Ret (None, Wait_Timeout,
     with_descs (<[p := with_task (task d) (completion_event d) d]> (desc_heap s)) s)).
Proof.
  intros I Hd Hid. unfold WaitForTask_event. rewrite Hd.
  destruct (inv_heap _ _ I _ _ Hd) as (_ & _ & O). pose proof (ok_event _ _ O) as He.
  pose proof (tryWait_reset (completion_event d)) as Hr.
  pose proof (tryWait_false (completion_event d)) as Hf.
  destruct (event_tryWait (completion_event d)) as [b e]. cbn in *. destruct b; cbn.
  - left. destruct (proj1 He eq_refl) as [Hth [t Ht]]. exists t, e. rewrite Ht. auto.
  - right. rewrite (Hf eq_refl). split; [|done]. intros Hx%He. done.
Qed.

Lemma with_task_same d : with_task (task d) (completion_event d) d = d.
Proof. by destruct d. Qed.

Lemma wait_Inv n s id p d r s' :
  Inv n s → desc_heap s !! p = Some d → task_id d = id →
  WaitForTask_event id p s = Ret (r, s') → Inv n s'.
Proof.
  intros I Hd Hid. destruct (inv_heap _ _ I _ _ Hd) as (_ & _ & O).
  destruct (WaitForTask_event_cases n s id p d I Hd Hid)
    as [(t & e & Hth & Ht & He & ->)|[_ ->]]; intros [= _ <-].
  - apply (update_Inv n s); try done; cbn.
    + intros q d' [[<- <-]|[Hne Hq]]%lookup_insert_Some.
      * exists d. rewrite Hth in *. split_and!; [done|done| |].
        -- split; cbn; [apply (ok_state _ _ O)| |done|done].
           rewrite He. split; [done|]. by intros [_ [? [=]]].
        -- intros i [Hi Hp]%lookup_delete_Some.
           destruct (inv_tasks _ _ I _ _ Hp) as (d1 & Hd1 & Hi1 & _). congruence.
      * exists d'. split_and!; [done|done|by apply (inv_heap _ _ I)|done].
    + intros q Hq. destruct (decide (p = q)) as [<-|]; [by rewrite lookup_insert_eq|].
      by rewrite lookup_insert_ne.
    + by intros i q [_ Hq]%lookup_delete_Some.
    + intros i q Hq Hthq. apply lookup_delete_Some. split; [|done]. intros <-.
      destruct (inv_tasks _ _ I _ _ Hq) as (d1 & Hd1 & Hi1 & _).
      assert (q = p) as -> by (eapply (inv_ids _ _ I); [done..|congruence]). done.
  - rewrite with_task_same. apply (same_core_Inv n s); try done; cbn.
    + intros q d' [[<- <-]|[_ Hq]]%lookup_insert_Some; eauto using same_core_refl.
    + intros q Hq. destruct (decide (p = q)) as [<-|]; [by rewrite lookup_insert_eq|].
      by rewrite lookup_insert_ne.
Qed.

Lemma env_Inv n s s' : Inv n s → env_step s s' → Inv n s'.
Proof.
  intros I [id p d r s1 Hd Hid W|now|now|now ids [statues|]|alive s1 K|now].
  - by eapply wait_Inv.
  - apply update_tasks_Inv; [done|]. apply timeout_abort_core.
  - apply update_tasks_Inv; [done|]. apply keep_alive_abort_core.
  - unfold OnTimerKeepAlive_end. destruct (bool_decide _); [done|]. destruct (negb _); [done|].
    by apply apply_statues_Inv.
  - unfold OnTimerKeepAlive_end. by destruct (bool_decide _).
  - unfold OnTimerKilledAbort in K. destruct (forallb _ _); [|done]. injection K as <-.
    apply update_tasks_Inv; [done|]. apply killed_abort_core.
  - by apply clear_Inv.
Qed.

Lemma run_Inv n s : reachable n s → n < 2 ^ 64 → Inv n s.
Proof.
  induction 1 as [|n s room t now deadline R IH|n s p eff s' R IH S|n s s' R IH S]; intros Hn.
  - apply fresh_Inv.
  - apply queue_Inv; [apply IH|]; lia.
  - eapply thread_Inv; [by apply IH|done].
  - eapply env_Inv; [by apply IH|done].
Qed.

(** * Properties *)

(** C7. In every reachable state of the dispatcher, whatever the interleaving: a task in the
    map has not been handed out, so no timer follows a null pointer; a task is Done
    exactly when its thread ended, and stays in the map until then; and a thread that
    has not ended still has its task. *)
Theorem dispatcher_invariant n s :
  reachable n s → n < 2 ^ 64 →
  (∀ id p, tasks_ s !! id = Some p →
     ∃ d, desc_heap s !! p = Some d ∧ task_id d = id ∧ is_Some (task d)) ∧
  (∀ alive, ∃ s', OnTimerKilledAbort alive s = Ret s') ∧
  (∀ p d, desc_heap s !! p = Some d →
     (state d = Done ↔ threads s !! p = Some At_end) ∧
     (state d ≠ Done → tasks_ s !! task_id d = Some p ∧ is_Some (task d))).
Proof.
  intros R Hn. pose proof (run_Inv _ _ R Hn) as I. split_and!.
  - apply (inv_tasks _ _ I).
  - intros alive. unfold OnTimerKilledAbort. rewrite (proj2 (forallb_forall _ _)); [eauto|].
    intros [i p] Hp%list_elem_of_In%elem_of_map_to_list. cbn.
    destruct (inv_tasks _ _ I _ _ Hp) as (d & -> & _ & Ht).
    by rewrite (bool_decide_true _ Ht), orb_true_r.
  - intros p d Hd. destruct (inv_heap _ _ I _ _ Hd) as (_ & _ & O).
    assert (HD : state d = Done ↔ threads s !! p = Some At_end).
    { pose proof (ok_state _ _ O) as St. split.
      - intros Hs. rewrite Hs in St. destruct (threads s !! p) as [[]|]; cbn in St; by destruct_and?.
      - intros Ht. by rewrite Ht in St. }
    split; [done|]. intros Hs. split; [|apply (ok_task _ _ O)]; rewrite <- ?HD; [|done].
    apply (inv_open _ _ I); [done|by rewrite <- HD].
Qed.

(** A waiter that found a task gets it when the task is Done, with its output written
    into it, and then the task is forgotten and no other waiter gets it; in every other
    case it times out and nothing changes.  An unknown id is NotFound at once. *)
Theorem dispatcher_WaitForTask n s id :
  reachable n s → n < 2 ^ 64 →
  (tasks_ s !! id = None → ∀ others, WaitForTask id others s = Ret (None, Wait_NotFound, s)) ∧
  ∀ p d, desc_heap s !! p = Some d → task_id d = id →
    match decide (state d = Done), task d with
    | left _, Some t => ∃ t0 s',
        WaitForTask_event id p s = Ret (Some t, Wait_OK, s') ∧
        t = dt_OnCompleted (output d) t0 ∧ tasks_ s' !! id = None ∧
        ∃ s'', WaitForTask_event id p s' = Ret (None, Wait_Timeout, s'')
    | _, _ => WaitForTask_event id p s = Ret (None, Wait_Timeout, s)
    end.
Proof.
  intros R Hn. pose proof (run_Inv _ _ R Hn) as I. split.
  { intros Hid others. unfold WaitForTask, WaitForTask_find. by rewrite Hid. }
  intros p d Hd Hid. destruct (inv_heap _ _ I _ _ Hd) as (_ & _ & O).
  assert (Hsame : with_descs (<[p := with_task (task d) (completion_event d) d]> (desc_heap s)) s = s).
  { rewrite with_task_same, insert_id by done. by destruct s. }
  pose proof (ok_state _ _ O) as St.
  destruct (WaitForTask_event_cases n s id p d I Hd Hid) as [(t & e & Hth & Ht & He & ->)|[Hno ->]].
  - rewrite Hth in St. cbn in St. rewrite decide_True by done. rewrite Ht.
    destruct (ok_output _ _ O t Hth Ht) as [t0 ->]. do 2 eexists. split; [done|]. split; [done|].
    split; [apply lookup_delete_eq|]. unfold WaitForTask_event. cbn. rewrite lookup_insert_eq. cbn.
    destruct (event_tryWait e) as [b e'] eqn:Ee. cbn in He. subst b. cbn. eauto.
  - rewrite Hsame. destruct (decide _) as [Hs|]; [|done]. destruct (task d) as [t|] eqn:Ht; [|done].
    destruct Hno. split; [|done]. rewrite Hs in St.
    destruct (threads s !! p) as [[]|]; cbn in St; by destruct_and?.
Qed.

(** [k] steps of the thread of [p], interleaved with anything else, [j] new tasks among
    it. *)
Inductive runs (p : tptr) : nat → Z → TaskDispatcher T E → TaskDispatcher T E → Prop :=
  | runs_refl s : runs p 0 0 s s
  | runs_own k j s1 s2 s3 effects :
      runs p k j s1 s2 → thread_step p s2 effects s3 → runs p (S k) j s1 s3
  | runs_thread k j s1 s2 s3 q effects :
      q ≠ p → runs p k j s1 s2 → thread_step q s2 effects s3 → runs p k j s1 s3
  | runs_queue k j s1 s2 room t now deadline :
      runs p k j s1 s2 → runs p k (j + 1) s1 (QueueTask room t now deadline s2).2
  | runs_env k j s1 s2 s3 : runs p k j s1 s2 → env_step s2 s3 → runs p k j s1 s3.

(** The thread of [p] needs at most [m] more steps. *)
Definition ending (p : tptr) (m : nat) s : Prop :=
  ∃ pc d, threads s !! p = Some pc ∧ desc_heap s !! p = Some d ∧
    (pc ≠ At_end → aborted d = true) ∧ (pc_measure pc ≤ m)%nat.

Lemma apply_statues_threads now ids statues s :
  threads (apply_statues now ids statues s) = threads s.
Proof.
  revert statues s; induction ids as [|[id g] ids IH]; intros [|[] statues] s; cbn; try done.
  - rewrite IH. by destruct (tasks_ s !! id).
Qed.

Lemma apply_statues_aborted now ids statues s p d :
  desc_heap s !! p = Some d →
  ∃ d', desc_heap (apply_statues now ids statues s) !! p = Some d' ∧ aborted d' = aborted d.
Proof.
  revert statues s d; induction ids as [|[id g] ids IH]; intros [|[] statues] s d Hd; cbn; eauto.
  destruct (tasks_ s !! id) as [q|]; [|eauto]. destruct (decide (q = p)) as [->|].
  - destruct (IH statues (with_descs (alter (with_keep_alive now) p (desc_heap s)) s)
      (with_keep_alive now d)) as (d' & H1 & H2); [cbn; by rewrite lookup_alter_eq, Hd|]. eauto.
  - apply IH. cbn. by rewrite lookup_alter_ne.
Qed.

Lemma env_keeps n s s' p d :
  Inv n s → env_step s s' → desc_heap s !! p = Some d →
  threads s' = threads s ∧
  ∃ d', desc_heap s' !! p = Some d' ∧ (aborted d = true → aborted d' = true).
Proof.
  intros I S Hd.
  assert (Hup : ∀ f, (∀ e, aborted e = true → aborted (f e) = true) →
    ∃ d', desc_heap (update_tasks f s) !! p = Some d' ∧ (aborted d = true → aborted d' = true)).
  { intros f Hf. rewrite (update_tasks_lookup n), Hd by done. destruct (in_map s p); cbn; eauto. }
  destruct S as [id q e r s1 Hq Hid W|now|now|now ids [statues|]|alive s1 K|now].
  - destruct (WaitForTask_event_cases n s id q e I Hq Hid) as [(t & e' & _ & _ & _ & W')|[_ W']];
      rewrite W' in W; injection W as _ <-; cbn; (split; [done|]);
      (destruct (decide (q = p)) as [->|];
        [rewrite lookup_insert_eq; simplify_eq; eauto|rewrite lookup_insert_ne by done; eauto]).
  - split; [done|]. apply Hup. intros e. unfold timeout_abort. by destruct (_ <? _).
  - split; [done|]. apply Hup. intros e. unfold keep_alive_abort. by destruct (_ && _).
  - unfold OnTimerKeepAlive_end. destruct (bool_decide _); [eauto|]. destruct (negb _); [eauto|].
    rewrite apply_statues_threads. split; [done|].
    destruct (apply_statues_aborted now ids statues s p d Hd) as (d' & ? & Hx).
    exists d'. rewrite Hx. auto.
  - unfold OnTimerKeepAlive_end. destruct (bool_decide _); eauto.
  - unfold OnTimerKilledAbort in K. destruct (forallb _ _); [|done]. injection K as <-.
    split; [done|]. apply Hup. intros e. unfold killed_abort. by destruct (_ && _).
  - cbn. eauto.
Qed.

Lemma ending_own n s p m effects s' :
  Inv n s → ending p m s → thread_step p s effects s' → ∃ m', m = S m' ∧ ending p m' s'.
Proof.
  intros I (pc & d & Hpc & Hd & Ha & Hm) S.
  destruct (thread_step_cases _ _ _ _ _ I S)
    as (pc1 & d1 & pc' & d' & Hpc1 & Hne & Hd1 & Eh & Et & _ & _ & _ & C).
  rewrite Hpc in Hpc1. injection Hpc1 as <-. rewrite Hd in Hd1. injection Hd1 as <-.
  unfold ending. rewrite Eh, Et, !lookup_insert_eq.
  destruct C as [(-> & -> & w & t & _ & ->)|M].
  - cbn in Hm. exists (Nat.pred m). split; [lia|]. do 2 eexists. split_and!; [done..|]. cbn. lia.
  - destruct (mv_measure _ _ _ _ M) as [Hlt|(_ & _ & Hf)]; [|rewrite Ha in Hf; done].
    exists (Nat.pred m). split; [lia|]. do 2 eexists. split_and!; [done..| |lia].
    intros _. rewrite (mv_aborted _ _ _ _ M). auto.
Qed.

Lemma ending_thread n s p q m effects s' :
  Inv n s → q ≠ p → ending p m s → thread_step q s effects s' → ending p m s'.
Proof.
  intros I Hq (pc & d & Hpc & Hd & H1) S.
  destruct (thread_step_cases _ _ _ _ _ I S)
    as (pc1 & d1 & pc' & d' & _ & _ & _ & Eh & Et & _).
  exists pc, d. by rewrite Eh, Et, !lookup_insert_ne.
Qed.

Lemma runs_ending n s s' p k j m :
  Inv n s → n + j < 2 ^ 64 → runs p k j s s' → ending p m s →
  Inv (n + j) s' ∧ 0 ≤ j ∧ ∃ m', (k + m' ≤ m)%nat ∧ ending p m' s'.
Proof.
  intros I Hn R He. revert Hn. induction R as [s|k j s1 s2 s3 eff R IH S|k j s1 s2 s3 q eff Hq R IH S
    |k j s1 s2 room t now dl R IH|k j s1 s2 s3 R IH S]; intros Hn.
  - rewrite Z.add_0_r. split; [done|]. split; [lia|]. exists m. auto.
  - destruct (IH I He Hn) as (I2 & Hj & m' & Hm & E2). split; [by eapply thread_Inv|]. split; [done|].
    destruct (ending_own _ _ _ _ _ _ I2 E2 S) as (m2 & -> & E3). exists m2. split; [lia|done].
  - destruct (IH I He Hn) as (I2 & Hj & m' & Hm & E2). split; [by eapply thread_Inv|]. split; [done|].
    exists m'. split; [done|]. by eapply ending_thread.
  - destruct (IH I He ltac:(lia)) as (I2 & Hj & m' & Hm & pc & d & Hpc & Hd & E2).
    split; [rewrite Z.add_assoc; apply queue_Inv; [done|lia]|]. split; [lia|].
    exists m'. split; [done|]. exists pc, d.
    assert (p ≠ next_ptr s2) by (apply (inv_heap _ _ I2) in Hd as [? _]; lia).
    unfold QueueTask. cbn. rewrite lookup_insert_ne by done.
    destruct room; rewrite ?lookup_insert_ne by done; auto.
  - destruct (IH I He Hn) as (I2 & Hj & m' & Hm & pc & d & Hpc & Hd & Ha & E2).
    split; [by eapply env_Inv|]. split; [done|]. exists m'. split; [done|].
    destruct (env_keeps _ _ _ _ _ I2 S Hd) as (Et & d' & Hd' & Hab).
    exists pc, d'. rewrite Et. split_and!; auto.
Qed.

Lemma perform_step_benign w pc d :
  comes_back w pc d = true → benign (perform w pc d) → ∃ r, perform_step w pc d = Ret r.
Proof. intros B. rewrite perform_step_back by done. destruct (perform w pc d); cbn; eauto; done. Qed.

(** An aborted task can make its next step whenever its calls come back, unless the
    submission itself goes wrong. *)
Lemma aborted_progress w pc d t :
  task d = Some t → aborted d = true → comes_back w pc d = true →
  (∃ r, perform_step w pc d = Ret r) ∨
  (∃ g, pc = At_submit g ∧
     ¬ benign (dt_StartTask (w_QueueCxxTask w (servant_location d)) (w_token w) (Grants.grant_id g) t)).
Proof.
  intros Ht Ha Hb.
  assert (benign (perform w pc d) ∨ ∃ g, pc = At_submit g ∧
    ¬ benign (dt_StartTask (w_QueueCxxTask w (servant_location d)) (w_token w) (Grants.grant_id g) t))
    as [?|?]; [|left; by apply perform_step_benign|by right].
  unfold perform. rewrite Ht.
  destruct pc as [| | | |g|fresh ch r|fresh ch| |]; try (left; done).
  - left. apply benign_bind; [|by intros []]. unfold TryReadCache.
    destruct (if dt_CacheControl t then _ else _); [|done]. apply benign_bind; [apply TryUnpackFiles_benign|].
    by intros [].
  - left. by destruct (TryGetExistedResult w t d) as [[]|].
  - left. unfold StartNewServantTask_grant. by rewrite Ha.
  - unfold StartNewServantTask_submit.
    destruct (dt_StartTask _ _ _ _) as [[[id|] t']|x|x|x] eqn:St; [by left..| |];
      right; exists g; rewrite St; auto.
  - left. apply benign_bind; [|by intros []]. unfold WaitServantTask. destruct r; [done|].
    by rewrite Ha.
Qed.

(** C23. A task that has not ended by its deadline ends soon after: once the timer saw the
    deadline pass, the task's thread makes at most 13 more steps, whatever is answered
    to it and whatever happens meanwhile, and until the task is Done it has a next step as
    soon as the call it is in comes back (and, for a submission, its loop over the source
    ends, which it does for a positive chunk size).  The calls of [AddTaskRef] and [FreeTask]
    have no deadline, so that a servant that does not answer them can keep the thread, and
    the task, forever. *)
Theorem deadline_completes n s now p d k j s' :
  reachable n s → n + j < 2 ^ 64 → 0 ≤ j →
  desc_heap s !! p = Some d → is_Some (threads s !! p) → start_deadline d < now →
  runs p k j (OnTimerTimeoutAbort now s) s' →
  ∃ pc d', threads s' !! p = Some pc ∧ desc_heap s' !! p = Some d' ∧
    (k + pc_measure pc ≤ 13)%nat ∧
    (state d' = Done ∨
     aborted d' = true ∧ ∃ t, task d' = Some t ∧ ∀ w, comes_back w pc d' = true →
       (∃ r, perform_step w pc d' = Ret r) ∨
       ∃ g, pc = At_submit g ∧
         ¬ benign (dt_StartTask (w_QueueCxxTask w (servant_location d')) (w_token w)
                     (Grants.grant_id g) t)).
Proof.
  intros R Hn Hj Hd [pc0 Hpc] Hnow Hruns.
  pose proof (run_Inv _ _ R ltac:(lia)) as I.
  assert (I1 : Inv n (OnTimerTimeoutAbort now s))
    by (apply update_tasks_Inv; [done|]; apply timeout_abort_core).
  assert (E1 : ending p 13 (OnTimerTimeoutAbort now s)).
  { unfold ending, OnTimerTimeoutAbort. rewrite (update_tasks_lookup n) by done. cbn.
    pose proof (ok_state _ _ (proj2 (proj2 (inv_heap _ _ I _ _ Hd)))) as St. rewrite Hpc in St.
    assert (Hm : (pc_measure pc0 ≤ 13)%nat)
      by (destruct pc0; cbn in *; unfold kRetries in *; destruct_and?; lia).
    rewrite Hpc, Hd. destruct (in_map s p) eqn:Hin.
    - do 2 eexists. split_and!; [done|done| |done].
      intros _. unfold timeout_abort. by rewrite (proj2 (Z.ltb_lt _ _) Hnow).
    - do 2 eexists. split_and!; [done|done| |done].
      intros Hne. assert (in_map s p = true); [|congruence]. apply in_map_true.
      eexists. apply (inv_open _ _ I); [done|congruence]. }
  destruct (runs_ending n _ s' p k j 13 I1 Hn Hruns E1) as (I2 & _ & m & Hm & pc & d' & Ht & Hd' & Ha & Hle).
  exists pc, d'. split_and!; [done|done|lia|].
  destruct (inv_heap _ _ I2 _ _ Hd') as (_ & _ & O). rewrite Ht in O.
  assert (Hend : pc = At_end ∨ pc ≠ At_end) by (destruct pc; auto).
  destruct Hend as [->|Hne]; [left; apply (ok_state _ _ O)|right].
  split; [auto|]. destruct (ok_task _ _ O) as [t Htask]; [congruence|]. exists t. split; [done|].
  intros w. by apply aborted_progress; [|apply Ha].
Qed.

(** ** Grants *)

(** C33. A thread that holds a grant keeps it or gives it back, exactly once and when its
    task is about to be completed, as long as nothing throws.  When something does,
    nothing is given back. *)
Theorem grant_released w pc d pc' d' effects g :
  held pc = Some g → perform_step w pc d = Ret (pc', d', effects) →
  (∃ x, perform w pc d = Throw x ∧ pc' = At_finish ∧ effects = []) ∨
  (held pc' = Some g ∧ effects = []) ∨
  (held pc' = None ∧ pc' = At_finish ∧
   (effects = [FreeGrant (Grants.grant_id g)] ∨
    ∃ location token, effects =
      [FreeServantTask location token (servant_task_id d); FreeGrant (Grants.grant_id g)])).
Proof.
  intros Hg [P|[[x P] [= -> -> ->]]]%perform_step_Ret; [|left; eauto]. right. unfold perform in P. destruct (task d) as [t|]; [|done].
  destruct pc; try done; cbn in Hg.
  - injection Hg as ->. unfold StartNewServantTask_submit in P.
    apply bind_Ret in P as ([[id|] t'] & _ & P); injection P as <- <- <-; [left|right]; eauto.
  - apply bind_Ret in P as ([pc1 d1] & P & [= <- <- <-]).
    apply WaitServantTask_keeps in P as [(o & -> & ->)|[-> [-> |(r' & -> & ->)]]]; by left.
  - subst fresh. injection P as <- <- <-. right. eauto 10.
Qed.

(** A servant's successful compilation without output files is such a case: unpacking
    the empty file throws, the client gets the exit code -114514 (which a thread sets
    first of all), and neither the servant's task nor the grant is freed. *)
Theorem empty_output_leaks w g channel r d t resp :
  task d = Some t → aborted d = false →
  wr_task_status resp = TASK_STATUS_DONE → wr_exit_code resp = 0 →
  w_WaitForTask w channel (wait_request (w_token w) (servant_task_id d)) =
    {| wa_chunks := stream_of resp []; wa_ok := true |} →
  perform_step w (At_wait (Some g) channel (S r)) d = Ret (At_finish, d, []) ∧
  perform_step w At_start d =
    Ret (At_cache, with_output (exit_with NO_OUTPUT (output d)) d, []).
Proof.
  intros Ht Ha Hs Hx Hw. unfold perform_step, perform. rewrite Ht. split; [|done].
  cbn [WaitServantTask]. rewrite Ha, Hw. unfold WaitServantTask_call. cbn. by rewrite Hs, Hx.
Qed.

(** ** Keeping grants alive *)

Lemma in_flight_true (d : TaskDesc T E) :
  in_flight d = true ↔ state d ≠ Pending ∧ state d ≠ Done ∧ aborted d = false.
Proof. unfold in_flight. destruct (state d), (aborted d); vm_compute; intuition congruence. Qed.

Lemma keep_alive_lost_false now (d : TaskDesc T E) :
  keep_alive_lost now d = false ↔ now - last_keep_alive_tp d ≤ minutes 1.
Proof. apply Z.ltb_ge. Qed.

(** The ids and grants the timer names. *)
Lemma keep_alive_ids_elem n s now id g :
  Inv n s →
  (id, g) ∈ keep_alive_ids now s ↔
  ∃ p d, tasks_ s !! id = Some p ∧ desc_heap s !! p = Some d ∧ task_grant_id d = g ∧
         in_flight d = true ∧ keep_alive_lost now d = false.
Proof.
  intros I. unfold keep_alive_ids. rewrite list_elem_of_omap. split.
  - intros ([i p] & Hi%elem_of_map_to_list & Hx). cbn in Hx.
    destruct (inv_tasks _ _ I _ _ Hi) as (d & Hd & Hid & _). rewrite Hd in Hx.
    destruct (in_flight d) eqn:Fl; [|done]. cbn in Hx.
    destruct (keep_alive_lost now d) eqn:L; [done|]. injection Hx as <- <-. subst i. by exists p, d.
  - intros (p & d & Hi & Hd & <- & Fl & L). exists (id, p). rewrite elem_of_map_to_list.
    split; [done|]. cbn. rewrite Hd, Fl, L. cbn.
    destruct (inv_tasks _ _ I _ _ Hi) as (d1 & Hd1 & Hid & _). by simplify_eq.
Qed.

(** The keep-alive timer names exactly the tasks in the map that are under way, not
    aborted and not lost, each with its grant; it aborts exactly those under way that
    were not kept alive for a minute. *)
Theorem OnTimerKeepAlive_spec n s now :
  reachable n s → n < 2 ^ 64 →
  (∀ id g, (id, g) ∈ (OnTimerKeepAlive_begin now s).1 ↔
     ∃ p d, tasks_ s !! id = Some p ∧ desc_heap s !! p = Some d ∧ task_grant_id d = g ∧
       state d ≠ Pending ∧ state d ≠ Done ∧ aborted d = false ∧
       now - last_keep_alive_tp d ≤ minutes 1) ∧
  (∀ p d, desc_heap s !! p = Some d →
     ∃ d', desc_heap (OnTimerKeepAlive_begin now s).2 !! p = Some d' ∧
       (aborted d' = true ↔ aborted d = true ∨
          (∃ id, tasks_ s !! id = Some p) ∧ state d ≠ Pending ∧ state d ≠ Done ∧
          minutes 1 < now - last_keep_alive_tp d)).
Proof.
  intros R Hn. pose proof (run_Inv _ _ R Hn) as I. split.
  - intros id g. cbn. rewrite (keep_alive_ids_elem n) by done.
    split; intros (p & d & Hi & Hd & Hg & Hx); exists p, d;
      rewrite in_flight_true, keep_alive_lost_false in *; tauto.
  - intros p d Hd. cbn [snd OnTimerKeepAlive_begin]. rewrite (update_tasks_lookup n), Hd by done.
    destruct (in_map s p) eqn:Hin; cbn; eexists; (split; [done|]).
    + apply in_map_true in Hin. unfold keep_alive_abort. pose proof (in_flight_true d) as HF.
      unfold keep_alive_lost. destruct (in_flight d), (Z.ltb_spec (minutes 1) (now - last_keep_alive_tp d));
        cbn; destruct (aborted d); intuition (try congruence; try (exfalso; lia)).
    + split; [by left|]. intros [?|(Hx%in_map_true & _)]; congruence.
Qed.

(** ** The servant's answers *)

(** Several steps of a thread of an undisturbed task. *)
Fixpoint perform_all (ws : list World) (pc : Pc) (d : TaskDesc T E)
    : outcome (Pc * TaskDesc T E * list Effect) :=
  match ws with
  | [] => Ret (pc, d, [])
  | w :: ws =>
    '(pc, d, e1) ← perform_step w pc d;
    '(pc, d, e2) ← perform_all ws pc d;
    Ret (pc, d, e1 ++ e2)
  end.

Lemma wait_rpc_failed w fresh channel r d t :
  task d = Some t → aborted d = false →
  WaitServantTask_call (w_WaitForTask w channel (wait_request (w_token w) (servant_task_id d)))
    = Ret (None, 1) →
  perform_step w (At_wait fresh channel (S r)) d = Ret (At_wait fresh channel r, d, []).
Proof.
  intros Ht Ha Hw. unfold perform_step, perform. rewrite Ht. cbn [WaitServantTask].
  rewrite Ha, Hw. done.
Qed.

Lemma wait_rpc_all ws fresh channel d t :
  task d = Some t → aborted d = false →
  Forall (λ w, WaitServantTask_call (w_WaitForTask w channel
    (wait_request (w_token w) (servant_task_id d))) = Ret (None, 1)) ws →
  perform_all ws (At_wait fresh channel (length ws)) d = Ret (At_wait fresh channel 0, d, []).
Proof.
  intros Ht Ha. induction 1 as [|w ws Hw _ IH]; [done|]. cbn [length perform_all].
  rewrite (wait_rpc_failed w fresh channel (length ws) d t Ht Ha Hw). cbn [mbind outcome_bind].
  by rewrite IH.
Qed.
End facts.

(** The servant as seen from the user-side daemon: its handler answers, with what it
    writes, or the call fails. *)
Section servant.
Context {E : Type} `{PocoEvent E}.

Definition servant_wait (f : DaemonFlags) (sv : DaemonServiceImpl (E := E))
    (r : WaitForTaskRequest) : WaitAnswer :=
  match DaemonService.WaitForTask f r (λ ex, ex) sv with
  | Ret (Proto.OK, Some (resp, pieces), _) =>
    {| wa_chunks := stream_of resp pieces; wa_ok := true |}
  | _ => {| wa_chunks := []; wa_ok := false |}
  end.

Lemma read_stream resp pieces r0 file :
  read_chunks (stream_of resp pieces) r0 file = (resp, file +:+ sconcat pieces).
Proof.
  assert (Hp : ∀ f, read_chunks (Build_Chunk None <$> pieces) resp f = (resp, f +:+ sconcat pieces)).
  { induction pieces as [|p pieces IH]; intros f; [cbn; by rewrite sapp_nil_r|].
    rewrite fmap_cons. cbn [read_chunks chunk_request chunk_file]. rewrite IH.
    cbn [sconcat]. by rewrite sapp_assoc. }
  unfold stream_of. cbn [read_chunks chunk_request chunk_file]. rewrite Hp. by rewrite sapp_nil_r.
Qed.

Lemma servant_wait_cases f sv token id out st ex' :
  IsTokenAcceptable token sv = true →
  Executor.WaitForTask id (λ ex, ex) (executor sv) = Ret (out, st, ex') →
  0 < FLAGS_chunk_size f →
  (∀ t, out = Some t → ssize (file_pack_ t) + FLAGS_chunk_size f < 2 ^ 64) →
  match out with
  | None => servant_wait f sv (wait_request token id) = {| wa_chunks := []; wa_ok := false |}
  | Some t => ∃ pieces, sconcat pieces = file_pack_ t ∧
      servant_wait f sv (wait_request token id) =
        {| wa_chunks := stream_of (done_response t) pieces; wa_ok := true |}
  end.
Proof.
  intros Ht Hw Hc Hs. unfold servant_wait, DaemonService.WaitForTask, wait_request.
  cbn [wft_token wft_acceptable_compress_types wft_task_id]. rewrite Ht. cbn [negb].
  rewrite bool_decide_true by done. cbn [negb]. rewrite Hw. cbn [mbind outcome_bind].
  destruct out as [t|]; [|done].
  destruct (file_chunks_ok (FLAGS_chunk_size f) (file_pack_ t) Hc (Hs t eq_refl)) as (pieces & -> & Ep & _).
  eauto.
Qed.

(** What a finished compilation gave on the servant is what the user-side daemon gets:
    exit code, both outputs, the path locations and, if it succeeded, the very files
    the servant packed.  While the compilation still runs, or when the servant does not
    know it, the daemon sees a failed call, and cannot tell the two apart. *)
Theorem servant_result f sv token id out st ex' :
  IsTokenAcceptable token sv = true →
  Executor.WaitForTask id (λ ex, ex) (executor sv) = Ret (out, st, ex') →
  0 < FLAGS_chunk_size f →
  (∀ t, out = Some t → ssize (file_pack_ t) + FLAGS_chunk_size f < 2 ^ 64) →
  match out with
  | None => WaitServantTask_call (servant_wait f sv (wait_request token id)) = Ret (None, 1)
  | Some t =>
    ∀ files, file_pack_ t = PackFiles files → files ≠ [] →
      Forall (λ s, s ≠ "" ∧ no_char "," s = true ∧ no_char ch_newline s = true) files.*1 →
      ssize (PackFiles files) ≤ LONG_MAX →
      WaitServantTask_call (servant_wait f sv (wait_request token id)) = Ret (Some {|
        do_exit_code := exit_code_ t; do_std_out := stdout_ t; do_std_err := stderr_ t;
        do_extra_info := extra_info_ t;
        do_output_files := if exit_code_ t =? 0 then files else [] |}, 0)
  end.
Proof.
  intros Ht Hw Hc Hs. pose proof (servant_wait_cases f sv token id out st ex' Ht Hw Hc Hs) as Hcs.
  destruct out as [t|]; [|by rewrite Hcs]. destruct Hcs as (pieces & Ep & ->).
  intros files Hp Hne Hf Hl. unfold WaitServantTask_call. cbn [wa_chunks wa_ok].
  rewrite read_stream. cbn. rewrite Ep, Hp. destruct (exit_code_ t =? 0) eqn:Ex; cbn.
  - rewrite TryUnpackFiles_PackFiles by done. cbn. apply Z.eqb_eq in Ex. by rewrite Ex.
  - done.
Qed.

Lemma stop_waiting `{HD : DistTask T} {E' : Type} `{PocoEvent E'} w g channel (d : TaskDesc T E') t :
  task d = Some t → w_FreeTask w channel (w_token w) (servant_task_id d) = true →
  perform_all [w; w; w] (At_wait (Some g) channel 0) d =
    Ret (At_end, complete w t d,
         [FreeServantTask channel (w_token w) (servant_task_id d);
          FreeGrant (Grants.grant_id g)]).
Proof.
  intros Ht Hf. cbn [perform_all]. unfold perform_step, perform. rewrite Ht. cbn.
  rewrite Hf. cbn. rewrite Ht. cbn. rewrite Ht. done.
Qed.

(** Five waits that all end while the compilation still runs are the end of it: the
    daemon stops waiting, tells the servant to free the task, gives the grant back, and
    the client gets the exit code -114514. *)
Theorem running_task_given_up `{HD : DistTask T} {E' : Type} `{PocoEvent E'} f
    (svs : list (DaemonServiceImpl (E := E) * World)) (w_free : World) g channel
    (d : TaskDesc T E') t :
  task d = Some t → aborted d = false → length svs = kRetries →
  0 < FLAGS_chunk_size f → do_exit_code (output d) = NO_OUTPUT →
  w_FreeTask w_free channel (w_token w_free) (servant_task_id d) = true →
  Forall (λ svw,
    IsTokenAcceptable (w_token svw.2) svw.1 = true ∧
    (∃ ex', Executor.WaitForTask (servant_task_id d) (λ ex, ex) (executor svw.1)
              = Ret (None, Running, ex')) ∧
    w_WaitForTask svw.2 channel = servant_wait f svw.1) svs →
  ∃ t', perform_all (svs.*2 ++ [w_free; w_free; w_free]) (At_wait (Some g) channel kRetries) d =
    Ret (At_end, complete w_free t d,
         [FreeServantTask channel (w_token w_free) (servant_task_id d);
          FreeGrant (Grants.grant_id g)]) ∧
    task (complete w_free t d) = Some t' ∧ t' = dt_OnCompleted (output d) t.
Proof.
  intros Ht Ha Hlen Hc Ho Hfree HF. eexists. split_and!; [|done|done].
  assert (Happ : ∀ ws1 ws2 pc (e : TaskDesc T E') pc' e' f1,
    perform_all ws1 pc e = Ret (pc', e', f1) →
    perform_all (ws1 ++ ws2) pc e =
      ('(pc, d, e2) ← perform_all ws2 pc' e'; Ret (pc, d, f1 ++ e2))).
  { induction ws1 as [|w ws1 IH]; intros ws2 pc e pc' e' f1; cbn.
    - intros [= <- <- <-]. destruct (perform_all ws2 pc e) as [[[? ?] ?]| | |]; done.
    - destruct (perform_step w pc e) as [[[pc1 e1] g1]| | |]; cbn; try done.
      destruct (perform_all ws1 pc1 e1) as [[[pc2 e2] g2]| | |] eqn:P; cbn; try done.
      intros [= <- <- <-]. rewrite (IH _ _ _ _ _ _ P). cbn.
      destruct (perform_all ws2 pc2 e2) as [[[? ?] ?]| | |]; cbn; try done. by rewrite app_assoc. }
  rewrite <- Hlen, <- (length_fmap snd svs).
  erewrite Happ by (eapply wait_rpc_all; [done..|];
    apply Forall_fmap; eapply Forall_impl; [exact HF|];
    intros [sv w] (Tk & (ex' & Hw) & Hcall); cbn in *; rewrite Hcall;
    by rewrite (servant_wait_cases f sv _ _ None Running ex' Tk Hw Hc ltac:(done))).
  by rewrite (stop_waiting w_free g channel d t Ht Hfree).
Qed.
End servant.

(** * Witnesses *)

#[local] Instance demo_dist_task : DistTask CxxDistTask := cxx_dist_task demo_hash 4.

Definition demo_queued : TaskDispatcher CxxDistTask bool :=
  (QueueTask true demo_dist 0 100 TaskDispatcher_init).2.

Lemma demo_queued_reachable : reachable 1 demo_queued.
Proof. apply (reachable_queue 0 _ true), reachable_init. Qed.

Definition demo_world (call : string → WaitForTaskRequest → WaitAnswer) : World := {|
  w_now := 5; w_token := "t"; w_TryRead := λ _, None; w_TryFindTask := λ _, None;
  w_AddTaskRef := λ _ _ _, Some false; w_FreeTask := λ _ _ _, true;
  w_Get := λ _, Ret (Some {| Grants.expire_tp := 9; Grants.grant_id := 7; Grants.location := "s" |});
  w_QueueCxxTask := λ _, DistTask.demo_call true; w_WaitForTask := call |}.
Definition demo_grant : Grants.GrantDesc :=
  {| Grants.expire_tp := 9; Grants.grant_id := 7; Grants.location := "s" |}.
Definition demo_desc : TaskDesc CxxDistTask bool :=
  with_output (exit_with NO_OUTPUT no_output)
    {| state := Dispatched; completion_event := false; task_id := 1; task := Some demo_dist;
       start_deadline := 100; aborted := false; output := no_output; start_tp := 0;
       ready_tp := 5; dispatched_tp := 5; completed_tp := 0; task_grant_id := 7;
       servant_location := "s"; servant_task_id := 1; last_keep_alive_tp := 5 |}.

Lemma dispatcher_invariant_witness :
  reachable 1 demo_queued ∧ ∃ s', OnTimerKilledAbort (λ _, true) demo_queued = Ret s'.
Proof.
  split; [apply demo_queued_reachable|].
  apply (proj1 (proj2 (dispatcher_invariant 1 demo_queued demo_queued_reachable eq_refl))).
Defined.

Lemma dispatcher_WaitForTask_witness :
  WaitForTask 2 (λ s, s) demo_queued = Ret (None, Wait_NotFound, demo_queued).
Proof.
  exact (proj1 (dispatcher_WaitForTask 1 demo_queued 2 demo_queued_reachable eq_refl) eq_refl (λ s, s)).
Defined.

Lemma deadline_completes_witness :
  ∃ pc d', threads (OnTimerTimeoutAbort 101 demo_queued) !! 0%nat = Some pc ∧
    desc_heap (OnTimerTimeoutAbort 101 demo_queued) !! 0%nat = Some d' ∧
    (pc_measure pc ≤ 13)%nat.
Proof.
  destruct (deadline_completes 1 demo_queued 101 0%nat (new_desc 1 0 100 demo_dist) 0%nat 0
    (OnTimerTimeoutAbort 101 demo_queued) demo_queued_reachable eq_refl (Z.le_refl 0) eq_refl
    (mk_is_Some _ _ eq_refl) eq_refl (runs_refl _ _)) as (pc & d' & H1 & H2 & H3 & _).
  by exists pc, d'.
Defined.

Lemma grant_released_witness :
  ∃ pc' d' effects, perform_step (demo_world (λ _ _, {| wa_chunks := []; wa_ok := false |}))
    (At_free (Some demo_grant) "s") demo_desc = Ret (pc', d', effects) ∧ pc' = At_finish.
Proof.
  do 3 eexists. split; [reflexivity|].
  destruct (grant_released (demo_world (λ _ _, {| wa_chunks := []; wa_ok := false |}))
    (At_free (Some demo_grant) "s") demo_desc _ _ _ demo_grant eq_refl eq_refl)
    as [(x & [=] & _)|[[[=] _]|(_ & H & _)]]. exact H.
Defined.

Definition demo_done : WaitForTaskResponse := {|
  wr_task_status := TASK_STATUS_DONE; wr_exit_code := 0; wr_compress_type := COMPRESS_TYPE_ZSTD;
  wr_err := ""; wr_output := ""; wr_extra_info := None |}.

Lemma empty_output_leaks_witness :
  perform_step (demo_world (λ _ _, {| wa_chunks := stream_of demo_done []; wa_ok := true |}))
    (At_wait (Some demo_grant) "s" 1) demo_desc = Ret (At_finish, demo_desc, []).
Proof.
  exact (proj1 (empty_output_leaks
    (demo_world (λ _ _, {| wa_chunks := stream_of demo_done []; wa_ok := true |}))
    demo_grant "s" 0 demo_desc demo_dist demo_done eq_refl eq_refl eq_refl eq_refl eq_refl)).
Defined.

(** The next step of the thread of [p]. *)
Definition step_thread (w : World) (p : tptr) (s : TaskDispatcher CxxDistTask bool)
    : TaskDispatcher CxxDistTask bool :=
  match threads s !! p, desc_heap s !! p with
  | Some At_end, _ | None, _ | _, None => s
  | Some pc, Some d =>
    match perform_step w pc d with
    | Ret (pc, d, _) => {|
        tasks_ := tasks_ s; desc_heap := <[p := d]> (desc_heap s); next_ptr := next_ptr s;
        last_id := last_id s; threads := <[p := pc]> (threads s) |}
    | _ => s
    end
  end.

Lemma step_thread_reachable n w p s : reachable n s → reachable n (step_thread w p s).
Proof.
  intros R. unfold step_thread. destruct (threads s !! p) as [pc|] eqn:Hp; [|done].
  destruct (desc_heap s !! p) as [d|] eqn:Hd; [|by destruct pc].
  destruct (perform_step w pc d) as [[[pc' d'] eff]|x|x|x] eqn:P; [|by destruct pc..].
  destruct pc; try done;
    (eapply reachable_thread; [exact R|econstructor; [exact Hp|discriminate|exact Hd|exact P]]).
Qed.

(** The task has its grant and is about to be sent. *)
Definition demo_ready : TaskDispatcher CxxDistTask bool :=
  Nat.iter 4 (step_thread (demo_world (λ _ _, {| wa_chunks := []; wa_ok := false |})) 0%nat)
    demo_queued.

Lemma demo_ready_reachable : reachable 1 demo_ready.
Proof. do 4 apply step_thread_reachable. apply demo_queued_reachable. Qed.

Lemma OnTimerKeepAlive_spec_witness :
  (1, 7) ∈ (OnTimerKeepAlive_begin 9 demo_ready).1 ∧
  ∃ d, desc_heap (OnTimerKeepAlive_begin (minutes 2) demo_ready).2 !! 0%nat = Some d ∧ aborted d = true.
Proof.
  destruct (desc_heap demo_ready !! 0%nat) as [d|] eqn:Hd; [|vm_compute in Hd; discriminate].
  assert (Hf : state d = Ready ∧ task_grant_id d = 7 ∧ aborted d = false ∧ last_keep_alive_tp d = 5)
    by (vm_compute in Hd; injection Hd as <-; done).
  destruct Hf as (F1 & F2 & F3 & F4). split.
  - apply (OnTimerKeepAlive_spec 1 demo_ready 9 demo_ready_reachable eq_refl).
    exists 0%nat, d. rewrite F1, F4. split_and!; done.
  - destruct (proj2 (OnTimerKeepAlive_spec 1 demo_ready (minutes 2) demo_ready_reachable eq_refl) 0%nat d Hd)
      as (d' & H1 & H2).
    exists d'. split; [exact H1|]. apply H2. right. rewrite F1, F4.
    split; [by exists 1|]. split_and!; [discriminate..|vm_compute; reflexivity].
Defined.

Definition demo_finished : DaemonServiceImpl (E := bool) :=
  with_executor (OnExitCallback (H := cxx_compile_task DaemonService.demo_hash Some)
    [("68/output.o", "obj")] 77 0 8 (Ret "out") (Ret "") (CxxCompileTask_init "/tmp/w")
    (executor demo_busy)).2 demo_busy.

Lemma servant_result_witness :
  ∃ info, WaitServantTask_call
    (servant_wait DaemonService.demo_flags demo_finished (wait_request "t" 1)) =
  Ret (Some {| do_exit_code := 0; do_std_out := "out"; do_std_err := ""; do_extra_info := info;
               do_output_files := [(".o", "obj")] |}, 0).
Proof.
  destruct (Executor.WaitForTask 1 (λ ex, ex) (executor demo_finished))
    as [[[out st] ex']|x|x|x] eqn:Hw; [|vm_compute in Hw; discriminate Hw..].
  destruct out as [t|]; [|vm_compute in Hw; discriminate Hw].
  assert (Ht : exit_code_ t = 0 ∧ stdout_ t = "out" ∧ stderr_ t = "" ∧
               file_pack_ t = PackFiles [(".o", "obj")])
    by (vm_compute in Hw; injection Hw as <- <- <-; done).
  destruct Ht as (T1 & T2 & T3 & T4). exists (extra_info_ t).
  etrans; [apply (servant_result DaemonService.demo_flags demo_finished "t" 1 (Some t) st ex'
    eq_refl Hw ltac:(done)) with (files := [(".o", "obj")])|].
  - intros t' [= <-]. rewrite T4. vm_compute. reflexivity.
  - exact T4.
  - discriminate.
  - repeat constructor. discriminate.
  - vm_compute. discriminate.
  - by rewrite T1, T2, T3.
Defined.

Lemma running_task_given_up_witness :
  ∃ t', perform_all
      (replicate 5 (demo_world (λ _, servant_wait DaemonService.demo_flags demo_busy)) ++
       replicate 3 (demo_world (λ _ _, {| wa_chunks := []; wa_ok := false |})))
      (At_wait (Some demo_grant) "s" kRetries) demo_desc =
    Ret (At_end, complete (demo_world (λ _ _, {| wa_chunks := []; wa_ok := false |})) demo_dist
                   demo_desc, [FreeServantTask "s" "t" 1; FreeGrant 7]) ∧
    t' = CxxDistTask_OnCompleted (output demo_desc) demo_dist.
Proof.
  destruct (running_task_given_up DaemonService.demo_flags
    (replicate 5 (demo_busy, demo_world (λ _, servant_wait DaemonService.demo_flags demo_busy)))
    (demo_world (λ _ _, {| wa_chunks := []; wa_ok := false |})) demo_grant "s" demo_desc demo_dist)
    as (t' & H1 & _ & H2); [reflexivity..| |by exists t'].
  apply Forall_replicate. split; [vm_compute; reflexivity|]. split; [|reflexivity].
  eexists. vm_compute. reflexivity.
Defined.
