(* ===== verification/HttpService.v ===== *)
(** The HTTP service of the user-side daemon:
    src/distribuild/daemon/local/http_service_impl.{h,cpp}.

    A handler reads and changes the daemon's components and the response; an
    exception keeps the changes made so far.  JSON and protobuf's JSON mapping are
    code outside the sources: parameters.  [sends] are the calls of
    [response.send()], with the status at that time and what is written; Poco allows
    one. *)
From S2P Require Import Prelude Text Proto MultiChunk CloudTask LocalKeepers DistTask.
From S2P Require Import DaemonService LocalDispatch LocalDispatchFacts.

Definition HTTP_OK : Z := 200.
Definition HTTP_BAD_REQUEST : Z := 400.
Definition HTTP_NOT_FOUND : Z := 404.
Definition HTTP_EXPECTATION_FAILED : Z := 417.
Definition HTTP_INTERNAL_SERVER_ERROR : Z := 500.
Definition HTTP_SERVICE_UNAVAILABLE : Z := 503.

Record Response := { status : Z; sends : list (Z * string) }.
Definition Response_init : Response := {| status := HTTP_OK; sends := [] |}.

Inductive Method := GET | POST | OtherMethod.

Inductive Handler :=
  | H_GetVersion | H_AcquireQuota | H_ReleaseQuota | H_SetFileDigest | H_SubmitCxxTask
  | H_WaitForTask | H_AskToLeave.

(** The two routers. *)
Definition get_router_ : gmap string Handler := {[ "/local/get_version" := H_GetVersion ]}.
Definition post_router_ : gmap string Handler :=
  list_to_map [("/local/acquire_quota", H_AcquireQuota);
               ("/local/release_quota", H_ReleaseQuota);
               ("/local/set_file_digest", H_SetFileDigest);
               ("/local/submit_cxx_task", H_SubmitCxxTask);
               ("/local/wait_for_cxx_task", H_WaitForTask);
               ("/local/ask_to_leave", H_AskToLeave)].

Definition route (m : Method) (uri : string) : option Handler :=
  match m with
  | GET => get_router_ !! uri
  | POST => post_router_ !! uri
  | OtherMethod => None
  end.

(** http_service.proto *)
Record SetFileDigestRequest := { sfd_file_desc : FileDesc; sfd_digest : string }.
Record WaitForCXXTaskRequest := { wcx_task_id : Z; wcx_ms_to_wait : Z }.   (* uint64, uint32 *)

(** A JSON value as Poco gives it: what it is, and its conversions, which may throw. *)
Record Var := {
  isInteger : bool;
  isBoolean : bool;
  to_uint32 : outcome Z;
  to_bool : outcome bool
}.

Definition JSONException : string := "Poco::JSON::JSONException".

Section http.
Context {E : Type} `{PocoEvent E}.
Context (blake3 : string → string) (chunk_size : Z).

#[local] Instance http_dist_task : DistTask CxxDistTask := cxx_dist_task blake3 chunk_size.

(** Poco's parser, and its answer for a member that is not there. *)
Context (parse_object : string → outcome (gmap string Var)) (empty_var : Var).
(** [JsonStringToMessage]: its error, and the message, which is changed even then. *)
Context (submit_of_json : string → option string * SubmitCxxTaskRequest).
Context (wait_of_json : string → option string * WaitForCXXTaskRequest).
Context (digest_of_json : string → option string * SetFileDigestRequest).
(** [MessageToJson]. *)
Context (json_of_submit : Z → string) (json_of_wait : WaitForCXXTaskResponse → string).

(** The components the service works on; [leaving]: SIGINT was sent. *)
Record Daemon := {
  monitor : Monitor.TaskMonitor;
  files : Files.FileCache;
  disp : TaskDispatcher CxxDistTask E;
  leaving : bool
}.

Definition with_monitor (m : Monitor.TaskMonitor) (d : Daemon) : Daemon :=
  {| monitor := m; files := files d; disp := disp d; leaving := leaving d |}.
Definition with_files (f : Files.FileCache) (d : Daemon) : Daemon :=
  {| monitor := monitor d; files := f; disp := disp d; leaving := leaving d |}.
Definition with_disp (p : TaskDispatcher CxxDistTask E) (d : Daemon) : Daemon :=
  {| monitor := monitor d; files := files d; disp := p; leaving := leaving d |}.

(** * Handlers as state transformers that may throw *)

Definition M (A : Type) : Type := Daemon → Response → outcome A * Daemon * Response.

#[local] Instance M_ret : MRet M := λ A a d r, (Ret a, d, r).
#[local] Instance M_bind : MBind M := λ A B f m d r,
  match m d r with
  | (Ret a, d, r) => f a d r
  | (Throw x, d, r) => (Throw x, d, r)
  | (Undef x, d, r) => (Undef x, d, r)
  | (Fatal x, d, r) => (Fatal x, d, r)
  end.

Definition lift {A} (o : outcome A) : M A := λ d r, (o, d, r).
Definition setStatus (z : Z) : M () := λ d r, (Ret (), d, {| status := z; sends := sends r |}).
Definition send (body : string) : M () :=
  λ d r, (Ret (), d, {| status := status r; sends := sends r ++ [(status r, body)] |}).
Definition with_daemon {A} (f : Daemon → A * Daemon) : M A :=
  λ d r, let '(a, d) := f d in (Ret a, d, r).

(** The two [catch] clauses the handlers share. *)
Definition try_catch (m : M ()) (bad_json : string) : M () := λ d r,
  match m d r with
  | (Throw x, d, r) =>
    if String.eqb x JSONException
    then (setStatus HTTP_BAD_REQUEST ≫= λ _, send bad_json) d r
    else (setStatus HTTP_INTERNAL_SERVER_ERROR ≫= λ _,
          send ("500 Internal Server Error: " +:+ x)) d r
  | res => res
  end.

Definition has_integer (json : gmap string Var) (k : string) : bool :=
  if json !! k is Some v then isInteger v else false.
Definition has_boolean (json : gmap string Var) (k : string) : bool :=
  if json !! k is Some v then isBoolean v else false.
Definition get (json : gmap string Var) (k : string) : Var := default empty_var (json !! k).

(** [version_json]: what Poco prints of the version object. *)
Definition GetVersion (version_json : string) : M () := send version_json.

(** [others]: what happens to the monitor during the wait.  A request with wrong fields
    is answered, and then executed all the same. *)
Definition AcquireQuota (body : string) (others : Monitor.TaskMonitor → Monitor.TaskMonitor) : M () :=
  try_catch
    (json ← lift (parse_object body);
     _ ← (if negb (has_integer json "ms_to_wait") || negb (has_boolean json "lightweight") ||
             negb (has_integer json "requestor_pid")
          then setStatus HTTP_BAD_REQUEST ≫= λ _, send "非法参数"
          else mret ());
     ms_to_wait ← lift (to_uint32 (get json "ms_to_wait"));
     lightweight ← lift (to_bool (get json "lightweight"));
     requestor_pid ← lift (to_uint32 (get json "requestor_pid"));
     ok ← with_daemon (λ d,
            let '(ok, m) := Monitor.WaitForNewTask requestor_pid lightweight others (monitor d) in
            (ok, with_monitor m d));
     _ ← (if negb ok then setStatus HTTP_SERVICE_UNAVAILABLE else mret ());
     send "")
    "400 Bad Request: Invalid JSON format".

Definition ReleaseQuota (body : string) : M () :=
  try_catch
    (json ← lift (parse_object body);
     _ ← (if negb (has_integer json "requestor_pid")
          then setStatus HTTP_BAD_REQUEST ≫= λ _, send "400 Bad Request: Invalid arguments"
          else mret ());
     requestor_pid ← lift (to_uint32 (get json "requestor_pid"));
     _ ← with_daemon (λ d, ((), with_monitor (Monitor.DropTask requestor_pid (monitor d)).1 d));
     send "")
    "400 Bad Request: Invalid JSON format".

(** A request that does not parse is answered, and what was parsed of it is stored. *)
Definition SetFileDigest (body : string) : M () :=
  let '(error, req) := digest_of_json body in
  _ ← (if error is Some _ then setStatus HTTP_BAD_REQUEST ≫= λ _, send "解析请求失败" else mret ());
  _ ← with_daemon (λ d, ((), with_files
         (Files.Set_ (fd_path (sfd_file_desc req)) (fd_size (sfd_file_desc req))
            (fd_mtime (sfd_file_desc req)) (sfd_digest req) (files d)) d));
  send "".

(** [room] and [now]: what the dispatcher reads when the task is queued. *)
Definition SubmitCxxTask (body : string) (room : bool) (now : Z) : M () :=
  try_catch
    (parts ← lift (TryParseMultiChunk body);
     match parts with
     | None | Some [] => setStatus HTTP_BAD_REQUEST ≫= λ _, send "解析分块失败"
     | Some (front :: rest) =>
       let '(error, req) := submit_of_json front in
       if error is Some _ then setStatus HTTP_BAD_REQUEST ≫= λ _, send "解析json失败"
       else
         prepared ← (λ d r, (CxxDistTask_Prepare (files d) req rest CxxDistTask_init, d, r));
         let '(st, task) := prepared in
         if negb (bool_decide (st = Proto.OK))
         then setStatus HTTP_BAD_REQUEST ≫= λ _, send "prepare失败"
         else
           id ← (λ d r, let '(id, p) := QueueTask room task now (now + minutes 5) (disp d) in
                        (id, with_disp p d, r));
           send (json_of_submit id)
     end)
    "400 Bad Request: 非法json格式".

(** [others]: what happens to the dispatcher during the wait. *)
Definition WaitForTask (body : string)
    (others : TaskDispatcher CxxDistTask E → TaskDispatcher CxxDistTask E) : M () :=
  try_catch
    (let '(error, req) := wait_of_json body in
     if error is Some e then setStatus HTTP_BAD_REQUEST ≫= λ _, send ("解析请求失败: " +:+ e)
     else if secs 10 <? ms (wcx_ms_to_wait req)
     then setStatus HTTP_BAD_REQUEST ≫= λ _, send "等待时间过长 `ms_to_wait`"
     else
       result ← (λ d r,
         match LocalDispatch.WaitForTask (wcx_task_id req) others (disp d) with
         | Ret (t, st, p) => (Ret (t, st), with_disp p d, r)
         | Throw x => (Throw x, d, r)
         | Undef x => (Undef x, d, r)
         | Fatal x => (Fatal x, d, r)
         end);
       match result with
       | (None, st) =>
         _ ← match st with
             | Wait_Timeout => setStatus HTTP_SERVICE_UNAVAILABLE
             | Wait_NotFound => setStatus HTTP_NOT_FOUND
             | Wait_OK => mret ()
             end;
         send ""
       | (Some cxx_task, _) =>
         match CxxDistTask_GetOutput cxx_task with
         | Some (msg, bytes) => send (MakeMultiChunk (json_of_wait msg :: bytes))
         | None => setStatus HTTP_EXPECTATION_FAILED ≫= λ _, send ""
         end
       end)
    "400 Bad Request: json格式错误".

Definition AskToLeave : M () :=
  _ ← with_daemon (λ d, ((), {| monitor := monitor d; files := files d; disp := disp d;
                                 leaving := true |}));
  send "".

(** What a request brings with it, besides its body. *)
Record Input := {
  in_version_json : string;
  in_monitor_others : Monitor.TaskMonitor → Monitor.TaskMonitor;
  in_disp_others : TaskDispatcher CxxDistTask E → TaskDispatcher CxxDistTask E;
  in_room : bool;
  in_now : Z
}.

Definition handleRequest (m : Method) (uri body : string) (i : Input) : M () :=
  match route m uri with
  | Some H_GetVersion => GetVersion (in_version_json i)
  | Some H_AcquireQuota => AcquireQuota body (in_monitor_others i)
  | Some H_ReleaseQuota => ReleaseQuota body
  | Some H_SetFileDigest => SetFileDigest body
  | Some H_SubmitCxxTask => SubmitCxxTask body (in_room i) (in_now i)
  | Some H_WaitForTask => WaitForTask body (in_disp_others i)
  | Some H_AskToLeave => AskToLeave
  | None => setStatus HTTP_NOT_FOUND ≫= λ _, send "Distribuild: 404 Not Found"
  end.

(** The answer to a request on its own. *)
Definition serve (m : M ()) (d : Daemon) : outcome () * Daemon * list (Z * string) :=
  let '(o, d, r) := m d Response_init in (o, d, sends r).

(** * Theory *)

(** C31. A submission framed as the client frames it, with a source, is answered once: with
    the id of a task that carries exactly that source, and that the dispatcher holds;
    with 400, and no change, when the message is refused; and with 500 when the thread
    pool is exhausted, in which case the dispatcher holds a task that no thread will
    ever perform. *)
Theorem SubmitCxxTask_spec json src req d room now :
  json ≠ "" → src ≠ "" → ssize json + ssize src < LONG_MAX →
  submit_of_json json = (None, req) →
  let body := sconcat [MakeMultiChunkHeaderLine [json; src]; json; src] in
  match CxxDistTask_Prepare (files d) req [src] CxxDistTask_init with
  | Ret (Proto.OK, t) =>
    let '(id, p) := QueueTask room t now (now + minutes 5) (disp d) in
    d_source t = src ∧
    tasks_ p !! last_id p = Some (next_ptr (disp d)) ∧
    threads p !! next_ptr (disp d) = (if room then Some At_start else threads (disp d) !! next_ptr (disp d)) ∧
    serve (SubmitCxxTask body room now) d =
      (Ret (), with_disp p d,
       [if room then (HTTP_OK, json_of_submit (last_id p))
        else (HTTP_INTERNAL_SERVER_ERROR,
              "500 Internal Server Error: Poco::NoThreadAvailableException")])
  | _ => serve (SubmitCxxTask body room now) d = (Ret (), d, [(HTTP_BAD_REQUEST, "prepare失败")])
  end.
Proof.
  intros Hj Hs Hsz Hreq body.
  assert (Hp : TryParseMultiChunk body = Ret (Some [json; src])).
  { apply (MakeMultiChunkHeaderLine_roundtrip [json; src]); [by repeat constructor|]. cbn. lia. }
  unfold serve, SubmitCxxTask, try_catch, mbind, M_bind, lift. rewrite Hp, Hreq.
  destruct (CxxDistTask_Prepare _ _ _ _) as [[st t]|x|x|x] eqn:P.
  - assert (Hst : (st = Proto.OK ∧ d_source t = src) ∨ st = INVALID_ARGUMENT ∧ True).
    { revert P. unfold CxxDistTask_Prepare. destruct (_ || _); [intros [= <- _]; auto|].
      destruct (Files.TryGet _ _ _ _); [|intros [= <- _]; auto]. intros [= <- <-]. auto. }
    destruct Hst as [[-> Hsrc]|[-> _]]; [|done].
    destruct room; cbn; (split; [done|]); (split; [by rewrite lookup_insert_eq|]);
      rewrite ?lookup_insert_eq; done.
  - exfalso. revert P. unfold CxxDistTask_Prepare. repeat case_match; done.
  - exfalso. revert P. unfold CxxDistTask_Prepare. repeat case_match; done.
  - exfalso. revert P. unfold CxxDistTask_Prepare. repeat case_match; done.
Qed.

(** Waiting for a task over HTTP.  A finished task is answered once with a message that
    reads back as its result and its files, and is then forgotten; a task that is not
    finished is answered with 503 and nothing changes; an unknown one with 404; and a
    wait of more than ten seconds is refused. *)
Theorem WaitForTask_http `{!AutoReset E} n body req d :
  reachable n (disp d) → n < 2 ^ 64 → wait_of_json body = (None, req) →
  let id := wcx_task_id req in
  let reply := serve (WaitForTask body (λ p, p)) d in
  if secs 10 <? ms (wcx_ms_to_wait req)
  then reply = (Ret (), d, [(HTTP_BAD_REQUEST, "等待时间过长 `ms_to_wait`")])
  else
    match tasks_ (disp d) !! id with
    | None => reply = (Ret (), d, [(HTTP_NOT_FOUND, "")])
    | Some p => ∃ td, desc_heap (disp d) !! p = Some td ∧
      if decide (state td = Done)
      then
        let out := RebuildOutput (output td) in
        let parts := json_of_wait out.1 :: out.2 in
        (∃ d', reply = (Ret (), d', [(HTTP_OK, MakeMultiChunk parts)]) ∧
               tasks_ (disp d') !! id = None) ∧
        (Forall (λ s, s ≠ "") parts → Zsum (ssize <$> parts) < LONG_MAX →
         TryParseMultiChunk (MakeMultiChunk parts) = Ret (Some parts))
      else reply = (Ret (), d, [(HTTP_SERVICE_UNAVAILABLE, "")])
    end.
Proof.
  intros R Hn Hreq id reply. pose proof (run_Inv _ _ R Hn) as I.
  assert (Hreply : reply = serve (WaitForTask body (λ p, p)) d) by done. clearbody reply.
  unfold serve, WaitForTask, try_catch, mbind, M_bind in Hreply. rewrite Hreq in Hreply.
  destruct (secs 10 <? _); [done|].
  unfold LocalDispatch.WaitForTask, WaitForTask_find in Hreply. fold id in Hreply.
  destruct (tasks_ (disp d) !! id) as [p|] eqn:Hid.
  2: { subst reply. cbn. by destruct d. }
  destruct (inv_tasks _ _ I _ _ Hid) as (td & Htd & Hi & [t Ht]). exists td. split; [done|].
  destruct (inv_heap _ _ I _ _ Htd) as (_ & _ & O). pose proof (ok_state _ _ O) as St.
  assert (HD : state td = Done ↔ threads (disp d) !! p = Some At_end).
  { split; [|by intros Hx; rewrite Hx in St].
    intros Hx. rewrite Hx in St. destruct (threads (disp d) !! p) as [[]|]; cbn in St; by destruct_and?. }
  destruct (WaitForTask_event_cases n (disp d) id p td I Htd Hi)
    as [(t' & e & Hth & Ht' & _ & W)|[Hno W]]; rewrite W in Hreply.
  - rewrite decide_True by (by apply HD). split; [|apply MakeMultiChunk_parse].
    destruct (ok_output _ _ O t' Hth Ht') as [t0 ->]. subst reply. cbn.
    destruct (RebuildOutput (output td)) as [msg bytes]. eexists. split; [reflexivity|].
    cbn. apply lookup_delete_eq.
  - rewrite decide_False by (intros Hx%HD; by apply Hno; eauto). subst reply. cbn.
    rewrite with_task_same, insert_id by done. destruct d as [m f s l]. by destruct s.
Qed.

(** A request with wrong fields is answered with 400 and then executed, so that it is
    answered a second time: by [AcquireQuota] and [ReleaseQuota] when a field is
    missing, by [SetFileDigest] when the message does not parse, which then also stores
    a digest. *)
Theorem bad_request_replied_twice body others d :
  (∀ json o d' l, parse_object body = Ret json →
     has_integer json "requestor_pid" = false →
     serve (AcquireQuota body others) d = (o, d', l) → benign o →
     (2 ≤ length l)%nat ∧ ∃ text, head l = Some (HTTP_BAD_REQUEST, text)) ∧
  (∀ json o d' l, parse_object body = Ret json →
     has_integer json "requestor_pid" = false →
     serve (ReleaseQuota body) d = (o, d', l) → benign o →
     (2 ≤ length l)%nat ∧ ∃ text, head l = Some (HTTP_BAD_REQUEST, text)) ∧
  (∀ error req, digest_of_json body = (Some error, req) →
     ∃ l, serve (SetFileDigest body) d =
       (Ret (), with_files (Files.Set_ (fd_path (sfd_file_desc req)) (fd_size (sfd_file_desc req))
                  (fd_mtime (sfd_file_desc req)) (sfd_digest req) (files d)) d, l) ∧
       length l = 2%nat ∧ ∃ text, head l = Some (HTTP_BAD_REQUEST, text)).
Proof.
  split_and!.
  - intros json o d' l Hp Hf. unfold serve, AcquireQuota, try_catch, with_daemon, mbind, M_bind, lift.
    rewrite Hp, Hf, orb_true_r. cbn.
    destruct (to_uint32 (get json "ms_to_wait")) as [a|x|x|x]; cbn;
      [|destruct (String.eqb x _); intros [= <- <- <-] _; cbn; eauto
       |by intros [= <- <- <-]..].
    destruct (to_bool (get json "lightweight")) as [b|x|x|x]; cbn;
      [|destruct (String.eqb x _); intros [= <- <- <-] _; cbn; eauto
       |by intros [= <- <- <-]..].
    destruct (to_uint32 (get json "requestor_pid")) as [pid|x|x|x]; cbn;
      [|destruct (String.eqb x _); intros [= <- <- <-] _; cbn; eauto
       |by intros [= <- <- <-]..].
    destruct (Monitor.WaitForNewTask pid b others _) as [[] m]; cbn;
      intros [= <- <- <-] _; cbn; eauto.
  - intros json o d' l Hp Hf. unfold serve, ReleaseQuota, try_catch, mbind, M_bind, lift.
    rewrite Hp, Hf. cbn.
    destruct (to_uint32 (get json "requestor_pid")) as [pid|x|x|x]; cbn;
      [intros [= <- <- <-] _; cbn; eauto
      |destruct (String.eqb x _); intros [= <- <- <-] _; cbn; eauto
      |by intros [= <- <- <-]..].
  - intros error req Hd. unfold serve, SetFileDigest. rewrite Hd. cbn. eauto.
Qed.
End http.

(** * Witnesses *)

Definition demo_var : Var := {|
  isInteger := true; isBoolean := true; to_uint32 := Ret 5; to_bool := Ret true |}.
Definition demo_empty : Var := {|
  isInteger := false; isBoolean := false; to_uint32 := Throw "Poco::InvalidAccessException";
  to_bool := Throw "Poco::InvalidAccessException" |}.
Definition demo_submit : SubmitCxxTaskRequest := {|
  sct_requestor_pid := 5; sct_source_path := "a.cc"; sct_source_digest := "68";
  sct_cache_control := 1; sct_compiler_args := "-c";
  sct_compiler := {| fd_path := "/usr/bin/gcc"; fd_size := 1; fd_mtime := 2 |} |}.
Definition demo_http : Daemon (E := bool) := {|
  monitor := Monitor.TaskMonitor_init 4 8;
  files := Files.Set_ "/usr/bin/gcc" 1 2 "gcc" Files.FileCache_init;
  disp := demo_queued; leaving := false |}.

Lemma SubmitCxxTask_spec_witness :
  ∃ t, CxxDistTask_Prepare (files demo_http) demo_submit ["src"] CxxDistTask_init = Ret (Proto.OK, t) ∧
  serve (SubmitCxxTask (λ _, (None, demo_submit)) (λ _, "id")
           (sconcat [MakeMultiChunkHeaderLine ["{}"; "src"]; "{}"; "src"]) false 0) demo_http =
  (Ret (), with_disp (QueueTask false t 0 (minutes 5) (disp demo_http)).2 demo_http,
   [(500, "500 Internal Server Error: Poco::NoThreadAvailableException")]).
Proof.
  eexists. split; [reflexivity|].
  refine (proj2 (proj2 (proj2 (SubmitCxxTask_spec (λ _, (None, demo_submit)) (λ _, "id") "{}" "src"
    demo_submit demo_http false 0 _ _ _ eq_refl)))); done.
Defined.

Lemma WaitForTask_http_witness :
  serve (WaitForTask (E := bool) (λ _, (None, {| wcx_task_id := 2; wcx_ms_to_wait := 10 |})) (λ _, "r")
    "" (λ p, p)) demo_http = (Ret (), demo_http, [(404, "")]).
Proof.
  exact (WaitForTask_http DaemonService.demo_hash 4 (λ _, (None, {| wcx_task_id := 2; wcx_ms_to_wait := 10 |}))
    (λ _, "r") 1 "" _ demo_http demo_queued_reachable eq_refl eq_refl).
Defined.

Lemma bad_request_replied_twice_witness :
  (2 ≤ length (serve (ReleaseQuota (E := bool) (λ _, Ret ∅) demo_empty "{}") demo_http).2)%nat.
Proof.
  exact (proj1 (proj1 (proj2 (bad_request_replied_twice (λ _, Ret ∅) demo_empty
    (λ _, (None, {| sfd_file_desc := {| fd_path := ""; fd_size := 0; fd_mtime := 0 |};
                    sfd_digest := "" |})) "{}" (λ m, m) demo_http)) ∅ _ _ _ eq_refl eq_refl eq_refl I)).
Defined.
