(* ===== verification/ClientArgs.v ===== *)
(** The client's command line: src/distribuild/client/cxx/compiler_args.{h,cpp},
    src/distribuild/client/common/rewritten_args.{h,cpp} and, from
    src/distribuild/client/client.cpp, the tests on the arguments. *)
From S2P Require Import Prelude Text.

(** * compiler_args.cpp *)

(** Options whose value is the next argument. *)
Definition kOneValueArguments : list string := [
  "-o"; "-x"; "-dyld-prefix"; "-gcc-toolchain"; "--param"; "--sysroot";
  "--system-header-prefix"; "-target"; "--assert"; "--allowable_client"; "-arch";
  "-arch_only"; "-arcmt-migrate-report-output"; "--prefix"; "-bundle_loader";
  "-dependency-dot"; "-dependency-file"; "-dylib_file"; "-exported_symbols_list";
  "--bootclasspath"; "--CLASSPATH"; "--classpath"; "--resource"; "--encoding"; "--extdirs";
  "-filelist"; "-fmodule-implementation-of"; "-fmodule-name"; "-fmodules-user-build-path";
  "-fnew-alignment"; "-force_load"; "--output-class-directory"; "-framework";
  "-frewrite-map-file"; "-ftrapv-handler"; "-image_base"; "-init"; "-install_name";
  "-lazy_framework"; "-lazy_library"; "-meabi"; "-mhwdiv"; "-mllvm";
  "-module-dependency-dir"; "-mthread-model"; "-multiply_defined";
  "-multiply_defined_unused"; "-rpath"; "--rtlib"; "-seg_addr_table";
  "-seg_addr_table_filename"; "-segs_read_only_addr"; "-segs_read_write_addr";
  "-serialize-diagnostics"; "--serialize-diagnostics"; "-std"; "--stdlib"; "--force-link";
  "-umbrella"; "-unexported_symbols_list"; "-weak_library"; "-weak_reference_mismatches";
  "-B"; "-D"; "-U"; "-I"; "-i"; "--include-directory"; "-L"; "-l"; "--library-directory";
  "-MF"; "-MT"; "-MQ"; "-cxx-isystem"; "-c-isystem"; "-idirafter";
  "--include-directory-after"; "-iframework"; "-iframeworkwithsysroot"; "-imacros";
  "-imultilib"; "-iprefix"; "--include-prefix"; "-iquote"; "-include"; "-include-pch";
  "-isysroot"; "-isystem"; "-isystem-after"; "-ivfsoverlay"; "-iwithprefix";
  "--include-with-prefix"; "--include-with-prefix-after"; "-iwithprefixbefore";
  "--include-with-prefix-before"; "-iwithsysroot" ].

Definition takes_value (arg : string) : bool := bool_decide (arg ∈ kOneValueArguments).
Definition is_option (arg : string) : bool := bool_decide (String.get 0 arg = Some "-"%char).

(** An option with its values; [None] is the null pointer behind the last argument. *)
Definition OptionArgs : Type := list (option string).

Record CompilerArgs := {
  compiler_ : string;
  args_ : list (string * OptionArgs);
  filenames_ : list string;
  rebuilt_arg_ : string
}.

(** The loop of the constructor. *)
Fixpoint parse_args (argv : list string) : list (string * OptionArgs) * list string :=
  match argv with
  | [] => ([], [])
  | arg :: argv =>
    if takes_value arg then
      match argv with
      | [] => ([(arg, [None])], [])
      | v :: argv => let '(args, files) := parse_args argv in ((arg, [Some v]) :: args, files)
      end
    else
      let '(args, files) := parse_args argv in
      if is_option arg then ((arg, []) :: args, files) else (args, arg :: files)
  end.

(** [CompilerArgs::CompilerArgs]: [pop_back] of an empty string is undefined. *)
Definition CompilerArgs_make (argv : list string) : outcome CompilerArgs :=
  let '(args, files) := parse_args argv in
  let rebuilt := sconcat ((λ a, EscapeCommandArgument a +:+ " ") <$> argv) in
  if String.eqb rebuilt "" then Undef "pop_back of an empty string"
  else Ret {| compiler_ := ""; args_ := args; filenames_ := files;
              rebuilt_arg_ := spop_back rebuilt |}.

Definition SetCompiler (path : string) (a : CompilerArgs) : CompilerArgs := {|
  compiler_ := path; args_ := args_ a; filenames_ := filenames_ a;
  rebuilt_arg_ := rebuilt_arg_ a |}.

Definition RebuiltArg (a : CompilerArgs) : string := compiler_ a +:+ " " +:+ rebuilt_arg_ a.

Definition TryGet (key : string) (a : CompilerArgs) : option OptionArgs :=
  snd <$> find (λ kv, String.eqb kv.1 key) (args_ a).

(** A [std::string] of a null pointer throws. *)
Definition to_string (v : option string) : outcome string :=
  if v is Some s then Ret s else Throw "std::logic_error".

(** [find_last_of]. *)
Fixpoint find_last_of (c : ascii) (s : string) : option nat :=
  match s with
  | "" => None
  | String x s =>
    match find_last_of c s with
    | Some i => Some (S i)
    | None => if decide (x = c) then Some O else None
    end
  end.

(** [front] of an empty span and index 0 of an empty vector are undefined.  A slash at
    offset 0 is taken for no slash; no slash at all gives [npos + 1], which is 0. *)
Definition GetOutputFile (a : CompilerArgs) : outcome string :=
  match TryGet "-o" a with
  | Some (v :: _) => to_string v
  | Some [] => Undef "front of an empty span"
  | None =>
    match filenames_ a with
    | [] => Undef "index 0 of an empty vector"
    | filename :: _ =>
      let path := if find_last_of "." filename is Some i then stake i filename else filename in
      let path := match find_last_of "/" path with
                  | Some (S i) => sdrop (S (S i)) path
                  | _ => path
                  end in
      Ret (path +:+ ".o")
    end
  end.

(** * rewritten_args.{h,cpp} *)

Record RewrittenArgs := { program_ : string; rargs_ : list string }.

Definition ToString (r : RewrittenArgs) : string :=
  program_ r +:+ sconcat ((λ e, " " +:+ e) <$> rargs_ r).

Definition ToCommandLine (with_program : bool) (r : RewrittenArgs) : string :=
  let result := (if with_program then program_ r +:+ " " else "") +:+
                sconcat ((λ e, EscapeCommandArgument e +:+ " ") <$> rargs_ r) in
  spop_back result.

(** ** CompilerArgs::Rewrite *)

Definition removed (remove remove_prefix : list string) (key : string) : bool :=
  bool_decide (key ∈ remove) || existsb (λ p, StartWith key p) remove_prefix.

(** The values of one option. *)
Fixpoint push_values (vs : OptionArgs) : outcome (list string) :=
  match vs with
  | [] => Ret []
  | v :: vs => s ← to_string v; rest ← push_values vs; Ret (s :: rest)
  end.

Fixpoint kept_args (remove remove_prefix : list string) (args : list (string * OptionArgs))
    : outcome (list string) :=
  match args with
  | [] => Ret []
  | (k, v) :: args =>
    if removed remove remove_prefix k then kept_args remove remove_prefix args
    else
      vs ← push_values v;
      rest ← kept_args remove remove_prefix args;
      Ret (k :: vs ++ rest)
  end.

Definition Rewrite (remove remove_prefix add : list string) (keep_filenames : bool)
    (a : CompilerArgs) : outcome RewrittenArgs :=
  kept ← kept_args remove remove_prefix (args_ a);
  Ret {| program_ := compiler_ a;
         rargs_ := kept ++ add ++ (if keep_filenames then filenames_ a else []) |}.

(** * client.cpp *)

Definition has (key : string) (a : CompilerArgs) : bool := bool_decide (is_Some (TryGet key a)).

Definition IsDistributable (a : CompilerArgs) : bool :=
  if negb (has "-c" a) then false
  else if has "-" a then false
  else
    match filenames_ a with
    | [f] => negb (EndWith f ".s" || EndWith f ".S")
    | _ => false
    end.

Definition IsLightweight (a : CompilerArgs) : bool :=
  existsb (λ e, has e a) ["-dumpversion"; "-dumpmachine"; "-E"].

(** * Theory *)

(** The arguments of options and their values, as they are written. *)
Definition flat (args : list (string * OptionArgs)) : list string :=
  args ≫= λ kv, kv.1 :: omap id kv.2.

(** An option as the parser makes it, with all of its values. *)
Definition well_formed (kv : string * OptionArgs) : Prop :=
  (∃ v, kv.2 = [Some v] ∧ takes_value kv.1 = true) ∨
  (kv.2 = [] ∧ takes_value kv.1 = false ∧ is_option kv.1 = true).

(** No option at the end is without its value. *)
Definition complete_args (argv : list string) : Prop :=
  Forall (λ kv, kv.2 ≠ [None]) (parse_args argv).1.

Lemma parse_args_well_formed argv :
  complete_args argv → Forall well_formed (parse_args argv).1.
Proof.
  unfold complete_args. remember (length argv) as n eqn:Hn.
  assert (Hle : (length argv ≤ n)%nat) by lia. clear Hn. revert argv Hle.
  induction n as [|n IH]; intros [|a argv] Hle; cbn; try (by constructor); [cbn in Hle; lia|].
  cbn in Hle. destruct (takes_value a) eqn:T.
  - destruct argv as [|v argv]; cbn; [intros [H _]%Forall_cons; done|].
    cbn in Hle. specialize (IH argv ltac:(lia)). destruct (parse_args argv) as [args files]. cbn in *.
    intros [_ H]%Forall_cons. constructor; [left; eauto|by apply IH].
  - specialize (IH argv ltac:(lia)). destruct (parse_args argv) as [args files]. cbn in *.
    destruct (is_option a) eqn:O; cbn; [|apply IH].
    intros [_ H]%Forall_cons. constructor; [right; eauto|by apply IH].
Qed.

Lemma parse_args_files argv :
  Forall (λ f, takes_value f = false ∧ is_option f = false) (parse_args argv).2.
Proof.
  remember (length argv) as n eqn:Hn. assert (Hle : (length argv ≤ n)%nat) by lia. clear Hn.
  revert argv Hle. induction n as [|n IH]; intros [|a argv] Hle; cbn; try (by constructor);
    [cbn in Hle; lia|]. cbn in Hle. destruct (takes_value a) eqn:T.
  - destruct argv as [|v argv]; [by constructor|]. cbn in Hle.
    specialize (IH argv ltac:(lia)). by destruct (parse_args argv).
  - specialize (IH argv ltac:(lia)). destruct (parse_args argv). destruct (is_option a) eqn:O; cbn;
      [done|]. by constructor.
Qed.

Lemma parse_flat args rest :
  Forall well_formed args →
  parse_args (flat args ++ rest) = (args ++ (parse_args rest).1, (parse_args rest).2).
Proof.
  induction 1 as [|[k vs] args Hw Hf IH]; [change (flat [] ++ rest) with rest; by destruct (parse_args rest)|].
  destruct Hw as [(v & Hv & T)|(Hv & T & O)]; cbn in Hv, T; subst vs; cbn.
  - rewrite T. change (parse_args (omap id [] ++ _)) with (parse_args (flat args ++ rest)).
    unfold flat in IH. by rewrite IH.
  - rewrite T. unfold flat in IH. rewrite IH. cbn in O. by rewrite O.
Qed.

Lemma parse_files files :
  Forall (λ f, takes_value f = false ∧ is_option f = false) files →
  parse_args files = ([], files).
Proof. induction 1 as [|f files [T O] _ IH]; [done|]. cbn. by rewrite T, IH, O. Qed.

Lemma push_values_well_formed k vs :
  well_formed (k, vs) → push_values vs = Ret (omap id vs).
Proof. intros [(v & Hv & _)|(Hv & _)]; cbn in Hv; subst vs; reflexivity. Qed.

Lemma kept_args_flat remove prefix args :
  Forall well_formed args →
  kept_args remove prefix args =
    Ret (flat (filter (λ kv, removed remove prefix kv.1 = false) args)).
Proof.
  induction 1 as [|[k vs] args Hw Hf IH]; [done|]. cbn [kept_args]. rewrite filter_cons. cbn [fst].
  destruct (removed remove prefix k) eqn:R; [by rewrite decide_False|].
  rewrite decide_True by done. rewrite (push_values_well_formed k vs Hw), IH. done.
Qed.

(** Options without values, and files, are read as they are. *)
Lemma parse_options add fs :
  Forall (λ e, takes_value e = false ∧ is_option e = true) add →
  Forall (λ f, takes_value f = false ∧ is_option f = false) fs →
  parse_args (add ++ fs) = ((λ e, (e, [])) <$> add, fs).
Proof.
  intros Hadd Hfs. induction Hadd as [|e add [T O] _ IH]; [by apply parse_files|].
  cbn. rewrite T, IH. by rewrite O.
Qed.

(** C38. Rewriting a command line whose options all have their values removes exactly the
    options that are named or have one of the prefixes, together with their values: read
    back, the rewritten command has the remaining options in their order, then what the added
    arguments and the kept files read as.  Added options without values are themselves, and
    the files those of before.  What the client adds for the cloud (compilition.cpp:45-48) is
    not only such options: its -x takes the language, and an argument that is left empty
    because not only directives were processed reads back as a file without a name (the
    command line, in which an empty argument is written as nothing, loses it). *)
Theorem Rewrite_spec argv a remove prefix add keep :
  CompilerArgs_make argv = Ret a → complete_args argv →
  let kept := filter (λ kv, removed remove prefix kv.1 = false) (args_ a) in
  ∃ r, Rewrite remove prefix add keep a = Ret r ∧ program_ r = compiler_ a ∧
    (let '(args, files) := parse_args (add ++ (if keep then filenames_ a else [])) in
     parse_args (rargs_ r) = (kept ++ args, files)) ∧
    (Forall (λ e, takes_value e = false ∧ is_option e = true) add →
     parse_args (rargs_ r) =
       (kept ++ ((λ e, (e, [])) <$> add), if keep then filenames_ a else [])) ∧
    (∀ only language, keep = false →
     add = ["-fpreprocessed"; if (only : bool) then "-fdirectives-only" else ""; "-x"; language; "-"] →
     parse_args (rargs_ r) =
       (kept ++ ("-fpreprocessed", []) :: (if only then [("-fdirectives-only", [])] else []) ++
                [("-x", [Some language]); ("-", [])],
        if only then [] else [""])).
Proof.
  intros Ha Hc kept. unfold CompilerArgs_make in Ha.
  pose proof (parse_args_well_formed argv Hc) as Hw. pose proof (parse_args_files argv) as Hf.
  destruct (parse_args argv) as [args files]. cbn in Hw, Hf.
  destruct (String.eqb _ ""); [done|]. injection Ha as <-.
  unfold Rewrite, kept. cbn [args_ compiler_ filenames_]. rewrite kept_args_flat by done.
  cbn [mbind outcome_bind]. eexists. split; [done|]. split; [done|]. cbn [rargs_].
  rewrite parse_flat.
  2: { apply Forall_forall. intros x [_ Hx]%list_elem_of_filter. by eapply Forall_forall in Hx. }
  split; [by destruct (parse_args (add ++ _))|]. split.
  - intros Hadd. rewrite parse_options by (destruct keep; [done|constructor] || done). done.
  - intros only language -> ->. by destruct only.
Qed.

(** * Witness *)

Definition demo_argv : list string := ["-c"; "-O2"; "-I"; "inc"; "-o"; "a.o"; "a.cc"].
Definition demo_args : CompilerArgs :=
  if CompilerArgs_make demo_argv is Ret a then SetCompiler "/usr/bin/g++" a
  else {| compiler_ := ""; args_ := []; filenames_ := []; rebuilt_arg_ := "" |}.

Lemma Rewrite_spec_witness :
  ∃ a r, CompilerArgs_make demo_argv = Ret a ∧ Rewrite ["-o"] ["-I"] ["-E"] true a = Ret r ∧
    parse_args (rargs_ r) = ([("-c", []); ("-O2", []); ("-E", [])], ["a.cc"]).
Proof.
  destruct (CompilerArgs_make demo_argv) as [a|x|x|x] eqn:E;
    [|vm_compute in E; discriminate E..].
  destruct (Rewrite_spec demo_argv a ["-o"] ["-I"] ["-E"] true E) as (r & Hr & _ & _ & Hp & _).
  - vm_compute. repeat constructor; discriminate.
  - exists a, r. split; [reflexivity|]. split; [exact Hr|]. rewrite Hp by repeat constructor.
    vm_compute in E. injection E as <-. reflexivity.
Defined.
