(* ===== verification/Client.v ===== *)
(** The client: src/distribuild/client/client.cpp, client/cxx/rewrite_file.cpp,
    client/cxx/compilition.cpp, client/common/task_quota.cpp,
    client/common/utility.cpp and client/common/config.cpp.

    A run of the client is a function of an [Oracle]: what the daemon answers to each
    HTTP call, what each child process gives and what the clock reads, by the number of
    the interaction.  The interactions are logged.  The loops that only the daemon can
    end take fuel: a run that is still waiting when it is used up is [Waiting].
    The compressor, the hash and the JSON library are parameters. *)
From S2P Require Import Prelude Text MultiChunk DistTask ClientArgs.

Inductive CacheControl := Disallow | Allow | Refill | OtherControl (z : Z).

#[export] Instance CacheControl_eq_dec : EqDecision CacheControl.
Proof. solve_decision. Defined.

Definition control_of (z : Z) : CacheControl :=
  if z =? 0 then Disallow else if z =? 1 then Allow else if z =? 2 then Refill
  else OtherControl z.
Definition control_value (c : CacheControl) : Z :=
  match c with Disallow => 0 | Allow => 1 | Refill => 2 | OtherControl z => z end.

(** [GetCacheControl]: the environment variable, through [std::stoi]. *)
Definition GetCacheControl (CACHE_CONTROL : option string) : outcome CacheControl :=
  match CACHE_CONTROL with
  | None => Ret Allow
  | Some env => z ← stol env;
                if (z <? - 2 ^ 31) || (2 ^ 31 - 1 <? z) then Throw "std::out_of_range"
                else Ret (control_of z)
  end.

(** * utility.cpp *)

Definition GetBaseName (name : string) : string :=
  if find_last_of "/" name is Some i then sdrop (S i) name else name.

Definition GetRealPath (realpath : string → option string) (name : string) : string :=
  default "" (realpath name).

Definition GetSelfExecutable (realpath : string → option string) : string :=
  GetRealPath realpath "/proc/self/exe".

(** [exists_]: whether [lstat] succeeds.  Not finding anything ends the process. *)
Fixpoint find_in_dirs (realpath : string → option string) (exists_ : string → bool) (self : string)
    (filt : string → bool) (executable : string) (dirs : list string) : outcome string :=
  match dirs with
  | [] => Fatal "Failed to find executable file"
  | dir :: dirs =>
    let file := dir +:+ "/" +:+ executable in
    let real_path := GetRealPath realpath file in
    if exists_ file && negb (String.eqb real_path self) && filt real_path then Ret file
    else find_in_dirs realpath exists_ self filt executable dirs
  end.

(** The directories: the pieces of PATH between colons, empty ones too. *)
Fixpoint path_dirs (path : string) : list string :=
  match path with
  | "" => [""]
  | String c path =>
    if decide (c = ":"%char) then "" :: path_dirs path
    else match path_dirs path with
         | d :: ds => String c d :: ds
         | [] => []
         end
  end.

(** An unset PATH is a null pointer. *)
Definition FindExecutableInPath (realpath : string → option string) (exists_ : string → bool)
    (PATH : option string) (executable : string) (filt : string → bool) : outcome string :=
  match PATH with
  | None => Undef "strchr of a null pointer"
  | Some path =>
    find_in_dirs realpath exists_ (GetSelfExecutable realpath) filt executable (path_dirs path)
  end.

(** * Data *)

Record RewriteResult := {
  directives_only : bool;
  cache_control : CacheControl;
  language : string;
  source_path : string;
  zstd_rewritten : string;
  source_digest : string
}.

Record CompileResult := {
  exit_code : Z;
  std_out : string;
  std_err : string;
  output_files : list (string * string)
}.

Definition failed : CompileResult :=
  {| exit_code := -1; std_out := ""; std_err := ""; output_files := [] |}.

(** * Interactions *)

Inductive HttpRequest :=
  | acquire_quota (ms_to_wait : Z) (lightweight : bool) (requestor_pid : Z)
  | release_quota (requestor_pid : Z)
  | submit_cxx_task (chunks : list string)
  | set_file_digest (desc : FileDesc) (digest : string)
  | wait_for_cxx_task (task_id ms_to_wait : Z).

Record HttpReply := { http_status : Z; http_body : string }.

Record Oracle := {
  o_http : nat → HttpRequest → option HttpReply;        (* [None]: no response *)
  o_command : nat → RewrittenArgs → Z * string;         (* exit code and output *)
  o_native : nat → Z                                    (* exit code *)
}.

Inductive Event :=
  | E_http (r : HttpRequest)
  | E_command (c : RewrittenArgs)
  | E_native (program : string) (argv : list string)
  | E_print (out err : string)
  | E_write (path content : string).

(** A run: its result, or where it ended, with the log (first event first). *)
Inductive Result (A : Type) :=
  | Finished (a : A)
  | Waiting
  | Crashed (why : outcome Empty_set).
Arguments Finished {A} _.
Arguments Waiting {A}.
Arguments Crashed {A} _.

Definition C (A : Type) : Type := Oracle → list Event → Result A * list Event.

#[export] Instance C_ret : MRet C := λ A a o l, (Finished a, l).
#[export] Instance C_bind : MBind C := λ A B f m o l,
  match m o l with
  | (Finished a, l) => f a o l
  | (Waiting, l) => (Waiting, l)
  | (Crashed e, l) => (Crashed e, l)
  end.

Definition lift {A} (m : outcome A) : C A := λ o l,
  match m with
  | Ret a => (Finished a, l)
  | Throw x => (Crashed (Throw x), l)
  | Undef x => (Crashed (Undef x), l)
  | Fatal x => (Crashed (Fatal x), l)
  end.
Definition log (e : Event) : C () := λ o l, (Finished (), l ++ [e]).
Definition http (r : HttpRequest) : C (option HttpReply) := λ o l,
  (Finished (o_http o (length l) r), l ++ [E_http r]).
Definition command (c : RewrittenArgs) : C (Z * string) := λ o l,
  (Finished (o_command o (length l) c), l ++ [E_command c]).
Definition native (program : string) (argv : list string) : C Z := λ o l,
  (Finished (o_native o (length l)), l ++ [E_native program argv]).
Definition waiting {A} : C A := λ o l, (Waiting, l).

(** What is fixed for a run. *)
Record Env := {
  pid : Z;
  control : CacheControl;                       (* [GetCacheControl()] *)
  mtime_size : Z * Z;                           (* of the compiler *)
  compiler_content : option string              (* of the compiler's file *)
}.

Section client.
Context (blake3 : string → string) (ZSTDCompress : string → string).
Context (ZSTDDecompress : string → option string).
(** jsoncpp: the written request, and what is read of the two replies: no JSON, or the
    member [task_id] if it is a string; the result message. *)
Context (json_of_submit : SubmitCxxTaskRequest → string).
Context (task_id_of_json : string → option (option string)).
Context (result_of_json : string → option WaitForCXXTaskResponse).
Context (env : Env).

(** * task_quota.cpp *)

Definition ReleaseTaskQuota : C () := http (release_quota (pid env)) ≫= λ _, mret ().

(** [timeout] is in seconds and goes out as milliseconds.  Whether there is a quota. *)
Definition TryAcquireTaskQuota (lightweight : bool) (timeout : Z) : C bool :=
  reply ← http (acquire_quota timeout lightweight (pid env));
  mret (if reply is Some r then http_status r =? 200 else false).

(** The loop has no other end than a quota. *)
Fixpoint AcquireTaskQuota (fuel : nat) (lightweight : bool) : C () :=
  match fuel with
  | O => waiting
  | S fuel =>
    acquired ← TryAcquireTaskQuota lightweight 10;
    if (acquired : bool) then mret () else AcquireTaskQuota fuel lightweight
  end.

(** * rewrite_file.cpp *)

Definition DetermineLanguage (args : CompilerArgs) : outcome (option string) :=
  match TryGet "-x" args with
  | Some (v :: _) => x ← to_string v; Ret (Some x)
  | Some [] => Undef "front of an empty span"
  | None =>
    match filenames_ args with
    | [] => Undef "index 0 of an empty vector"
    | f :: _ =>
      if EndWith f ".cc" || EndWith f ".cpp" || EndWith f ".cxx" then Ret (Some "c++")
      else if EndWith f ".c" then Ret (Some "c")
      else Ret None
    end
  end.

(** The compressed output and the digest of the preprocessor's output. *)
Definition TryRewriteFileWithCommandLine (cmdline : RewrittenArgs) (cntl : CacheControl)
    : C (option (string * CacheControl * string)) :=
  r ← command cmdline;
  let '(code, output) := r in
  mret (if code =? 0
        then Some (ZSTDCompress output, cntl,
                   if decide (cntl = Disallow) then "" else EncodeHex (blake3 output) false)
        else None).

Definition rewrite_remove : list string := ["-c"; "-o"; "-fworking-directory"].

Definition RewriteFile (fuel : nat) (args : CompilerArgs) : C (option RewriteResult) :=
  language ← lift (DetermineLanguage args);
  match language with
  | None => mret None
  | Some language =>
    _ ← AcquireTaskQuota fuel true;
    let result only r :=
      let '(rewritten, cntl, digest) := r in
      {| directives_only := only; cache_control := cntl; language := language;
         source_path := default "" (head (filenames_ args)); zstd_rewritten := rewritten;
         source_digest := digest |} in
    cmd ← lift (Rewrite rewrite_remove [] ["-fno-working-directory"; "-E"; "-fdirectives-only"]
                  true args);
    opt ← TryRewriteFileWithCommandLine cmd (control env);
    match opt with
    | Some r => _ ← ReleaseTaskQuota; mret (Some (result true r))
    | None =>
      cmd ← lift (Rewrite rewrite_remove [] ["-fno-working-directory"; "-E"] true args);
      opt ← TryRewriteFileWithCommandLine cmd (control env);
      _ ← ReleaseTaskQuota;
      mret (result false <$> opt)
    end
  end.

(** * compilition.cpp *)

Definition kIgnoreCloudArgs : list string :=
  ["-MMD"; "-MF"; "-MD"; "-MT"; "-MP"; "-o"; "-Wmissing-include-dirs"].
Definition kIgnoreCloudPrefixes : list string :=
  ["-Wp,-MMD"; "-Wp,-MF"; "-Wp,-MD"; "-Wp,-MD"; "-Wp,-MP"; "-I"; "-include"; "-isystem"].

Definition cloud_args (args : CompilerArgs) (rewritten : RewriteResult) : outcome string :=
  r ← Rewrite kIgnoreCloudArgs kIgnoreCloudPrefixes
        ["-fpreprocessed"; if directives_only rewritten then "-fdirectives-only" else "";
         "-x"; language rewritten; "-"] false args;
  Ret (ToCommandLine false r).

Definition compiler_desc (args : CompilerArgs) : FileDesc := {|
  fd_path := compiler_ args; fd_size := (mtime_size env).2; fd_mtime := (mtime_size env).1 |}.

Definition submit_request (args : CompilerArgs) (rewritten : RewriteResult) (cmdline : string)
    : SubmitCxxTaskRequest := {|
  sct_requestor_pid := pid env; sct_source_path := source_path rewritten;
  sct_source_digest := source_digest rewritten;
  sct_cache_control := control_value (cache_control rewritten);
  sct_compiler_args := cmdline; sct_compiler := compiler_desc args |}.

Definition submit_chunks (args : CompilerArgs) (rewritten : RewriteResult) (cmdline : string)
    : list string :=
  let parts := [json_of_submit (submit_request args rewritten cmdline); zstd_rewritten rewritten] in
  MakeMultiChunkHeaderLine parts :: parts.

(** What the reply of a submission says; other statuses than 200 are refusals. *)
Definition submitted_id (reply : HttpReply) : outcome (option Z) :=
  if http_status reply =? 200 then
    match task_id_of_json (http_body reply) with
    | Some (Some id) => z ← stoul id; Ret (Some z)
    | _ => Ret None
    end
  else Ret None.

(** Of the compiler. *)
Definition GetFileDigest : outcome string :=
  match compiler_content env with
  | None => Fatal "cannot open the compiler"
  | Some content => Ret (EncodeHex (blake3 content) false)
  end.

Definition SubmitComileTask (args : CompilerArgs) (rewritten : RewriteResult) : C (option Z) :=
  cmdline ← lift (cloud_args args rewritten);
  let chunks := submit_chunks args rewritten cmdline in
  reply ← http (submit_cxx_task chunks);
  match reply with
  | None => mret None
  | Some reply =>
    if http_status reply =? 400 then
      digest ← lift GetFileDigest;
      r ← http (set_file_digest (compiler_desc args) digest);
      match r with
      | None => mret None
      | Some r =>
        if negb (http_status r =? 200) then mret None
        else
          reply ← http (submit_cxx_task chunks);
          match reply with
          | None => mret None
          | Some reply => lift (submitted_id reply)
          end
      end
    else lift (submitted_id reply)
  end.

(** The files of a result: [at] past the end throws. *)
Fixpoint decompress_files (extensions parts : list string)
    : outcome (option (list (string * string))) :=
  match extensions with
  | [] => Ret (Some [])
  | e :: extensions =>
    match parts with
    | [] => Throw "std::out_of_range"
    | p :: parts =>
      match ZSTDDecompress p with
      | None => Ret None
      | Some content =>
        rest ← decompress_files extensions parts;
        Ret (if rest is Some l then Some ((e, content) :: l) else None)
      end
    end
  end.

(** A reply that is not waited for again; any status but 503 and 404 is parsed. *)
Definition compile_result (body : string) : outcome CompileResult :=
  parsed ← TryParseMultiChunk body;
  match parsed with
  | None | Some [] => Ret failed
  | Some (front :: parts) =>
    match result_of_json front with
    | None => Ret failed
    | Some r =>
      files ← decompress_files (wcr_file_extensions r) parts;
      Ret match files with
          | None => failed
          | Some files => {| exit_code := wcr_exit_code r; std_out := wcr_std_out r;
                             std_err := wcr_std_err r; output_files := files |}
          end
    end
  end.

Fixpoint WaitForCloudCompileResult (fuel : nat) (task_id : Z) : C CompileResult :=
  match fuel with
  | O => waiting
  | S fuel =>
    reply ← http (wait_for_cxx_task task_id 10000);
    match reply with
    | None => mret failed
    | Some reply =>
      if http_status reply =? 503 then WaitForCloudCompileResult fuel task_id
      else if http_status reply =? 404 then mret failed
      else lift (compile_result (http_body reply))
    end
  end.

Definition CompileOnCloud (fuel : nat) (args : CompilerArgs) (rewritten : RewriteResult)
    : C CompileResult :=
  task_id ← SubmitComileTask args rewritten;
  match task_id with
  | None => mret failed
  | Some id => WaitForCloudCompileResult fuel id
  end.

(** * client.cpp *)

(** The file that [WriteCompileResult] writes for a suffix.  The prefix of a
    destination that ends in ".o" is its last two characters. *)
Definition result_path (destination suffix : string) : string :=
  let n := String.length destination in
  let prefix := if (2 <=? n)%nat && String.eqb (sdrop (n - 2) destination) ".o"
                then sdrop (n - 2) destination else destination in
  if String.eqb suffix ".o" then destination else prefix +:+ suffix.

Fixpoint WriteCompileResult (destination : string) (files : list (string * string)) : C () :=
  match files with
  | [] => mret ()
  | (suffix, file) :: files =>
    _ ← log (E_write (result_path destination suffix) file);
    WriteCompileResult destination files
  end.

(** [compile_on_native] with a quota that was acquired. *)
Definition compile_on_native (args : CompilerArgs) (argv : list string) : C Z :=
  code ← native (compiler_ args) argv;
  _ ← ReleaseTaskQuota;
  mret code.

Definition compile_on_native_using_quota (fuel : nat) (args : CompilerArgs) (argv : list string)
    : C Z :=
  _ ← AcquireTaskQuota fuel (IsLightweight args);
  compile_on_native args argv.

(** The end of the loop's body: what is left when there is no retry. *)
Definition finish (fuel : nat) (args : CompilerArgs) (argv : list string) (r : CompileResult)
    : C Z :=
  if negb (exit_code r =? 0) then compile_on_native_using_quota fuel args argv
  else
    _ ← log (E_print (c_str (std_out r)) (c_str (std_err r)));
    destination ← lift (GetOutputFile args);
    _ ← WriteCompileResult destination (output_files r);
    mret 0.

(** The loop of [Compile]. *)
Fixpoint compile_loop (fuel retries : nat) (args : CompilerArgs) (argv : list string)
    (rewritten : RewriteResult) : C Z :=
  r ← CompileOnCloud fuel args rewritten;
  if (exit_code r <? 0) || (exit_code r =? 127) then
    quota ← TryAcquireTaskQuota false 10;
    if (quota : bool) then compile_on_native args argv
    else
      match retries with
      | O => finish fuel args argv r
      | S retries =>
        again ← RewriteFile fuel args;
        match again with
        | Some rewritten => compile_loop fuel retries args argv rewritten
        | None => finish fuel args argv r
        end
      end
  else finish fuel args argv r.

(** [Compile] once the compiler is found: [argv] are the arguments behind it. *)
Definition Compile_with (fuel : nat) (args : CompilerArgs) (argv : list string) : C Z :=
  if negb (IsDistributable args) then compile_on_native_using_quota fuel args argv
  else
    rewritten ← RewriteFile fuel args;
    match rewritten with
    | None => compile_on_native_using_quota fuel args argv
    | Some rewritten =>
      if ssize (zstd_rewritten rewritten) <? 8192
      then compile_on_native_using_quota fuel args argv
      else compile_loop fuel 5 args argv rewritten
    end.

(** [compiler]: the word behind the program's name; [find]: [FindExecutableInPath] with the
    client's filter. *)
Definition compiler_filter (path : string) : bool :=
  negb (EndWith path "ccache") && negb (EndWith path "distcc").

Definition Compile (fuel : nat) (find : string → (string → bool) → outcome string)
    (compiler : string) (argv : list string) : C Z :=
  args ← lift (CompilerArgs_make argv);
  path ← lift (if bool_decide (String.get 0 compiler = Some "/"%char) then Ret compiler
               else find (GetBaseName compiler) compiler_filter);
  Compile_with fuel (SetCompiler path args) argv.
End client.
