(* ===== verification/ClientFacts.v ===== *)
(** The theory of the client (Client): what a run does and how it ends, whatever the
    daemon and the child processes answer. *)
From S2P Require Import Prelude Text Proto MultiChunk LocalKeepers DistTask ClientArgs Client.

(** * Reasoning about runs *)

(** If [m] ends, [Q] holds of its result and log. *)
Definition wp {A} (o : Oracle) (m : C A) (l : list Event) (Q : A → list Event → Prop) : Prop :=
  match m o l with
  | (Finished a, l') => Q a l'
  | _ => True
  end.

Lemma wp_bind {A B} o (m : C A) (f : A → C B) l Q :
  wp o m l (λ a l', wp o (f a) l' Q) → wp o (m ≫= f) l Q.
Proof. unfold wp, mbind, C_bind. by destruct (m o l) as [[a| |e] l']. Qed.

Lemma wp_ret {A} o (a : A) l (Q : A → list Event → Prop) : Q a l → wp o (mret a) l Q.
Proof. done. Qed.

Lemma wp_mono {A} o (m : C A) l (P Q : A → list Event → Prop) :
  wp o m l P → (∀ a l', P a l' → Q a l') → wp o m l Q.
Proof. unfold wp. destruct (m o l) as [[a| |e] l']; auto. Qed.

Lemma wp_lift {A} o (m : outcome A) l (Q : A → list Event → Prop) :
  (∀ a, m = Ret a → Q a l) → wp o (Client.lift m) l Q.
Proof. unfold wp, Client.lift. destruct m; auto. Qed.

Lemma wp_run {A} o (m : C A) l Q a l' :
  wp o m l Q → m o l = (Finished a, l') → Q a l'.
Proof. unfold wp. intros H E. by rewrite E in H. Qed.

(** ** What a log shows *)

Definition natives (l : list Event) : list (string * list string) :=
  omap (λ e, if e is E_native p argv then Some (p, argv) else None) l.
Definition outputs (l : list Event) : list Event :=
  omap (λ e, match e with E_print _ _ | E_write _ _ => Some e | _ => None end) l.

(** An event's part in the number of quotas that are held. *)
Definition quota_of (o : Oracle) (i : nat) (e : Event) : Z :=
  match e with
  | E_http (acquire_quota ms light p) =>
    if (if o_http o i (acquire_quota ms light p) is Some r then http_status r =? 200 else false)
    then 1 else 0
  | E_http (release_quota _) => -1
  | _ => 0
  end.
Definition quotas (o : Oracle) (l : list Event) : Z := Zsum (imap (quota_of o) l).

Lemma Zsum_app l1 l2 : Zsum (l1 ++ l2) = Zsum l1 + Zsum l2.
Proof. induction l1 as [|x l1 IH]; [done|]. rewrite <- app_comm_cons, !Zsum_cons, IH. lia. Qed.

Lemma quotas_snoc o l e : quotas o (l ++ [e]) = quotas o l + quota_of o (length l) e.
Proof.
  unfold quotas. rewrite imap_app, Zsum_app. cbn. rewrite Nat.add_0_r. unfold Zsum. cbn. lia.
Qed.

(** From [l] to [l'] nothing was compiled here and nothing was put out, and [k] more
    quotas are held. *)
Record quiet (o : Oracle) (k : Z) (l l' : list Event) : Prop := {
  q_prefix : l `prefix_of` l';
  q_natives : natives l' = natives l;
  q_outputs : outputs l' = outputs l;
  q_quotas : quotas o l' = quotas o l + k
}.

Lemma quiet_refl o l : quiet o 0 l l.
Proof. split; [done..|lia]. Qed.

Lemma quiet_trans o k1 k2 l1 l2 l3 :
  quiet o k1 l1 l2 → quiet o k2 l2 l3 → quiet o (k1 + k2) l1 l3.
Proof.
  intros [P1 N1 O1 Q1] [P2 N2 O2 Q2]. split; [by etrans|congruence|congruence|lia].
Qed.

Lemma quiet_snoc o l e :
  match e with E_http _ | E_command _ => True | _ => False end →
  quiet o (quota_of o (length l) e) l (l ++ [e]).
Proof.
  intros He. split; [by apply prefix_app_r| | |apply quotas_snoc];
    unfold natives, outputs; rewrite omap_app; destruct e; cbn; by rewrite ?app_nil_r.
Qed.

Section facts.
Context (blake3 : string → string) (ZSTDCompress : string → string).
Context (ZSTDDecompress : string → option string).
Context (json_of_submit : SubmitCxxTaskRequest → string).
Context (task_id_of_json : string → option (option string)).
Context (result_of_json : string → option WaitForCXXTaskResponse).
Context (env : Env).
Implicit Types (o : Oracle) (l : list Event).

Lemma wp_http o r l (Q : option HttpReply → list Event → Prop) :
  (quiet o (quota_of o (length l) (E_http r)) l (l ++ [E_http r]) →
   Q (o_http o (length l) r) (l ++ [E_http r])) →
  wp o (http r) l Q.
Proof. intros H. apply H. by apply quiet_snoc. Qed.

Lemma wp_try o light t l :
  wp o (TryAcquireTaskQuota env light t) l (λ b l', quiet o (if b then 1 else 0) l l').
Proof.
  apply wp_bind, wp_http. intros Q. apply wp_ret. revert Q. cbn [quota_of].
  by destruct (if o_http _ _ _ is Some r then _ else _).
Qed.

Lemma wp_acquire o fuel light l :
  wp o (AcquireTaskQuota env fuel light) l (λ _ l', quiet o 1 l l').
Proof.
  revert l; induction fuel as [|fuel IH]; intros l; [done|]. cbn [AcquireTaskQuota].
  apply wp_bind. eapply wp_mono; [apply wp_try|]. intros [] l1 Q1; [done|].
  eapply wp_mono; [apply IH|]. intros ? l2 Q2. apply (quiet_trans _ 0 1 _ _ _ Q1 Q2).
Qed.

Lemma wp_release o l : wp o (ReleaseTaskQuota env) l (λ _ l', quiet o (-1) l l').
Proof. apply wp_bind, wp_http. intros Q. by apply wp_ret. Qed.

Lemma wp_command o c l (Q : Z * string → list Event → Prop) :
  (quiet o 0 l (l ++ [E_command c]) → Q (o_command o (length l) c) (l ++ [E_command c])) →
  wp o (command c) l Q.
Proof. intros H. apply H. by apply (quiet_snoc o l (E_command c)). Qed.

(** ** Preprocessing *)

(** [z] is the compressed output of a preprocessor that succeeded, and [d] its digest, if the
    cache is to be used. *)
Definition preprocessed o l (cntl : CacheControl) (z d : string) : Prop :=
  ∃ i cmd text, l !! i = Some (E_command cmd) ∧ o_command o i cmd = (0, text) ∧
    z = ZSTDCompress text ∧
    d = if decide (cntl = Disallow) then "" else EncodeHex (blake3 text) false.

Lemma preprocessed_mono o l l' cntl z d :
  l `prefix_of` l' → preprocessed o l cntl z d → preprocessed o l' cntl z d.
Proof.
  intros Hl (i & cmd & text & H & H'). exists i, cmd, text. split; [|done].
  by eapply prefix_lookup_Some.
Qed.

Lemma wp_try_rewrite o cmd cntl l :
  wp o (TryRewriteFileWithCommandLine blake3 ZSTDCompress cmd cntl) l
    (λ r l', quiet o 0 l l' ∧ ∀ z c d, r = Some (z, c, d) → c = cntl ∧ preprocessed o l' cntl z d).
Proof.
  apply wp_bind, wp_command. intros Q. destruct (o_command o _ cmd) as [code out] eqn:X.
  apply wp_ret. split; [done|]. intros z c d. destruct (Z.eqb_spec code 0) as [->|]; [|done].
  intros [= <- <- <-]. split; [done|]. exists (length l), cmd, out.
  by rewrite list_lookup_middle.
Qed.

Lemma wp_rewrite o fuel args l :
  wp o (RewriteFile blake3 ZSTDCompress env fuel args) l
    (λ r l', quiet o 0 l l' ∧ ∀ x, r = Some x → cache_control x = control env ∧
       preprocessed o l' (control env) (zstd_rewritten x) (source_digest x)).
Proof.
  apply wp_bind, wp_lift. intros [lang|] _; [|by apply wp_ret; split; [apply quiet_refl|]].
  apply wp_bind. eapply wp_mono; [apply wp_acquire|]. intros ? l1 Q1.
  apply wp_bind, wp_lift. intros cmd _. apply wp_bind.
  eapply wp_mono; [apply wp_try_rewrite|]. intros [[[z c] d]|] l2 [Q2 H2].
  - apply wp_bind. eapply wp_mono; [apply wp_release|]. intros ? l3 Q3. apply wp_ret. split.
    + pose proof (quiet_trans _ _ _ _ _ _ (quiet_trans _ _ _ _ _ _ Q1 Q2) Q3) as Q. exact Q.
    + intros x [= <-]. cbn. destruct (H2 z c d eq_refl) as [Hc Hp]. split; [done|].
      by eapply preprocessed_mono; [apply Q3|].
  - apply wp_bind, wp_lift. intros cmd2 _. apply wp_bind.
    eapply wp_mono; [apply wp_try_rewrite|]. intros r l3 [Q3 H3].
    apply wp_bind. eapply wp_mono; [apply wp_release|]. intros ? l4 Q4. apply wp_ret. split.
    + pose proof (quiet_trans _ _ _ _ _ _ (quiet_trans _ _ _ _ _ _
        (quiet_trans _ _ _ _ _ _ Q1 Q2) Q3) Q4) as Q. exact Q.
    + intros x. destruct r as [[[z c] d]|]; [|done]. intros [= <-]. cbn.
      destruct (H3 z c d eq_refl) as [Hc Hp]. split; [done|]. by eapply preprocessed_mono; [apply Q4|].
Qed.

(** ** Compiling in the cloud *)

Lemma wp_submit o args rw l :
  wp o (SubmitComileTask blake3 json_of_submit task_id_of_json env args rw) l
    (λ _ l', quiet o 0 l l').
Proof.
  apply wp_bind, wp_lift. intros cmd _. apply wp_bind, wp_http. intros Q1.
  destruct (o_http _ _ _) as [reply|]; [|by apply wp_ret].
  destruct (_ =? 400); [|by apply wp_lift].
  apply wp_bind, wp_lift. intros digest _. apply wp_bind, wp_http. intros Q2.
  pose proof (quiet_trans _ _ _ _ _ _ Q1 Q2) as Q.
  destruct (o_http _ _ _) as [r|]; [|by apply wp_ret]. destruct (negb _); [by apply wp_ret|].
  apply wp_bind, wp_http. intros Q3. pose proof (quiet_trans _ _ _ _ _ _ Q Q3) as Q'.
  destruct (o_http _ _ _) as [r'|]; [|by apply wp_ret]. by apply wp_lift.
Qed.

(** The result is made of a reply of the daemon, or it is the failure. *)
Definition from_daemon o l (r : CompileResult) : Prop :=
  ∃ i id reply, l !! i = Some (E_http (wait_for_cxx_task id 10000)) ∧
    o_http o i (wait_for_cxx_task id 10000) = Some reply ∧
    compile_result ZSTDDecompress result_of_json (http_body reply) = Ret r.

Lemma wp_wait o fuel id l :
  wp o (WaitForCloudCompileResult ZSTDDecompress result_of_json fuel id) l
    (λ r l', quiet o 0 l l' ∧ (r = failed ∨ from_daemon o l' r)).
Proof.
  revert l; induction fuel as [|fuel IH]; intros l; [done|]. cbn [WaitForCloudCompileResult].
  apply wp_bind, wp_http. intros Q1.
  destruct (o_http _ _ _) as [reply|] eqn:R; [|by apply wp_ret; auto].
  destruct (_ =? 503).
  { eapply wp_mono; [apply IH|]. intros r l2 [Q2 H2]. split; [|done].
    apply (quiet_trans _ _ _ _ _ _ Q1 Q2). }
  destruct (_ =? 404); [by apply wp_ret; auto|]. apply wp_lift. intros r Hr. split; [done|].
  right. exists (length l), id, reply. rewrite list_lookup_middle by done. done.
Qed.

Lemma wp_cloud o fuel args rw l :
  wp o (CompileOnCloud blake3 ZSTDDecompress json_of_submit task_id_of_json result_of_json env
          fuel args rw) l
    (λ r l', quiet o 0 l l' ∧ (r = failed ∨ from_daemon o l' r)).
Proof.
  apply wp_bind. eapply wp_mono; [apply wp_submit|]. intros [id|] l1 Q1.
  - eapply wp_mono; [apply wp_wait|]. intros r l2 [Q2 H2]. split; [|done].
    apply (quiet_trans _ _ _ _ _ _ Q1 Q2).
  - apply wp_ret. auto.
Qed.

(** ** The main program *)

(** How a run ends: with the local compiler's answer, or with the files of a successful
    compilation in the cloud. *)
Definition ended o (args : CompilerArgs) (argv : list string) l (z : Z) l' : Prop :=
  quotas o l' = quotas o l ∧
  ((natives l' = natives l ++ [(compiler_ args, argv)] ∧ outputs l' = outputs l ∧
    ∃ i, l' !! i = Some (E_native (compiler_ args) argv) ∧ z = o_native o i) ∨
   (z = 0 ∧ natives l' = natives l ∧
    ∃ r destination, exit_code r = 0 ∧ from_daemon o l' r ∧ GetOutputFile args = Ret destination ∧
      outputs l' = outputs l ++ E_print (c_str (std_out r)) (c_str (std_err r)) ::
        ((λ f, E_write (result_path destination f.1) f.2) <$> output_files r))).

Lemma ended_quiet o args argv l1 l2 z l3 :
  quiet o 0 l1 l2 → ended o args argv l2 z l3 → ended o args argv l1 z l3.
Proof. intros [_ N O Q] H. unfold ended in *. rewrite N, O, Q, Z.add_0_r in H. exact H. Qed.

Lemma wp_native o args argv l0 l :
  quiet o 1 l0 l →
  wp o (compile_on_native env args argv) l (λ z l', ended o args argv l0 z l').
Proof.
  intros [P N O Q]. apply wp_bind. unfold wp, native. apply wp_bind.
  eapply wp_mono; [apply wp_release|]. intros ? l2 Q2. apply wp_ret.
  set (e := E_native (compiler_ args) argv) in *. destruct Q2 as [P2 N2 O2 Q2].
  unfold ended. rewrite Q2, N2, O2, quotas_snoc. cbn [quota_of e]. split; [lia|]. left.
  unfold natives, outputs in *. rewrite !omap_app, N, O. cbn. rewrite app_nil_r. split_and!; [done..|].
  exists (length l). split; [|done]. eapply prefix_lookup_Some; [|exact P2].
  by apply list_lookup_middle.
Qed.

Lemma wp_native_quota o fuel args argv l :
  wp o (compile_on_native_using_quota env fuel args argv) l (λ z l', ended o args argv l z l').
Proof. apply wp_bind. eapply wp_mono; [apply wp_acquire|]. intros ? l1 Q. by apply wp_native. Qed.

Lemma WriteCompileResult_log o dest files l :
  WriteCompileResult dest files o l =
    (Finished (), l ++ ((λ f, E_write (result_path dest f.1) f.2) <$> files)).
Proof.
  revert l; induction files as [|[s f] files IH]; intros l; [cbn; by rewrite app_nil_r|].
  change (WriteCompileResult dest ((s, f) :: files) o l)
    with (WriteCompileResult dest files o (l ++ [E_write (result_path dest s) f])).
  rewrite IH, fmap_cons. by rewrite <- app_assoc.
Qed.

Lemma from_daemon_app o l l2 r : from_daemon o l r → from_daemon o (l ++ l2) r.
Proof.
  intros (i & id & reply & H & H'). exists i, id, reply. split; [|done].
  by apply lookup_app_l_Some.
Qed.

Lemma outputs_writes dest files :
  let ws := (λ f, E_write (result_path dest f.1) f.2) <$> files in
  outputs ws = ws ∧ natives ws = [] ∧ ∀ o l, quotas o (l ++ ws) = quotas o l.
Proof.
  cbn. split_and!.
  - induction files as [|f files IH]; [done|]. rewrite fmap_cons. cbn. f_equal. exact IH.
  - induction files as [|f files IH]; [done|]. rewrite fmap_cons. exact IH.
  - intros o. induction files as [|f files IH] using rev_ind; intros l; [by rewrite app_nil_r|].
    rewrite fmap_app, app_assoc. cbn. rewrite quotas_snoc, IH. cbn. lia.
Qed.

Lemma wp_finish o fuel args argv r l0 l :
  quiet o 0 l0 l → (exit_code r = 0 → from_daemon o l r) →
  wp o (finish env fuel args argv r) l (λ z l', ended o args argv l0 z l').
Proof.
  intros Q Hr. unfold finish. destruct (Z.eqb_spec (exit_code r) 0) as [E|E]; cbn [negb].
  2: { eapply wp_mono; [apply wp_native_quota|]. intros z l'. by apply ended_quiet. }
  apply wp_bind. unfold wp, log. apply wp_bind, wp_lift. intros dest D.
  unfold wp, mbind, C_bind. rewrite WriteCompileResult_log. cbn [mret C_ret].
  destruct (outputs_writes dest (output_files r)) as (W1 & W2 & W3).
  eapply ended_quiet; [exact Q|]. split; [rewrite W3, quotas_snoc; cbn; lia|]. right.
  split; [done|]. split.
  { unfold natives in *. rewrite !omap_app, W2. cbn. by rewrite !app_nil_r. }
  exists r, dest. split_and!; [done|by rewrite <- app_assoc; apply from_daemon_app, Hr|done|].
  unfold outputs in *. rewrite !omap_app, W1. cbn. by rewrite <- app_assoc.
Qed.

Lemma wp_loop o fuel retries args argv rw l :
  wp o (compile_loop blake3 ZSTDCompress ZSTDDecompress json_of_submit task_id_of_json
          result_of_json env fuel retries args argv rw) l (λ z l', ended o args argv l z l').
Proof.
  revert rw l; induction retries as [|retries IH]; intros rw l; cbn [compile_loop];
    (apply wp_bind; eapply wp_mono; [apply wp_cloud|]; intros r l1 [Q1 H1]).
  all: assert (Hr : exit_code r = 0 → from_daemon o l1 r) by (intros E; destruct H1 as [->|]; done).
  all: destruct (_ || _) eqn:F; [|by apply wp_finish].
  all: apply wp_bind; eapply wp_mono; [apply wp_try|]; intros b l2 Q2;
    pose proof (quiet_trans _ _ _ _ _ _ Q1 Q2) as Q; destruct b; [by apply wp_native|].
  all: assert (Hr2 : exit_code r = 0 → from_daemon o l2 r)
    by (intros E; rewrite E in F; done).
  - by apply wp_finish.
  - apply wp_bind. eapply wp_mono; [apply wp_rewrite|]. intros [rw2|] l3 [Q3 _].
    + eapply wp_mono; [apply IH|]. intros z l4. apply ended_quiet.
      apply (quiet_trans _ _ _ _ _ _ Q Q3).
    + apply wp_finish; [apply (quiet_trans _ _ _ _ _ _ Q Q3)|]. intros E. rewrite E in F. done.
Qed.

(** C9. However a run of the client ends, it gave back every quota it got, and either it ran
    the compiler of the command line once, with the original arguments, and exits with
    its code, having put out nothing itself; or it exits with 0 without having run
    it, and then it printed and wrote exactly what the daemon answered for a
    compilation that succeeded in the cloud. *)
Theorem Compile_result o fuel args argv l z l' :
  Compile_with blake3 ZSTDCompress ZSTDDecompress json_of_submit task_id_of_json result_of_json
    env fuel args argv o l = (Finished z, l') →
  ended o args argv l z l'.
Proof.
  apply wp_run. unfold Compile_with. destruct (negb _); [apply wp_native_quota|].
  apply wp_bind. eapply wp_mono; [apply wp_rewrite|]. intros [rw|] l1 [Q1 _].
  - destruct (_ <? _).
    + eapply wp_mono; [apply wp_native_quota|]. intros z1 l2. by apply ended_quiet.
    + eapply wp_mono; [apply wp_loop|]. intros z1 l2. by apply ended_quiet.
  - eapply wp_mono; [apply wp_native_quota|]. intros z1 l2. by apply ended_quiet.
Qed.

(** ** Termination *)

Definition ends {A} o (m : C A) l : Prop := ∀ l', m o l ≠ (Waiting, l').

Lemma ends_bind {A B} o (m : C A) (f : A → C B) l :
  ends o m l → (∀ a l', ends o (f a) l') → ends o (m ≫= f) l.
Proof.
  unfold ends, mbind, C_bind. intros Hm Hf l'. specialize (Hm l').
  destruct (m o l) as [[a| |e] l1]; [apply Hf|congruence|done].
Qed.
Lemma ends_ret {A} o (a : A) l : ends o (mret a) l.
Proof. done. Qed.
Lemma ends_lift {A} o (m : outcome A) l : ends o (Client.lift m) l.
Proof. unfold ends, Client.lift. by destruct m. Qed.
Lemma ends_http o r l : ends o (http r) l.
Proof. done. Qed.
Lemma ends_command o cmd cntl l :
  ends o (TryRewriteFileWithCommandLine blake3 ZSTDCompress cmd cntl) l.
Proof. apply ends_bind; [done|]. by intros [z output] l'. Qed.
Lemma ends_try o light t l : ends o (TryAcquireTaskQuota env light t) l.
Proof. done. Qed.

(** Of any [k] interactions in a row, the daemon would grant a quota at one, and not
    keep a waiter waiting at one. *)
Definition responsive (k : nat) o : Prop :=
  (∀ i light, ∃ j r, (j < k)%nat ∧
     o_http o (i + j) (acquire_quota 10 light (pid env)) = Some r ∧ http_status r = 200) ∧
  (∀ i id, ∃ j, (j < k)%nat ∧
     ∀ r, o_http o (i + j) (wait_for_cxx_task id 10000) = Some r → http_status r ≠ 503).

Lemma TryAcquire_run o light t l :
  TryAcquireTaskQuota env light t o l =
    (Finished (if o_http o (length l) (acquire_quota t light (pid env)) is Some r
               then http_status r =? 200 else false),
     l ++ [E_http (acquire_quota t light (pid env))]).
Proof. done. Qed.

Lemma ends_acquire o fuel light l k :
  (∃ j r, (j < k)%nat ∧
     o_http o (length l + j) (acquire_quota 10 light (pid env)) = Some r ∧ http_status r = 200) →
  (k ≤ fuel)%nat → ends o (AcquireTaskQuota env fuel light) l.
Proof.
  revert fuel l; induction k as [|k IH]; intros [|fuel] l (j & r & Hj & Hr & H200) Hf; try lia.
  cbn [AcquireTaskQuota]. unfold ends, mbind, C_bind. rewrite TryAcquire_run. intros l'.
  destruct (if o_http o (length l) (acquire_quota 10 light (pid env)) is Some r
            then http_status r =? 200 else false) eqn:B; [done|].
  apply (IH fuel (l ++ [E_http (acquire_quota 10 light (pid env))])); [|lia].
  destruct j as [|j].
  - rewrite Nat.add_0_r in Hr. rewrite Hr, H200 in B. done.
  - exists j, r. rewrite length_app. cbn.
    replace (length l + 1 + j)%nat with (length l + S j)%nat by lia. split; [lia|done].
Qed.

Lemma ends_wait o fuel id l k :
  (∃ j, (j < k)%nat ∧ ∀ r, o_http o (length l + j) (wait_for_cxx_task id 10000) = Some r →
     http_status r ≠ 503) →
  (k ≤ fuel)%nat → ends o (WaitForCloudCompileResult ZSTDDecompress result_of_json fuel id) l.
Proof.
  revert fuel l; induction k as [|k IH]; intros [|fuel] l (j & Hj & Hr) Hf; try lia.
  cbn [WaitForCloudCompileResult]. unfold ends, mbind, C_bind. cbn. intros l'.
  destruct (o_http o (length l) _) as [r|] eqn:R; [|done].
  destruct (Z.eqb_spec (http_status r) 503) as [E|E].
  - apply (IH fuel (l ++ [E_http (wait_for_cxx_task id 10000)])); [|lia].
    destruct j as [|j].
    + rewrite Nat.add_0_r in Hr. by apply Hr in R.
    + exists j. rewrite length_app. cbn.
      replace (length l + 1 + j)%nat with (length l + S j)%nat by lia. split; [lia|done].
  - destruct (_ =? 404); [done|]. apply ends_lift.
Qed.

Section responsive.
Context (k fuel : nat) (o : Oracle) (Hk : responsive k o) (Hfuel : (k ≤ fuel)%nat).

Lemma ends_quota light l : ends o (AcquireTaskQuota env fuel light) l.
Proof. apply ends_acquire with k; [apply Hk|done]. Qed.

Lemma ends_native args argv l : ends o (compile_on_native_using_quota env fuel args argv) l.
Proof. apply ends_bind; [apply ends_quota|]. intros _ l1. done. Qed.

Lemma ends_rewrite args l : ends o (RewriteFile blake3 ZSTDCompress env fuel args) l.
Proof.
  apply ends_bind; [apply ends_lift|]. intros [lang|] l1; [|done].
  apply ends_bind; [apply ends_quota|]. intros _ l2.
  apply ends_bind; [apply ends_lift|]. intros cmd l3.
  apply ends_bind; [apply ends_command|]. intros [r|] l4; [done|].
  apply ends_bind; [apply ends_lift|]. intros cmd2 l5.
  apply ends_bind; [apply ends_command|]. done.
Qed.

Lemma ends_submit args rw l :
  ends o (SubmitComileTask blake3 json_of_submit task_id_of_json env args rw) l.
Proof.
  apply ends_bind; [apply ends_lift|]. intros cmd l1. apply ends_bind; [done|].
  intros [r|] l2; [|done]. destruct (_ =? 400); [|apply ends_lift].
  apply ends_bind; [apply ends_lift|]. intros digest l3. apply ends_bind; [done|]. intros [r2|] l4; [|done].
  destruct (negb _); [done|]. apply ends_bind; [done|]. intros [r3|] l5; [apply ends_lift|done].
Qed.

Lemma ends_cloud args rw l :
  ends o (CompileOnCloud blake3 ZSTDDecompress json_of_submit task_id_of_json result_of_json env
            fuel args rw) l.
Proof.
  apply ends_bind; [apply ends_submit|]. intros [id|] l1; [|done].
  apply ends_wait with k; [apply Hk|done].
Qed.

Lemma ends_finish args argv r l : ends o (finish env fuel args argv r) l.
Proof.
  unfold finish. destruct (negb _); [apply ends_native|]. apply ends_bind; [done|]. intros _ l1.
  apply ends_bind; [apply ends_lift|]. intros dest l2. apply ends_bind; [|done].
  intros l3. by rewrite WriteCompileResult_log.
Qed.

Lemma ends_loop retries args argv rw l :
  ends o (compile_loop blake3 ZSTDCompress ZSTDDecompress json_of_submit task_id_of_json
            result_of_json env fuel retries args argv rw) l.
Proof.
  revert rw l; induction retries as [|retries IH]; intros rw l; cbn [compile_loop];
    (apply ends_bind; [apply ends_cloud|]; intros r l1; destruct (_ || _); [|apply ends_finish];
     apply ends_bind; [apply ends_try|]; intros [] l2; [done|]).
  - apply ends_finish.
  - apply ends_bind; [apply ends_rewrite|]. intros [rw2|] l3; [apply IH|apply ends_finish].
Qed.
End responsive.

(** C36. If the daemon is responsive, the client ends: [k] turns of each waiting loop are
    enough, and it submits the task six times at most. *)
Theorem Compile_terminates k o fuel args argv l :
  responsive k o → (k ≤ fuel)%nat →
  (Compile_with blake3 ZSTDCompress ZSTDDecompress json_of_submit task_id_of_json result_of_json
     env fuel args argv o l).1 ≠ Waiting.
Proof.
  intros Hk Hf. assert (He : ends o (Compile_with blake3 ZSTDCompress ZSTDDecompress json_of_submit
    task_id_of_json result_of_json env fuel args argv) l).
  { unfold Compile_with. destruct (negb _); [by eapply ends_native|].
    apply ends_bind; [by eapply ends_rewrite|]. intros [rw|] l1; [|by eapply ends_native].
    destruct (_ <? _); [by eapply ends_native|by eapply ends_loop]. }
  specialize (He (Compile_with blake3 ZSTDCompress ZSTDDecompress json_of_submit
    task_id_of_json result_of_json env fuel args argv o l).2).
  by destruct (Compile_with _ _ _ _ _ _ _ _ _ _ _ _) as [[]].
Qed.

(** Without a daemon the client never ends, because it asks for a quota even to compile
    locally, for ever. *)
Theorem no_daemon_never_ends o fuel args argv l z :
  (∀ i r, o_http o i r = None) →
  (Compile_with blake3 ZSTDCompress ZSTDDecompress json_of_submit task_id_of_json result_of_json
     env fuel args argv o l).1 ≠ Finished z.
Proof.
  intros Hn.
  assert (Ha : ∀ light l, wp o (AcquireTaskQuota env fuel light) l (λ _ _, False)).
  { intros light. induction fuel as [|f IH]; intros l0; [done|]. cbn [AcquireTaskQuota].
    apply wp_bind. unfold TryAcquireTaskQuota. apply wp_bind. unfold wp at 1, http.
    rewrite Hn. apply wp_ret, IH. }
  assert (Hc : ∀ l, wp o (compile_on_native_using_quota env fuel args argv) l (λ _ _, False)).
  { intros l0. apply wp_bind. eapply wp_mono; [apply Ha|done]. }
  assert (H : wp o (Compile_with blake3 ZSTDCompress ZSTDDecompress json_of_submit task_id_of_json
    result_of_json env fuel args argv) l (λ _ _, False)).
  { unfold Compile_with. destruct (negb _); [apply Hc|]. apply wp_bind.
    unfold RewriteFile. apply wp_bind, wp_lift. intros [lang|] _; [|apply wp_ret, Hc].
    apply wp_bind. eapply wp_mono; [apply Ha|done]. }
  unfold wp in H. by destruct (Compile_with _ _ _ _ _ _ _ _ _ _ _ _) as [[]].
Qed.

(** ** The two ends of the HTTP interface *)

(** With caching disallowed nothing can be distributed: the preprocessor's output is not
    hashed, so the submission carries no digest, and the daemon refuses it. *)
Theorem disallowed_never_submitted o fuel args l rw l' cmdline files bytes t :
  control env = Disallow →
  RewriteFile blake3 ZSTDCompress env fuel args o l = (Finished (Some rw), l') →
  CxxDistTask_Prepare files (submit_request env args rw cmdline) bytes t
    = Ret (INVALID_ARGUMENT, t).
Proof.
  intros Hc Hr. pose proof (wp_run _ _ _ _ _ _ (wp_rewrite o fuel args l) Hr) as [_ H].
  destruct (H _ eq_refl) as [_ (i & cmd & text & _ & _ & _ & Hd)].
  unfold CxxDistTask_Prepare, submit_request. cbn [sct_source_digest].
  by rewrite Hd, decide_True, String.eqb_refl, !orb_true_r.
Qed.

(** What the daemon answers for a finished task is what the client gets: exit code,
    outputs and the decompressed files under their suffixes. *)
Theorem compile_result_roundtrip json_of_wait output contents :
  let out := RebuildOutput output in
  result_of_json (json_of_wait out.1) = Some out.1 → json_of_wait out.1 ≠ "" →
  (do_exit_code output < 0 → do_output_files output = []) →
  Forall2 (λ f c, f.2 ≠ "" ∧ ZSTDDecompress f.2 = Some c) (do_output_files output) contents →
  ssize (json_of_wait out.1) + Zsum (ssize <$> out.2) < LONG_MAX →
  compile_result ZSTDDecompress result_of_json (MakeMultiChunk (json_of_wait out.1 :: out.2)) =
    Ret {| exit_code := do_exit_code output; std_out := do_std_out output;
           std_err := do_std_err output;
           output_files := zip (do_output_files output).*1 contents |}.
Proof.
  intros out Hj Hne Hx Hf Hs. unfold compile_result.
  assert (Hout : out = ({| wcr_exit_code := do_exit_code output; wcr_std_out := do_std_out output;
      wcr_std_err := do_std_err output; wcr_file_extensions := (do_output_files output).*1 |},
      (do_output_files output).*2)).
  { unfold out, RebuildOutput. destruct (Z.ltb_spec (do_exit_code output) 0); [|done].
    by rewrite Hx. }
  rewrite MakeMultiChunk_parse.
  2: { constructor; [apply Hne|]. rewrite Hout. cbn [snd]. rewrite Forall_fmap. clear -Hf.
       induction Hf as [|f c fs cs [Hfc _] _ IH]; by constructor. }
  2: { rewrite fmap_cons, Zsum_cons. exact Hs. }
  cbn [mbind outcome_bind]. rewrite Hj, Hout.
  assert (Hd : decompress_files ZSTDDecompress (do_output_files output).*1 (do_output_files output).*2
    = Ret (Some (zip (do_output_files output).*1 contents))).
  { clear -Hf. induction Hf as [|f c fs cs [_ Hd] _ IH]; [done|]. rewrite !fmap_cons.
    cbn [decompress_files]. rewrite Hd, IH. done. }
  cbn [fst snd wcr_file_extensions wcr_exit_code wcr_std_out wcr_std_err]. by rewrite Hd.
Qed.
End facts.

(** A result file that is not the object file is written next to nothing of the
    destination: for every destination that ends in ".o" its name is the same. *)
Theorem result_path_loses_name name suffix :
  suffix ≠ ".o" → result_path (name +:+ ".o") suffix = ".o" +:+ suffix.
Proof.
  intros Hs. unfold result_path. rewrite slength_app.
  replace (String.length name + String.length ".o" - 2)%nat with (String.length name) by (cbn; lia).
  rewrite sdrop_app. rewrite (proj2 (Nat.leb_le _ _)) by (cbn; lia). cbn [andb].
  change (String.eqb ".o" ".o") with true. cbn iota.
  by destruct (String.eqb_spec suffix ".o").
Qed.

(** * Witnesses *)

Definition demo_env : Env := {|
  pid := 5; control := Disallow; mtime_size := (2, 1); compiler_content := Some "gcc" |}.
Definition demo_oracle (grant : bool) : Oracle := {|
  o_http := λ _ _, if grant then Some {| http_status := 200; http_body := "" |} else None;
  o_command := λ _ _, (0, "int x;"); o_native := λ _, 3 |}.

Lemma Compile_result_witness :
  ∃ l', Compile_with (λ s, s) (λ s, s) Some (λ _, "") (λ _, None) (λ _, None) demo_env 1
    demo_args demo_argv (demo_oracle true) [] = (Finished 3, l') ∧
  quotas (demo_oracle true) l' = 0.
Proof.
  eexists. split; [vm_compute; reflexivity|].
  refine (proj1 (Compile_result (λ s, s) (λ s, s) Some (λ _, "") (λ _, None) (λ _, None) demo_env
    (demo_oracle true) 1 demo_args demo_argv [] 3 _ _)).
  vm_compute. reflexivity.
Defined.

Lemma Compile_terminates_witness :
  (Compile_with (λ s, s) (λ s, s) Some (λ _, "") (λ _, None) (λ _, None) demo_env 1
    demo_args demo_argv (demo_oracle true) []).1 ≠ Waiting.
Proof.
  refine (Compile_terminates (λ s, s) (λ s, s) Some (λ _, "") (λ _, None) (λ _, None) demo_env 1
    (demo_oracle true) 1 demo_args demo_argv [] _ (le_n 1)).
  split.
  - intros i light. exists O, {| http_status := 200; http_body := "" |}. repeat split. lia.
  - intros i id. exists O. split; [lia|]. intros r [= <-]. discriminate.
Defined.

Lemma no_daemon_never_ends_witness :
  (Compile_with (λ s, s) (λ s, s) Some (λ _, "") (λ _, None) (λ _, None) demo_env 7
    demo_args demo_argv (demo_oracle false) []).1 ≠ Finished 0.
Proof.
  exact (no_daemon_never_ends (λ s, s) (λ s, s) Some (λ _, "") (λ _, None) (λ _, None) demo_env
    (demo_oracle false) 7 demo_args demo_argv [] 0 (λ _ _, eq_refl)).
Defined.

Lemma disallowed_never_submitted_witness :
  ∃ rw l', RewriteFile (λ s, s) (λ s, s) demo_env 1 demo_args (demo_oracle true) []
      = (Finished (Some rw), l') ∧
    CxxDistTask_Prepare Files.FileCache_init (submit_request demo_env demo_args rw "-c") ["x"]
      CxxDistTask_init = Ret (INVALID_ARGUMENT, CxxDistTask_init).
Proof.
  do 2 eexists. split; [vm_compute; reflexivity|].
  eapply (disallowed_never_submitted (λ s, s) (λ s, s) demo_env (demo_oracle true) 1 demo_args []);
    [reflexivity|vm_compute; reflexivity].
Defined.

Definition demo_output : DistOutput := {|
  do_exit_code := 0; do_std_out := "hi"; do_std_err := ""; do_extra_info := None;
  do_output_files := [(".o", "obj")] |}.
Definition demo_reply : WaitForCXXTaskResponse := {|
  wcr_exit_code := 0; wcr_std_out := "hi"; wcr_std_err := ""; wcr_file_extensions := [".o"] |}.

Lemma compile_result_roundtrip_witness :
  compile_result (λ s, Some (s +:+ "!")) (λ _, Some demo_reply)
    (MakeMultiChunk ("{}" :: (RebuildOutput demo_output).2)) =
    Ret {| exit_code := 0; std_out := "hi"; std_err := ""; output_files := [(".o", "obj!")] |}.
Proof.
  refine (compile_result_roundtrip (λ s, Some (s +:+ "!")) (λ _, Some demo_reply) (λ _, "{}")
    demo_output ["obj!"] eq_refl _ _ _ _).
  - discriminate.
  - done.
  - repeat constructor. discriminate.
  - vm_compute. reflexivity.
Defined.

Lemma result_path_loses_name_witness : result_path "foo.o" ".gcno" = ".o.gcno".
Proof. exact (result_path_loses_name "foo" ".gcno" ltac:(discriminate)). Defined.
