(* ===== verification/FileSystem.v ===== *)
(** The file system the sources work on: the calls of the operating system that
    src/distribuild/common/dir.h, daemon/cloud/temp_dir.cpp and daemon/cloud/temp_file.cpp
    make, as an interface, its documented behaviour as laws, and an instance.

    [FileSystem] is the interface.  [Posix] says what the calls do to the [view] of a file
    system: a map from paths, as lists of their components, to what is there.  The root is
    not in the map; it is always a directory.  Symbolic links are not followed, "." and ".."
    occur only in listings, and the caller may do everything. *)
From S2P Require Import Prelude Text.

Inductive Kind :=
  | K_regular (content : string)
  | K_directory
  | K_symlink
  | K_char_device
  | K_block_device
  | K_fifo
  | K_socket.

#[export] Instance Kind_eq_dec : EqDecision Kind.
Proof. solve_decision. Defined.

Inductive Errno := EEXIST | ENOENT | ENOTDIR | EISDIR | ENOTEMPTY | EINTR | EAGAIN | OtherErrno.

#[export] Instance Errno_eq_dec : EqDecision Errno.
Proof. solve_decision. Defined.

(** [d_type]: the constants of dirent.h. *)
Definition DT_UNKNOWN : Z := 0.
Definition DT_FIFO : Z := 1.
Definition DT_CHR : Z := 2.
Definition DT_DIR : Z := 4.
Definition DT_BLK : Z := 6.
Definition DT_REG : Z := 8.
Definition DT_LNK : Z := 10.
Definition DT_SOCK : Z := 12.

Definition type_of (k : Kind) : Z :=
  match k with
  | K_regular _ => DT_REG
  | K_directory => DT_DIR
  | K_symlink => DT_LNK
  | K_char_device => DT_CHR
  | K_block_device => DT_BLK
  | K_fifo => DT_FIFO
  | K_socket => DT_SOCK
  end.

Record Dirent := { d_name : string; d_ino : Z; d_type : Z }.

Class FileSystem (F : Type) := {
  fs_mkdir : string → F → option Errno * F;
  fs_rmdir : string → F → option Errno * F;
  fs_unlink : string → F → option Errno * F;
  fs_list : string → F → option (list Dirent);        (* [opendir] and [readdir] *)
  fs_read : string → F → option string                (* [ifstream] and its content *)
}.

(** * Paths *)

Abbreviation path := (list string).

(** The components of a path: its pieces between slashes, without empty ones. *)
Fixpoint resolve_from (cur s : string) : path :=
  match s with
  | "" => if String.eqb cur "" then [] else [cur]
  | String c s =>
    if Ascii.eqb c "/"
    then (if String.eqb cur "" then [] else [cur]) ++ resolve_from "" s
    else resolve_from (cur +:+ String c "") s
  end.
Definition resolve (s : string) : path := resolve_from "" s.

Definition plain (n : string) : Prop :=
  n ≠ "" ∧ no_char "/" n = true ∧ n ≠ "." ∧ n ≠ "..".

#[export] Instance plain_dec n : Decision (plain n).
Proof. unfold plain. apply _. Defined.

Lemma resolve_from_app cur a b :
  resolve_from cur (a +:+ String "/" b) = resolve_from cur a ++ resolve b.
Proof.
  revert cur; induction a as [|c a IH]; intros cur; [done|].
  rewrite sapp_cons. cbn [resolve_from]. destruct (Ascii.eqb c "/"); [|apply IH].
  by rewrite IH, app_assoc.
Qed.

(** What a path and a name joined with a slash denote. *)
Lemma resolve_app a b : resolve (a +:+ String "/" b) = resolve a ++ resolve b.
Proof. apply resolve_from_app. Qed.

Lemma resolve_from_no_slash cur n :
  no_char "/" n = true → resolve_from cur n = if String.eqb (cur +:+ n) "" then [] else [cur +:+ n].
Proof.
  revert cur; induction n as [|c n IH]; intros cur; [by rewrite sapp_nil_r|].
  unfold no_char. cbn [sall]. intros [Hc Hn]%andb_true_iff. cbn [resolve_from].
  destruct (Ascii.eqb c "/"); [done|]. rewrite IH by done. by rewrite sapp_assoc.
Qed.

Lemma resolve_plain n : plain n → resolve n = [n].
Proof.
  intros (Hne & Hs & _). unfold resolve. rewrite resolve_from_no_slash by done. cbn.
  by destruct (String.eqb_spec n "").
Qed.

Lemma resolve_child p n : plain n → resolve (p +:+ "/" +:+ n) = resolve p ++ [n].
Proof. intros Hn. change ("/" +:+ n) with (String "/" n). by rewrite resolve_app, (resolve_plain n). Qed.

Lemma resolve_join k : Forall plain k → resolve (join "/" k) = k.
Proof.
  induction 1 as [|n k Hn Hk IH]; [done|]. destruct k as [|n' k]; [by apply resolve_plain|].
  rewrite join_cons, resolve_app, resolve_plain, IH by done. done.
Qed.

(** * What the calls do *)

Definition is_dir (m : gmap path Kind) (c : path) : bool :=
  bool_decide (c = []) || bool_decide (m !! c = Some K_directory).
Definition exists_at (m : gmap path Kind) (c : path) : bool :=
  bool_decide (c = []) || bool_decide (is_Some (m !! c)).
Definition parent (c : path) : path := removelast c.

(** Everything is in a directory and has a name that a directory can hold. *)
Definition well_formed (m : gmap path Kind) : Prop :=
  map_Forall (λ c _, c ≠ [] ∧ Forall plain c ∧ is_dir m (parent c) = true) m.

#[export] Instance well_formed_dec m : Decision (well_formed m).
Proof. unfold well_formed. apply _. Defined.

Definition mkdir_error (m : gmap path Kind) (c : path) : option Errno :=
  if exists_at m c then Some EEXIST
  else if negb (exists_at m (parent c)) then Some ENOENT
  else if negb (is_dir m (parent c)) then Some ENOTDIR
  else None.

Definition has_children (m : gmap path Kind) (c : path) : bool :=
  existsb (λ kv, bool_decide (kv.1 ≠ [] ∧ parent kv.1 = c)) (map_to_list m).

Definition rmdir_error (m : gmap path Kind) (c : path) : option Errno :=
  if bool_decide (c = []) then Some OtherErrno
  else if negb (exists_at m c) then Some ENOENT
  else if negb (is_dir m c) then Some ENOTDIR
  else if has_children m c then Some ENOTEMPTY
  else None.

Definition unlink_error (m : gmap path Kind) (c : path) : option Errno :=
  if negb (exists_at m c) then Some ENOENT
  else if is_dir m c then Some EISDIR
  else None.

(** A listing names the children of a directory, and the two entries every directory
    has, each once.  Not every file system reports the types. *)
Definition lists (m : gmap path Kind) (c : path) (l : list Dirent) : Prop :=
  NoDup (d_name <$> l) ∧ "." ∈ d_name <$> l ∧ ".." ∈ d_name <$> l ∧
  (∀ e, e ∈ l → d_name e ≠ "." → d_name e ≠ ".." →
     ∃ k, m !! (c ++ [d_name e]) = Some k ∧ (d_type e = type_of k ∨ d_type e = DT_UNKNOWN)) ∧
  (∀ n k, m !! (c ++ [n]) = Some k → n ∈ d_name <$> l).

Class Posix (F : Type) `{FileSystem F} (view : F → gmap path Kind) : Prop := {
  posix_mkdir p f :
    Forall plain (resolve p) →
    (fs_mkdir p f).1 = mkdir_error (view f) (resolve p) ∧
    view (fs_mkdir p f).2 =
      if mkdir_error (view f) (resolve p) is Some _ then view f
      else <[resolve p := K_directory]> (view f);
  posix_rmdir p f :
    Forall plain (resolve p) →
    (fs_rmdir p f).1 = rmdir_error (view f) (resolve p) ∧
    view (fs_rmdir p f).2 =
      if rmdir_error (view f) (resolve p) is Some _ then view f
      else delete (resolve p) (view f);
  posix_unlink p f :
    Forall plain (resolve p) →
    (fs_unlink p f).1 = unlink_error (view f) (resolve p) ∧
    view (fs_unlink p f).2 =
      if unlink_error (view f) (resolve p) is Some _ then view f
      else delete (resolve p) (view f);
  posix_list p f :
    Forall plain (resolve p) → well_formed (view f) →
    if is_dir (view f) (resolve p)
    then ∃ l, fs_list p f = Some l ∧ lists (view f) (resolve p) l
    else fs_list p f = None;
  posix_read p f content :
    view f !! resolve p = Some (K_regular content) → fs_read p f = Some content
}.

(** ** Lemmas on paths and views *)

Lemma parent_snoc c n : parent (c ++ [n]) = c.
Proof. apply removelast_last. Qed.

Lemma path_snoc (c : path) : c ≠ [] → ∃ n, c = parent c ++ [n].
Proof. intros Hc. exists (List.last c ""). by apply app_removelast_last. Qed.

Lemma is_dir_true m c : is_dir m c = true ↔ c = [] ∨ m !! c = Some K_directory.
Proof. unfold is_dir. by rewrite orb_true_iff, !bool_decide_eq_true. Qed.

Lemma exists_at_true m c : exists_at m c = true ↔ c = [] ∨ is_Some (m !! c).
Proof. unfold exists_at. by rewrite orb_true_iff, !bool_decide_eq_true. Qed.

Lemma is_dir_exists m c : is_dir m c = true → exists_at m c = true.
Proof. rewrite is_dir_true, exists_at_true. intros [?|H]; [by left|right; by rewrite H]. Qed.

Lemma well_formed_lookup m c k :
  well_formed m → m !! c = Some k → c ≠ [] ∧ Forall plain c ∧ is_dir m (parent c) = true.
Proof. intros W H. apply (W c k H). Qed.

(** Every part of a path to something is a directory. *)
Lemma well_formed_prefix m c d k :
  well_formed m → m !! (c ++ d) = Some k → d ≠ [] → is_dir m c = true.
Proof.
  intros W. revert k; induction d as [|n d IH] using rev_ind; intros k H; [done|]. intros _.
  rewrite app_assoc in H. destruct (well_formed_lookup _ _ _ W H) as (_ & _ & Hp).
  rewrite parent_snoc in Hp. destruct d as [|n' d]; [by rewrite app_nil_r in Hp|].
  apply is_dir_true in Hp as [Hp|Hp]; [by destruct c|]. by apply IH in Hp.
Qed.

Lemma has_children_false m c :
  has_children m c = false ↔ ∀ n k, m !! (c ++ [n]) = Some k → False.
Proof.
  unfold has_children. rewrite <- not_true_iff_false, existsb_exists. split.
  - intros H n k Hk. apply H. exists (c ++ [n], k). split.
    + by apply list_elem_of_In, elem_of_map_to_list.
    + apply bool_decide_eq_true. cbn. rewrite parent_snoc. split; [by destruct c|done].
  - intros H ([k x] & Hin%list_elem_of_In%elem_of_map_to_list & Hb%bool_decide_eq_true).
    cbn in Hb. destruct Hb as [Hne <-]. destruct (path_snoc k Hne) as [n E].
    apply (H n x). unfold parent in *. by rewrite <- E.
Qed.

(** * An instance *)

(** The entries of a directory, in the order of the map; the inode is not looked at. *)
Definition entries_of (m : gmap path Kind) (c : path) : list Dirent :=
  omap (λ kv, if bool_decide (kv.1 ≠ [] ∧ parent kv.1 = c)
              then Some {| d_name := List.last kv.1 ""; d_ino := 1; d_type := type_of kv.2 |}
              else None) (map_to_list m).

Definition dots : list Dirent :=
  [{| d_name := "."; d_ino := 1; d_type := DT_DIR |};
   {| d_name := ".."; d_ino := 1; d_type := DT_DIR |}].

#[export] Instance tree_files : FileSystem (gmap path Kind) := {|
  fs_mkdir := λ p m,
    let e := mkdir_error m (resolve p) in
    (e, if e is Some _ then m else <[resolve p := K_directory]> m);
  fs_rmdir := λ p m,
    let e := rmdir_error m (resolve p) in (e, if e is Some _ then m else delete (resolve p) m);
  fs_unlink := λ p m,
    let e := unlink_error m (resolve p) in (e, if e is Some _ then m else delete (resolve p) m);
  fs_list := λ p m,
    if is_dir m (resolve p) then Some (dots ++ entries_of m (resolve p)) else None;
  fs_read := λ p m, if m !! resolve p is Some (K_regular content) then Some content else None |}.

Lemma entries_of_spec m c e :
  e ∈ entries_of m c ↔
    ∃ k, m !! (c ++ [d_name e]) = Some k ∧ d_type e = type_of k ∧ d_ino e = 1.
Proof.
  unfold entries_of. rewrite list_elem_of_omap. split.
  - intros ([p k] & Hp%elem_of_map_to_list & He). cbn in He. case_bool_decide as Hc; [|done].
    destruct Hc as [Hne <-]. injection He as <-. cbn. exists k.
    unfold parent. by rewrite <- app_removelast_last.
  - intros (k & Hk & Ht & Hi). exists (c ++ [d_name e], k).
    split; [by apply elem_of_map_to_list|]. cbn.
    rewrite parent_snoc, last_last, bool_decide_true by (split; [by destruct c|done]).
    destruct e; cbn in *; by subst.
Qed.

Lemma entries_of_NoDup m c : NoDup (d_name <$> entries_of m c).
Proof.
  unfold entries_of. pose proof (NoDup_fst_map_to_list m) as N.
  induction (map_to_list m) as [|[p k] l IH]; [constructor|]. rewrite fmap_cons in N.
  apply NoDup_cons in N as [Np N]. cbn. case_bool_decide as Hc; [|by apply IH].
  rewrite fmap_cons. constructor; [|by apply IH]. cbn. intros (e & He & Hin)%list_elem_of_fmap.
  apply list_elem_of_omap in Hin as ([p' k'] & Hp & Hx). cbn in Hx.
  case_bool_decide as Hc'; [|done]. injection Hx as <-. cbn in He. apply Np, list_elem_of_fmap.
  exists (p', k'). split; [|done]. cbn. destruct Hc as [H1 H2], Hc' as [H3 H4].
  rewrite (app_removelast_last "" H1), (app_removelast_last "" H3). unfold parent in *. congruence.
Qed.

#[export] Instance tree_posix : Posix (gmap path Kind) id.
Proof.
  split; unfold id; try (intros; cbn; split; [done|by destruct (_ _ (resolve p))]).
  - intros p m Hp W. cbn. destruct (is_dir m (resolve p)); [|done]. eexists. split; [done|].
    set (c := resolve p).
    assert (Hpl : ∀ e, e ∈ entries_of m c → d_name e ≠ "." ∧ d_name e ≠ "..").
    { intros e (k & Hk & _)%entries_of_spec.
      apply (well_formed_lookup _ _ _ W) in Hk as (_ & F & _).
      apply Forall_app in F as [_ [F _]%Forall_cons]. apply F. }
    split_and!.
    + cbn. constructor; [|constructor; [|apply entries_of_NoDup]].
      * intros [?|(e & He & Hin)%list_elem_of_fmap]%elem_of_cons; [done|].
        by destruct (Hpl e Hin).
      * intros (e & He & Hin)%list_elem_of_fmap. by destruct (Hpl e Hin).
    + left.
    + right; left.
    + intros e He H1 H2. apply elem_of_cons in He as [->|He]; [done|].
      apply elem_of_cons in He as [->|He]; [done|].
      apply entries_of_spec in He as (k & Hk & Ht & _). eauto 6.
    + intros n k Hk. do 2 right. apply list_elem_of_fmap.
      exists {| d_name := n; d_ino := 1; d_type := type_of k |}. split; [done|].
      apply entries_of_spec. eauto.
  - intros p m content Hp. cbn. by rewrite Hp.
Qed.

(** The same, on a file system that does not report the types of entries. *)
Record Blind := { seen : gmap path Kind }.

Definition untyped (e : Dirent) : Dirent :=
  {| d_name := d_name e; d_ino := d_ino e; d_type := DT_UNKNOWN |}.
Definition on_seen {A} (r : A * gmap path Kind) : A * Blind := (r.1, {| seen := r.2 |}).

#[export] Instance blind_files : FileSystem Blind := {|
  fs_mkdir := λ p f, on_seen (fs_mkdir p (seen f));
  fs_rmdir := λ p f, on_seen (fs_rmdir p (seen f));
  fs_unlink := λ p f, on_seen (fs_unlink p (seen f));
  fs_list := λ p f, (λ l : list Dirent, untyped <$> l) <$> fs_list p (seen f);
  fs_read := λ p f, fs_read p (seen f) |}.

Lemma untyped_names (l : list Dirent) : d_name <$> (untyped <$> l) = d_name <$> l.
Proof. by rewrite <- list_fmap_compose. Qed.

#[export] Instance blind_posix : Posix Blind seen.
Proof.
  split.
  1-3: intros p f Hp; cbn [fs_mkdir fs_rmdir fs_unlink blind_files on_seen seen fst snd].
  - by apply (posix_mkdir (view := id)).
  - by apply (posix_rmdir (view := id)).
  - by apply (posix_unlink (view := id)).
  - intros p f Hp W. pose proof (posix_list (view := id) p (seen f) Hp W) as H. unfold id in H.
    cbn [fs_list blind_files]. destruct (is_dir _ _); [|by rewrite H].
    destruct H as (l & -> & N & H1 & H2 & H3 & H4). eexists. split; [done|].
    split_and!; rewrite ?untyped_names; try done.
    intros e (e' & -> & He')%list_elem_of_fmap D1 D2.
    destruct (H3 e' He' D1 D2) as (k & Hk & _). exists k. split; [done|by right].
  - intros p f. apply (posix_read (view := id)).
Qed.
