(* ===== verification/Directory.v ===== *)
(** Directories: src/distribuild/common/dir.h and daemon/cloud/temp_dir.{h,cpp}, over the
    interface of FileSystem.

    A listing is read before the first of its entries is touched: what others do to a
    directory meanwhile is not considered.  A failed check only logs.  The only recursion of the sources that is not a loop,
    [RemoveDir], takes fuel, and so does the loop over the queue of
    [GetDirNodesRecursively]; without fuel both are [Undef].  [RemoveDir_spec] and
    [GetDirNodesRecursively_spec] say how much is enough. *)
From S2P Require Import Prelude Text FileSystem.

(** * dir.h *)

Record DirNode := {
  n_name : string;
  inode : Z;
  is_block_dev : bool;
  is_char_dev : bool;
  is_directory : bool;
  is_symlink : bool;
  is_regular : bool;
  is_unix_socket : bool
}.

(** [!!(type & bits)]: the types are no bit sets. *)
Definition has_bits (type bits : Z) : bool := negb (Z.land type bits =? 0).

Definition dir_node (e : Dirent) : DirNode := {|
  n_name := d_name e; inode := d_ino e;
  is_block_dev := has_bits (d_type e) DT_BLK; is_char_dev := has_bits (d_type e) DT_CHR;
  is_directory := has_bits (d_type e) DT_DIR; is_symlink := has_bits (d_type e) DT_LNK;
  is_regular := has_bits (d_type e) DT_REG; is_unix_socket := has_bits (d_type e) DT_SOCK |}.

Definition rename (name : string) (n : DirNode) : DirNode := {|
  n_name := name; inode := inode n; is_block_dev := is_block_dev n;
  is_char_dev := is_char_dev n; is_directory := is_directory n; is_symlink := is_symlink n;
  is_regular := is_regular n; is_unix_socket := is_unix_socket n |}.

Definition is_dots (n : string) : bool := String.eqb n "." || String.eqb n "..".

(** The paths [Mkdirs] cuts off at a slash: [done] is in front of [rest]. *)
Fixpoint slash_prefixes (done rest : string) : list string :=
  match rest with
  | "" => []
  | String c rest =>
    (if Ascii.eqb c "/" then [done] else []) ++ slash_prefixes (done +:+ String c "") rest
  end.

(** What [Mkdirs] calls [mkdir] with; the search starts behind the first byte. *)
Definition mkdir_calls (path : string) : outcome (list string) :=
  match path with
  | "" => Undef "strchr past the end of a string"
  | String c rest => Ret (slash_prefixes (String c "") rest ++ [path])
  end.

Section files.
Context {F : Type} `{FileSystem F}.

Definition Mkdirs (path : string) (f : F) : outcome F :=
  calls ← mkdir_calls path; Ret (foldl (λ f p, (fs_mkdir p f).2) f calls).

(** The loop over the entries; [rec] removes a directory. *)
Fixpoint remove_entries (rec : string → F → outcome F) (path : string) (l : list Dirent) (f : F)
    : outcome F :=
  match l with
  | [] => Ret f
  | e :: l =>
    if is_dots (d_name e) then remove_entries rec path l f
    else
      let fullname := path +:+ "/" +:+ d_name e in
      let '(error, f) := fs_unlink fullname f in
      f ← (if error is Some _ then rec fullname f else Ret f);
      remove_entries rec path l f
  end.

Fixpoint RemoveDir (fuel : nat) (path : string) (f : F) : outcome F :=
  match fuel with
  | O => Undef "endless recursion"
  | S fuel =>
    match fs_list path f with
    | None => Undef "readdir of a null pointer"
    | Some l => f ← remove_entries (RemoveDir fuel) path l f; Ret (fs_rmdir path f).2
    end
  end.

Definition GetDirNodes (path : string) (f : F) : outcome (list DirNode) :=
  match fs_list path f with
  | None => Undef "readdir of a null pointer"
  | Some l => Ret (dir_node <$> filter (λ e, is_dots (d_name e) = false) l)
  end.

(** The names of the entries of [front] get its path in front. *)
Definition in_front (front : string) (n : DirNode) : DirNode :=
  if String.eqb front "" then n else rename (front +:+ "/" +:+ n_name n) n.

Fixpoint walk (fuel : nat) (path : string) (queue : list string) (result : list DirNode) (f : F)
    : outcome (list DirNode) :=
  match queue with
  | [] => Ret result
  | front :: queue =>
    match fuel with
    | O => Undef "endless loop"
    | S fuel =>
      nodes ← GetDirNodes (path +:+ "/" +:+ front) f;
      let temp := in_front front <$> nodes in
      walk fuel path (queue ++ (n_name <$> filter (λ n, is_directory n = true) temp))
        (result ++ temp) f
    end
  end.

Definition GetDirNodesRecursively (fuel : nat) (path : string) (f : F) : outcome (list DirNode) :=
  walk fuel path [""] [] f.
End files.

(** * temp_dir.{h,cpp} *)

Record TempDir := { alive_ : bool; path_ : string }.

Section temp.
Context {F : Type} `{FileSystem F}.

(** [now] and [random]: [std::time] and [Poco::Random]. *)
Definition TempDir_make (prefix : string) (now random : Z) (f : F) : outcome (TempDir * F) :=
  let p := prefix +:+ "/distribuild_" +:+ to_string now +:+ "_" +:+ to_string random in
  f ← Mkdirs p f; Ret ({| alive_ := true; path_ := p |}, f).

(** A file that cannot be opened reads as empty. *)
Definition TempDir_ReadAll (fuel : nat) (subdir : string) (t : TempDir) (f : F)
    : outcome (list (string * string)) :=
  let root_dir := path_ t +:+ "/" +:+ subdir in
  nodes ← GetDirNodesRecursively fuel root_dir f;
  Ret ((λ n, (n_name n, default "" (fs_read (root_dir +:+ "/" +:+ n_name n) f))) <$>
       filter (λ n, is_regular n = true) (nodes : list DirNode)).

Definition TempDir_Clear (fuel : nat) (t : TempDir) (f : F) : outcome (TempDir * F) :=
  if alive_ t
  then f ← RemoveDir fuel (path_ t) f; Ret ({| alive_ := false; path_ := path_ t |}, f)
  else Ret (t, f).
End temp.

(** * Theory *)

Lemma is_dots_false n : is_dots n = false ↔ n ≠ "." ∧ n ≠ "..".
Proof.
  unfold is_dots. rewrite orb_false_iff.
  destruct (String.eqb_spec n "."), (String.eqb_spec n ".."); intuition congruence.
Qed.

Lemma plain_dots n : plain n → is_dots n = false.
Proof. intros (_ & _ & H1 & H2). by apply is_dots_false. Qed.

Lemma temp_name_plain now random :
  plain ("distribuild_" +:+ to_string now +:+ "_" +:+ to_string random).
Proof.
  assert (Hslash : no_char "/" ("distribuild_" +:+ to_string now +:+ "_" +:+ to_string random) = true)
    by (by rewrite !no_char_app, !to_string_no_char).
  by split_and!.
Qed.

(** ** Subtrees *)

(** What is left when everything at and below [c] is gone. *)
Definition cut (c : path) (m : gmap path Kind) : gmap path Kind :=
  filter (λ kv, ¬ c `prefix_of` kv.1) m.

Lemma lookup_cut c m x : cut c m !! x = if decide (c `prefix_of` x) then None else m !! x.
Proof.
  unfold cut. rewrite map_lookup_filter. destruct (m !! x) as [k|] eqn:E; cbn; [|by case_decide].
  case_guard; case_decide; done.
Qed.

Lemma is_dir_cut c m x :
  c ≠ [] → is_dir (cut c m) x = true ↔ is_dir m x = true ∧ ¬ c `prefix_of` x.
Proof.
  intros Hc. rewrite !is_dir_true, lookup_cut. case_decide as P.
  - split; [|by intros [_ ?]]. intros [->|?]; [|done]. by apply prefix_nil_inv in P.
  - intuition.
Qed.

Lemma cut_well_formed c m : c ≠ [] → well_formed m → well_formed (cut c m).
Proof.
  intros Hc W x k. rewrite lookup_cut. case_decide as P; [done|]. intros Hk.
  destruct (W x k Hk) as (Hx & Fx & Px). split_and!; [done..|]. apply is_dir_cut; [done|].
  split; [done|]. intros Q. apply P. destruct (path_snoc x Hx) as [n ->].
  by apply prefix_app_r.
Qed.

Definition cut_children (c : path) (ns : list string) (m : gmap path Kind) : gmap path Kind :=
  foldl (λ m n, cut (c ++ [n]) m) m ns.

Lemma lookup_cut_children c ns m x :
  cut_children c ns m !! x =
    if decide (Exists (λ n, c ++ [n] `prefix_of` x) ns) then None else m !! x.
Proof.
  revert m; induction ns as [|n ns IH]; intros m; cbn.
  - by rewrite decide_False by (by intros ?%Exists_nil).
  - unfold cut_children in IH. rewrite IH, lookup_cut.
    destruct (decide (Exists _ ns)) as [E|E]; destruct (decide (c ++ [n] `prefix_of` x)) as [P|P];
      case_decide as D; try done; exfalso; rewrite Exists_cons in D; tauto.
Qed.

Lemma cut_children_cons c n ns m : cut_children c (n :: ns) m = cut_children c ns (cut (c ++ [n]) m).
Proof. done. Qed.

Lemma delete_file c m :
  well_formed m → is_Some (m !! c) → is_dir m c = false → delete c m = cut c m.
Proof.
  intros W [k Hk] Hd. apply map_eq. intros x. rewrite lookup_cut.
  destruct (decide (c = x)) as [<-|Hx]; [by rewrite lookup_delete_eq, decide_True|].
  rewrite lookup_delete_ne by done. case_decide as P; [|done].
  destruct P as [d ->]. destruct (m !! (c ++ d)) eqn:E; [|done]. exfalso.
  assert (is_dir m c = true); [|congruence].
  eapply well_formed_prefix; [done|exact E|]. intros ->. by rewrite app_nil_r in Hx.
Qed.

Definition names (l : list Dirent) : list string :=
  d_name <$> filter (λ e, is_dots (d_name e) = false) l.

Lemma names_cons e l :
  names (e :: l) = if is_dots (d_name e) then names l else d_name e :: names l.
Proof. unfold names. rewrite filter_cons. by destruct (is_dots (d_name e)). Qed.

(** What a listing of a well-formed view names. *)
Lemma lists_names m c l :
  well_formed m → lists m c l →
  NoDup (names l) ∧ ∀ n, n ∈ names l ↔ is_Some (m !! (c ++ [n])).
Proof.
  intros W (N & _ & _ & Hin & Hall). split.
  - clear Hin Hall. induction l as [|e l IH]; [constructor|]. rewrite names_cons.
    rewrite fmap_cons in N. apply NoDup_cons in N as [Ne N].
    destruct (is_dots (d_name e)); [by apply IH|]. constructor; [|by apply IH].
    intros (e' & E & [_ He']%list_elem_of_filter)%list_elem_of_fmap. apply Ne.
    rewrite E. by apply list_elem_of_fmap_2.
  - intros n. split.
    + intros (e & -> & [Hd He]%list_elem_of_filter)%list_elem_of_fmap.
      apply is_dots_false in Hd as [H1 H2]. destruct (Hin e He H1 H2) as (k & Hk & _). eauto.
    + intros [k Hk]. destruct (well_formed_lookup _ _ _ W Hk) as (_ & Fp & _).
      apply Forall_app in Fp as [_ [Hp _]%Forall_cons]. apply Hall in Hk.
      apply list_elem_of_fmap in Hk as (e & -> & He). apply list_elem_of_fmap_2.
      apply list_elem_of_filter. split; [by apply plain_dots|done].
Qed.

Section theory.
Context {F : Type} {files : FileSystem F} {view : F → gmap path Kind} {laws : Posix F view}.

(** [rec] removes every directory below [c] that is less than [fuel] deep. *)
Definition removes (rec : string → F → outcome F) (fuel : nat) : Prop := ∀ p f,
  well_formed (view f) → view f !! resolve p = Some K_directory →
  (∀ x k, view f !! (resolve p ++ x) = Some k → (length x < fuel)%nat) →
  ∃ f', rec p f = Ret f' ∧ view f' = cut (resolve p) (view f).

Lemma remove_entry rec fuel p n f :
  removes rec fuel → well_formed (view f) → is_Some (view f !! (resolve p ++ [n])) →
  (∀ x k, view f !! (resolve p ++ x) = Some k → (length x < S fuel)%nat) →
  ∃ f', (let '(error, f) := fs_unlink (p +:+ "/" +:+ n) f in
         if error is Some _ then rec (p +:+ "/" +:+ n) f else Ret f) = Ret f' ∧
    view f' = cut (resolve p ++ [n]) (view f).
Proof.
  intros Hrec W [k Hk] Hdepth. destruct (well_formed_lookup _ _ _ W Hk) as (_ & Fp & _).
  assert (Hn : plain n) by (by apply Forall_app in Fp as [_ [Hn _]%Forall_cons]).
  rewrite <- (resolve_child p n Hn) in *.
  destruct (posix_unlink (p +:+ "/" +:+ n) f Fp) as [E V].
  destruct (fs_unlink (p +:+ "/" +:+ n) f) as [error f1]. cbn [fst snd] in E, V. subst error.
  revert V. unfold unlink_error.
  assert (Hex : exists_at (view f) (resolve (p +:+ "/" +:+ n)) = true)
    by (apply exists_at_true; right; eauto).
  rewrite Hex. cbn [negb]. destruct (is_dir (view f) _) eqn:D; intros V.
  - destruct (Hrec (p +:+ "/" +:+ n) f1) as (f' & -> & Hf'); rewrite ?V; [done| | |].
    + apply is_dir_true in D as [D|D]; [|done].
      rewrite resolve_child in D by done. by apply app_nil in D as [_ D].
    + rewrite resolve_child by done. intros x k' Hx. rewrite <- app_assoc in Hx.
      apply Hdepth in Hx. cbn in Hx. lia.
    + exists f'. by rewrite Hf', V.
  - exists f1. rewrite V. split; [done|]. by apply delete_file; [|eauto|].
Qed.

Lemma remove_entries_spec rec fuel p l f :
  removes rec fuel → well_formed (view f) →
  NoDup (names l) → (∀ n, n ∈ names l → is_Some (view f !! (resolve p ++ [n]))) →
  (∀ x k, view f !! (resolve p ++ x) = Some k → (length x < S fuel)%nat) →
  ∃ f', remove_entries rec p l f = Ret f' ∧
    view f' = cut_children (resolve p) (names l) (view f).
Proof.
  intros Hrec. revert f; induction l as [|e l IH]; intros f W N Hin Hdepth; [by exists f|].
  rewrite names_cons in *. cbn [remove_entries]. destruct (is_dots (d_name e)); [by apply IH|].
  apply NoDup_cons in N as [Ne N].
  destruct (remove_entry rec fuel p (d_name e) f Hrec W) as (f1 & R & V);
    [by apply Hin; left|done|].
  destruct (fs_unlink _ f) as [error f0]. rewrite R. cbn [mbind outcome_bind].
  assert (Hne : resolve p ++ [d_name e] ≠ []) by (by destruct (resolve p)).
  destruct (IH f1) as (f' & R' & V').
  - rewrite V. by apply cut_well_formed.
  - done.
  - intros n Hn. rewrite V, lookup_cut. rewrite decide_False; [by apply Hin; right|].
    intros [d E]. rewrite <- app_assoc in E. apply app_inv_head in E. injection E as -> _. done.
  - intros x k. rewrite V, lookup_cut. case_decide; [done|]. apply Hdepth.
  - exists f'. split; [done|]. by rewrite V', V.
Qed.

Lemma RemoveDir_removes fuel : removes (RemoveDir fuel) fuel.
Proof.
  induction fuel as [|fuel IH]; intros p f W Hp Hdepth.
  { specialize (Hdepth [] K_directory). rewrite app_nil_r in Hdepth. apply Hdepth in Hp. lia. }
  destruct (well_formed_lookup _ _ _ W Hp) as (Hne & Fp & _).
  assert (Hd : is_dir (view f) (resolve p) = true) by (apply is_dir_true; by right).
  pose proof (posix_list p f Fp W) as HL. rewrite Hd in HL. destruct HL as (l & Hl & HL).
  cbn [RemoveDir]. rewrite Hl. destruct (lists_names _ _ _ W HL) as [N Hn].
  destruct (remove_entries_spec (RemoveDir fuel) fuel p l f IH W N) as (f1 & R & V);
    [intros n; by rewrite Hn|done|].
  rewrite R. cbn [mbind outcome_bind]. eexists. split; [done|].
  destruct (posix_rmdir p f1 Fp) as [_ ->]. rewrite V. set (m := view f) in *.
  assert (Hc : cut_children (resolve p) (names l) m !! resolve p = Some K_directory).
  { rewrite lookup_cut_children, decide_False; [done|].
    intros (n & _ & [d E])%Exists_exists. rewrite <- app_assoc in E.
    rewrite <- (app_nil_r (resolve p)) in E at 1. by apply app_inv_head in E. }
  unfold rmdir_error. rewrite bool_decide_false by done.
  rewrite (proj2 (exists_at_true _ _)) by (right; eauto).
  rewrite (proj2 (is_dir_true _ _)) by (by right). cbn [negb].
  rewrite (proj2 (has_children_false _ _)).
  2: { intros n k. rewrite lookup_cut_children. case_decide as D; [done|]. intros Hk. apply D.
       apply Exists_exists. exists n. split; [|done]. apply Hn. eauto. }
  apply map_eq. intros x. rewrite lookup_cut.
  destruct (decide (resolve p = x)) as [<-|Hx]; [by rewrite lookup_delete_eq, decide_True|].
  rewrite lookup_delete_ne by done. rewrite lookup_cut_children.
  destruct (decide (resolve p `prefix_of` x)) as [[[|n d] ->]|Pf].
  - by rewrite app_nil_r in Hx.
  - case_decide as D; [done|]. destruct (m !! (resolve p ++ n :: d)) eqn:E; [|done].
    exfalso. apply D, Exists_exists. exists n.
    split; [|exists d; by rewrite <- app_assoc]. apply Hn.
    replace (resolve p ++ n :: d) with ((resolve p ++ [n]) ++ d) in E by (by rewrite <- app_assoc).
    destruct d as [|n' d]; [rewrite app_nil_r in E; eauto|].
    eapply well_formed_prefix in E; [|done..]. apply is_dir_true in E as [E|E]; [|eauto].
    by apply app_nil in E as [_ ?].
  - rewrite decide_False; [done|]. intros (n & _ & D)%Exists_exists.
    apply Pf. by apply prefix_app_l in D.
Qed.
(** Removing a directory removes it and everything below it, and nothing else; one more
    level of recursion than the tree is deep is enough. *)
Theorem RemoveDir_spec fuel p f :
  well_formed (view f) → view f !! resolve p = Some K_directory →
  (∀ x k, view f !! (resolve p ++ x) = Some k → (length x < fuel)%nat) →
  ∃ f', RemoveDir fuel p f = Ret f' ∧ well_formed (view f') ∧
    ∀ x, view f' !! x = if decide (resolve p `prefix_of` x) then None else view f !! x.
Proof.
  intros W Hp Hd. destruct (RemoveDir_removes fuel p f W Hp Hd) as (f' & R & V).
  exists f'. rewrite V. split; [done|]. split; [|apply lookup_cut].
  apply cut_well_formed; [|done]. by destruct (well_formed_lookup _ _ _ W Hp).
Qed.

(** ** Mkdirs *)

(** [m] with all directories on the way to [c]. *)
Definition made (c : path) (m m' : gmap path Kind) : Prop :=
  ∀ x, m' !! x = if decide (x ≠ [] ∧ x `prefix_of` c) then Some K_directory else m !! x.

Definition passable (c : path) (m : gmap path Kind) : Prop :=
  ∀ x k, x `prefix_of` c → m !! x = Some k → k = K_directory.

Lemma made_refl m : made [] m m.
Proof. intros x. rewrite decide_False; [done|]. by intros [? ?%prefix_nil_inv]. Qed.

Lemma made_dir c m m' x : made c m m' → x `prefix_of` c → is_dir m' x = true.
Proof.
  intros M Hx. apply is_dir_true. destruct (decide (x = [])); [by left|right].
  by rewrite M, decide_True.
Qed.

Lemma prefix_snoc (x a : path) n : x `prefix_of` a ++ [n] ↔ x = a ++ [n] ∨ x `prefix_of` a.
Proof.
  split.
  - intros [d Hd]. induction d as [|n' d _] using rev_ind.
    + left. by rewrite app_nil_r in Hd.
    + right. exists d. rewrite app_assoc in Hd. by apply app_inj_tail in Hd as [-> _].
  - intros [->|Hx]; [done|]. by apply prefix_app_r.
Qed.

Lemma snoc_not_prefix (a : path) n : ¬ a ++ [n] `prefix_of` a.
Proof. intros D%prefix_length. rewrite length_app in D. cbn in D. lia. Qed.

(** One [mkdir] on the way: of the next directory, or of one that is there. *)
Lemma mkdir_made a m p f :
  Forall plain (resolve p) → (resolve p = a ∨ ∃ n, resolve p = a ++ [n]) →
  passable (resolve p) m → made a m (view f) →
  made (resolve p) m (view (fs_mkdir p f).2).
Proof.
  intros Fp Ha Hpass M. destruct (posix_mkdir p f Fp) as [_ ->].
  destruct Ha as [Ha|[n Ha]].
  { rewrite Ha. unfold mkdir_error. by rewrite (is_dir_exists _ _ (made_dir a m _ a M (reflexivity a))). }
  rewrite Ha in *. unfold mkdir_error.
  destruct (exists_at (view f) (a ++ [n])) eqn:Ex.
  - apply exists_at_true in Ex as [?|[k Hk]]; [by destruct a|]. intros x. rewrite (M x).
    destruct (decide (x = a ++ [n])) as [->|Hx].
    + rewrite decide_False by (intros [_ D]; by apply snoc_not_prefix in D).
      rewrite decide_True by (split; [by destruct a|done]).
      rewrite M, decide_False in Hk by (intros [_ D]; by apply snoc_not_prefix in D).
      rewrite Hk. f_equal. by eapply Hpass.
    + destruct (decide (x ≠ [] ∧ x `prefix_of` a)) as [[H1 H2]|D];
        case_decide as D'; try done; exfalso.
      * apply D'. split; [done|]. apply prefix_snoc. by right.
      * destruct D' as [H1 [H2|H2]%prefix_snoc]; tauto.
  - rewrite parent_snoc. rewrite (is_dir_exists _ _ (made_dir a m _ a M (reflexivity a))).
    rewrite (made_dir a m _ a M (reflexivity a)). cbn [negb]. intros x.
    destruct (decide (x = a ++ [n])) as [->|Hx].
    + rewrite lookup_insert_eq, decide_True; [done|]. split; [by destruct a|done].
    + rewrite lookup_insert_ne, (M x) by done.
      destruct (decide (x ≠ [] ∧ x `prefix_of` a)) as [[H1 H2]|D];
        case_decide as D'; try done; exfalso.
      * apply D'. split; [done|]. apply prefix_snoc. by right.
      * destruct D' as [H1 [H2|H2]%prefix_snoc]; tauto.
Qed.

Lemma mkdirs_loop a cur done_ rest m f :
  (∀ r, resolve (done_ +:+ r) = a ++ resolve_from cur r) →
  Forall plain (resolve (done_ +:+ rest)) → passable (resolve (done_ +:+ rest)) m →
  made a m (view f) →
  made (resolve (done_ +:+ rest)) m
    (view (foldl (λ f p, (fs_mkdir p f).2) f (slash_prefixes done_ rest ++ [done_ +:+ rest]))).
Proof.
  revert a cur done_ f; induction rest as [|c rest IH]; intros a cur done_ f Hres Fp Hpass M.
  - cbn. apply (mkdir_made a); [done| |done..]. rewrite Hres. cbn.
    destruct (String.eqb cur ""); [left; apply app_nil_r|right; eauto].
  - cbn [slash_prefixes].
    replace (done_ +:+ String c rest) with ((done_ +:+ String c "") +:+ rest) in *
      by (by rewrite sapp_assoc).
    destruct (Ascii.eqb_spec c "/") as [->|Hc].
    + rewrite <- app_assoc. cbn [app foldl].
      assert (Hd : resolve done_ = a ++ resolve_from cur "") by (by rewrite <- Hres, sapp_nil_r).
      assert (Hp : resolve done_ `prefix_of` resolve ((done_ +:+ String "/" "") +:+ rest)).
      { rewrite sapp_assoc, Hres, Hd. cbn [resolve_from String.append].
        rewrite Ascii.eqb_refl, app_assoc. by apply prefix_app_r. }
      apply (IH (resolve done_) ""); [|done|done|].
      * intros r. rewrite sapp_assoc, Hres, Hd. cbn [resolve_from String.append].
        by rewrite <- app_assoc.
      * apply (mkdir_made a); [| |intros x k Hx; apply Hpass; by etrans|done].
        -- destruct Hp as [d Hp]. rewrite Hp in Fp. by apply Forall_app in Fp as [? _].
        -- rewrite Hd. cbn. destruct (String.eqb cur ""); [left; apply app_nil_r|right; eauto].
    + apply (IH a (cur +:+ String c "")); [|done..]. intros r. rewrite sapp_assoc, Hres. cbn.
      apply Ascii.eqb_neq in Hc. by rewrite Hc.
Qed.

(** [Mkdirs] makes every directory on the path that is not there, and changes nothing
    else; what is there on the path has to be a directory. *)
Theorem Mkdirs_spec p f :
  p ≠ "" → Forall plain (resolve p) → passable (resolve p) (view f) →
  ∃ f', Mkdirs p f = Ret f' ∧
    ∀ x, view f' !! x = if decide (x ≠ [] ∧ x `prefix_of` resolve p) then Some K_directory
                        else view f !! x.
Proof.
  intros Hp Fp Hpass. destruct p as [|c rest]; [done|]. unfold Mkdirs. cbn [mkdir_calls mbind outcome_bind].
  eexists. split; [done|]. change (String c rest) with (String c "" +:+ rest) in *.
  destruct (Ascii.eqb_spec c "/") as [->|Hc].
  - by refine (mkdirs_loop [] "" _ rest (view f) f _ Fp Hpass (made_refl _)).
  - refine (mkdirs_loop [] (String c "") _ rest (view f) f _ Fp Hpass (made_refl _)).
    intros r. cbn. apply Ascii.eqb_neq in Hc. unfold resolve. cbn. by rewrite Hc.
Qed.
(** ** The walk *)

(** A node says what is at the path of its name, with the bits of its type. *)
Definition describes (n : DirNode) (k : path) (kd : Kind) : Prop :=
  n_name n = join "/" k ∧
  is_directory n = has_bits (type_of kd) DT_DIR ∧ is_regular n = has_bits (type_of kd) DT_REG ∧
  is_symlink n = has_bits (type_of kd) DT_LNK ∧ is_char_dev n = has_bits (type_of kd) DT_CHR ∧
  is_block_dev n = has_bits (type_of kd) DT_BLK ∧
  is_unix_socket n = has_bits (type_of kd) DT_SOCK.

(** What the walk takes for a directory; block devices and sockets are not. *)
Definition dirlike (kd : Kind) : bool := has_bits (type_of kd) DT_DIR.
Definition looks_like_dir (kd : Kind) : bool :=
  match kd with K_block_device | K_socket => true | _ => false end.

Lemma dirlike_cases kd : dirlike kd = true ↔ kd = K_directory ∨ looks_like_dir kd = true.
Proof. destruct kd; vm_compute; intuition congruence. Qed.

Lemma join_snoc k n : k ≠ [] → join "/" (k ++ [n]) = join "/" k +:+ "/" +:+ n.
Proof.
  induction k as [|x k IH]; [done|]. intros _. destruct k as [|y k]; [done|].
  rewrite <- app_comm_cons, !join_cons, IH by (done || by destruct k). by rewrite !sapp_assoc.
Qed.

Lemma join_nonempty k : Forall plain k → k ≠ [] → join "/" k ≠ "".
Proof.
  intros Fk Hk E. destruct Fk as [|n k [Hn _] Fk]; [done|]. destruct k as [|n' k]; [done|].
  rewrite join_cons in E by done. by destruct n.
Qed.

Lemma join_inj k1 k2 : Forall plain k1 → Forall plain k2 → join "/" k1 = join "/" k2 → k1 = k2.
Proof. intros F1 F2 E. by rewrite <- (resolve_join k1), <- (resolve_join k2), E. Qed.

(** The file system reports the types of the entries of its directories, or none of them. *)
Definition reports_types (f : F) : Prop :=
  ∀ p l e, fs_list p f = Some l → e ∈ l → d_type e ≠ DT_UNKNOWN.
Definition reports_no_types (f : F) : Prop :=
  ∀ p l e, fs_list p f = Some l → e ∈ l → d_type e = DT_UNKNOWN.

(** The view [m] at the directory [c] that the path [p] names. *)
Section walk.
Context (p : string) (f : F).
Let c := resolve p.
Let m := view f.
Context (W : well_formed m) (Fc : Forall plain c) (Hroot : is_dir m c = true).
Context (T : reports_types f).

(** What a turn of the loop puts into the result for the directory [k]. *)
Definition nodes_at (k : path) : list DirNode :=
  if GetDirNodes (p +:+ "/" +:+ join "/" k) f is Ret l then in_front (join "/" k) <$> l else [].

Lemma resolve_below k : Forall plain k → resolve (p +:+ "/" +:+ join "/" k) = c ++ k.
Proof.
  intros Fk. change ("/" +:+ join "/" k) with (String "/" (join "/" k)).
  by rewrite resolve_app, resolve_join.
Qed.

(** The entries of a directory below [c], each once, under their paths. *)
Lemma nodes_at_spec k :
  Forall plain k → is_dir m (c ++ k) = true →
  (∃ l, GetDirNodes (p +:+ "/" +:+ join "/" k) f = Ret l ∧ nodes_at k = in_front (join "/" k) <$> l) ∧
  ∃ ns, NoDup ns ∧ (∀ n, n ∈ ns ↔ is_Some (m !! (c ++ k ++ [n]))) ∧
    Forall2 (λ nd n, ∃ kd, m !! (c ++ k ++ [n]) = Some kd ∧ describes nd (k ++ [n]) kd)
      (nodes_at k) ns.
Proof.
  intros Fk Hd. pose proof (resolve_below k Fk) as R.
  assert (Fp : Forall plain (resolve (p +:+ "/" +:+ join "/" k)))
    by (rewrite R; by apply Forall_app).
  pose proof (posix_list (view := view) (p +:+ "/" +:+ join "/" k) f Fp W) as HL.
  unfold nodes_at, GetDirNodes. fold m in HL. rewrite R, Hd in HL.
  destruct HL as (l & Hfs & HL). rewrite Hfs. split; [eauto|].
  destruct (lists_names _ _ _ W HL) as [N Hn]. exists (names l).
  split; [done|]. split; [intros n; by rewrite Hn, app_assoc|].
  destruct HL as (_ & _ & _ & Hin & _). unfold names. clear N Hn R Fp.
  assert (Hl : ∀ e, e ∈ filter (λ e, is_dots (d_name e) = false) l →
    ∃ kd, m !! (c ++ k ++ [d_name e]) = Some kd ∧ d_type e = type_of kd).
  { intros e [[H1 H2]%is_dots_false He]%list_elem_of_filter. rewrite app_assoc.
    destruct (Hin e He H1 H2) as (kd & Hk & [Ht|Ht]); [eauto|]. by apply (T _ _ _ Hfs) in He. }
  induction (filter _ l) as [|e es IH]; [constructor|]. rewrite !fmap_cons.
  constructor; [|apply IH; intros e' He'; apply Hl; by right].
  destruct (Hl e) as (kd & Hkd & Ht); [by left|]. exists kd. split; [done|].
  unfold describes, in_front. destruct (String.eqb_spec (join "/" k) "") as [E|E].
  - destruct k; [|by apply join_nonempty in E]. cbn. by rewrite Ht.
  - cbn. rewrite join_snoc, Ht; [done|]. by intros ->.
Qed.
Lemma plain_below k n kd :
  m !! (c ++ k ++ [n]) = Some kd → Forall plain (k ++ [n]) ∧ is_dir m (c ++ k) = true.
Proof.
  intros H. rewrite app_assoc in H. split; [|by eapply well_formed_prefix].
  destruct (well_formed_lookup _ _ _ W H) as (_ & Fp & _).
  rewrite <- app_assoc in Fp. by apply Forall_app in Fp as [_ ?].
Qed.

Lemma nodes_at_names k :
  Forall plain k → is_dir m (c ++ k) = true → NoDup (n_name <$> nodes_at k).
Proof.
  intros Fk Hd. destruct (nodes_at_spec k Fk Hd) as (_ & ns & N & Hns & F2).
  assert (Hpl : ∀ n, n ∈ ns → Forall plain (k ++ [n]))
    by (intros n [kd Hk]%Hns; by apply plain_below in Hk as [? _]).
  assert (E : n_name <$> nodes_at k = (λ n, join "/" (k ++ [n])) <$> ns).
  { clear -F2. induction F2 as [|nd n nds ns (kd & _ & Hn & _) _ IH]; [done|].
    by rewrite !fmap_cons, Hn, IH. }
  rewrite E. clear -N Hpl. induction N as [|n ns Hn N IH]; [constructor|]. rewrite fmap_cons.
  constructor; [|apply IH; intros n' Hn'; apply Hpl; by right].
  intros (n' & En & Hn')%list_elem_of_fmap. apply Hn.
  apply join_inj in En; [|by apply Hpl; left|by apply Hpl; right].
  by apply app_inv_head in En as [= ->].
Qed.

Lemma elem_of_nodes_at k nd :
  Forall plain k → is_dir m (c ++ k) = true → nd ∈ nodes_at k →
  ∃ n kd, m !! (c ++ k ++ [n]) = Some kd ∧ describes nd (k ++ [n]) kd.
Proof.
  intros Fk Hd Hin. destruct (nodes_at_spec k Fk Hd) as (_ & ns & _ & _ & F2).
  apply list_elem_of_lookup in Hin as [i Hi].
  destruct (Forall2_lookup_l _ _ _ _ _ F2 Hi) as (n & _ & kd & H1 & H2). eauto.
Qed.

Lemma nodes_at_complete k n kd :
  Forall plain k → m !! (c ++ k ++ [n]) = Some kd →
  ∃ nd, nd ∈ nodes_at k ∧ describes nd (k ++ [n]) kd.
Proof.
  intros Fk Hk. destruct (plain_below _ _ _ Hk) as [_ Hd].
  destruct (nodes_at_spec k Fk Hd) as (_ & ns & _ & Hns & F2).
  assert (Hn : n ∈ ns) by (apply Hns; eauto). apply list_elem_of_lookup in Hn as [i Hi].
  destruct (Forall2_lookup_r _ _ _ _ _ F2 Hi) as (nd & Hnd & kd' & H1 & H2).
  rewrite Hk in H1. injection H1 as <-. exists nd. split; [by eapply list_elem_of_lookup_2|done].
Qed.

(** What a turn of the loop puts into the queue. *)
Lemma queued_by k :
  Forall plain k → is_dir m (c ++ k) = true →
  ∃ ds, NoDup ds ∧ (∀ n, n ∈ ds ↔ ∃ kd, m !! (c ++ k ++ [n]) = Some kd ∧ dirlike kd = true) ∧
    n_name <$> filter (λ n, is_directory n = true) (nodes_at k) =
      (λ n, join "/" (k ++ [n])) <$> ds.
Proof.
  intros Fk Hd. destruct (nodes_at_spec k Fk Hd) as (_ & ns & N & Hns & F2).
  set (q n := if m !! (c ++ k ++ [n]) is Some kd then dirlike kd else false).
  exists (filter (λ n, q n = true) ns). split; [by apply NoDup_filter|]. split.
  { intros n. rewrite list_elem_of_filter, Hns. unfold q. split.
    - destruct (m !! (c ++ k ++ [n])) as [kd|]; [|by intros [? _]]. intros [? _]. eauto.
    - intros (kd & -> & ?). eauto. }
  clear -F2. induction F2 as [|nd n nds ns (kd & Hk & Hn & Hdir & _) _ IH]; [done|].
  assert (Hq : q n = is_directory nd) by (unfold q; by rewrite Hk, Hdir).
  rewrite !filter_cons, Hq. case_decide; [|done]. by rewrite !fmap_cons, Hn, IH.
Qed.

(** [P] has been looked through, [Q] is queued. *)
Record worklist (P Q : list path) : Prop := {
  wl_NoDup : NoDup (P ++ Q);
  wl_root : [] ∈ P ++ Q;
  wl_there k : k ∈ P ++ Q → Forall plain k ∧
    (is_dir m (c ++ k) = true ∨ ∃ kd, m !! (c ++ k) = Some kd ∧ looks_like_dir kd = true);
  wl_dir k : k ∈ P → is_dir m (c ++ k) = true;
  wl_parent k : k ∈ P ++ Q → k = [] ∨ ∃ k' n, k = k' ++ [n] ∧ k' ∈ P;
  wl_closed k n kd : k ∈ P → m !! (c ++ k ++ [n]) = Some kd → dirlike kd = true →
    k ++ [n] ∈ P ++ Q
}.

Lemma worklist_bound P Q : worklist P Q → (length (P ++ Q) ≤ S (size m))%nat.
Proof.
  intros WL. rewrite <- (length_fmap (λ k, c ++ k)).
  assert (N : NoDup ((λ k, c ++ k) <$> P ++ Q)).
  { apply NoDup_fmap_2; [|apply (wl_NoDup _ _ WL)]. intros k1 k2. apply app_inv_head. }
  rewrite <- (size_list_to_set (C := gset path) _ N), <- size_dom.
  etrans; [apply (subseteq_size _ ({[ [] ]} ∪ dom m))|].
  - intros x (k & -> & Hk)%elem_of_list_to_set%list_elem_of_fmap. apply elem_of_union.
    destruct (wl_there _ _ WL k Hk) as [_ [[E|E]%is_dir_true|(kd & E & _)]];
      [left; by apply elem_of_singleton|right; apply elem_of_dom; eauto..].
  - pose proof (size_union_alt ({[ [] ]} : gset path) (dom m)) as ->. rewrite size_singleton.
    pose proof (subseteq_size (dom m ∖ {[ [] ]}) (dom m) ltac:(by intros ? [? _]%elem_of_difference)). lia.
Qed.

Lemma worklist_step P Q k ds :
  worklist P (k :: Q) → is_dir m (c ++ k) = true → NoDup ds →
  (∀ n, n ∈ ds ↔ ∃ kd, m !! (c ++ k ++ [n]) = Some kd ∧ dirlike kd = true) →
  worklist (P ++ [k]) (Q ++ ((λ n, k ++ [n]) <$> ds)).
Proof.
  intros WL Hd N Hds. pose proof (wl_NoDup _ _ WL) as NPQ.
  assert (Eq : ∀ l : list path, (P ++ [k]) ++ Q ++ l = (P ++ k :: Q) ++ l)
    by (intros l; by rewrite <- !app_assoc).
  assert (Hk : k ∈ P ++ k :: Q) by (apply elem_of_app; right; left).
  split.
  - rewrite Eq. apply NoDup_app. split; [done|]. split.
    + intros x Hx (n & -> & Hn)%list_elem_of_fmap.
      destruct (wl_parent _ _ WL _ Hx) as [E|(k' & n' & E & Hk')]; [by destruct k|].
      apply app_inj_tail in E as [<- _]. apply NoDup_app in NPQ as (_ & NPQ & _).
      apply (NPQ k Hk'). left.
    + apply NoDup_fmap_2; [|done]. intros n1 n2 E. by apply app_inv_head in E as [= ->].
  - rewrite Eq. apply elem_of_app. left. apply (wl_root _ _ WL).
  - intros x. rewrite Eq. intros [Hx|(n & -> & Hn)%list_elem_of_fmap]%elem_of_app;
      [by apply (wl_there _ _ WL)|].
    apply Hds in Hn as (kd & Hn & Hl). split; [by apply plain_below in Hn as [? _]|].
    apply dirlike_cases in Hl as [->|Hl]; [left; apply is_dir_true; by right|right; eauto].
  - intros x [Hx|Hx]%elem_of_app; [by apply (wl_dir _ _ WL)|].
    by apply list_elem_of_singleton in Hx as ->.
  - intros x. rewrite Eq. intros [Hx|(n & -> & Hn)%list_elem_of_fmap]%elem_of_app.
    + destruct (wl_parent _ _ WL _ Hx) as [->|(k' & n' & -> & Hk')]; [by left|right].
      exists k', n'. split; [done|]. apply elem_of_app. by left.
    + right. exists k, n. split; [done|]. apply elem_of_app. right. left.
  - intros x n kd Hx Hm Hl. rewrite Eq.
    apply elem_of_app in Hx as [Hx|Hx]; apply elem_of_app.
    + left. by eapply (wl_closed _ _ WL).
    + apply list_elem_of_singleton in Hx as ->. right. apply list_elem_of_fmap. exists n. split; [done|]. apply Hds. eauto.
Qed.

(** The loop ends; it fails only at something that is not a directory. *)
Lemma walk_worklist fuel P Q :
  worklist P Q → (S (size m) ≤ length P + fuel)%nat →
  (∃ P', worklist P' [] ∧
     walk fuel p (join "/" <$> Q) (P ≫= nodes_at) f = Ret (P' ≫= nodes_at)) ∨
  (walk fuel p (join "/" <$> Q) (P ≫= nodes_at) f = Undef "readdir of a null pointer" ∧
   ∃ k kd, k ≠ [] ∧ m !! (c ++ k) = Some kd ∧ looks_like_dir kd = true).
Proof.
  revert P Q; induction fuel as [|fuel IH]; intros P [|k Q] WL Hf; try (by left; exists P).
  { pose proof (worklist_bound _ _ WL) as B. rewrite length_app in B. cbn in B. lia. }
  assert (Hk : k ∈ P ++ k :: Q) by (apply elem_of_app; right; left).
  destruct (wl_there _ _ WL k Hk) as [Fk Hor]. rewrite fmap_cons. cbn [walk].
  destruct (is_dir m (c ++ k)) eqn:Hd.
  - destruct (nodes_at_spec k Fk Hd) as ((l & -> & Hl) & _). cbn [mbind outcome_bind].
    rewrite <- Hl. destruct (queued_by k Fk Hd) as (ds & N & Hds & ->).
    specialize (IH (P ++ [k]) (Q ++ ((λ n, k ++ [n]) <$> ds))
      (worklist_step _ _ _ _ WL Hd N Hds)).
    rewrite fmap_app, <- list_fmap_compose, bind_app, bind_cons, app_nil_r in IH.
    apply IH. rewrite length_app. cbn. lia.
  - right. destruct Hor as [?|(kd & Hm & Hl)]; [done|]. split.
    + unfold GetDirNodes. assert (R := resolve_below k Fk).
      pose proof (posix_list (view := view) (p +:+ "/" +:+ join "/" k) f) as HL.
      rewrite R in HL. fold m in HL. rewrite Hd in HL. rewrite HL; [done| |done].
      by apply Forall_app.
    + exists k, kd. split; [|done]. intros ->. rewrite app_nil_r in Hd. congruence.
Qed.
Lemma worklist_init : worklist [] [[]].
Proof.
  split.
  - apply NoDup_singleton.
  - by left.
  - intros k ->%list_elem_of_singleton. split; [done|]. left. by rewrite app_nil_r.
  - by intros k ?%elem_of_nil.
  - intros k ->%list_elem_of_singleton. by left.
  - by intros k n kd ?%elem_of_nil.
Qed.

(** Everything that was looked through at the end. *)
Lemma worklist_all P k kd :
  worklist P [] → m !! (c ++ k) = Some kd → dirlike kd = true → k ≠ [] → k ∈ P.
Proof.
  intros WL. pose proof (app_nil_r P) as EP. revert kd.
  induction k as [|n k IH] using rev_ind; intros kd Hm Hl; [done|]. intros _.
  rewrite <- EP. eapply (wl_closed _ _ WL); [|exact Hm|done].
  destruct (decide (k = [])) as [->|Hk]; [rewrite <- EP; apply (wl_root _ _ WL)|].
  apply plain_below in Hm as [_ Hd]. apply is_dir_true in Hd as [Hd|Hd].
  - by apply app_nil in Hd as [_ ?].
  - by eapply IH.
Qed.

Lemma walk_nodes P : worklist P [] →
  NoDup (n_name <$> (P ≫= nodes_at)) ∧
  (∀ nd, nd ∈ P ≫= nodes_at → ∃ k kd, k ≠ [] ∧ m !! (c ++ k) = Some kd ∧ describes nd k kd) ∧
  (∀ k kd, k ≠ [] → m !! (c ++ k) = Some kd → ∃ nd, nd ∈ P ≫= nodes_at ∧ describes nd k kd).
Proof.
  intros WL. pose proof (app_nil_r P) as EP.
  assert (HP : ∀ k, k ∈ P → Forall plain k ∧ is_dir m (c ++ k) = true).
  { intros k Hk. split; [|by apply (wl_dir _ _ WL)]. rewrite <- EP in Hk. by apply (wl_there _ _ WL) in Hk as [? _]. }
  split_and!.
  - assert (E : n_name <$> (P ≫= nodes_at) = P ≫= (λ k, n_name <$> nodes_at k)).
    { clear. induction P as [|k P IH]; [done|]. by rewrite !bind_cons, fmap_app, IH. }
    rewrite E. apply NoDup_bind.
    + intros k1 k2 x H1 H2 (nd1 & -> & N1)%list_elem_of_fmap (nd2 & En & N2)%list_elem_of_fmap.
      destruct (HP k1 H1) as [F1 D1], (HP k2 H2) as [F2 D2].
      destruct (elem_of_nodes_at k1 nd1 F1 D1 N1) as (n1 & kd1 & M1 & E1 & _).
      destruct (elem_of_nodes_at k2 nd2 F2 D2 N2) as (n2 & kd2 & M2 & E2 & _).
      rewrite E1, E2 in En. apply join_inj in En; [by apply app_inj_tail in En as [? _]|..].
      * by apply plain_below in M1 as [? _].
      * by apply plain_below in M2 as [? _].
    + intros k Hk. destruct (HP k Hk). by apply nodes_at_names.
    + rewrite <- EP. apply (wl_NoDup _ _ WL).
  - intros nd (k & Hn & Hk)%list_elem_of_bind. destruct (HP k Hk) as [Fk Dk].
    destruct (elem_of_nodes_at k nd Fk Dk Hn) as (n & kd & Hm & Hd).
    exists (k ++ [n]), kd. split; [by destruct k|done].
  - intros k kd Hk Hm. destruct (path_snoc k Hk) as [n E]. rewrite E in *.
    destruct (plain_below _ _ _ Hm) as [Fk Dk].
    apply Forall_app in Fk as [Fk _].
    destruct (nodes_at_complete _ _ _ Fk Hm) as (nd & Hn & Hd). exists nd. split; [|done].
    apply list_elem_of_bind. exists (parent k). split; [done|].
    destruct (decide (parent k = [])) as [E0|Hne]; [rewrite E0, <- EP; apply (wl_root _ _ WL)|].
    apply is_dir_true in Dk as [Dk|Dk]; [by apply app_nil in Dk as [_ ?]|].
    by eapply worklist_all.
Qed.
End walk.

(** Listing a directory recursively ends within a turn per directory.  It gives everything
    below the directory exactly once, under its path from there, if there is no block device
    or socket; if there is one, the walk takes it for a directory, because it tests a bit of
    the type, and fails. *)
Lemma GetDirNodesRecursively_spec fuel p f :
  well_formed (view f) → Forall plain (resolve p) → is_dir (view f) (resolve p) = true →
  (size (view f) < fuel)%nat → reports_types f →
  let below k kd := k ≠ [] ∧ view f !! (resolve p ++ k) = Some kd in
  ((∀ k kd, below k kd → looks_like_dir kd = false) →
   ∃ r, GetDirNodesRecursively fuel p f = Ret r ∧ NoDup (n_name <$> r) ∧
     (∀ nd, nd ∈ r → ∃ k kd, below k kd ∧ describes nd k kd) ∧
     (∀ k kd, below k kd → ∃ nd, nd ∈ r ∧ describes nd k kd)) ∧
  ((∃ k kd, below k kd ∧ looks_like_dir kd = true) →
   GetDirNodesRecursively fuel p f = Undef "readdir of a null pointer").
Proof.
  intros W Fc Hroot Hf T below.
  destruct (walk_worklist p f W Fc Hroot T fuel [] [[]] (worklist_init p f Hroot))
    as [(P & WL & E)|[E (k & kd & Hk & Hm & Hl)]]; [cbn; lia| |].
  - destruct (walk_nodes p f W Fc T P WL) as (N & H1 & H2). split.
    + intros _. exists (P ≫= nodes_at p f). split; [exact E|]. split; [done|]. split.
      * intros nd Hnd. destruct (H1 nd Hnd) as (k & kd & ? & ? & ?). exists k, kd. done.
      * intros k kd [Hk Hm]. by apply H2.
    + intros (k & kd & [Hk Hm] & Hl). exfalso.
      assert (HP : k ∈ P) by (eapply worklist_all; try done; apply dirlike_cases; by right).
      apply (wl_dir _ _ _ _ WL) in HP. apply is_dir_true in HP as [HP|HP].
      * by apply app_nil in HP as [_ ?].
      * rewrite Hm in HP. by injection HP as ->.
  - split; [|by intros _]. intros Hno. by rewrite (Hno k kd) in Hl.
Qed.
Lemma filter_none {A} (P : A → Prop) `{∀ x, Decision (P x)} l :
  Forall (λ x, ¬ P x) l → filter P l = [].
Proof. induction 1; [done|]. by rewrite filter_cons_False. Qed.

(** Without the types nothing is a directory, and nothing is a file. *)
Lemma GetDirNodesRecursively_blind fuel p f :
  is_dir (view f) (resolve p) = true → Forall plain (resolve p) → well_formed (view f) →
  reports_no_types f →
  ∃ r, GetDirNodesRecursively (S fuel) p f = Ret r ∧ Forall (λ n, is_regular n = false) r.
Proof.
  intros Hroot Fp W T. unfold GetDirNodesRecursively. cbn [walk].
  assert (R : resolve (p +:+ "/" +:+ "") = resolve p)
    by (change ("/" +:+ "") with (String "/" ""); by rewrite resolve_app, app_nil_r).
  pose proof (posix_list (view := view) (p +:+ "/" +:+ "") f) as HL. rewrite R, Hroot in HL.
  destruct (HL Fp W) as (l & Hl & _). unfold GetDirNodes. rewrite Hl. cbn [mbind outcome_bind].
  set (nodes := dir_node <$> _).
  assert (N : Forall (λ n, is_regular n = false ∧ is_directory n = false) nodes).
  { apply Forall_fmap, Forall_forall. intros e [_ He]%list_elem_of_filter. cbn.
    by rewrite (T _ _ _ Hl He). }
  clearbody nodes. change (in_front "" <$> nodes) with (id <$> nodes). rewrite list_fmap_id.
  exists nodes. rewrite filter_none.
  - split; [by destruct fuel|]. eapply Forall_impl; [exact N|]. by intros n [].
  - eapply Forall_impl; [exact N|]. by intros n [_ ->].
Qed.

(** C25. [ReadAll] on a file system that reports the types of entries ([d_type]): it gives every
    regular file below the directory, once, with its path from there and its content, if
    there are only regular files and directories; and it follows a null pointer if there is a
    socket or a block device anywhere below, whose types have the bit of a directory.  On a
    file system that reports no types, as readdir(3) allows, it gives no file at all. *)
Theorem TempDir_ReadAll_spec fuel subdir t f :
  let c := resolve (path_ t +:+ "/" +:+ subdir) in
  let below k kd := k ≠ [] ∧ view f !! (c ++ k) = Some kd in
  well_formed (view f) → Forall plain c → is_dir (view f) c = true →
  (size (view f) < fuel)%nat →
  (reports_types f →
   ((∀ k kd, below k kd → kd = K_directory ∨ ∃ content, kd = K_regular content) →
    ∃ r, TempDir_ReadAll fuel subdir t f = Ret r ∧ NoDup r.*1 ∧
      ∀ name content, (name, content) ∈ r ↔
        ∃ k, below k (K_regular content) ∧ name = join "/" k) ∧
   ((∃ k kd, below k kd ∧ looks_like_dir kd = true) →
    TempDir_ReadAll fuel subdir t f = Undef "readdir of a null pointer")) ∧
  (reports_no_types f → TempDir_ReadAll fuel subdir t f = Ret []).
Proof.
  intros c below W Fc Hroot Hf. split.
  2: { intros T. destruct fuel as [|fuel]; [lia|]. unfold TempDir_ReadAll.
    destruct (GetDirNodesRecursively_blind fuel _ f Hroot Fc W T) as (r & -> & Hr).
    cbn [mbind outcome_bind]. rewrite filter_none; [done|].
    eapply Forall_impl; [exact Hr|]. by intros n ->. }
  intros T. destruct (GetDirNodesRecursively_spec fuel _ f W Fc Hroot Hf T) as [H1 H2].
  unfold TempDir_ReadAll. split; [|by intros ->%H2].
  intros Honly. destruct H1 as (nodes & -> & N & Hin & Hall).
  { intros k kd Hb. by destruct (Honly k kd Hb) as [->|[? ->]]. }
  assert (Hread : ∀ k content, below k (K_regular content) →
    fs_read ((path_ t +:+ "/" +:+ subdir) +:+ "/" +:+ join "/" k) f = Some content).
  { intros k content [Hk Hm]. apply (posix_read (view := view)). rewrite resolve_below; [done|].
    destruct (well_formed_lookup _ _ _ W Hm) as (_ & Fp & _). by apply Forall_app in Fp as [_ ?]. }
  cbn [mbind outcome_bind]. eexists. split; [done|]. split.
  { rewrite <- list_fmap_compose. cbn. clear -N. induction nodes as [|n nodes IH]; [constructor|].
    rewrite fmap_cons in N. apply NoDup_cons in N as [Nn N]. rewrite filter_cons.
    case_decide; [|by apply IH]. rewrite fmap_cons. constructor; [|by apply IH].
    intros (n' & E & [_ Hn']%list_elem_of_filter)%list_elem_of_fmap. cbn in E. apply Nn.
    rewrite E. by apply list_elem_of_fmap_2. }
  intros name content. rewrite list_elem_of_fmap. split.
  - intros (nd & [= -> ->] & [Hr Hnd]%list_elem_of_filter).
    destruct (Hin nd Hnd) as (k & kd & Hb & D). exists k. pose proof D as (-> & _ & Er & _).
    destruct (Honly k kd Hb) as [->|[content ->]]; [by rewrite Hr in Er|].
    pose proof (Hread k content Hb) as HR. cbn [String.append] in HR. by rewrite HR.
  - intros (k & Hb & ->). destruct (Hall k _ Hb) as (nd & Hnd & D). exists nd.
    pose proof D as (En & _ & Er & _). rewrite En, (Hread k content Hb). split; [done|].
    by apply list_elem_of_filter.
Qed.

(** C24. What is built below a new temporary directory is gone when it is cleared: the file system
    is the one from before, if nothing outside the directory changed. *)
Theorem TempDir_lifetime prefix now random f t f1 fuel f2 :
  well_formed (view f) → is_dir (view f) (resolve prefix) = true → Forall plain (resolve prefix) →
  TempDir_make prefix now random f = Ret (t, f1) →
  view f !! resolve (path_ t) = None →
  well_formed (view f2) → view f2 !! resolve (path_ t) = Some K_directory →
  (∀ x, ¬ resolve (path_ t) `prefix_of` x → view f2 !! x = view f1 !! x) →
  (∀ x k, view f2 !! (resolve (path_ t) ++ x) = Some k → (length x < fuel)%nat) →
  ∃ t' f3, TempDir_Clear fuel t f2 = Ret (t', f3) ∧ view f3 = view f ∧ alive_ t' = false.
Proof.
  intros W Hd Fp Hmake Hnew W2 Hc2 Hout Hdepth. unfold TempDir_make in Hmake.
  set (name := "distribuild_" +:+ to_string now +:+ "_" +:+ to_string random) in *.
  assert (Hname : plain name) by apply temp_name_plain.
  change (prefix +:+ "/distribuild_" +:+ to_string now +:+ "_" +:+ to_string random)
    with (prefix +:+ "/" +:+ name) in Hmake.
  apply bind_Ret in Hmake as (f0 & M & [= <- <-]). cbn [path_] in *.
  change (String "/" name) with ("/" +:+ name) in Hnew, Hc2, Hout, Hdepth |- *.
  rewrite !(resolve_child prefix name Hname) in Hnew, Hc2, Hout, Hdepth.
  destruct (Mkdirs_spec (prefix +:+ "/" +:+ name) f) as (f1' & M' & V).
  { intros E%(f_equal String.length). rewrite !slength_app in E. cbn in E. lia. }
  { rewrite resolve_child by done. apply Forall_app. split; [done|by constructor]. }
  { rewrite resolve_child by done. intros x k [->|[d Hx]]%prefix_snoc Hk; [by rewrite Hnew in Hk|].
    destruct d as [|n d].
    - rewrite app_nil_r in Hx. rewrite Hx in Hd. apply is_dir_true in Hd as [->|Hd]; [|congruence].
      by destruct (well_formed_lookup _ _ _ W Hk).
    - rewrite Hx in Hd. apply is_dir_true in Hd as [Hd|Hd]; [by apply app_nil in Hd as [_ ?]|].
      eapply well_formed_prefix in Hd; [|done..]. apply is_dir_true in Hd as [->|Hd]; [|congruence].
      by destruct (well_formed_lookup _ _ _ W Hk). }
  rewrite M in M'. injection M' as <-. rewrite resolve_child in V by done.
  unfold TempDir_Clear. cbn [alive_ path_].
  destruct (RemoveDir_removes fuel (prefix +:+ "/" +:+ name) f2) as (f3 & R & V3);
    rewrite ?(resolve_child prefix name Hname) in *; [done..|].
  rewrite R. cbn. do 2 eexists. split; [done|]. split; [|done]. rewrite V3.
  apply map_eq. intros x. rewrite lookup_cut. case_decide as P.
  - destruct P as [d ->]. symmetry. apply eq_None_not_Some. intros [k E].
    destruct d as [|n d]; [rewrite app_nil_r in E; congruence|].
    eapply well_formed_prefix in E; [|done..]. apply is_dir_true in E as [E|E]; [|congruence].
    by apply app_nil in E as [_ ?].
  - rewrite Hout, V by done. case_decide as D; [|done]. destruct D as [Hx [->|Pr]%prefix_snoc]; [done|].
    symmetry. destruct Pr as [d Hp]. rewrite Hp in Hd. destruct d as [|n d].
    + rewrite app_nil_r in Hd. by apply is_dir_true in Hd as [?|?].
    + apply is_dir_true in Hd as [Hd|Hd]; [by apply app_nil in Hd as [_ ?]|].
      eapply well_formed_prefix in Hd; [|done..]. by apply is_dir_true in Hd as [?|?].
Qed.
End theory.

(** * On the tree instance *)

Definition sample_tree : gmap path Kind := list_to_map
  [(["tmp"], K_directory);
   (["tmp"; "out"], K_directory);
   (["tmp"; "out"; "a.o"], K_regular "A");
   (["tmp"; "out"; "sub"], K_directory);
   (["tmp"; "out"; "sub"; "b.gcno"], K_regular "B")].

Definition sample_dir : TempDir := {| alive_ := true; path_ := "/tmp" |}.

Definition names_read (r : outcome (list (string * string))) : list (string * string) :=
  if r is Ret l then l else [].

Lemma sample_types : reports_types sample_tree.
Proof.
  intros p l e. cbn. destruct (is_dir _ _); [|done]. intros [= <-].
  intros [->|[->|(k & _ & -> & _)%entries_of_spec]%elem_of_cons]%elem_of_cons; [done..|].
  by destruct k.
Qed.

Lemma sample_no_types : reports_no_types {| seen := sample_tree |}.
Proof.
  intros p l e (l' & _ & ->)%fmap_Some He. by apply list_elem_of_fmap in He as (e' & -> & _).
Qed.

Lemma TempDir_ReadAll_spec_witness :
  (∃ r, TempDir_ReadAll 6 "out" sample_dir sample_tree = Ret r ∧ NoDup r.*1 ∧
    ("sub/b.gcno", "B") ∈ r ∧ ("sub", "") ∉ r) ∧
  TempDir_ReadAll 6 "out" sample_dir {| seen := sample_tree |} = Ret [].
Proof.
  split; [|apply (TempDir_ReadAll_spec (view := seen) 6 "out" sample_dir {| seen := sample_tree |});
    [by apply (bool_decide_unpack _); vm_compute.. | by vm_compute | vm_compute; lia |
     apply sample_no_types]].
  destruct (TempDir_ReadAll_spec (view := id) 6 "out" sample_dir sample_tree) as [H _];
    [by apply (bool_decide_unpack _); vm_compute.. | by vm_compute | vm_compute; lia |].
  destruct (H sample_types) as [(r & R & N & Hr) _].
  { intros k kd [_ Hb]. cbn in Hb. apply (elem_of_map_to_list sample_tree) in Hb.
    vm_compute in Hb. repeat (apply elem_of_cons in Hb as [Hb|Hb]; [injection Hb as; subst; eauto|]).
    by apply not_elem_of_nil in Hb. }
  exists r. split_and!; [done..| |].
  - apply Hr. exists ["sub"; "b.gcno"]. by split_and!.
  - intros (k & [_ Hk] & E)%Hr. apply (elem_of_map_to_list sample_tree) in Hk.
    vm_compute in Hk.
    repeat (apply elem_of_cons in Hk as [Hk|Hk]; [injection Hk as; subst; try done|]).
    by apply not_elem_of_nil in Hk.
Defined.

Lemma demo_made :
  TempDir_make "/tmp" 1700000000 7 (list_to_map [(["tmp"], K_directory)] : gmap path Kind) =
  Ret ({| alive_ := true; path_ := "/tmp/distribuild_1700000000_7" |},
       <[["tmp"; "distribuild_1700000000_7"] := K_directory]> (list_to_map [(["tmp"], K_directory)])).
Proof.
  match goal with |- ?a = ?b => exact (eq_refl b <: a = b) end.
Qed.

Lemma TempDir_lifetime_witness :
  let f : gmap path Kind := list_to_map [(["tmp"], K_directory)] in
  ∃ t f1 t' f3, TempDir_make "/tmp" 1700000000 7 f = Ret (t, f1) ∧
    let f2 := <[resolve (path_ t) ++ ["a.o"] := K_regular "A"]> f1 in
    TempDir_Clear 2 t f2 = Ret (t', f3) ∧ f3 = f ∧ alive_ t' = false.
Proof.
  intros f.
  set (t := {| alive_ := true; path_ := "/tmp/distribuild_1700000000_7" |}).
  set (f1 := <[["tmp"; "distribuild_1700000000_7"] := K_directory]> f).
  pose proof (demo_made : TempDir_make "/tmp" 1700000000 7 f = Ret (t, f1)) as M.
  set (f2 := <[resolve (path_ t) ++ ["a.o"] := K_regular "A"]> f1).
  destruct (TempDir_lifetime (view := id) "/tmp" 1700000000 7 f t f1 2 f2) as (t' & f3 & R & V & A);
    try exact M; try by (apply (bool_decide_unpack _); vm_compute).
  - intros x Hx. unfold f2, id. rewrite lookup_insert_ne; [done|]. intros <-. apply Hx.
    by exists ["a.o"].
  - intros x k Hk. apply (elem_of_map_to_list f2) in Hk. vm_compute in Hk.
    repeat (apply elem_of_cons in Hk as [Hk|Hk]; [simplify_eq; cbn; lia|]).
    by apply not_elem_of_nil in Hk.
  - do 4 eexists. split; [exact M|]. split; [exact R|]. by split.
Defined.
