(* ===== verification/OutStream.v ===== *)
(** The output streams of the client: src/distribuild/client/common/out_stream.{h,cpp}.

    The zstd library and the blake3 library are the interfaces [Zstd] and [Hasher]; what
    their documentation promises of them is [ZstdLaws] and [HasherLaws].  The loops around
    [ZSTD_compressStream2] take fuel: without fuel they are [Undef].  [Write_spec] and
    [GetResult_spec] say that some amount is enough. *)
From S2P Require Import Prelude Text.

(** * The libraries *)

Inductive Directive := ZSTD_e_continue | ZSTD_e_end.

(** What a call of [ZSTD_compressStream2] does: how far it got in its input, what it put in
    the output buffer, and what it returned. *)
Record Step (Ctx : Type) := {
  st_ctx : Ctx;
  st_consumed : Z;
  st_produced : string;
  st_result : Z
}.
Arguments st_ctx {Ctx} _.
Arguments st_consumed {Ctx} _.
Arguments st_produced {Ctx} _.
Arguments st_result {Ctx} _.

Class Zstd (Ctx : Type) := {
  ZSTD_initCStream : Ctx;                                     (* of a new context *)
  ZSTD_compressStream2 : Ctx → Z → string → Directive → Step Ctx
}.

(** [z_in] and [z_out] are what a context has taken and given so far, [z_todo] bounds what it
    can still give without taking more.  No call reports an error: out_stream.cpp:31 and 69
    only log one, and what the context does then is not documented. *)
Class ZstdLaws (Ctx : Type) `{Zstd Ctx} (ZSTDDecompress : string → option string)
    (z_in z_out : Ctx → string) (z_todo : Ctx → nat) : Prop := {
  zstd_init : z_in ZSTD_initCStream = "" ∧ z_out ZSTD_initCStream = "";
  zstd_step c room input d :
    0 < room →
    let st := ZSTD_compressStream2 c room input d in
    0 ≤ st_consumed st ≤ ssize input ∧ ssize (st_produced st) ≤ room ∧
    z_in (st_ctx st) = z_in c +:+ ztake (st_consumed st) input ∧
    z_out (st_ctx st) = z_out c +:+ st_produced st;
  zstd_progress c room input :
    0 < room → input ≠ "" →
    let st := ZSTD_compressStream2 c room input ZSTD_e_continue in
    st_consumed st = 0 → (z_todo (st_ctx st) < z_todo c)%nat;
  zstd_end c room :
    0 < room →
    let st := ZSTD_compressStream2 c room "" ZSTD_e_end in
    if decide (st_result st = 0)
    then ZSTDDecompress (z_out (st_ctx st)) = Some (z_in (st_ctx st))
    else (z_todo (st_ctx st) < z_todo c)%nat
}.

Class Hasher (St : Type) := {
  blake3_hasher_init : St;
  blake3_hasher_update : string → St → St;
  blake3_hasher_finalize : St → string
}.

(** The digest is that of the bytes the hasher got, however they were cut. *)
Class HasherLaws (St : Type) `{Hasher St} (blake3 : string → string) : Prop :=
  hasher_digest l :
    blake3_hasher_finalize (foldl (λ h s, blake3_hasher_update s h) blake3_hasher_init l) =
    blake3 (sconcat l).

(** * The streams *)

Class OutStream (S : Type) := os_Write : string → S → outcome S.

#[export] Instance TransparentOutStream_Write : OutStream string := λ data m_buffer,
  Ret (m_buffer +:+ data).

Definition kChunkSize : Z := 128 * 1024.

(** A chunk is the used part of its buffer. *)
Record ZstdOutStream (Ctx : Type) := { ctx_ : Ctx; chunks_ : list string }.
Arguments ctx_ {Ctx} _.
Arguments chunks_ {Ctx} _.

Section zstd.
Context {Ctx : Type} `{Zstd Ctx}.

Definition ZstdOutStream_make : ZstdOutStream Ctx :=
  {| ctx_ := ZSTD_initCStream; chunks_ := [""] |}.

(** The body of both loops: a new chunk if the last one is full, one call, and the update of
    the chunk. *)
Definition compress (input : string) (d : Directive) (z : ZstdOutStream Ctx)
    : outcome (Step Ctx * ZstdOutStream Ctx) :=
  match last (chunks_ z) with
  | None => Undef "back of an empty vector"
  | Some back =>
    let '(front, back) :=
      if ssize back =? kChunkSize then (chunks_ z, "") else (removelast (chunks_ z), back) in
    let st := ZSTD_compressStream2 (ctx_ z) (kChunkSize - ssize back) input d in
    Ret (st, {| ctx_ := st_ctx st; chunks_ := front ++ [back +:+ st_produced st] |})
  end.

(** [input] is what is behind [in_buf.pos]. *)
Fixpoint Zstd_Write (fuel : nat) (input : string) (z : ZstdOutStream Ctx)
    : outcome (ZstdOutStream Ctx) :=
  if String.eqb input "" then Ret z
  else match fuel with
       | O => Undef "endless loop"
       | S fuel =>
         '(st, z) ← compress input ZSTD_e_continue z;
         Zstd_Write fuel (zdrop (st_consumed st) input) z
       end.

Fixpoint Flush (fuel : nat) (z : ZstdOutStream Ctx) : outcome (ZstdOutStream Ctx) :=
  match fuel with
  | O => Undef "endless loop"
  | S fuel =>
    '(st, z) ← compress "" ZSTD_e_end z;
    if st_result st =? 0 then Ret z else Flush fuel z
  end.

Definition Zstd_GetResult (fuel : nat) (z : ZstdOutStream Ctx)
    : outcome (string * ZstdOutStream Ctx) :=
  z ← Flush fuel z;
  Ret (sconcat (chunks_ z), {| ctx_ := ctx_ z; chunks_ := [] |}).
End zstd.

(** [digest_] has no value until [Finalize]. *)
Record Blake3OutStream (St : Type) := { state_ : St; digest_ : option string }.
Arguments state_ {St} _.
Arguments digest_ {St} _.

(** [snprintf] with "%02x" on a byte. *)
Definition format_02x (c : ascii) : string :=
  let i := nat_of_ascii c in
  if (i <? 16)%nat then "0" +:+ String (hex_digit false i) ""
  else String (hex_digit false (i / 16)) (String (hex_digit false (i mod 16)) "").

Section blake3.
Context {St : Type} `{Hasher St}.

Definition Blake3OutStream_make : Blake3OutStream St :=
  {| state_ := blake3_hasher_init; digest_ := None |}.

Definition Blake3_Write (data : string) (b : Blake3OutStream St) : Blake3OutStream St :=
  {| state_ := blake3_hasher_update data (state_ b); digest_ := digest_ b |}.

Definition Finalize (b : Blake3OutStream St) : Blake3OutStream St :=
  {| state_ := state_ b; digest_ := Some (blake3_hasher_finalize (state_ b)) |}.

Fixpoint append_hex (result : string) (digest : string) : string :=
  match digest with
  | "" => result
  | String c digest => append_hex (result +:+ format_02x c) digest
  end.

Definition Blake3_GetResult (b : Blake3OutStream St) : outcome string :=
  match digest_ b with
  | None => Undef "read of an uninitialised digest"
  | Some digest => Ret (append_hex "" digest)
  end.
End blake3.

(** A stream behind an [OutStream*]. *)
Inductive AnyStream (Ctx St : Type) :=
  | A_transparent (m_buffer : string)
  | A_zstd (z : ZstdOutStream Ctx)
  | A_blake3 (b : Blake3OutStream St).
Arguments A_transparent {Ctx St} _.
Arguments A_zstd {Ctx St} _.
Arguments A_blake3 {Ctx St} _.

Section forward.
Context {Ctx St : Type} `{Zstd Ctx} `{Hasher St}.

Definition Any_Write (fuel : nat) (data : string) (s : AnyStream Ctx St)
    : outcome (AnyStream Ctx St) :=
  match s with
  | A_transparent b => b ← TransparentOutStream_Write data b; Ret (A_transparent b)
  | A_zstd z => z ← Zstd_Write fuel data z; Ret (A_zstd z)
  | A_blake3 b => Ret (A_blake3 (Blake3_Write data b))
  end.

(** The streams of a [ForwardOutStream] are distinct objects. *)
Fixpoint Forward_Write (fuel : nat) (data : string) (streams_ : list (AnyStream Ctx St))
    : outcome (list (AnyStream Ctx St)) :=
  match streams_ with
  | [] => Ret []
  | s :: l => s ← Any_Write fuel data s; l ← Forward_Write fuel data l; Ret (s :: l)
  end.
End forward.

(** Several writes. *)
Definition writes {S} (w : string → S → outcome S) (l : list string) (s : S) : outcome S :=
  foldl (λ m data, m ≫= w data) (Ret s) l.

Lemma writes_cons {S} (w : string → S → outcome S) data l s :
  writes w (data :: l) s = w data s ≫= writes w l.
Proof.
  unfold writes. cbn. destruct (w data s) as [s'| | |]; [done|..]; cbn; by induction l.
Qed.

(** * Theory *)

(** ** Compression *)
Section zstd_theory.
Context {Ctx : Type} {zstd : Zstd Ctx} {ZSTDDecompress : string → option string}.
Context {z_in z_out : Ctx → string} {z_todo : Ctx → nat}.
Context {laws : ZstdLaws Ctx ZSTDDecompress z_in z_out z_todo}.

(** Every chunk but the last is full, the chunks hold what the context has given, and the
    context has taken [s]. *)
Definition holds (s : string) (z : ZstdOutStream Ctx) : Prop :=
  (∃ front back, chunks_ z = front ++ [back] ∧
     Forall (λ c, ssize c = kChunkSize) front ∧ ssize back ≤ kChunkSize) ∧
  sconcat (chunks_ z) = z_out (ctx_ z) ∧ z_in (ctx_ z) = s.

Lemma make_holds : holds "" ZstdOutStream_make.
Proof.
  destruct zstd_init as [Hi Ho]. split; [|by cbn; rewrite Ho].
  exists [], "". split_and!; [done|constructor|by vm_compute].
Qed.

Lemma compress_holds s input d z :
  holds s z →
  ∃ room z', let st := ZSTD_compressStream2 (ctx_ z) room input d in
    0 < room ∧ compress input d z = Ret (st, z') ∧ ctx_ z' = st_ctx st ∧
    holds (s +:+ ztake (st_consumed st) input) z'.
Proof.
  intros [(front & back & E & Ff & Fb) [Ho <-]]. unfold compress. rewrite E, last_snoc.
  pose proof (ssize_nonneg back) as Hb.
  assert (Hfull : ∃ front' back', (if ssize back =? kChunkSize then (front ++ [back], "")
      else (removelast (front ++ [back]), back)) = (front', back') ∧
    sconcat (front' ++ [back']) = sconcat (chunks_ z) ∧
    Forall (λ c, ssize c = kChunkSize) front' ∧ 0 ≤ ssize back' < kChunkSize).
  { rewrite E. destruct (Z.eqb_spec (ssize back) kChunkSize) as [Hk|Hk]; do 2 eexists; split; try done.
    - rewrite (sconcat_app _ [""]). cbn. rewrite !sapp_nil_r. split_and!; [done| |done..].
      apply Forall_app. split; [done|by constructor].
    - rewrite removelast_last. split_and!; [done..|lia]. }
  destruct Hfull as (f & b & -> & Hc & Ff' & Hb').
  exists (kChunkSize - ssize b). eexists. cbn zeta.
  split; [lia|]. split; [done|]. split; [done|].
  destruct (zstd_step (ctx_ z) (kChunkSize - ssize b) input d) as (H1 & H2 & H3 & H4); [lia|].
  split; cbn [chunks_ ctx_]; [|split].
  - do 2 eexists. split_and!; [done..|]. rewrite ssize_app. lia.
  - rewrite H4, <- Ho, <- Hc, !sconcat_app. cbn. by rewrite !sapp_nil_r, sapp_assoc.
  - exact H3.
Qed.

(** A write takes everything, in finitely many turns. *)
Lemma Write_spec input s z :
  holds s z → settles (λ fuel, Zstd_Write fuel input z) (holds (s +:+ input)).
Proof.
  remember (String.length input) as len eqn:Hlen. revert input Hlen s z.
  induction len as [len IHlen] using (well_founded_induction lt_wf). intros input Hlen s z.
  remember (z_todo (ctx_ z)) as todo eqn:Ht. revert z Ht s.
  induction todo as [todo IHtodo] using (well_founded_induction lt_wf). intros z Ht s Hz.
  apply settles_S. cbn [Zstd_Write].
  destruct (String.eqb_spec input "") as [->|Hne]; [apply settles_ret; by rewrite sapp_nil_r|].
  destruct (compress_holds s input ZSTD_e_continue z Hz) as (room & z1 & Hroom & E & Ec & Hz1).
  rewrite E. cbn [mbind outcome_bind]. set (st := ZSTD_compressStream2 _ _ _ _) in *.
  destruct (zstd_step (ctx_ z) room input ZSTD_e_continue Hroom) as (Hcons & _). fold st in Hcons.
  pose proof (ssize_pos input Hne) as Hpos.
  replace (s +:+ input)
    with ((s +:+ ztake (st_consumed st) input) +:+ zdrop (st_consumed st) input)
    by (by rewrite sapp_assoc, ztake_zdrop).
  destruct (decide (st_consumed st = 0)) as [H0|H0].
  - assert (Hd : zdrop (st_consumed st) input = input).
    { rewrite H0. unfold zdrop. by destruct (Z.leb_spec (ssize input) 0); [lia|]. }
    rewrite Hd in *. eapply IHtodo; [|done|done].
    subst todo. rewrite Ec. by apply (zstd_progress (ctx_ z) room input).
  - eapply IHlen; [|done|done]. subst len.
    pose proof (zdrop_size (st_consumed st) input). unfold ssize in *. lia.
Qed.

Lemma Flush_spec s z :
  holds s z →
  settles (λ fuel, Flush fuel z)
    (λ z', holds s z' ∧ ZSTDDecompress (z_out (ctx_ z')) = Some s).
Proof.
  remember (z_todo (ctx_ z)) as todo eqn:Ht. revert z Ht s.
  induction todo as [todo IH] using (well_founded_induction lt_wf). intros z Ht s Hz.
  destruct (compress_holds s "" ZSTD_e_end z Hz) as (room & z1 & Hroom & E & Ec & Hz1).
  pose proof (zstd_end (ctx_ z) room Hroom) as Hend. cbn zeta in Hend.
  apply settles_S. cbn [Flush]. rewrite E. cbn [mbind outcome_bind].
  set (st := ZSTD_compressStream2 _ _ _ _) in *.
  assert (Hz1' : holds s z1).
  { revert Hz1. unfold ztake. destruct (_ <=? _); [|destruct (Z.to_nat _)]; by rewrite sapp_nil_r. }
  destruct (Z.eqb_spec (st_result st) 0) as [H0|H0].
  - apply settles_ret. split; [done|]. rewrite decide_True in Hend by done.
    rewrite Ec, Hend, <- Ec. f_equal. apply Hz1'.
  - rewrite decide_False in Hend by done. eapply IH; [|done|done]. subst todo. by rewrite Ec.
Qed.

Lemma GetResult_spec s z :
  holds s z →
  settles (λ fuel, Zstd_GetResult fuel z) (λ r, ZSTDDecompress r.1 = Some s).
Proof.
  intros Hz. unfold Zstd_GetResult. eapply settles_bind; [by apply (Flush_spec s)|].
  intros z' [(_ & Ho & _) D]. apply settles_ret. cbn. by rewrite Ho.
Qed.
End zstd_theory.

(** ** Several writes

    A sink: its loop is [w], and [I t] says that it holds what [t] is. *)
Definition sink {S} (w : nat → string → S → outcome S) (I : string → S → Prop) : Prop :=
  ∀ data t s, I t s → settles (λ fuel, w fuel data s) (I (t +:+ data)).

Lemma writes_spec {S} (w : nat → string → S → outcome S) I l t s :
  sink w I → I t s → settles (λ fuel, writes (w fuel) l s) (I (t +:+ sconcat l)).
Proof.
  intros Hw. revert t s; induction l as [|data l IH]; intros t s Hs.
  - apply settles_ret. by rewrite sapp_nil_r.
  - cbn [sconcat]. rewrite <- sapp_assoc.
    eapply settles_ext; [|intros fuel; apply writes_cons].
    eapply settles_bind; [by apply Hw|]. intros s' Hs'. by apply IH.
Qed.

Section zstd_result.
Context {Ctx : Type} {zstd : Zstd Ctx} {ZSTDDecompress : string → option string}.
Context {z_in z_out : Ctx → string} {z_todo : Ctx → nat}.
Context {laws : ZstdLaws Ctx ZSTDDecompress z_in z_out z_todo}.

Lemma zstd_sink : sink Zstd_Write (holds (z_in := z_in) (z_out := z_out)).
Proof. intros data t z. apply Write_spec. Qed.

(** C29. Whatever the pieces the source comes in: with enough turns the stream has a result, which
    decompresses to the source; it was kept in chunks of at most 128K.  This is so if
    [ZSTD_compressStream2] reports no error ([ZstdLaws]): the code only logs one, and goes on
    as if bytes had been taken. *)
Theorem ZstdOutStream_roundtrip l :
  settles (λ fuel, z ← writes (Zstd_Write fuel) l ZstdOutStream_make;
                   r ← Zstd_GetResult fuel z; Ret (z, r.1))
    (λ '(z, r), Forall (λ c, ssize c ≤ kChunkSize) (chunks_ z) ∧
                ZSTDDecompress r = Some (sconcat l)).
Proof.
  eapply settles_bind; [apply (writes_spec _ (holds (z_in := z_in) (z_out := z_out)) l ""); [apply zstd_sink|apply make_holds]|].
  intros z Hz. eapply settles_bind; [by apply (GetResult_spec (sconcat l))|].
  intros r Hr. apply settles_ret. split; [|done].
  destruct Hz as [(front & back & -> & Ff & Fb) _]. apply Forall_app. split; [|by constructor].
  eapply Forall_impl; [exact Ff|]. cbn. lia.
Qed.
End zstd_result.

(** The result is taken once: writing behind it is no defined behaviour. *)
Lemma Write_after_result {Ctx} {zstd : Zstd Ctx} fuel data (c : Ctx) :
  data ≠ "" →
  Zstd_Write (S fuel) data {| ctx_ := c; chunks_ := [] |} = Undef "back of an empty vector".
Proof. intros H. cbn [Zstd_Write]. by destruct (String.eqb_spec data ""). Qed.

(** ** The digest *)

Lemma format_02x_hex c : format_02x c = hex_chars false c.
Proof. by destruct c as [[] [] [] [] [] [] [] []]. Qed.

Lemma append_hex_spec digest result : append_hex result digest = result +:+ EncodeHex digest false.
Proof.
  revert result; induction digest as [|c digest IH]; intros result; [by rewrite sapp_nil_r|].
  cbn [append_hex EncodeHex]. by rewrite IH, format_02x_hex, sapp_assoc.
Qed.

Section hasher_theory.
Context {St : Type} {hasher : Hasher St} {blake3 : string → string} {laws : HasherLaws St blake3}.

Lemma Blake3_writes_state l (b : Blake3OutStream St) :
  writes (λ d b, Ret (Blake3_Write d b)) l b =
  Ret {| state_ := foldl (λ h s, blake3_hasher_update s h) (state_ b) l; digest_ := digest_ b |}.
Proof.
  revert b; induction l as [|d l IH]; intros b; [by destruct b|].
  by rewrite writes_cons; cbn [mbind outcome_bind]; rewrite IH.
Qed.

(** C35. The digest of a stream is the text the servant and the daemon compute from the whole
    source, however the writes cut it. *)
Theorem Blake3OutStream_digest l :
  (b ← writes (λ d b, Ret (Blake3_Write d b)) l Blake3OutStream_make; Blake3_GetResult (Finalize b))
  = Ret (EncodeHex (blake3 (sconcat l)) false).
Proof.
  rewrite Blake3_writes_state. cbn. by rewrite append_hex_spec, (hasher_digest (blake3 := blake3)).
Qed.
End hasher_theory.

(** The hasher got [t], in some pieces. *)
Definition hashes {St} `{Hasher St} (t : string) (b : Blake3OutStream St) : Prop := ∃ pieces,
  t = sconcat pieces ∧
  state_ b = foldl (λ h s, blake3_hasher_update s h) blake3_hasher_init pieces.

Lemma hashes_write {St} `{Hasher St} t data (b : Blake3OutStream St) :
  hashes t b → hashes (t +:+ data) (Blake3_Write data b).
Proof.
  intros (pieces & -> & E). exists (pieces ++ [data]).
  rewrite sconcat_app, foldl_app. cbn. by rewrite sapp_nil_r, E.
Qed.

(** * Instances *)

(** A compressor that stores: it takes all of its input and gives from its buffer what the
    output has room for. *)
Record Store := { s_in : string; s_out : string; s_buffer : string }.

Definition store_step (c : Store) (room : Z) (input : string) : Step Store :=
  let buffer := s_buffer c +:+ input in
  {| st_ctx := {| s_in := s_in c +:+ input; s_out := s_out c +:+ ztake room buffer;
                  s_buffer := zdrop room buffer |};
     st_consumed := ssize input; st_produced := ztake room buffer;
     st_result := ssize (zdrop room buffer) |}.

(** The parts of a stored stream; contexts that [store_step] reaches. *)
Record StoreCtx := { store : Store; store_ok : s_in store = s_out store +:+ s_buffer store }.

Lemma store_step_ok c room input :
  s_in c = s_out c +:+ s_buffer c →
  let c' := st_ctx (store_step c room input) in s_in c' = s_out c' +:+ s_buffer c'.
Proof. intros E. cbn. by rewrite E, !sapp_assoc, ztake_zdrop. Qed.

#[export] Instance store_zstd : Zstd StoreCtx := {|
  ZSTD_initCStream := {| store := {| s_in := ""; s_out := ""; s_buffer := "" |};
                         store_ok := eq_refl |};
  ZSTD_compressStream2 := λ c room input _,
    let st := store_step (store c) room input in
    {| st_ctx := {| store := st_ctx st; store_ok := store_step_ok (store c) room input (store_ok c) |};
       st_consumed := st_consumed st; st_produced := st_produced st;
       st_result := st_result st |} |}.

#[export] Instance store_laws :
  ZstdLaws StoreCtx Some (λ c, s_in (store c)) (λ c, s_out (store c))
    (λ c, String.length (s_buffer (store c))).
Proof.
  split.
  - done.
  - intros c room input d Hr. cbn. split; [pose proof (ssize_nonneg input); lia|].
    rewrite ztake_size by lia. split; [lia|]. split; [|done].
    rewrite <- (sapp_nil_r input) at 3. by rewrite ztake_app.
  - intros c room input Hr Hne. cbn. pose proof (ssize_pos input Hne). lia.
  - intros c room Hr. cbn. rewrite sapp_nil_r. case_decide as H0.
    + rewrite ssize_zero in H0. f_equal. rewrite (store_ok c).
      rewrite sapp_nil_r. f_equal. rewrite <- (ztake_zdrop room (s_buffer (store c))) at 2.
      by rewrite H0, sapp_nil_r.
    + pose proof (zdrop_size room (s_buffer (store c))). unfold ssize in *. lia.
Qed.

#[export] Instance string_hasher : Hasher string := {|
  blake3_hasher_init := "";
  blake3_hasher_update := λ s h, h +:+ s;
  blake3_hasher_finalize := λ h, stake 32 (h +:+ "________________________________") |}.

Lemma foldl_sapp h l : foldl (λ h s, h +:+ s) h l = h +:+ sconcat l.
Proof.
  revert h; induction l as [|s l IH]; intros h; [by rewrite sapp_nil_r|].
  cbn [foldl sconcat]. by rewrite IH, sapp_assoc.
Qed.

#[export] Instance string_hasher_laws :
  HasherLaws string (λ s, stake 32 (s +:+ "________________________________")).
Proof.
  intros l. unfold blake3_hasher_finalize, blake3_hasher_update, blake3_hasher_init, string_hasher.
  by rewrite foldl_sapp.
Qed.

Lemma ZstdOutStream_roundtrip_witness :
  settles (λ fuel, z ← writes (Zstd_Write fuel) ["int x;"; ""; "int y;"]
                         (ZstdOutStream_make (Ctx := StoreCtx));
                   r ← Zstd_GetResult fuel z; Ret (z, r.1))
    (λ '(z, r), Forall (λ c, ssize c ≤ kChunkSize) (chunks_ z) ∧ Some r = Some "int x;int y;").
Proof. apply (ZstdOutStream_roundtrip ["int x;"; ""; "int y;"]). Defined.

Lemma Blake3OutStream_digest_witness :
  ∃ d, (b ← writes (λ d b, Ret (Blake3_Write d b)) ["int x;"; "int y;"] Blake3OutStream_make;
        Blake3_GetResult (Finalize b)) = Ret d ∧
    stake 24 d = "696e7420783b696e7420793b".
Proof.
  eexists. split; [apply (Blake3OutStream_digest ["int x;"; "int y;"])|]. by vm_compute.
Defined.
