(* ===== verification/ChildProcess.v ===== *)
(** Child processes and their pipes: src/distribuild/client/common/command.cpp, and the calls
    on file descriptors of src/distribuild/common/io.h.

    [Kernel] is what the sources use of the operating system; [KernelLaws] is what its
    documentation says of it, and that a child process writes a definite text to its output
    and to its error output, ends, and is not interrupted for ever.  A process is its [errno],
    its table of file descriptors and the kernel; a call that succeeds leaves [errno] as it
    was.  A failed check only logs.  The loops take fuel: without fuel they are [Undef], and
    [settles] says that some amount is enough. *)
From S2P Require Import Prelude Text FileSystem ClientArgs OutStream.

(** * The operating system *)

(** What a file descriptor is open on: an end of a pipe, or something else. *)
Inductive End := Reader (pipe : nat) | Writer (pipe : nat) | Other.

#[export] Instance End_eq_dec : EqDecision End.
Proof. solve_decision. Defined.

Abbreviation fds := (gmap Z End).

(** What [execve] gets, with the file descriptors of the child; [search] is that of
    [execvp]. *)
Record Exec := {
  x_program : string;
  x_argv : list string;
  x_envs : list string;
  x_search : bool;
  x_fds : fds
}.

Class Kernel (K : Type) := {
  k_spawn : Exec → fds → K → Z * K;                       (* [fork]; the parent's descriptors *)
  k_poll : list (Z * Z) → K → (Errno + list Z) * K;       (* descriptors and events; [revents] *)
  k_write : Z → string → K → (Errno + Z) * K;
  k_read : Z → Z → K → (Errno + string) * K;
  k_close : Z → K → option Errno * K;
  k_waitpid : Z → K → (Errno + Z) * K
}.

Record Proc (K : Type) := { errno : Errno; table : fds; kernel : K }.
Arguments errno {K} _.
Arguments table {K} _.
Arguments kernel {K} _.

(** A computation of the process. *)
Definition M (K A : Type) : Type := Proc K → outcome (A * Proc K).
#[export] Instance M_ret {K} : MRet (M K) := λ A a p, Ret (a, p).
#[export] Instance M_bind {K} : MBind (M K) := λ A B f m p, '(a, p) ← m p; f a p.

Section calls.
Context {K : Type} `{Kernel K}.

(** A call that fails sets [errno]. *)
Definition call {A} (f : K → (Errno + A) * K) : M K (option A) := λ p,
  match f (kernel p) with
  | (inl e, k) => Ret (None, {| errno := e; table := table p; kernel := k |})
  | (inr a, k) => Ret (Some a, {| errno := errno p; table := table p; kernel := k |})
  end.
Definition get_errno : M K Errno := λ p, Ret (errno p, p).
Definition undefined {A} (what : string) : M K A := λ _, Undef what.
Definition close (fd : Z) : M K () := λ p,
  let '(e, k) := k_close fd (kernel p) in
  Ret ((), {| errno := default (errno p) e; table := delete fd (table p); kernel := k |}).

(** * io.h *)

(** [None] is -1, also when the reader of a pipe is gone (EPIPE): the SIGPIPE that comes with
    it, and ends a process that does not ignore it, is not modelled. *)
Fixpoint WriteTo (fuel : nat) (fd : Z) (data : string) (start : Z) : M K (option Z) :=
  match fuel with
  | O => undefined "endless loop"
  | S fuel =>
    if ssize data <? start then undefined "read past the end of the data"
    else
      r ← call (k_write fd (zdrop start data));
      if decide (0 < default (-1) r) then mret r
      else
        e ← get_errno;
        if decide (e = EINTR) then WriteTo fuel fd data start
        else mret (if decide (e = EAGAIN) then Some 0 else None)
  end.

Fixpoint ReadTo (fuel : nat) (fd bytes : Z) : M K (option string) :=
  match fuel with
  | O => undefined "endless loop"
  | S fuel =>
    r ← call (k_read fd bytes);
    e ← get_errno;
    if decide (r = None ∧ e = EINTR) then ReadTo fuel fd bytes else mret r
  end.

(** * command.cpp *)

(** The lowest descriptor that is free, from [n] on. *)
Fixpoint lowest_free (fuel : nat) (n : Z) (t : fds) : Z :=
  match fuel with
  | O => n
  | S fuel => if decide (is_Some (t !! n)) then lowest_free fuel (n + 1) t else n
  end.
Definition alloc (e : End) (t : fds) : Z * fds :=
  let fd := lowest_free (size t) 0 t in (fd, <[fd := e]> t).

(** [pipe] is a pipe that did not exist before. *)
Definition CreatePipe (pipe : nat) (t : fds) : Z * Z * fds :=
  let '(r, t) := alloc (Reader pipe) t in
  let '(w, t) := alloc (Writer pipe) t in
  (r, w, t).

Definition dup2 (old new : Z) (t : fds) : fds :=
  match t !! old with Some e => <[new := e]> t | None => t end.

Definition BuildArguments (command : RewrittenArgs) : list string :=
  program_ command :: rargs_ command.

Record ProgramStartupInfo := {
  pid : Z;
  stdin_writer : Z;
  stdout_reader : Z;
  stderr_reader : Z
}.

(** The descriptors: those of the parent and the child behind [vfork], and the parent's three
    ends.  The pipes are 0, 1 and 2. *)
Definition connect (t : fds) : ProgramStartupInfo * fds * fds :=
  let '(stdin_reader, stdin_writer, t) := CreatePipe 0 t in
  let '(stdout_reader, stdout_writer, t) := CreatePipe 1 t in
  let '(stderr_reader, stderr_writer, t) := CreatePipe 2 t in
  let child := dup2 stderr_writer 2 (dup2 stdout_writer 1 (dup2 stdin_reader 0 t)) in
  let child := foldl (λ t fd, delete fd t) child
    [stdin_reader; stdout_writer; stderr_writer; stdin_writer; stdout_reader; stderr_reader] in
  let parent := foldl (λ t fd, delete fd t) t [stdin_reader; stdout_writer; stderr_writer] in
  ({| pid := 0; stdin_writer := stdin_writer; stdout_reader := stdout_reader;
      stderr_reader := stderr_reader |}, child, parent).

(** [environ] is the environment of the process. *)
Definition StartProgram (environ : list string) (command : RewrittenArgs)
    (extra_envs : list string) : M K ProgramStartupInfo := λ p,
  let '(info, child, parent) := connect (table p) in
  let exec := {| x_program := program_ command; x_argv := BuildArguments command;
                 x_envs := environ ++ extra_envs; x_search := false; x_fds := child |} in
  let '(pid, k) := k_spawn exec parent (kernel p) in
  Ret ({| pid := pid; stdin_writer := stdin_writer info; stdout_reader := stdout_reader info;
          stderr_reader := stderr_reader info |},
       {| errno := errno p; table := parent; kernel := k |}).

(** [(status & 0xff00) >> 8] *)
Definition WEXITSTATUS (status : Z) : Z := Z.shiftr (Z.land status 65280) 8.

Fixpoint GetChildExitCode (fuel : nat) (pid : Z) : M K Z :=
  match fuel with
  | O => undefined "endless loop"
  | S fuel =>
    r ← call (k_waitpid pid);
    match r with
    | Some status => mret (WEXITSTATUS status)
    | None =>
      e ← get_errno;
      if decide (e = EINTR) then GetChildExitCode fuel pid
      else undefined "read of an uninitialised status"
    end
  end.

Definition POLLIN : Z := 1.
Definition POLLOUT : Z := 4.
Definition io_buffer_size : Z := 128 * 1024.

(** What [HandleProgramIO] keeps, without the output stream. *)
Record Io := {
  stdin_bytes : Z;
  in_done : bool;
  out_done : bool;
  err_done : bool;
  standard_error : string
}.
Definition io_init : Io := {| stdin_bytes := 0; in_done := false; out_done := false;
                              err_done := false; standard_error := "" |}.

Section io.
Context (pinfo : ProgramStartupInfo) (input : string).
Context {S : Type} (w : nat → string → S → outcome S).

(** What is registered for [poll]. *)
Definition registered (c : Io) : list (Z * Z) :=
  (if in_done c then [] else [(stdin_writer pinfo, POLLOUT)]) ++
  (if out_done c then [] else [(stdout_reader pinfo, POLLIN)]) ++
  (if err_done c then [] else [(stderr_reader pinfo, POLLIN)]).

Definition on_stdin (fuel : nat) (c : Io) (s : S) : M K (Io * S) :=
  bytes ← WriteTo fuel (stdin_writer pinfo) input (stdin_bytes c);
  match bytes with
  | Some bytes =>
    let total := stdin_bytes c + bytes in
    let finished := total =? ssize input in
    _ ← (if finished then close (stdin_writer pinfo) else mret ());
    mret ({| stdin_bytes := total; in_done := finished; out_done := out_done c;
             err_done := err_done c; standard_error := standard_error c |}, s)
  | None =>
    _ ← close (stdin_writer pinfo);
    mret ({| stdin_bytes := stdin_bytes c; in_done := true; out_done := out_done c;
             err_done := err_done c; standard_error := standard_error c |}, s)
  end.

Definition on_stdout (fuel : nat) (c : Io) (s : S) : M K (Io * S) :=
  bytes ← ReadTo fuel (stdout_reader pinfo) io_buffer_size;
  match bytes with
  | Some (String _ _ as data) => λ p, s ← w fuel data s; Ret ((c, s), p)
  | _ =>
    _ ← close (stdout_reader pinfo);
    mret ({| stdin_bytes := stdin_bytes c; in_done := in_done c; out_done := true;
             err_done := err_done c; standard_error := standard_error c |}, s)
  end.

Definition on_stderr (fuel : nat) (c : Io) (s : S) : M K (Io * S) :=
  bytes ← ReadTo fuel (stderr_reader pinfo) io_buffer_size;
  match bytes with
  | Some (String _ _ as data) =>
    mret ({| stdin_bytes := stdin_bytes c; in_done := in_done c; out_done := out_done c;
             err_done := err_done c; standard_error := standard_error c +:+ data |}, s)
  | _ =>
    _ ← close (stderr_reader pinfo);
    mret ({| stdin_bytes := stdin_bytes c; in_done := in_done c; out_done := out_done c;
             err_done := true; standard_error := standard_error c |}, s)
  end.

(** The loop over [pollfd]s. *)
Fixpoint handle_events (fuel : nat) (events : list (Z * Z)) (c : Io) (s : S) : M K (Io * S) :=
  match events with
  | [] => mret (c, s)
  | (fd, revents) :: events =>
    '(c, s) ← (if revents =? 0 then mret (c, s)
               else if fd =? stdin_writer pinfo then on_stdin fuel c s
               else if fd =? stdout_reader pinfo then on_stdout fuel c s
               else if fd =? stderr_reader pinfo then on_stderr fuel c s
               else mret (c, s));
    handle_events fuel events c s
  end.

Fixpoint io_loop (fuel : nat) (c : Io) (s : S) : M K (Io * S) :=
  if in_done c && out_done c && err_done c then mret (c, s)
  else
    match fuel with
    | O => undefined "endless loop"
    | Datatypes.S fuel =>
      r ← call (k_poll (registered c));
      match r with
      | None =>
        e ← get_errno;
        if decide (e = EINTR) then io_loop fuel c s else λ _, Fatal "poll"
      | Some revents =>
        '(c, s) ← handle_events fuel (zip (registered c).*1 revents) c s;
        io_loop fuel c s
      end
    end.

(** The output stream, and the error output. *)
Definition HandleProgramIO (fuel : nat) (s : S) : M K (S * string) :=
  '(c, s) ← io_loop fuel io_init s; mret (s, standard_error c).
End io.

(** The exit code, the output stream and the error output. *)
Definition ExecuteCommand {S} (w : nat → string → S → outcome S) (fuel : nat)
    (environ : list string) (command : RewrittenArgs) (extra_envs : list string)
    (input : string) (s : S) : M K (Z * S * string) :=
  pinfo ← StartProgram environ command extra_envs;
  '(s, e) ← HandleProgramIO pinfo input w fuel s;
  code ← GetChildExitCode fuel (pid pinfo);
  mret (code, s, e).

(** The child of [fork] has every descriptor of its parent. *)
Definition CompileOnNative (fuel : nat) (environ : list string) (program : string)
    (argv : list string) : M K Z := λ p,
  let exec := {| x_program := program; x_argv := program :: argv; x_envs := environ;
                 x_search := true; x_fds := table p |} in
  let '(pid, k) := k_spawn exec (table p) (kernel p) in
  GetChildExitCode fuel pid {| errno := errno p; table := table p; kernel := k |}.
End calls.

(** * Theory *)

(** ** The descriptors of parent and child *)

Lemma lowest_free_from_spec (t : fds) fuel n :
  (∀ i, 0 ≤ i < n → is_Some (t !! i)) → 0 ≤ n → n + Z.of_nat fuel = Z.of_nat (size t) →
  t !! lowest_free fuel n t = None.
Proof.
  revert n; induction fuel as [|fuel IH]; intros n Hn H0 Hs; cbn.
  - apply eq_None_not_Some. intros Hsome.
    assert (Hsub : list_to_set (seqZ 0 (n + 1)) ⊆ dom t).
    { intros i [Hi1 Hi2]%elem_of_list_to_set%elem_of_seqZ. apply elem_of_dom.
      destruct (decide (i = n)) as [->|?]; [done|]. apply Hn. lia. }
    apply subseteq_size in Hsub. rewrite size_list_to_set in Hsub by apply NoDup_seqZ.
    rewrite length_seqZ, size_dom in Hsub. lia.
  - case_decide as D; [|by apply eq_None_not_Some]. apply IH; [|lia..].
    intros i Hi. destruct (decide (i = n)) as [->|?]; [done|]. apply Hn. lia.
Qed.

Lemma alloc_spec e t : ∃ fd, alloc e t = (fd, <[fd := e]> t) ∧ t !! fd = None.
Proof.
  eexists. split; [done|]. apply lowest_free_from_spec; [|lia..]. intros i Hi. lia.
Qed.

Lemma CreatePipe_spec n t : ∃ r w,
  CreatePipe n t = (r, w, <[w := Writer n]> (<[r := Reader n]> t)) ∧
  t !! r = None ∧ t !! w = None ∧ r ≠ w.
Proof.
  unfold CreatePipe. destruct (alloc_spec (Reader n) t) as (r & -> & Hr).
  destruct (alloc_spec (Writer n) (<[r := Reader n]> t)) as (w & -> & Hw).
  exists r, w. apply lookup_insert_None in Hw as [Hw Hne]. by split_and!.
Qed.

Lemma lookup_foldl_delete (l : list Z) (t : fds) i :
  foldl (λ t fd, delete fd t) t l !! i = if decide (i ∈ l) then None else t !! i.
Proof.
  revert t; induction l as [|fd l IH]; intros t; cbn [foldl]; [done|]. rewrite IH.
  destruct (decide (i = fd)) as [->|Hne].
  - rewrite lookup_delete_eq. rewrite (decide_True (P := fd ∈ fd :: l)) by left. by case_decide.
  - rewrite lookup_delete_ne by done. apply decide_ext. rewrite elem_of_cons. tauto.
Qed.

Lemma dup2_Some old new t e : t !! old = Some e → dup2 old new t = <[new := e]> t.
Proof. unfold dup2. by intros ->. Qed.

(** Looks through insertions. *)
Ltac look := repeat first [rewrite lookup_insert_eq | rewrite lookup_insert_ne by done].

(** What the descriptors are to be: the child has the pipes on its three standard ones and
    nothing else of them; the parent keeps the three other ends. *)
Definition wired (t : fds) (r : ProgramStartupInfo * fds * fds) : Prop :=
  let '(info, child, parent) := r in
  let '(i, o, e) := (stdin_writer info, stdout_reader info, stderr_reader info) in
  NoDup [i; o; e] ∧ t !! i = None ∧ t !! o = None ∧ t !! e = None ∧
  child = <[0 := Reader 0]> (<[1 := Writer 1]> (<[2 := Writer 2]> t)) ∧
  parent = <[i := Writer 0]> (<[o := Reader 1]> (<[e := Reader 2]> t)).

Lemma connect_wired t :
  is_Some (t !! 0) → is_Some (t !! 1) → is_Some (t !! 2) → wired t (connect t).
Proof.
  intros [x0 H0] [x1 H1] [x2 H2]. unfold connect.
  destruct (CreatePipe_spec 0 t) as (ir & iw & -> & Hir & Hiw & Hi).
  destruct (CreatePipe_spec 1 (<[iw:=Writer 0]> (<[ir:=Reader 0]> t)))
    as (or & ow & -> & Hor & How & Ho).
  apply lookup_insert_None in Hor as [[Hor Hor2]%lookup_insert_None Hor1].
  apply lookup_insert_None in How as [[How How2]%lookup_insert_None How1].
  match goal with |- context [CreatePipe 2 ?t'] =>
    destruct (CreatePipe_spec 2 t') as (er & ew & -> & Her & Hew & He) end.
  repeat (apply lookup_insert_None in Her as [Her ?]).
  repeat (apply lookup_insert_None in Hew as [Hew ?]).
  assert (∀ fd x, t !! fd = None → t !! x ≠ None → fd ≠ x) as Hne by (intros; congruence).
  assert (Hstd : Forall (λ fd, t !! fd = None ∧ fd ≠ 0 ∧ fd ≠ 1 ∧ fd ≠ 2) [ir; ow; ew; iw; or; er])
    by (repeat constructor; try done; by eapply Hne; [|congruence]).
  unfold wired. cbn [stdin_writer stdout_reader stderr_reader].
  split_and!; [|done..| |].
  - rewrite !NoDup_cons, !not_elem_of_cons.
    split_and!; (done || apply not_elem_of_nil || apply NoDup_nil_2).
  - apply map_eq. intros x. rewrite lookup_foldl_delete. case_decide as Hx.
    + eapply Forall_forall in Hstd as (? & ? & ? & ?); [|exact Hx].
      by rewrite !lookup_insert_ne by done.
    + rewrite !not_elem_of_cons in Hx. destruct_and! Hx.
      rewrite !Forall_cons in Hstd. destruct_and! Hstd.
      rewrite (dup2_Some ir 0 _ (Reader 0)) by by look.
      rewrite (dup2_Some ow 1 _ (Writer 1)) by by look.
      rewrite (dup2_Some ew 2 _ (Writer 2)) by by look.
      destruct (decide (x = 0)) as [->|]; [by look|].
      destruct (decide (x = 1)) as [->|]; [by look|].
      destruct (decide (x = 2)) as [->|]; [by look|]. by look.
  - apply map_eq. intros x. rewrite lookup_foldl_delete. case_decide as Hx.
    + assert (t !! x = None ∧ x ≠ iw ∧ x ≠ or ∧ x ≠ er) as (? & ? & ? & ?).
      { rewrite !elem_of_cons, elem_of_nil in Hx.
        destruct Hx as [-> | [-> | [-> | []]]]; by split_and!. }
      by look.
    + rewrite !not_elem_of_cons in Hx. destruct_and! Hx.
      destruct (decide (x = iw)) as [->|]; [by look|].
      destruct (decide (x = or)) as [->|]; [by look|].
      destruct (decide (x = er)) as [->|]; [by look|]. by look.
Qed.

(** ** What the kernel promises *)

(** How a program ends: it exits, or a signal kills it. *)
Inductive Ending := Exits (code : Z) | Killed (signal : Z).
Definition wait_status (e : Ending) : Z :=
  match e with Exits code => code * 256 | Killed signal => signal end.

Record Behaviour := { b_out : string; b_err : string; b_end : Ending }.

Section frame.
Context {K : Type} (left : K → Z → string) (ready : K → Z → Prop).
Context (interrupts : K → nat) (ends : K → Z → Z).

(** What a call on [fd] does not change. *)
Definition kframe (fd : Z) (k k' : K) : Prop :=
  (interrupts k' ≤ interrupts k)%nat ∧ (∀ pid, ends k' pid = ends k pid) ∧
  ∀ fd', fd' ≠ fd → left k' fd' = left k fd' ∧ (ready k fd' → ready k' fd').
End frame.

(** [program] is what a program does, whatever it gets on its input; [left] is what will
    still come out of a pipe; [ready] is a descriptor [poll] reported that was not read since;
    [interrupts] bounds the interrupted and spurious calls to come; [ends] is the wait status
    of a child.  A write to a pipe that nobody reads fails; the signal that comes with it is
    left out.  Output arrives, and ends, at the reading end in the parent if the child has
    the pipe on its descriptor and the parent has closed the writing end. *)
Class KernelLaws (K : Type) `{Kernel K} (program : Exec → K → Behaviour)
    (left : K → Z → string) (ready : K → Z → Prop) (interrupts : K → nat)
    (ends : K → Z → Z) : Prop := {
  kernel_spawn x parent k :
    let '(pid, k') := k_spawn x parent k in
    (interrupts k' ≤ interrupts k)%nat ∧ ends k' pid = wait_status (b_end (program x k)) ∧
    ∀ fd pipe, parent !! fd = Some (Reader pipe) →
      (∀ fd', parent !! fd' ≠ Some (Writer pipe)) →
      (x_fds x !! 1 = Some (Writer pipe) → x_fds x !! 2 ≠ Some (Writer pipe) →
       left k' fd = b_out (program x k)) ∧
      (x_fds x !! 2 = Some (Writer pipe) → x_fds x !! 1 ≠ Some (Writer pipe) →
       left k' fd = b_err (program x k));
  kernel_poll fds k :
    fds ≠ [] →
    let '(r, k') := k_poll fds k in
    (∀ fd, kframe left ready interrupts ends fd k k') ∧
    match r with
    | inl e => e = EINTR ∧ (interrupts k' < interrupts k)%nat
    | inr revents =>
      length revents = length fds ∧ Exists (λ r, r ≠ 0) revents ∧
      ∀ fd r, (fd, r) ∈ zip fds.*1 revents → r ≠ 0 → ready k' fd
    end;
  kernel_read fd size k :
    ready k fd → 0 < size →
    let '(r, k') := k_read fd size k in
    kframe left ready interrupts ends fd k k' ∧
    match r with
    | inl e =>
      e = EINTR ∧ (interrupts k' < interrupts k)%nat ∧ ready k' fd ∧ left k' fd = left k fd
    | inr "" => left k fd = "" ∧ left k' fd = ""
    | inr data => left k fd = data +:+ left k' fd
    end;
  kernel_write fd data k :
    let '(r, k') := k_write fd data k in
    kframe left ready interrupts ends fd k k' ∧
    match r with
    | inl e => e = EINTR ∨ e = EAGAIN → (interrupts k' < interrupts k)%nat
    | inr n => 0 ≤ n ≤ ssize data ∧ (data ≠ "" → 0 < n)
    end;
  kernel_close fd k :
    let '(e, k') := k_close fd k in
    kframe left ready interrupts ends fd k k' ∧ left k' fd = left k fd ∧ e ≠ Some EINTR;
  kernel_waitpid pid k :
    let '(r, k') := k_waitpid pid k in
    match r with
    | inl e => e = EINTR ∧ (interrupts k' < interrupts k)%nat ∧ ends k' pid = ends k pid
    | inr status => status = ends k pid
    end
}.
