(* ===== verification/ChildProcessFacts.v ===== *)
(** The theory of child processes (ChildProcess): whatever the kernel does within its laws, a
    command ends (with an empty input, if no call is interrupted), its output arrives whole and in order, its exit code is the child's, and no
    descriptor is left open. *)
From S2P Require Import Prelude Text FileSystem ClientArgs OutStream ChildProcess.

(** ** One call *)
Section theory.
Context {K : Type} {kern : Kernel K} {program : Exec → K → Behaviour}.
Context {left : K → Z → string} {ready : K → Z → Prop}.
Context {interrupts : K → nat} {ends : K → Z → Z}.
Context {laws : KernelLaws K program left ready interrupts ends}.

Implicit Types p : Proc K.

(** No call will be interrupted, and none was. *)
Definition quiet p : Prop := interrupts (kernel p) = O ∧ errno p ≠ EINTR.

Definition frame (fd : Z) p p' : Prop :=
  kframe left ready interrupts ends fd (kernel p) (kernel p') ∧ (quiet p → quiet p') ∧
  ∀ fd', fd' ≠ fd → table p' !! fd' = table p !! fd'.

#[local] Instance frame_preorder fd : PreOrder (frame fd).
Proof.
  split.
  - intros p. split; [|done]. by split_and!; [..|intros fd' ?].
  - intros p1 p2 p3 ((I1 & E1 & F1) & Q1 & T1) ((I2 & E2 & F2) & Q2 & T2).
    split; [|split; [auto|intros fd' Hfd; by rewrite T2, T1]]. split_and!; [lia| |].
    + intros x. by rewrite E2.
    + intros fd' Hfd. destruct (F2 fd' Hfd) as [-> ?], (F1 fd' Hfd) as [-> ?]. auto.
Qed.

Lemma frame_interrupts fd p p' :
  frame fd p p' → (interrupts (kernel p') ≤ interrupts (kernel p))%nat.
Proof. intros [(I & _) _]. exact I. Qed.

Lemma frame_ends fd p p' pid : frame fd p p' → ends (kernel p') pid = ends (kernel p) pid.
Proof. intros [(_ & E & _) _]. apply E. Qed.

Lemma frame_left fd p p' fd' :
  frame fd p p' → fd' ≠ fd → left (kernel p') fd' = left (kernel p) fd'.
Proof. intros [(_ & _ & F) _] Hfd. by apply F. Qed.

Lemma frame_ready fd p p' fd' :
  frame fd p p' → fd' ≠ fd → ready (kernel p) fd' → ready (kernel p') fd'.
Proof. intros [(_ & _ & F) _] Hfd. by apply F. Qed.

(** The first call of a computation. *)
Lemma call_bind {A B} (f : K → (Errno + A) * K) (g : option A → M K B) p :
  (call f ≫= g) p =
  match f (kernel p) with
  | (inl e, k) => g None {| errno := e; table := table p; kernel := k |}
  | (inr a, k) => g (Some a) {| errno := errno p; table := table p; kernel := k |}
  end.
Proof. unfold mbind, M_bind, call. by destruct (f (kernel p)) as [[e|a] k]. Qed.

Lemma errno_bind {B} (g : Errno → M K B) p : (get_errno ≫= g) p = g (errno p) p.
Proof. done. Qed.

Lemma settles_Mbind {A B} (m : nat → M K A) (f : nat → A → M K B) p Q Q' :
  settles (λ fuel, m fuel p) Q →
  (∀ a p', Q (a, p') → settles (λ fuel, f fuel a p') Q') →
  settles (λ fuel, (m fuel ≫= f fuel) p) Q'.
Proof.
  intros Hm Hf. eapply (settles_bind (λ fuel, m fuel p) (λ fuel '(a, p'), f fuel a p'));
    [exact Hm|]. intros [a p'] HQ. by apply Hf.
Qed.

Lemma call_frame {A} (r : Errno + A) fd p k :
  kframe left ready interrupts ends fd (kernel p) k →
  (∀ e, r = inl e → e = EINTR → (interrupts k < interrupts (kernel p))%nat) →
  frame fd p {| errno := if r is inl e then e else errno p; table := table p; kernel := k |}.
Proof.
  intros F He. split; [done|]. split; [|done]. intros [Q0 Q1].
  split; [destruct F; cbn in *; lia|].
  destruct r as [e|a]; [|done]. cbn. intros ->. specialize (He _ eq_refl eq_refl). lia.
Qed.

Lemma ReadTo_spec fd size p :
  ready (kernel p) fd → 0 < size →
  settles (λ fuel, ReadTo fuel fd size p)
    (λ '(r, p'), frame fd p p' ∧ table p' = table p ∧
       match r with
       | None => False
       | Some "" => left (kernel p) fd = "" ∧ left (kernel p') fd = ""
       | Some data => left (kernel p) fd = data +:+ left (kernel p') fd
       end).
Proof.
  remember (interrupts (kernel p)) as n eqn:Hn. revert p Hn.
  induction n as [n IH] using (well_founded_induction lt_wf). intros p Hn Hr Hs.
  apply settles_S. cbn [ReadTo].
  eapply settles_ext; [|intros fuel; apply call_bind].
  pose proof (kernel_read fd size (kernel p) Hr Hs) as L.
  destruct (k_read fd size (kernel p)) as [[e|data] k]; destruct L as [F L].
  - destruct L as (-> & Hi & Hr' & Hl).
    set (p1 := {| errno := EINTR; table := table p; kernel := k |}).
    assert (Fp : frame fd p p1) by (apply (call_frame (A := ()) (inl EINTR)); [done|by intros]).
    eapply settles_mono; [eapply (IH (interrupts k)); [lia|done..]|].
    intros [r p'] (Fr & Ht & Hd). split; [by etrans|]. split; [done|]. by rewrite <- Hl.
  - set (p1 := {| errno := errno p; table := table p; kernel := k |}).
    assert (Fp : frame fd p p1) by (by apply (call_frame (inr data))).
    exists (Some data, p1), O. split; [|intros fuel _; rewrite errno_bind, decide_False by (by intros [? _]); done].
    split; [done|]. split; [done|]. by destruct data.
Qed.

Lemma WriteTo_spec fd data start p :
  0 ≤ start → start < ssize data ∨ start = ssize data ∧ quiet p →
  settles (λ fuel, WriteTo fuel fd data start p)
    (λ '(r, p'), frame fd p p' ∧ table p' = table p ∧
       match r with
       | None => True
       | Some n => 0 ≤ n ∧ start + n ≤ ssize data ∧
                   (0 < n ∨ start = ssize data ∨
                    (interrupts (kernel p') < interrupts (kernel p))%nat)
       end).
Proof.
  intros H0. remember (interrupts (kernel p)) as n eqn:Hn. revert p Hn.
  induction n as [n IH] using (well_founded_induction lt_wf). intros p Hn Hst.
  apply settles_S. cbn [WriteTo]. destruct (Z.ltb_spec (ssize data) start); [lia|].
  eapply settles_ext; [|intros fuel; apply call_bind].
  pose proof (kernel_write fd (zdrop start data) (kernel p)) as L.
  pose proof (zdrop_size start data H0) as Hz.
  destruct (k_write fd (zdrop start data) (kernel p)) as [[e|w] k]; destruct L as [F L].
  - set (p1 := {| errno := e; table := table p; kernel := k |}).
    assert (Fp : frame fd p p1).
    { apply (call_frame (A := ()) (inl e)); [done|]. intros ? [= <-] ->. auto. }
    destruct (decide (0 < default (-1) None)) as [Hw|Hw]; [by cbn in Hw|].
    eapply (settles_ext (λ fuel, (if decide (e = EINTR) then WriteTo fuel fd data start
      else mret (if decide (e = EAGAIN) then Some 0 else None)) p1)); [|done].
    destruct (decide (e = EINTR)) as [->|He].
    + eapply settles_mono; [eapply (IH (interrupts k) ltac:(subst n; auto) p1 eq_refl)|].
      * destruct Hst as [?|[? Q]]; [by left|]. right. split; [done|]. by apply Fp.
      * intros [r p'] (Fr & Ht & Hd). split; [by etrans|]. split; [done|]. destruct r as [n'|]; [|done].
        destruct Hd as (? & ? & [?|[?|?]]); split_and!; auto.
        do 2 right. apply frame_interrupts in Fp. cbn in Fp. lia.
    + apply settles_ret. do 2 (split; [done|]). case_decide as Ha; [|done]. split_and!; [lia..|].
      do 2 right. subst n. auto.
  - set (p1 := {| errno := errno p; table := table p; kernel := k |}).
    assert (Fp : frame fd p p1) by (by apply (call_frame (inr w))).
    destruct L as [Lw Lp]. destruct (decide (0 < default (-1) (Some w))) as [Hw|Hw].
    + cbn in Hw. exists (Some w, p1), O. split; [|done].
      do 2 (split; [done|]). split_and!; [lia..|by left].
    + cbn in Hw. destruct Hst as [Hst|[Hst Q]].
      { exfalso. apply Hw, Lp. intros E. apply ssize_zero in E. lia. }
      exists (if decide (errno p = EAGAIN) then Some 0 else None, p1), O. split.
      * do 2 (split; [done|]). case_decide; [|done]. split_and!; [lia..|]. by right; left.
      * intros fuel _. by rewrite errno_bind, decide_False by apply Q.
Qed.

Lemma close_spec fd p :
  ∃ p', close fd p = Ret ((), p') ∧ frame fd p p' ∧
    left (kernel p') fd = left (kernel p) fd ∧ table p' = delete fd (table p).
Proof.
  unfold close. pose proof (kernel_close fd (kernel p)) as L.
  destruct (k_close fd (kernel p)) as [e k]. destruct L as (F & Hl & He).
  eexists. split; [done|]. split; [|done]. split; [done|].
  split; [|intros fd' Hfd; cbn; by rewrite lookup_delete_ne]. intros [Q0 Q1].
  split; cbn; [destruct F; lia|]. by destruct e as [[]|].
Qed.

Lemma close_bind {B} (b : bool) fd (g : () → M K B) p :
  ∃ p', ((if b then close fd else mret ()) ≫= g) p = g () p' ∧ frame fd p p' ∧
    left (kernel p') fd = left (kernel p) fd ∧
    table p' !! fd = if b then None else table p !! fd.
Proof.
  destruct b; [|by exists p]. destruct (close_spec fd p) as (p' & E & F & L & T).
  exists p'. split; [unfold mbind, M_bind; by rewrite E|]. split_and!; [done..|].
  by rewrite T, lookup_delete_eq.
Qed.

Lemma GetChildExitCode_spec pid p :
  settles (λ fuel, GetChildExitCode fuel pid p)
    (λ '(code, p'), code = WEXITSTATUS (ends (kernel p) pid) ∧ table p' = table p).
Proof.
  remember (interrupts (kernel p)) as n eqn:Hn. revert p Hn.
  induction n as [n IH] using (well_founded_induction lt_wf). intros p Hn.
  apply settles_S. cbn [GetChildExitCode].
  eapply settles_ext; [|intros fuel; apply call_bind].
  pose proof (kernel_waitpid pid (kernel p)) as L.
  destruct (k_waitpid pid (kernel p)) as [[e|status] k].
  - destruct L as (-> & Hi & <-).
    by eapply (IH (interrupts k) ltac:(lia) {| errno := EINTR; table := table p; kernel := k |}).
  - subst status. by apply settles_ret.
Qed.

(** ** The event loop *)
Section io_theory.
Context (pinfo : ProgramStartupInfo) (input : string).
Context {S : Type} (w : nat → string → S → outcome S) (I : string → S → Prop).
Context (Hw : sink w I) (out err : string) (parent : fds).

Abbreviation i := (stdin_writer pinfo).
Abbreviation o := (stdout_reader pinfo).
Abbreviation e := (stderr_reader pinfo).
Context (Hfds : NoDup [i; o; e]).

(** Whether the loop is done with a descriptor. *)
Definition finished (c : Io) (fd : Z) : bool :=
  if decide (fd = i) then in_done c else if decide (fd = o) then out_done c else err_done c.

(** The descriptors it is done with are closed. *)
Definition closed (c : Io) p : Prop := ∀ fd,
  table p !! fd = if decide (fd ∈ [i; o; e] ∧ finished c fd = true) then None else parent !! fd.

(** The sink and the text hold what came out of the pipes, and the rest will still come. *)
Record ok (c : Io) (s : S) p : Prop := {
  ok_bytes : 0 ≤ stdin_bytes c;
  ok_in : in_done c = false →
    stdin_bytes c < ssize input ∨ stdin_bytes c = ssize input ∧ quiet p;
  ok_out : ∃ got, I got s ∧ out = got +:+ left (kernel p) o;
  ok_out_done : out_done c = true → left (kernel p) o = "";
  ok_err : err = standard_error c +:+ left (kernel p) e;
  ok_err_done : err_done c = true → left (kernel p) e = "";
  ok_closed : closed c p
}.

Lemma closed_step fd c p c' p' :
  closed c p → frame fd p p' → fd ∈ [i; o; e] →
  (∀ fd', fd' ≠ fd → fd' ∈ [i; o; e] → finished c' fd' = finished c fd') →
  table p' !! fd = (if finished c' fd then None else parent !! fd) →
  closed c' p'.
Proof.
  intros Hc (_ & _ & F) Hfd Hfin Ht fd'. destruct (decide (fd' = fd)) as [->|Hne].
  - rewrite Ht. destruct (finished c' fd); [by rewrite decide_True|]. by rewrite decide_False by (by intros [_ ?]).
  - rewrite F, Hc by done. apply decide_ext. split; intros [H1 H2]; split; try done.
    + by rewrite Hfin.
    + by rewrite <- Hfin.
Qed.

Lemma closed_open fd c p :
  closed c p → finished c fd = false → table p !! fd = parent !! fd.
Proof. intros Hc Hf. rewrite Hc. rewrite decide_False; [done|]. intros [_ ?]. congruence. Qed.

Definition weight (finished : bool) : nat := if finished then 0%nat else 1%nat.
Definition measure (c : Io) p : nat :=
  (interrupts (kernel p) + String.length (left (kernel p) o) + String.length (left (kernel p) e) +
   Z.to_nat (ssize input - stdin_bytes c) +
   weight (in_done c) + weight (out_done c) + weight (err_done c))%nat.

(** What one event on [fd] does. *)
Definition advances (fd : Z) (c : Io) p (r : Io * S * Proc K) : Prop :=
  let '(c', s', p') := r in
  ok c' s' p' ∧ frame fd p p' ∧ (measure c' p' < measure c p)%nat ∧
  ∀ fd', fd' ≠ fd → fd' ∈ [i; o; e] → finished c' fd' = finished c fd'.

Lemma fds_ne : i ≠ o ∧ i ≠ e ∧ o ≠ e.
Proof.
  rewrite !NoDup_cons, !not_elem_of_cons in Hfds. by destruct Hfds as ((? & ? & _) & (? & _) & _).
Qed.

Lemma fd_cases fd : fd ∈ [i; o; e] → fd = i ∨ fd = o ∨ fd = e.
Proof. rewrite !elem_of_cons, elem_of_nil. tauto. Qed.

Lemma finished_o c : finished c o = out_done c.
Proof. destruct fds_ne as (Hio & _). unfold finished. by rewrite decide_False, decide_True. Qed.
Lemma finished_e c : finished c e = err_done c.
Proof. destruct fds_ne as (_ & Hie & Hoe). unfold finished. by rewrite !decide_False. Qed.
Lemma finished_i c : finished c i = in_done c.
Proof. unfold finished. by rewrite decide_True. Qed.

Lemma finished_out_ne c c' fd :
  in_done c' = in_done c → err_done c' = err_done c →
  fd ≠ o → fd ∈ [i; o; e] → finished c' fd = finished c fd.
Proof. intros H1 H2 Hne [->|[->| ->]]%fd_cases; rewrite ?finished_i, ?finished_e; done. Qed.
Lemma finished_err_ne c c' fd :
  in_done c' = in_done c → out_done c' = out_done c →
  fd ≠ e → fd ∈ [i; o; e] → finished c' fd = finished c fd.
Proof. intros H1 H2 Hne [->|[->| ->]]%fd_cases; rewrite ?finished_i, ?finished_o; done. Qed.
Lemma finished_in_ne c c' fd :
  out_done c' = out_done c → err_done c' = err_done c →
  fd ≠ i → fd ∈ [i; o; e] → finished c' fd = finished c fd.
Proof. intros H1 H2 Hne [->|[->| ->]]%fd_cases; rewrite ?finished_o, ?finished_e; done. Qed.

Lemma on_stdin_spec c s p :
  ok c s p → in_done c = false →
  settles (λ fuel, on_stdin pinfo input fuel c s p) (advances i c p).
Proof.
  intros [Hb Hi Ho Hod He Hed Hcl] Hin. destruct fds_ne as (Hio & Hie & Hoe). unfold on_stdin.
  pose proof (closed_open i c p Hcl ltac:(by rewrite finished_i)) as Hopen.
  eapply (settles_bind _ (λ _ '(bytes, p1), _)); [by apply WriteTo_spec; [|apply Hi]|].
  intros [bytes p1] (F & Ht & Hbytes). rewrite <- Ht in Hopen. destruct bytes as [n|].
  - set (c' := {| stdin_bytes := stdin_bytes c + n; in_done := stdin_bytes c + n =? ssize input;
      out_done := out_done c; err_done := err_done c; standard_error := standard_error c |}).
    destruct (close_bind (stdin_bytes c + n =? ssize input) i (λ _, mret (c', s)) p1)
      as (p2 & R & F2 & _ & T2).
    eapply settles_ext; [|intros ?; exact R]. apply settles_ret. rewrite Hopen in T2.
    assert (F' : frame i p p2) by (by etrans). split_and!; [| done | |].
    + split; cbn; rewrite ?(frame_left i p p2) by done; try done; [lia| |].
      * intros Hne%Z.eqb_neq. left. lia.
      * eapply (closed_step i c p); [done..|left| |by rewrite finished_i].
        intros fd. by apply finished_in_ne.
    + unfold measure. cbn. rewrite !(frame_left i p p2), Hin by done.
      apply frame_interrupts in F, F2, F'. destruct (Z.eqb_spec (stdin_bytes c + n) (ssize input)); cbn; lia.
    + intros fd. by apply finished_in_ne.
  - set (c' := {| stdin_bytes := stdin_bytes c; in_done := true; out_done := out_done c;
      err_done := err_done c; standard_error := standard_error c |}).
    destruct (close_bind true i (λ _, mret (c', s)) p1) as (p2 & R & F2 & _ & T2).
    eapply settles_ext; [|intros ?; exact R]. apply settles_ret.
    assert (F' : frame i p p2) by (by etrans). split_and!; [| done | |].
    + split; cbn; rewrite ?(frame_left i p p2) by done; try done.
      eapply (closed_step i c p); [done..|left| |by rewrite finished_i].
      intros fd. by apply finished_in_ne.
    + unfold measure. cbn. rewrite !(frame_left i p p2), Hin by done.
      apply frame_interrupts in F'. cbn. lia.
    + intros fd. by apply finished_in_ne.
Qed.

(** What is still to come is shorter than before. *)
Lemma taken_shorter (data x y : string) :
  data ≠ "" → x = data +:+ y → (String.length y < String.length x)%nat.
Proof. intros Hd ->. rewrite slength_app. destruct data; [done|]. cbn. lia. Qed.

Lemma frame_in fd c p p' :
  frame fd p p' →
  (in_done c = false → stdin_bytes c < ssize input ∨ stdin_bytes c = ssize input ∧ quiet p) →
  in_done c = false → stdin_bytes c < ssize input ∨ stdin_bytes c = ssize input ∧ quiet p'.
Proof.
  intros F Hi H. destruct (Hi H) as [?|[? ?]]; [by left|right]. split; [done|]. by apply F.
Qed.

Lemma on_stdout_spec c s p :
  ok c s p → out_done c = false → ready (kernel p) o →
  settles (λ fuel, on_stdout pinfo w fuel c s p) (advances o c p).
Proof.
  intros [Hb Hi Ho Hod He Hed Hcl] Hin Hr. destruct fds_ne as (Hio & Hie & Hoe). unfold on_stdout.
  pose proof (closed_open o c p Hcl ltac:(by rewrite finished_o)) as Hopen.
  eapply (settles_bind _ (λ fuel '(bytes, p1), _)); [by apply ReadTo_spec|].
  intros [bytes p1] (F & Ht & Hbytes). rewrite <- Ht in Hopen.
  destruct bytes as [[|a data]|]; [| |done].
  - destruct Hbytes as [H0 H1].
    set (c' := {| stdin_bytes := stdin_bytes c; in_done := in_done c; out_done := true;
      err_done := err_done c; standard_error := standard_error c |}).
    destruct (close_bind true o (λ _, mret (c', s)) p1) as (p2 & R & F2 & Hl & T2).
    eapply settles_ext; [|intros ?; exact R]. apply settles_ret.
    assert (F' : frame o p p2) by (by etrans). rewrite H1 in Hl. split_and!; [| done | |].
    + split; cbn; rewrite ?(frame_left o p p2), ?Hl by done; try done.
      * by apply (frame_in o c p).
      * by rewrite <- H0.
      * eapply (closed_step o c p); [done..|right; left| |by rewrite finished_o].
        intros fd. by apply finished_out_ne.
    + unfold measure. cbn. rewrite Hl, !(frame_left o p p2), Hin by done.
      apply frame_interrupts in F'. cbn. lia.
    + intros fd. by apply finished_out_ne.
  - destruct Ho as (got & Hgot & Ho). set (d := String a data) in *.
    eapply settles_bind; [apply Hw, Hgot|]. intros s' Hs'. apply settles_ret.
    split_and!; [|done| |done].
    + split; cbn; rewrite ?(frame_left o p p1) by done; try done.
      * by apply (frame_in o c p).
      * exists (got +:+ d). split; [done|]. by rewrite sapp_assoc, <- Hbytes.
      * rewrite Hin. done.
      * eapply (closed_step o c p); [done..|right; left|done|by rewrite finished_o, Hin].
    + unfold measure. rewrite (frame_left o p p1 e) by done. apply frame_interrupts in F.
      assert (d ≠ "") as Hd by done. pose proof (taken_shorter d _ _ Hd Hbytes). lia.
Qed.

Lemma on_stderr_spec c s p :
  ok c s p → err_done c = false → ready (kernel p) e →
  settles (λ fuel, on_stderr pinfo fuel c s p) (advances e c p).
Proof.
  intros [Hb Hi Ho Hod He Hed Hcl] Hin Hr. destruct fds_ne as (Hio & Hie & Hoe). unfold on_stderr.
  pose proof (closed_open e c p Hcl ltac:(by rewrite finished_e)) as Hopen.
  eapply (settles_bind _ (λ fuel '(bytes, p1), _)); [by apply ReadTo_spec|].
  intros [bytes p1] (F & Ht & Hbytes). rewrite <- Ht in Hopen.
  assert (He_in : e ∈ [i; o; e]) by (by rewrite !elem_of_cons; auto).
  destruct bytes as [[|a data]|]; [| |done].
  - destruct Hbytes as [H0 H1].
    set (c' := {| stdin_bytes := stdin_bytes c; in_done := in_done c; out_done := out_done c;
      err_done := true; standard_error := standard_error c |}).
    destruct (close_bind true e (λ _, mret (c', s)) p1) as (p2 & R & F2 & Hl & T2).
    eapply settles_ext; [|intros ?; exact R]. apply settles_ret.
    assert (F' : frame e p p2) by (by etrans). rewrite H1 in Hl. split_and!; [| done | |].
    + split; cbn; rewrite ?(frame_left e p p2), ?Hl by done; try done.
      * by apply (frame_in e c p).
      * by rewrite <- H0.
      * eapply (closed_step e c p); [done..| |by rewrite finished_e].
        intros fd. by apply finished_err_ne.
    + unfold measure. cbn. rewrite Hl, !(frame_left e p p2), Hin by done.
      apply frame_interrupts in F'. cbn. lia.
    + intros fd. by apply finished_err_ne.
  - set (c' := {| stdin_bytes := stdin_bytes c; in_done := in_done c; out_done := out_done c;
      err_done := err_done c; standard_error := standard_error c +:+ String a data |}).
    set (d := String a data) in *. apply settles_ret. split_and!; [|done| |].
    + split; cbn; rewrite ?(frame_left e p p1) by done; try done.
      * by apply (frame_in e c p).
      * by rewrite sapp_assoc, <- Hbytes.
      * rewrite Hin. done.
      * eapply (closed_step e c p); [done..|intros fd; by apply finished_err_ne|].
        by rewrite finished_e; cbn; rewrite Hin.
    + unfold measure. cbn. rewrite (frame_left e p p1 o) by done. apply frame_interrupts in F.
      assert (d ≠ "") as Hd by done. pose proof (taken_shorter d _ _ Hd Hbytes). lia.
    + intros fd. by apply finished_err_ne.
Qed.

(** The events of one call of [poll]: all of registered descriptors, all ready. *)
Definition reported (events : list (Z * Z)) (c : Io) p : Prop :=
  NoDup events.*1 ∧ ∀ fd r, (fd, r) ∈ events →
    fd ∈ [i; o; e] ∧ finished c fd = false ∧ (r ≠ 0 → ready (kernel p) fd).

Lemma reported_later fd r events c p c' s' p' :
  reported ((fd, r) :: events) c p → advances fd c p (c', s', p') → reported events c' p'.
Proof.
  intros [N H] (_ & F & _ & Hf). rewrite fmap_cons in N. apply NoDup_cons in N as [Nfd N].
  split; [done|]. intros fd' r' Hin. destruct (H fd' r') as (H1 & H2 & H3); [by right|].
  assert (fd' ≠ fd) by (intros ->; apply Nfd; by apply (list_elem_of_fmap_2 fst _ (fd, r'))).
  split_and!; [done|by rewrite Hf|]. intros Hr. eapply frame_ready; [done..|]. auto.
Qed.

Lemma handle_events_spec events c s p :
  reported events c p → ok c s p →
  settles (λ fuel, handle_events pinfo input w fuel events c s p)
    (λ '(c', s', p'), ok c' s' p' ∧ (measure c' p' ≤ measure c p)%nat ∧
       (Exists (λ ev, ev.2 ≠ 0) events → (measure c' p' < measure c p)%nat) ∧
       ∀ pid, ends (kernel p') pid = ends (kernel p) pid).
Proof.
  destruct fds_ne as (Hio & Hie & Hoe).
  revert c s p; induction events as [|[fd r] events IH]; intros c s p Hrep Hok.
  { apply settles_ret. split_and!; [done..| |done]. by intros ?%Exists_nil. }
  cbn [handle_events]. pose proof (proj2 Hrep fd r ltac:(left)) as (Hfd & Hfin & Hready).
  destruct (Z.eqb_spec r 0) as [->|Hr].
  - eapply settles_mono; [apply (IH c s p); [|done]|].
    + destruct Hrep as [N H]. rewrite fmap_cons in N. apply NoDup_cons in N as [_ N].
      split; [done|]. intros fd' r' Hin. apply H. by right.
    + intros [[c' s'] p'] (H1 & H2 & H3 & H4). split_and!; [done..| |done].
      intros [H0|He]%Exists_cons; [done|]. auto.
  - eapply (settles_Mbind (λ fuel, _) (λ fuel '(c', s'), _) p (advances fd c p)).
    + apply fd_cases in Hfd as [->|[->| ->]]; rewrite ?Z.eqb_refl.
      * apply on_stdin_spec; [done|]. by rewrite finished_i in Hfin.
      * rewrite (proj2 (Z.eqb_neq o i)) by done. apply on_stdout_spec; [done| |auto].
        by rewrite finished_o in Hfin.
      * rewrite (proj2 (Z.eqb_neq e i)), (proj2 (Z.eqb_neq e o)) by done.
        apply on_stderr_spec; [done| |auto]. by rewrite finished_e in Hfin.
    + intros [c' s'] p' Hadv. pose proof Hadv as (Hok' & F & Hm & _).
      eapply settles_mono; [apply (IH c' s' p'); [by eapply reported_later|done]|].
      intros [[c2 s2] p2] (H1 & H2 & _ & H4). split_and!; [done|lia| |]; [intros _; lia|].
      intros x. by rewrite H4, (frame_ends fd p p').
Qed.

Lemma registered_spec c :
  NoDup (registered pinfo c).*1 ∧
  ∀ fd, fd ∈ (registered pinfo c).*1 → fd ∈ [i; o; e] ∧ finished c fd = false.
Proof.
  destruct fds_ne as (Hio & Hie & Hoe).
  pose proof (finished_i c). pose proof (finished_o c). pose proof (finished_e c).
  unfold registered. split.
  - destruct (in_done c), (out_done c), (err_done c); cbn;
      rewrite ?NoDup_cons, ?not_elem_of_cons; split_and?;
      (done || apply not_elem_of_nil || apply NoDup_nil_2).
  - intros fd. rewrite !fmap_app, !elem_of_app.
    destruct (in_done c), (out_done c), (err_done c); cbn;
      rewrite ?list_elem_of_singleton, ?elem_of_nil; intros [H'|[H'|H']]; try done; subst fd;
      rewrite !elem_of_cons; auto.
Qed.

Lemma poll_left k k' fd :
  (∀ fd, kframe left ready interrupts ends fd k k') → left k' fd = left k fd.
Proof. intros F. apply (F (fd + 1)). lia. Qed.

Lemma exists_zip (l : list (Z * Z)) (revents : list Z) :
  length revents = length l → Exists (λ r, r ≠ 0) revents →
  Exists (λ ev, ev.2 ≠ 0) (zip l.*1 revents).
Proof.
  revert l; induction revents as [|r revents IH]; intros [|x l] Hl; try done;
    [by intros ?%Exists_nil|].
  cbn. rewrite !Exists_cons. intros [H|H]; [by left|]. right. apply IH; [|done]. by injection Hl.
Qed.

(** A call of [poll] changes nothing but the time that is left; it is interrupted, or reports
    registered descriptors. *)
Lemma poll_spec c s p :
  ok c s p → registered pinfo c ≠ [] →
  let '(r, k) := k_poll (registered pinfo c) (kernel p) in
  let p1 := {| errno := if r is inl e then e else errno p; table := table p; kernel := k |} in
  ok c s p1 ∧ (∀ pid, ends k pid = ends (kernel p) pid) ∧
  match r with
  | inl e => e = EINTR ∧ (measure c p1 < measure c p)%nat
  | inr revents =>
    let events := zip (registered pinfo c).*1 revents in
    (measure c p1 ≤ measure c p)%nat ∧ reported events c p1 ∧ Exists (λ ev, ev.2 ≠ 0) events
  end.
Proof.
  intros Hok Hne. pose proof (kernel_poll (registered pinfo c) (kernel p) Hne) as L.
  destruct (k_poll (registered pinfo c) (kernel p)) as [r k]. destruct L as [F L].
  set (p1 := {| errno := if r is inl e then e else errno p; table := table p; kernel := k |}).
  assert (Fp : frame i p p1) by (apply call_frame; [done|]; intros en -> ->; apply L).
  assert (Hl : ∀ fd, left k fd = left (kernel p) fd) by (intros fd; by apply poll_left).
  pose proof (frame_interrupts _ _ _ Fp) as Hi. cbn [p1 kernel] in Hi.
  split; [|split; [intros x; apply (F i)|]].
  { destruct Hok as [Hb Hin Hout Hod He Hed Hcl]. split; cbn; rewrite ?Hl; try done.
    intros H. destruct (Hin H) as [?|[? ?]]; [by left|right]. split; [done|]. by apply Fp. }
  destruct r as [en|revents].
  - destruct L as [-> Hlt]. split; [done|]. unfold measure. cbn. rewrite !Hl. lia.
  - destruct L as (Hlen & Hex & Hready). destruct (registered_spec c) as [Nr Hr].
    split_and!; [unfold measure; cbn; rewrite !Hl; lia| |by apply exists_zip].
    split; [rewrite fst_zip by (rewrite length_fmap; lia); done|].
    intros fd r Hin. destruct (Hr fd) as [H1 H2]; [by eapply elem_of_zip_l|].
    split_and!; [done..|]. by apply Hready.
Qed.

Definition all_closed p : Prop := ∀ fd,
  table p !! fd = if decide (fd ∈ [i; o; e]) then None else parent !! fd.

Lemma closed_all c p :
  closed c p → in_done c = true → out_done c = true → err_done c = true → all_closed p.
Proof.
  intros Hc H1 H2 H3 fd. rewrite Hc. apply decide_ext. split; [by intros [? _]|].
  intros H. split; [done|]. unfold finished. by repeat case_decide.
Qed.

Lemma io_loop_spec c s p :
  ok c s p →
  settles (λ fuel, io_loop pinfo input w fuel c s p)
    (λ '(c', s', p'), I out s' ∧ standard_error c' = err ∧
       (∀ pid, ends (kernel p') pid = ends (kernel p) pid) ∧ all_closed p').
Proof.
  remember (measure c p) as m eqn:Hm. revert c s p Hm.
  induction m as [m IH] using (well_founded_induction lt_wf). intros c s p Hm Hok.
  apply settles_S. cbn [io_loop].
  destruct (in_done c && out_done c && err_done c) eqn:D.
  { apply andb_true_iff in D as [[D0 D1]%andb_true_iff D2].
    apply settles_ret. destruct Hok as [_ _ (got & Hg & Ho) Hod He Hed Hcl].
    rewrite (Hod D1), sapp_nil_r in Ho. rewrite (Hed D2), sapp_nil_r in He.
    split_and!; [by subst..|]. by eapply closed_all. }
  eapply settles_ext; [|intros fuel; apply call_bind].
  assert (Hne : registered pinfo c ≠ []).
  { unfold registered. destruct (in_done c), (out_done c), (err_done c); done. }
  pose proof (poll_spec c s p Hok Hne) as L.
  destruct (k_poll (registered pinfo c) (kernel p)) as [[en|revents] k];
    destruct L as (Hok1 & Hends & L).
  - destruct L as [-> Hlt].
    set (p1 := {| errno := EINTR; table := table p; kernel := k |}) in *.
    eapply (settles_mono (λ fuel, io_loop pinfo input w fuel c s p1));
      [eapply (IH (measure c p1)); [lia|done..]|].
    intros [[c' s'] p'] (H1 & H2 & H3 & H4). split_and!; [done..| |done]. intros x. by rewrite H3.
  - destruct L as (Hle & Hrep & Hex).
    set (p1 := {| errno := errno p; table := table p; kernel := k |}) in *.
    eapply (settles_Mbind (λ fuel, _) (λ fuel '(c', s'), io_loop pinfo input w fuel c' s') p1);
      [by apply (handle_events_spec _ c s p1)|].
    intros [c' s'] p' (Hok' & _ & Hlt & Hends'). specialize (Hlt Hex).
    eapply settles_mono; [eapply (IH (measure c' p')); [lia|done..]|].
    intros [[c2 s2] p2] (H1 & H2 & H3 & H4). split_and!; [done..| |done].
    intros x. by rewrite H3, Hends'.
Qed.

(** The loop ends; what the child wrote is in the stream and in the error text. *)
Lemma HandleProgramIO_spec s p :
  I "" s → out = left (kernel p) o → err = left (kernel p) e → table p = parent →
  (input = "" → quiet p) →
  settles (λ fuel, HandleProgramIO pinfo input w fuel s p)
    (λ '(s', err', p'), I out s' ∧ err' = err ∧
       (∀ pid, ends (kernel p') pid = ends (kernel p) pid) ∧ all_closed p').
Proof.
  intros Hs Ho He Ht Hq. unfold HandleProgramIO.
  eapply (settles_Mbind (λ fuel, _) (λ fuel '(c, s), mret (s, standard_error c)) p);
    [apply (io_loop_spec io_init s p)|].
  - split; cbn; [lia| | |done|done|done|].
    + intros _. destruct (decide (input = "")) as [->|Hne]; [right; split; [done|by apply Hq]|].
      left. by apply ssize_pos.
    + by exists "".
    + intros fd. rewrite Ht, decide_False; [done|]. unfold finished. intros [_ H].
      by repeat case_decide.
  - intros [c s'] p' H. by apply settles_ret.
Qed.
End io_theory.

(** ** Whole commands *)

(** What the sources make of the end of a child. *)
Definition exit_code (x : Ending) : Z := match x with Exits code => code | Killed _ => 0 end.
Definition valid_ending (x : Ending) : Prop :=
  match x with Exits code => 0 ≤ code < 256 | Killed signal => 0 < signal < 256 end.

Lemma WEXITSTATUS_wait_status x :
  valid_ending x → WEXITSTATUS (wait_status x) = exit_code x.
Proof.
  intros H. unfold WEXITSTATUS. rewrite Z.shiftr_land. change (Z.shiftr 65280 8) with (Z.ones 8).
  rewrite Z.land_ones, Z.shiftr_div_pow2 by lia. change (2 ^ 8) with 256.
  destruct x as [code|signal]; cbn in *.
  - rewrite Z.div_mul by done. by apply Z.mod_small.
  - by rewrite Z.div_small by lia.
Qed.

(** What [ExecuteCommand] starts. *)
Definition command_exec (environ : list string) (command : RewrittenArgs)
    (extra_envs : list string) (t : fds) : Exec := {|
  x_program := program_ command; x_argv := program_ command :: rargs_ command;
  x_envs := environ ++ extra_envs; x_search := false;
  x_fds := <[0 := Reader 0]> (<[1 := Writer 1]> (<[2 := Writer 2]> t)) |}.

(** The start of a program: the parent has its three ends, the child its pipes, and what the
    child writes will come out of them. *)
Lemma StartProgram_spec environ command extra_envs p :
  is_Some (table p !! 0) → is_Some (table p !! 1) → is_Some (table p !! 2) →
  (∀ fd pipe, table p !! fd ≠ Some (Writer pipe)) →
  let b := program (command_exec environ command extra_envs (table p)) (kernel p) in
  ∃ pinfo p1, StartProgram environ command extra_envs p = Ret (pinfo, p1) ∧
    let fds := [stdin_writer pinfo; stdout_reader pinfo; stderr_reader pinfo] in
    NoDup fds ∧ (quiet p → quiet p1) ∧
    (∀ fd, table p !! fd = if decide (fd ∈ fds) then None else table p1 !! fd) ∧
    left (kernel p1) (stdout_reader pinfo) = b_out b ∧
    left (kernel p1) (stderr_reader pinfo) = b_err b ∧
    ends (kernel p1) (pid pinfo) = wait_status (b_end b).
Proof.
  intros H0 H1 H2 Hnew b. pose proof (connect_wired (table p) H0 H1 H2) as W.
  destruct (connect (table p)) as [[info child] parent] eqn:Ec.
  destruct W as (N & Hi & Ho & He & -> & Hparent).
  set (x := command_exec environ command extra_envs (table p)) in *.
  pose proof (kernel_spawn x parent (kernel p)) as L.
  destruct (k_spawn x parent (kernel p)) as [child k] eqn:Es. destruct L as (Hint & Hends & Hpipes).
  exists {| pid := child; stdin_writer := stdin_writer info;
            stdout_reader := stdout_reader info; stderr_reader := stderr_reader info |}.
  exists {| errno := errno p; table := parent; kernel := k |}.
  destruct (fds_ne info N) as (Hio & Hie & Hoe).
  assert (Hwriter : ∀ n, (n = 1 ∨ n = 2)%nat → ∀ fd, parent !! fd ≠ Some (Writer n)).
  { intros n Hn fd. rewrite Hparent. intros H.
    apply lookup_insert_Some in H as [[_ [= <-]]|[_ H]]; [lia|].
    apply lookup_insert_Some in H as [[_ [=]]|[_ H]].
    apply lookup_insert_Some in H as [[_ [=]]|[_ H]]. by apply Hnew in H. }
  destruct (Hpipes (stdout_reader info) 1%nat) as [Hout _]; [by rewrite Hparent; look|auto|].
  destruct (Hpipes (stderr_reader info) 2%nat) as [_ Herr]; [by rewrite Hparent; look|auto|].
  cbn [stdin_writer stdout_reader stderr_reader pid kernel table].
  split; [|split_and!; [done| | | | |done]].
  - unfold StartProgram. rewrite Ec. change (k_spawn _ _ _) with (k_spawn x parent (kernel p)).
    by rewrite Es.
  - intros [Hq0 Hq1]. split; [cbn; lia|done].
  - intros fd. case_decide as D.
    + by apply (fd_cases info) in D as [->|[->| ->]].
    + rewrite !not_elem_of_cons in D. destruct_and! D. rewrite Hparent. by look.
  - apply Hout; by cbn; look.
  - apply Herr; by cbn; look.
Qed.

(** A command runs with the given arguments and environment; the call ends, whatever the
    order in which the child's output comes and however it is cut; the sink has the output,
    the error text is the child's, the code is that of its end, and the descriptors are those
    of before. *)
Lemma ExecuteCommand_spec {S} (w : nat → string → S → outcome S) I environ command
    extra_envs input s p :
  sink w I → I "" s →
  is_Some (table p !! 0) → is_Some (table p !! 1) → is_Some (table p !! 2) →
  (∀ fd pipe, table p !! fd ≠ Some (Writer pipe)) →
  (input = "" → quiet p) →
  let b := program (command_exec environ command extra_envs (table p)) (kernel p) in
  valid_ending (b_end b) →
  settles (λ fuel, ExecuteCommand w fuel environ command extra_envs input s p)
    (λ '((code, s', err), p'),
       code = exit_code (b_end b) ∧ I (b_out b) s' ∧ err = b_err b ∧ table p' = table p).
Proof.
  intros Hw Hs H0 H1 H2 Hnew Hq b Hb. unfold ExecuteCommand.
  destruct (StartProgram_spec environ command extra_envs p H0 H1 H2 Hnew)
    as (pinfo & p1 & Hstart & N & Hq1 & Htable & Hout & Herr & Hends). fold b in Hout, Herr, Hends.
  eapply (settles_Mbind (λ _, StartProgram environ command extra_envs) (λ fuel pinfo, _) p
    (λ r, r = (pinfo, p1))); [by rewrite Hstart; apply settles_ret|].
  intros ? ? [= -> ->].
  eapply (settles_Mbind (λ fuel, _) (λ fuel '(s, e), _) p1);
    [by eapply (HandleProgramIO_spec pinfo input w I Hw (b_out b) (b_err b) (table p1) N s p1); auto|].
  intros [s' e'] p' (Hs' & -> & Hends' & Hcl).
  eapply (settles_Mbind (λ fuel, _) (λ fuel code, _) p'); [apply GetChildExitCode_spec|].
  intros code p2 [-> Ht]. apply settles_ret. split_and!; [|done..|].
  - by rewrite Hends', Hends, WEXITSTATUS_wait_status.
  - rewrite Ht. apply map_eq. intros fd. by rewrite Hcl, Htable.
Qed.

(** C39. The local compiler runs with the arguments of the client and its end is the client's, in
    the range of an exit code; a compiler that a signal killed counts as successful. *)
Theorem CompileOnNative_spec environ prog argv p :
  let x := {| x_program := prog; x_argv := prog :: argv; x_envs := environ; x_search := true;
              x_fds := table p |} in
  let b := program x (kernel p) in
  valid_ending (b_end b) →
  settles (λ fuel, CompileOnNative fuel environ prog argv p)
    (λ '(code, p'), 0 ≤ code < 256 ∧ table p' = table p ∧
       match b_end b with Exits c => code = c | Killed _ => code = 0 end).
Proof.
  intros x b Hb. unfold CompileOnNative.
  pose proof (kernel_spawn x (table p) (kernel p)) as L. fold x.
  destruct (k_spawn x (table p) (kernel p)) as [child k]. destruct L as (_ & Hends & _).
  eapply settles_mono; [apply GetChildExitCode_spec|]. intros [code p'] [-> Ht].
  cbn [kernel] in *. rewrite Hends, WEXITSTATUS_wait_status by done. fold b.
  destruct (b_end b); cbn in *; split_and!; (done || lia).
Qed.

(** C12. A command whose output is kept as it is: the call ends, and gives the output, the error
    text and the exit code of the child; it leaves the descriptors as they were.  With an
    empty input, the only one the program gives (rewrite_file.cpp:50), this is so when no
    system call is interrupted and none left EINTR in [errno] ([quiet]); otherwise the call may
    hang ([interrupted_command_hangs]).  With another input it is so whatever the interruptions,
    as long as the child does not close its input early: the SIGPIPE of a write to a pipe
    that nobody reads is not modelled. *)
Theorem ExecuteCommand_runs environ command extra_envs input p :
  is_Some (table p !! 0) → is_Some (table p !! 1) → is_Some (table p !! 2) →
  (∀ fd pipe, table p !! fd ≠ Some (Writer pipe)) →
  (input = "" → quiet p) →
  let b := program (command_exec environ command extra_envs (table p)) (kernel p) in
  valid_ending (b_end b) →
  settles (λ fuel, ExecuteCommand (λ _, TransparentOutStream_Write) fuel environ command
                     extra_envs input "" p)
    (λ '((code, out, err), p'),
       code = exit_code (b_end b) ∧ out = b_out b ∧ err = b_err b ∧ table p' = table p).
Proof.
  intros H0 H1 H2 Hnew Hq b Hb.
  eapply settles_mono;
    [apply (ExecuteCommand_spec (λ _, TransparentOutStream_Write) (λ t s, s = t)); try done|].
  - intros data t s ->. by apply settles_ret.
  - by intros [[[code out] err] p'] H.
Qed.
End theory.

(** Behind an interrupted call, writing nothing does not end. *)
Lemma WriteTo_nothing_stuck {K} {kern : Kernel K} fd (p : Proc K) fuel :
  errno p = EINTR → k_write fd "" (kernel p) = (inr 0, kernel p) →
  WriteTo fuel fd "" 0 p = Undef "endless loop".
Proof.
  intros He Hw. destruct p as [en t k]. cbn in He, Hw. subst en.
  induction fuel as [|fuel IH]; [done|]. cbn [WriteTo].
  change (ssize "" <? 0) with false. change (zdrop 0 "") with "". cbv iota.
  rewrite call_bind. cbn [kernel]. rewrite Hw. exact IH.
Qed.

(** * An instance *)

(** A kernel on which every program does the same.  It is interrupted some times, reports
    everything as ready, and moves a few bytes at a time. *)
Record Script := {
  sc_behaviour : Behaviour;
  sc_pipes : gmap Z string;
  sc_status : Z;
  sc_interrupts : nat
}.

Definition sc_left (k : Script) (fd : Z) : string := default "" (sc_pipes k !! fd).
Definition sc_text (b : Behaviour) (child : fds) (x : End) : string :=
  match x with
  | Reader pipe =>
    if decide (child !! 1 = Some (Writer pipe)) then b_out b
    else if decide (child !! 2 = Some (Writer pipe)) then b_err b else ""
  | _ => ""
  end.

#[export] Instance script_kernel : Kernel Script := {|
  k_spawn := λ x parent k,
    (42, {| sc_behaviour := sc_behaviour k;
            sc_pipes := sc_text (sc_behaviour k) (x_fds x) <$> parent;
            sc_status := wait_status (b_end (sc_behaviour k));
            sc_interrupts := sc_interrupts k |});
  k_poll := λ fds k,
    match sc_interrupts k with
    | O => (inr ((λ _, 1) <$> fds), k)
    | S n => (inl EINTR, {| sc_behaviour := sc_behaviour k; sc_pipes := sc_pipes k;
                            sc_status := sc_status k; sc_interrupts := n |})
    end;
  k_write := λ fd data k, (inr (Z.min 2 (ssize data)), k);
  k_read := λ fd size k,
    (inr (ztake (Z.min 5 size) (sc_left k fd)),
     {| sc_behaviour := sc_behaviour k;
        sc_pipes := <[fd := zdrop (Z.min 5 size) (sc_left k fd)]> (sc_pipes k);
        sc_status := sc_status k; sc_interrupts := sc_interrupts k |});
  k_close := λ fd k, (None, k);
  k_waitpid := λ pid k, (inr (sc_status k), k) |}.

#[export] Instance script_laws :
  KernelLaws Script (λ _ k, sc_behaviour k) sc_left (λ _ _, True) sc_interrupts
    (λ k _, sc_status k).
Proof.
  split.
  - intros x parent k. cbn. split_and!; [lia|done|]. intros fd pipe Hfd _. unfold sc_left. cbn.
    rewrite lookup_fmap, Hfd. cbn. split; intros H1 H2.
    + by rewrite decide_True.
    + by rewrite decide_False, decide_True.
  - intros l k Hl. cbn. destruct (sc_interrupts k) eqn:E; cbn;
      (split; [intros fd; split; [cbn; lia|done]|]).
    + split_and!; [by rewrite length_fmap| |done]. destruct l; [done|]. by left.
    + split; [done|lia].
  - intros fd size k _ Hs. cbn. split.
    + split_and!; [done..|]. intros fd' Hne. unfold sc_left. cbn. by rewrite lookup_insert_ne.
    + set (k' := Build_Script _ _ _ _).
      assert (Hl : sc_left k' fd = zdrop (Z.min 5 size) (sc_left k fd)).
      { unfold sc_left at 1, k'. cbn. by rewrite lookup_insert_eq. }
      rewrite Hl. pose proof (ztake_zdrop (Z.min 5 size) (sc_left k fd)) as Hz.
      destruct (ztake (Z.min 5 size) (sc_left k fd)) eqn:E; [|by symmetry].
      assert (Hn : sc_left k fd = "").
      { apply ssize_zero. pose proof (ssize_nonneg (sc_left k fd)).
        pose proof (ztake_size (Z.min 5 size) (sc_left k fd) ltac:(lia)) as Hsz.
        rewrite E in Hsz. change (ssize "") with 0 in Hsz. lia. }
      split; [done|]. by rewrite Hn, zdrop_nil.
  - intros fd data k. cbn. split; [by split_and!|]. pose proof (ssize_nonneg data).
    split; [lia|]. intros Hne. pose proof (ssize_pos data Hne). lia.
  - intros fd k. cbn. by split_and!.
  - intros pid k. done.
Qed.

Definition sample_proc (interrupts : nat) (x : Ending) : Proc Script := {|
  errno := ENOENT;
  table := list_to_map [(0, Other); (1, Other); (2, Other); (5, Other)];
  kernel := {| sc_behaviour := {| b_out := "int main() {}"; b_err := "warning"; b_end := x |};
               sc_pipes := ∅; sc_status := 0; sc_interrupts := interrupts |} |}.

Lemma no_writer (t : fds) : map_Forall (λ _ x, x = Other) t → ∀ fd n, t !! fd ≠ Some (Writer n).
Proof. intros H fd n E. by apply (H fd) in E. Qed.

Lemma ExecuteCommand_runs_witness :
  settles (λ fuel, ExecuteCommand (λ _, TransparentOutStream_Write) fuel ["PATH=/bin"]
                     {| program_ := "/bin/g++"; rargs_ := ["-E"; "a.cc"] |} [] "" ""
                     (sample_proc 0 (Exits 1)))
    (λ '((code, out, err), p'),
       code = 1 ∧ out = "int main() {}" ∧ err = "warning" ∧
       table p' = table (sample_proc 0 (Exits 1))).
Proof.
  apply (ExecuteCommand_runs (laws := script_laws) ["PATH=/bin"]
    {| program_ := "/bin/g++"; rargs_ := ["-E"; "a.cc"] |} [] "" (sample_proc 0 (Exits 1)));
    try (by eexists); try done.
  apply no_writer. by apply (bool_decide_unpack _); vm_compute.
Defined.

(** One interrupted [poll] is enough for a call with the empty input to hang. *)
Lemma interrupted_io_hangs pinfo fuel (p : Proc Script) :
  sc_interrupts (kernel p) = 1%nat →
  io_loop pinfo "" (λ _, TransparentOutStream_Write) (S (S fuel)) io_init "" p =
  Undef "endless loop".
Proof.
  destruct p as [en t [b pipes st i]]. intros E. cbn in E. subst i.
  cbn [io_loop]. unfold mbind, M_bind, call, get_errno. cbn -[WriteTo].
  rewrite decide_True by done. unfold mbind, M_bind. cbn -[WriteTo].
  rewrite (Z.eqb_refl (stdin_writer pinfo)). unfold on_stdin, mbind, M_bind. cbv iota beta.
  change (stdin_bytes io_init) with 0. by rewrite WriteTo_nothing_stuck.
Qed.

Lemma interrupted_command_hangs fuel :
  ExecuteCommand (λ _, TransparentOutStream_Write) fuel ["PATH=/bin"]
    {| program_ := "/bin/g++"; rargs_ := ["-E"; "a.cc"] |} [] "" "" (sample_proc 1 (Exits 1)) =
  Undef "endless loop".
Proof.
  destruct fuel as [|[|fuel]]; [vm_compute; reflexivity..|].
  unfold ExecuteCommand, mbind, M_bind.
  destruct (StartProgram _ _ _ _) as [[pinfo p1]|?|?|?] eqn:E;
    [|exfalso; revert E; vm_compute; discriminate..].
  assert (X : sc_interrupts (kernel p1) = 1%nat) by (revert E; vm_compute; by intros [= <- <-]).
  cbv beta iota zeta delta [outcome_bind]. unfold HandleProgramIO, mbind, M_bind.
  by rewrite (interrupted_io_hangs pinfo fuel p1 X).
Qed.

Lemma CompileOnNative_spec_witness :
  settles (λ fuel, CompileOnNative fuel ["PATH=/bin"] "g++" ["-c"; "a.cc"]
                     (sample_proc 0 (Killed 9)))
    (λ '(code, p'), 0 ≤ code < 256 ∧ table p' = table (sample_proc 0 (Killed 9)) ∧ code = 0).
Proof.
  by apply (CompileOnNative_spec (laws := script_laws) ["PATH=/bin"] "g++" ["-c"; "a.cc"]
    (sample_proc 0 (Killed 9))).
Defined.
