(* ===== verification/Preprocess.v ===== *)
(** The preprocessor run of the client over real processes and streams: the function
    [TryRewriteFileWithCommandLine] of src/distribuild/client/cxx/rewrite_file.cpp, composed
    of ChildProcess and OutStream.  [TryRewrite_refines] relates it to the definition of Client,
    which takes the answer of a command from an oracle. *)
From S2P Require Import Prelude Text ClientArgs Client OutStream ChildProcess ChildProcessFacts.

Section preprocess.
Context {Ctx St K : Type} `{Zstd Ctx} `{Hasher St} `{Kernel K}.

Definition run {A} (m : outcome A) : M K A := λ p, a ← m; Ret (a, p).

(** The streams of the array: the compressor, and the hasher if results may be cached. *)
Definition output_streams (cache_cntl : CacheControl) : list (AnyStream Ctx St) :=
  A_zstd ZstdOutStream_make ::
  (if decide (cache_cntl = Disallow) then [] else [A_blake3 Blake3OutStream_make]).

(** The error output of a failed command is logged. *)
Definition TryRewriteFileWithCommandLine (fuel : nat) (environ : list string)
    (cmdline : RewrittenArgs) (cache_cntl : CacheControl)
    : M K (option (string * CacheControl * string)) :=
  '(exit_code, streams, error) ←
    ExecuteCommand Forward_Write fuel environ cmdline [] "" (output_streams cache_cntl);
  if exit_code =? 0 then
    match streams with
    | A_zstd zstd_os :: cache_os =>
      cache_key ← run (match cache_os with
                       | A_blake3 b :: _ => Blake3_GetResult (Finalize b)
                       | _ => Ret ""
                       end);
      '(result, _) ← run (Zstd_GetResult fuel zstd_os);
      mret (Some (result, cache_cntl, cache_key))
    | _ => undefined "not the streams of the array"
    end
  else mret None.
End preprocess.

Section theory.
Context {Ctx St K : Type} {zstd : Zstd Ctx} {hasher : Hasher St} {kern : Kernel K}.
Context {ZSTDDecompress : string → option string} {z_in z_out : Ctx → string}.
Context {z_todo : Ctx → nat} {zlaws : ZstdLaws Ctx ZSTDDecompress z_in z_out z_todo}.
Context {blake3 : string → string} {hlaws : HasherLaws St blake3}.
Context {program : Exec → K → Behaviour} {left : K → Z → string} {ready : K → Z → Prop}.
Context {interrupts : K → nat} {ends : K → Z → Z}.
Context {klaws : KernelLaws K program left ready interrupts ends}.

Lemma run_Ret {A} (m : outcome A) a (p : Proc K) : m = Ret a → run m p = Ret (a, p).
Proof. by intros ->. Qed.

Lemma settles_run {A} (m : nat → outcome A) (Q : A → Prop) (p : Proc K) :
  settles m Q → settles (λ fuel, run (m fuel) p) (λ '(a, p'), Q a ∧ p' = p).
Proof.
  intros (a & n & Ha & R). exists (a, p), n. split; [done|]. intros fuel Hf.
  by apply run_Ret, R.
Qed.

Lemma hashes_digest t (b : Blake3OutStream St) :
  hashes t b → Blake3_GetResult (Finalize b) = Ret (EncodeHex (blake3 t) false).
Proof.
  intros (pieces & -> & E). unfold Blake3_GetResult, Finalize. cbn.
  by rewrite E, (hasher_digest (blake3 := blake3)), append_hex_spec.
Qed.

(** The streams hold what was written. *)
Definition outputs (cntl : CacheControl) (t : string) (streams : list (AnyStream Ctx St)) : Prop :=
  ∃ z rest, streams = A_zstd z :: rest ∧ holds (z_in := z_in) (z_out := z_out) t z ∧
    if decide (cntl = Disallow) then rest = [] else ∃ b, rest = [A_blake3 b] ∧ hashes t b.

Lemma outputs_sink cntl : sink Forward_Write (outputs cntl).
Proof.
  intros data t l (z & rest & -> & Hz & Hrest). cbn [Forward_Write].
  eapply (settles_bind _ (λ fuel s, _) (λ s, ∃ z, s = A_zstd z ∧ holds (t +:+ data) z)).
  { cbn [Any_Write]. eapply settles_bind; [by apply zstd_sink|]. intros z' Hz'.
    apply settles_ret. eauto. }
  intros s (z' & -> & Hz'). unfold outputs. destruct (decide (cntl = Disallow)).
  - subst rest. cbn. apply settles_ret. by exists z', [].
  - destruct Hrest as (b & -> & Hb). cbn. apply settles_ret. do 2 eexists. split; [done|].
    split; [done|]. eexists. split; [done|]. by apply hashes_write.
Qed.

Lemma outputs_init cntl : outputs cntl "" (output_streams cntl).
Proof.
  unfold outputs, output_streams. do 2 eexists. split; [done|]. split; [apply make_holds|].
  destruct (decide (cntl = Disallow)); [done|]. eexists. split; [done|]. by exists [].
Qed.

Lemma client_TryRewrite ZSTDCompress cmdline cntl o l code output :
  o_command o (length l) cmdline = (code, output) →
  Client.TryRewriteFileWithCommandLine blake3 ZSTDCompress cmdline cntl o l =
  (Finished (if code =? 0 then Some (ZSTDCompress output, cntl,
     if decide (cntl = Disallow) then "" else EncodeHex (blake3 output) false) else None),
   l ++ [E_command cmdline]).
Proof.
  intros E. unfold Client.TryRewriteFileWithCommandLine, command, mbind, C_bind. by rewrite E.
Qed.

(** C11. With the preprocessor as a real process, its output in pieces and the two streams behind
    one pipe, the client gets what the definition of Client says of the whole output: the
    digest, and a text that decompresses to the output.  The call ends, and leaves no
    descriptor open. *)
Theorem TryRewrite_refines environ cmdline cntl (p : Proc K) :
  is_Some (table p !! 0) → is_Some (table p !! 1) → is_Some (table p !! 2) →
  (∀ fd pipe, table p !! fd ≠ Some (Writer pipe)) →
  quiet (interrupts := interrupts) p →
  let b := program (command_exec environ cmdline [] (table p)) (kernel p) in
  valid_ending (b_end b) →
  settles (λ fuel, TryRewriteFileWithCommandLine (Ctx := Ctx) (St := St) fuel environ cmdline cntl p)
    (λ '(r, p'), table p' = table p ∧
       ∃ ZSTDCompress, (r ≠ None → ZSTDDecompress (ZSTDCompress (b_out b)) = Some (b_out b)) ∧
         ∀ o l, o_command o (length l) cmdline = (exit_code (b_end b), b_out b) →
           Client.TryRewriteFileWithCommandLine blake3 ZSTDCompress cmdline cntl o l =
           (Finished r, l ++ [E_command cmdline])).
Proof.
  intros H0 H1 H2 Hnew Hq b Hb. unfold TryRewriteFileWithCommandLine.
  eapply (settles_Mbind (λ fuel, _) (λ fuel '(_, _), _) p);
    [by apply (ExecuteCommand_spec Forward_Write (outputs cntl) environ cmdline [] "");
       [apply outputs_sink|apply outputs_init|..]|].
  intros [[code streams] error] p' (-> & (z & rest & -> & Hz & Hrest) & _ & Ht). fold b in Hz, Hrest |- *.
  destruct (Z.eqb_spec (exit_code (b_end b)) 0) as [Hcode|Hcode].
  - eapply (settles_Mbind (λ _, run _) (λ fuel key, _) p' (λ '(key, p2), p2 = p' ∧
      key = if decide (cntl = Disallow) then "" else EncodeHex (blake3 (b_out b)) false)).
    { apply (settles_mono _ (λ '(key, p2), key = (if decide (cntl = Disallow) then ""
        else EncodeHex (blake3 (b_out b)) false) ∧ p2 = p')); [|by intros [? ?] [? ?]].
      apply (settles_run (λ _, _)). destruct (decide (cntl = Disallow)).
      - subst rest. by apply settles_ret.
      - destruct Hrest as (h & -> & Hh). rewrite (hashes_digest _ _ Hh). by apply settles_ret. }
    intros key p2 [-> ->].
    eapply (settles_Mbind (λ fuel, _) (λ fuel '(_, _), _) p');
      [apply settles_run, (GetResult_spec (b_out b)), Hz|].
    intros [result z'] p2 [Hr ->]. apply settles_ret. split; [done|].
    exists (λ _, result). split; [done|]. intros o l E.
    by rewrite (client_TryRewrite _ _ _ _ _ _ _ E), Hcode.
  - apply settles_ret. split; [done|]. exists id. split; [done|]. intros o l E.
    rewrite (client_TryRewrite _ _ _ _ _ _ _ E). by rewrite (proj2 (Z.eqb_neq _ _) Hcode).
Qed.
End theory.

Lemma TryRewrite_refines_witness :
  let p := sample_proc 0 (Exits 0) in
  settles (λ fuel, TryRewriteFileWithCommandLine (Ctx := StoreCtx) (St := string) fuel [] 
             {| program_ := "/bin/g++"; rargs_ := ["-E"; "a.cc"] |} Allow p)
    (λ '(r, p'), table p' = table p ∧
       ∃ ZSTDCompress, (r ≠ None → Some (ZSTDCompress "int main() {}") = Some "int main() {}") ∧
         ∀ o l, o_command o (length l) {| program_ := "/bin/g++"; rargs_ := ["-E"; "a.cc"] |} =
                  (0, "int main() {}") →
           Client.TryRewriteFileWithCommandLine
             (λ s, stake 32 (s +:+ "________________________________")) ZSTDCompress
             {| program_ := "/bin/g++"; rargs_ := ["-E"; "a.cc"] |} Allow o l =
           (Finished r, l ++ [E_command {| program_ := "/bin/g++"; rargs_ := ["-E"; "a.cc"] |}])).
Proof.
  apply (TryRewrite_refines (klaws := script_laws) (zlaws := store_laws)
    (hlaws := string_hasher_laws) [] {| program_ := "/bin/g++"; rargs_ := ["-E"; "a.cc"] |} Allow
    (sample_proc 0 (Exits 0))); try (by eexists); try done.
  apply no_writer. by apply (bool_decide_unpack _); vm_compute.
Defined.
