(* ===== verification/CompilerProcess.v ===== *)
(** The compiler's process and its files on the servant: src/distribuild/daemon/cloud/excute.cpp
    and temp_file.{h,cpp}, over the descriptors and the kernel of ChildProcess.

    A failed check only logs. *)
From S2P Require Import Prelude Text FileSystem ChildProcess.

(** * excute.cpp *)

Definition close_all (l : list Z) (t : fds) : fds := foldl (λ t fd, delete fd t) t l.

(** The descriptors of the child: its files on the three standard ones, and everything up to
    9998 closed. *)
Definition child_fds (stdin_fd stdout_fd stderr_fd : Z) (t : fds) : fds :=
  let t := dup2 stderr_fd 2 (dup2 stdout_fd 1 (dup2 stdin_fd 0 t)) in
  close_all (seqZ 3 9996) (close_all [stdin_fd; stdout_fd; stderr_fd] t).

(** What the child becomes; its descriptors, nice value, process group and working directory
    are set between [fork] and [execve]. *)
Record CompilerExec := {
  ce_exec : Exec;
  ce_nice : Z;
  ce_own_group : bool;
  ce_directory : string
}.

Definition compiler_exec (environ : list string) (cmd : string) (nice_level : Z)
    (stdin_fd stdout_fd stderr_fd : Z) (in_group : bool) (t : fds) : CompilerExec := {|
  ce_exec := {| x_program := "/bin/sh"; x_argv := ["sh"; "-c"; cmd]; x_envs := environ;
                x_search := false; x_fds := child_fds stdin_fd stdout_fd stderr_fd t |};
  ce_nice := nice_level; ce_own_group := in_group; ce_directory := "/" |}.

Section calls.
Context {K : Type} `{Kernel K}.

(** The pid, -1 when [fork] failed; [spawn] is [fork] with what the child does. *)
Definition StartProgram (spawn : CompilerExec → fds → K → Z * K) (environ : list string)
    (cmd : string) (nice_level stdin_fd stdout_fd stderr_fd : Z) (in_group : bool) : M K Z := λ p,
  let '(pid, k) := spawn (compiler_exec environ cmd nice_level stdin_fd stdout_fd stderr_fd
                            in_group (table p)) (table p) (kernel p) in
  Ret (pid, {| errno := errno p; table := table p; kernel := k |}).

(** * temp_file.cpp *)

(** A file that was not opened has a descriptor without a value. *)
Record TempFile := { fd_ : option Z; file_path_ : string }.
Definition TempFile_default : TempFile := {| fd_ := None; file_path_ := "" |}.

(** [mkostemps] gives a descriptor or -1, [readlink] at most 256 bytes or an error; assigning
    -1 bytes throws. *)
Definition TempFile_make (mkostemps : string → Z) (readlink : string → option string)
    (temp_dir : string) (now : Z) : outcome TempFile :=
  let filename := temp_dir +:+ "/distribuild_" +:+ to_string now +:+ "_XXXXXX" in
  let fd := mkostemps (ztake 255 filename) in
  match readlink ("/proc/self/fd/" +:+
                  (if fd <? 0 then "-" +:+ to_string (- fd) else to_string fd)) with
  | Some path => Ret {| fd_ := Some fd; file_path_ := ztake 256 path |}
  | None => Throw "std::length_error"
  end.

(** One call of [write], however much it takes. *)
Definition TempFile_Write (fuel : nat) (data : string) (f : TempFile) : M K () :=
  match fd_ f with
  | None => undefined "read of an uninitialised descriptor"
  | Some fd => _ ← WriteTo fuel fd data 0; mret ()
  end.

(** The file is read by its path; one that cannot be opened has no size to read ([tellg] is
    -1). *)
Definition TempFile_ReadAll (content : string → option string) (f : TempFile) : outcome string :=
  match content (file_path_ f) with
  | Some s => Ret s
  | None => Throw "std::length_error"
  end.

(** Descriptor 0 counts as none. *)
Definition TempFile_Close (f : TempFile) : M K TempFile :=
  match fd_ f with
  | None => undefined "read of an uninitialised descriptor"
  | Some fd =>
    _ ← (if fd =? 0 then mret () else close fd);
    mret {| fd_ := Some 0; file_path_ := "" |}
  end.
End calls.

(** * Theory *)

Lemma lookup_close_all l t i :
  close_all l t !! i = if decide (i ∈ l) then None else t !! i.
Proof. apply lookup_foldl_delete. Qed.

(** The compiler has its three files and nothing else of the servant: no socket, no file of
    another task. *)
Theorem child_fds_spec stdin_fd stdout_fd stderr_fd t i o e :
  2 < stdin_fd → 2 < stdout_fd → 2 < stderr_fd →
  t !! stdin_fd = Some i → t !! stdout_fd = Some o → t !! stderr_fd = Some e →
  (∀ fd, is_Some (t !! fd) → 0 ≤ fd < 9999) →
  child_fds stdin_fd stdout_fd stderr_fd t = <[0 := i]> (<[1 := o]> (<[2 := e]> ∅)).
Proof.
  intros Hi3 Ho3 He3 Hi Ho He Hrange. unfold child_fds.
  remember (seqZ 3 9996) as others eqn:Hothers.
  rewrite (dup2_Some stdin_fd 0 _ i) by done.
  rewrite (dup2_Some stdout_fd 1 _ o) by (by rewrite !lookup_insert_ne by lia).
  rewrite (dup2_Some stderr_fd 2 _ e) by (by rewrite !lookup_insert_ne by lia).
  apply map_eq. intros x. rewrite !lookup_close_all.
  destruct (decide (x ∈ others)) as [Hx|Hx]; subst others; rewrite elem_of_seqZ in Hx.
  - by rewrite !lookup_insert_ne by lia.
  - rewrite decide_False by (rewrite !elem_of_cons, elem_of_nil;
      intros [->|[->|[->|[]]]]; apply Hx; split; try lia;
      [destruct (Hrange stdin_fd)|destruct (Hrange stdout_fd)|destruct (Hrange stderr_fd)]; eauto; lia).
    destruct (decide (x = 0)) as [->|]; [by look|].
    destruct (decide (x = 1)) as [->|]; [by look|].
    destruct (decide (x = 2)) as [->|]; [by look|]. rewrite !lookup_insert_ne by done.
    rewrite lookup_empty. apply eq_None_not_Some. intros Hs%Hrange. lia.
Qed.

Lemma child_fds_spec_witness :
  child_fds 6 7 8 (list_to_map [(0, Other); (3, Writer 9); (6, Reader 0); (7, Writer 1); (8, Writer 2)])
  = <[0 := Reader 0]> (<[1 := Writer 1]> (<[2 := Writer 2]> ∅)).
Proof.
  apply child_fds_spec; [lia..|done|done|done|]. intros fd [x Hx].
  apply elem_of_map_to_list in Hx. vm_compute in Hx.
  repeat (apply elem_of_cons in Hx as [Hx|Hx]; [injection Hx as; lia|]).
  by apply not_elem_of_nil in Hx.
Defined.

(** Without a descriptor there is no path either. *)
Lemma TempFile_make_fails readlink temp_dir now :
  readlink "/proc/self/fd/-1" = None →
  TempFile_make (λ _, -1) readlink temp_dir now = Throw "std::length_error".
Proof. intros H. unfold TempFile_make. change (_ +:+ (if -1 <? 0 then _ else _)) with "/proc/self/fd/-1". by rewrite H. Qed.

(** A file in a long directory has no template: the name is cut before its six places. *)
Lemma TempFile_name_cut temp_dir now :
  255 ≤ ssize temp_dir →
  ∃ rest, temp_dir = ztake 255 (temp_dir +:+ "/distribuild_" +:+ to_string now +:+ "_XXXXXX") +:+ rest.
Proof.
  intros H. exists (zdrop 255 temp_dir).
  assert (C : ∀ a r, ssize a = 255 → ztake 255 (a +:+ r) = a) by (intros a r <-; apply ztake_app).
  rewrite <- (ztake_zdrop 255 temp_dir) at 2. rewrite sapp_assoc, C, ztake_zdrop; [done|].
  rewrite ztake_size; lia.
Qed.
