(* ===== verification/HttpCall.v ===== *)
(** The calls of the client to the daemon of its machine:
    src/distribuild/client/common/daemon_call.cpp, with the requests its callers build.

    [session] is Poco's HTTP client and the daemon behind it: what comes back, [None] for an
    exception.  The JSON writers are parameters. *)
From S2P Require Import Prelude Text Proto MultiChunk DistTask HttpService ClientArgs Client.

(** A POST request as it is sent; the time out is in seconds. *)
Record Wire := {
  w_uri : string;
  w_content_type : string;
  w_content_length : Z;
  w_body : string;
  w_timeout : Z
}.

(** The loop that sums up the sizes, on 64 bits. *)
Definition content_length (chunks : list string) : Z :=
  foldl (λ n chunk, u64 (n + ssize chunk)) 0 chunks.

Definition chunk_wire (api : string) (chunks : list string) (timeout_seconds : Z) : Wire := {|
  w_uri := api; w_content_type := "application/distribuild-multi-chunk";
  w_content_length := content_length chunks; w_body := sconcat chunks;
  w_timeout := timeout_seconds |}.

Definition json_wire (api body_string : string) (timeout_seconds : Z) : Wire := {|
  w_uri := api; w_content_type := "application/application/json";
  w_content_length := ssize body_string; w_body := body_string; w_timeout := timeout_seconds |}.

Section calls.
Context (session : Wire → option HttpReply).

Definition DaemonHttpCall_chunks (api : string) (chunks : list string) (timeout_seconds : Z)
    : option HttpReply := session (chunk_wire api chunks timeout_seconds).
Definition DaemonHttpCall (api body_string : string) (timeout_seconds : Z) : option HttpReply :=
  session (json_wire api body_string timeout_seconds).
End calls.

Section requests.
Context (json_of_acquire : Z → bool → Z → string) (json_of_release : Z → string).
Context (json_of_digest : FileDesc → string → string) (json_of_wait : Z → Z → string).

(** What the callers send. *)
Definition wire_of (r : HttpRequest) : Wire :=
  match r with
  | acquire_quota ms light pid => json_wire "/local/acquire_quota" (json_of_acquire ms light pid) 5
  | release_quota pid => json_wire "/local/release_quota" (json_of_release pid) 5
  | submit_cxx_task chunks => chunk_wire "/local/submit_cxx_task" chunks 5
  | set_file_digest desc digest => json_wire "/local/set_file_digest" (json_of_digest desc digest) 1
  | wait_for_cxx_task id ms => json_wire "/local/wait_for_cxx_task" (json_of_wait id ms) 15
  end.

Definition handler_of (r : HttpRequest) : Handler :=
  match r with
  | acquire_quota _ _ _ => H_AcquireQuota
  | release_quota _ => H_ReleaseQuota
  | submit_cxx_task _ => H_SubmitCxxTask
  | set_file_digest _ _ => H_SetFileDigest
  | wait_for_cxx_task _ _ => H_WaitForTask
  end.

Lemma content_length_from chunks n :
  is_u64 n → foldl (λ n chunk, u64 (n + ssize chunk)) n chunks = u64 (n + ssize (sconcat chunks)).
Proof.
  revert n; induction chunks as [|c chunks IH]; intros n Hn; cbn [foldl sconcat].
  - change (ssize "") with 0. by rewrite Z.add_0_r, u64_id.
  - rewrite IH, ssize_app by apply u64_range. unfold u64.
    rewrite Z.add_mod_idemp_l by done. f_equal. lia.
Qed.

Lemma content_length_spec chunks : content_length chunks = u64 (ssize (sconcat chunks)).
Proof. unfold content_length. by rewrite content_length_from. Qed.

(** Every request of the client reaches the handler it is meant for, with the length of its
    body; and the daemon takes a submission apart into what the client put together: the
    JSON of the request and the compressed source. *)
Theorem client_requests_arrive json_of_submit env args rewritten cmdline :
  let json := json_of_submit (submit_request env args rewritten cmdline) in
  let source := zstd_rewritten rewritten in
  json ≠ "" → source ≠ "" → ssize json + ssize source < LONG_MAX →
  (∀ r, ssize (w_body (wire_of r)) < 2 ^ 64 →
     route POST (w_uri (wire_of r)) = Some (handler_of r) ∧
     w_content_length (wire_of r) = ssize (w_body (wire_of r))) ∧
  TryParseMultiChunk
    (w_body (wire_of (submit_cxx_task (submit_chunks json_of_submit env args rewritten cmdline)))) =
  Ret (Some [json; source]).
Proof.
  intros json source Hj Hs Hsize. split.
  - intros r Hlt. split; [by destruct r|]. destruct r; try done. cbn in *.
    rewrite content_length_spec. apply u64_id. split; [apply ssize_nonneg|done].
  - apply (MakeMultiChunkHeaderLine_roundtrip [json; source]); [by repeat constructor|].
    cbn. lia.
Qed.
End requests.

Lemma client_requests_arrive_witness :
  let env := {| pid := 7; control := Allow; mtime_size := (1, 2); compiler_content := None |} in
  let args := {| compiler_ := "/usr/bin/g++"; args_ := []; filenames_ := ["a.cc"];
                 rebuilt_arg_ := "" |} in
  let rewritten := {| directives_only := true; cache_control := Allow; language := "c++";
                      source_path := "a.cc"; zstd_rewritten := "(zstd)"; source_digest := "ab" |} in
  TryParseMultiChunk (w_body (wire_of (λ _ _ _, "") (λ _, "") (λ _ _, "") (λ _ _, "")
    (submit_cxx_task (submit_chunks (λ _, "{}") env args rewritten "-c -")))) =
  Ret (Some ["{}"; "(zstd)"]).
Proof.
  intros env args rewritten.
  exact (proj2 (client_requests_arrive (λ _ _ _, "") (λ _, "") (λ _ _, "") (λ _ _, "") (λ _, "{}")
    env args rewritten "-c -" ltac:(done) ltac:(done) eq_refl)).
Defined.
