(* ===== verification/Crypto.v ===== *)
(** The wrappers of zstd and blake3: src/distribuild/common/crypto/zstd.h and blake3.h.

    [Unzstd] is zstd's one-shot compressor and its decompressing stream, [UnzstdLaws] what its
    documentation promises; the hasher is that of OutStream.  The loops take fuel: without
    fuel they are [Undef], and [ZSTDDecompress_settles] says that some amount is enough. *)
From S2P Require Import Prelude Text OutStream.

(** What a call of [ZSTD_decompressStream] does; [None] is an error. *)
Record DStep (Ctx : Type) := {
  ds_ctx : Ctx;
  ds_consumed : Z;
  ds_produced : string;
  ds_result : Z
}.
Arguments ds_ctx {Ctx} _.
Arguments ds_consumed {Ctx} _.
Arguments ds_produced {Ctx} _.
Arguments ds_result {Ctx} _.

Class Unzstd (Ctx : Type) := {
  ZSTD_createDCtx : Ctx;
  ZSTD_DStreamOutSize : Z;
  ZSTD_decompressStream : Ctx → Z → string → option (DStep Ctx);
  ZSTD_compress : string → option string
}.

(** [feeds c input text]: the context, given [input], gives [text] and has then ended its
    frame; [d_todo] bounds what it can still give without taking more. *)
Class UnzstdLaws (Ctx : Type) `{Unzstd Ctx} (feeds : Ctx → string → string → Prop)
    (d_todo : Ctx → nat) : Prop := {
  unzstd_room : 0 < ZSTD_DStreamOutSize;
  unzstd_compress s frame : ZSTD_compress s = Some frame → feeds ZSTD_createDCtx frame s;
  unzstd_nothing text : feeds ZSTD_createDCtx "" text → text = "";
  unzstd_step c input text :
    feeds c input text →
    ∃ st rest, ZSTD_decompressStream c ZSTD_DStreamOutSize input = Some st ∧
      0 ≤ ds_consumed st ≤ ssize input ∧ text = ds_produced st +:+ rest ∧
      feeds (ds_ctx st) (zdrop (ds_consumed st) input) rest ∧
      (ds_consumed st = 0 → ds_result st ≠ 0 ∨ input ≠ "" → (d_todo (ds_ctx st) < d_todo c)%nat) ∧
      (ds_result st = 0 → zdrop (ds_consumed st) input = "" → rest = "")
}.

Section zstd.
Context {Ctx : Type} `{Unzstd Ctx}.

(** The buffer has [ZSTD_compressBound] bytes, which is always enough. *)
Definition ZSTDCompress (from : string) : option string := ZSTD_compress from.

(** The loop over the input; the last result of the stream. *)
Fixpoint decompress_input (fuel : nat) (input decompressed : string) (result : Z) (ctx : Ctx)
    : outcome (option (string * Z * Ctx)) :=
  if String.eqb input "" then Ret (Some (decompressed, result, ctx))
  else
    match fuel with
    | O => Undef "endless loop"
    | S fuel =>
      match ZSTD_decompressStream ctx ZSTD_DStreamOutSize input with
      | None => Ret None
      | Some st =>
        decompress_input fuel (zdrop (ds_consumed st) input)
          (decompressed +:+ ds_produced st) (ds_result st) (ds_ctx st)
      end
    end.

(** The loop that empties the stream. *)
Fixpoint decompress_rest (fuel : nat) (decompressed : string) (result : Z) (ctx : Ctx)
    : outcome (option string) :=
  if result =? 0 then Ret (Some decompressed)
  else
    match fuel with
    | O => Undef "endless loop"
    | S fuel =>
      match ZSTD_decompressStream ctx ZSTD_DStreamOutSize "" with
      | None => Ret None
      | Some st =>
        decompress_rest fuel (decompressed +:+ ds_produced st) (ds_result st) (ds_ctx st)
      end
    end.

Definition ZSTDDecompress (fuel : nat) (from : string) : outcome (option string) :=
  r ← decompress_input fuel from "" 0 ZSTD_createDCtx;
  match r with
  | None => Ret None
  | Some (decompressed, result, ctx) => decompress_rest fuel decompressed result ctx
  end.
End zstd.

Section blake3.
Context {St : Type} `{Hasher St}.

Definition Blake3Impl (cb : St → St) : string := blake3_hasher_finalize (cb blake3_hasher_init).
Definition Blake3_parts (data : list string) : string :=
  Blake3Impl (λ state, foldl (λ s e, blake3_hasher_update e s) state data).
Definition Blake3 (data : string) : string := Blake3Impl (blake3_hasher_update data).
End blake3.

(** * Theory *)

Section zstd_theory.
Context {Ctx : Type} {unzstd : Unzstd Ctx} {feeds : Ctx → string → string → Prop}.
Context {d_todo : Ctx → nat} {laws : UnzstdLaws Ctx feeds d_todo}.

(** Behind the first loop: the stream has its input, and [rest] is still to come. *)
Definition emptying (text : string) (r : option (string * Z * Ctx)) : Prop :=
  ∃ decompressed result ctx rest, r = Some (decompressed, result, ctx) ∧
    text = decompressed +:+ rest ∧ feeds ctx "" rest ∧ (result = 0 → rest = "").

Lemma decompress_input_settles input decompressed result ctx text :
  feeds ctx input text → (input = "" → result = 0 → text = "") →
  settles (λ fuel, decompress_input fuel input decompressed result ctx)
    (emptying (decompressed +:+ text)).
Proof.
  remember (String.length input) as len eqn:Hlen. revert input Hlen decompressed result ctx text.
  induction len as [len IHlen] using (well_founded_induction lt_wf).
  intros input Hlen decompressed result ctx. remember (d_todo ctx) as todo eqn:Ht.
  revert ctx Ht decompressed result.
  induction todo as [todo IHtodo] using (well_founded_induction lt_wf).
  intros ctx Ht decompressed result text Hf Hdone. apply settles_S. cbn [decompress_input].
  destruct (String.eqb_spec input "") as [->|Hne].
  { apply settles_ret. do 4 eexists. split; [done|]. split; [done|]. split; [done|]. auto. }
  destruct (unzstd_step ctx input text Hf) as (st & rest & E & Hc & -> & Hf' & Hp & Hr).
  rewrite E, <- sapp_assoc. destruct (decide (ds_consumed st = 0)) as [H0|H0].
  - assert (Hd : zdrop (ds_consumed st) input = input).
    { rewrite H0. unfold zdrop. pose proof (ssize_pos input Hne).
      by destruct (Z.leb_spec (ssize input) 0); [lia|]. }
    rewrite Hd in *. eapply IHtodo; [|done|done|done]. subst todo. auto.
  - pose proof (ssize_pos input Hne). pose proof (zdrop_size (ds_consumed st) input).
    eapply IHlen; [|done|done|auto]. subst len. unfold ssize in *. lia.
Qed.

Lemma decompress_rest_settles decompressed result ctx text :
  feeds ctx "" text → (result = 0 → text = "") →
  settles (λ fuel, decompress_rest fuel decompressed result ctx)
    (λ r, r = Some (decompressed +:+ text)).
Proof.
  remember (d_todo ctx) as todo eqn:Ht. revert ctx Ht decompressed result text.
  induction todo as [todo IH] using (well_founded_induction lt_wf).
  intros ctx Ht decompressed result text Hf Hdone. apply settles_S. cbn [decompress_rest].
  destruct (Z.eqb_spec result 0) as [H0|H0].
  { apply settles_ret. by rewrite Hdone, sapp_nil_r. }
  destruct (unzstd_step ctx "" text Hf) as (st & rest & E & Hc & -> & Hf' & Hp & Hr).
  rewrite E, <- sapp_assoc, zdrop_nil in *.
  assert (Hc0 : ds_consumed st = 0) by (change (ssize "") with 0 in Hc; lia).
  destruct (decide (ds_result st = 0)) as [Hz|Hz].
  - apply settles_S. cbn [decompress_rest]. rewrite (proj2 (Z.eqb_eq _ _) Hz).
    apply settles_ret. by rewrite Hr, sapp_nil_r.
  - eapply IH; [|done|done|done]. subst todo. auto.
Qed.

Lemma ZSTDDecompress_settles from text :
  feeds ZSTD_createDCtx from text →
  settles (λ fuel, ZSTDDecompress fuel from) (λ r, r = Some text).
Proof.
  intros Hf. unfold ZSTDDecompress. eapply settles_bind.
  - apply (decompress_input_settles from "" 0 _ text Hf). intros -> _. by apply unzstd_nothing.
  - intros r (decompressed & result & ctx & rest & -> & E & Hf' & Hr). cbn in E. subst text.
    by apply decompress_rest_settles.
Qed.

(** C30. What the sources compress with one call they read back in pieces of the size the stream
    likes: the loops end, and give the text. *)
Theorem ZSTDDecompress_ZSTDCompress s frame :
  ZSTDCompress s = Some frame → settles (λ fuel, ZSTDDecompress fuel frame) (λ r, r = Some s).
Proof. intros E. by apply ZSTDDecompress_settles, unzstd_compress. Qed.
End zstd_theory.

(** The digest of several pieces is that of the whole. *)
Theorem Blake3_parts_whole {St} {hasher : Hasher St} {blake3 : string → string}
    {laws : HasherLaws St blake3} data :
  Blake3_parts data = blake3 (sconcat data) ∧ Blake3_parts data = Blake3 (sconcat data).
Proof.
  unfold Blake3_parts, Blake3, Blake3Impl. pose proof (hasher_digest (blake3 := blake3)) as D.
  pose proof (D [sconcat data]) as D1. cbn in D1. by rewrite D, D1, sapp_nil_r.
Qed.

(** * An instance *)

(** A decompressor for what is stored behind a mark. *)
#[export] Instance store_unzstd : Unzstd bool := {|
  ZSTD_createDCtx := false;
  ZSTD_DStreamOutSize := 4;
  ZSTD_decompressStream := λ started room input,
    match started, input with
    | _, "" => Some {| ds_ctx := started; ds_consumed := 0; ds_produced := ""; ds_result := 0 |}
    | false, String "Z" _ =>
      Some {| ds_ctx := true; ds_consumed := 1; ds_produced := ""; ds_result := 1 |}
    | false, _ => None
    | true, _ => Some {| ds_ctx := true; ds_consumed := Z.min room (ssize input);
                         ds_produced := ztake room input; ds_result := 0 |}
    end;
  ZSTD_compress := λ s, Some (String "Z" s) |}.

Definition store_feeds (started : bool) (input text : string) : Prop :=
  if started then text = input else input = String "Z" text ∨ input = "" ∧ text = "".

#[export] Instance store_unzstd_laws : UnzstdLaws bool store_feeds (λ _, O).
Proof.
  split; [done|..].
  - intros s frame [= <-]. by left.
  - intros text [?|[_ ?]]; done.
  - intros [] input text; cbn.
    + intros ->. destruct input as [|c s].
      { eexists _, "". split; [done|]. cbn. split_and!; try done. by intros _ [?|?]. }
      set (input := String c s). assert (Hpos : 0 < ssize input) by by apply ssize_pos.
      do 2 eexists. split; [done|]. cbn. split; [lia|].
      assert (Hd : zdrop (4 `min` ssize input) input = zdrop 4 input).
      { unfold zdrop. destruct (Z.leb_spec (ssize input) (4 `min` ssize input)),
          (Z.leb_spec (ssize input) 4); try done; try lia. by rewrite Z.min_l by lia. }
      rewrite Hd. split; [symmetry; apply ztake_zdrop|]. split; [done|]. split; [lia|done].
    + intros [->|[-> ->]].
      * do 2 eexists. split; [done|]. cbn.
        assert (Hd : zdrop 1 (String "Z" text) = text).
        { apply (zdrop_app "Z" text). }
        rewrite Hd. pose proof (ssize_nonneg text).
        assert (ssize (String "Z" text) = 1 + ssize text) by apply (ssize_app "Z").
        split_and!; try done; lia.
      * eexists _, "". split; [done|]. cbn. split_and!; try done; [by right|]. by intros _ [?|?].
Qed.

Lemma ZSTDDecompress_ZSTDCompress_witness :
  settles (λ fuel, ZSTDDecompress (Ctx := bool) fuel "Zint main() {}")
    (λ r, r = Some "int main() {}").
Proof. by apply (ZSTDDecompress_ZSTDCompress (laws := store_unzstd_laws)). Defined.

Lemma Blake3_parts_whole_witness :
  Blake3_parts (St := string) ["int "; "x;"] = Blake3 (St := string) "int x;".
Proof. exact (proj2 (Blake3_parts_whole (laws := string_hasher_laws) ["int "; "x;"])). Defined.
