(* ===== verification/EndToEnd.v ===== *)
(** The way of a compilation through the program: what the client preprocesses is what the
    compiler of a servant reads, and what that compiler wrote is what the client puts out.

    The theorems put the components together (Client, HttpCall, HttpService, LocalDispatch,
    DistTask, DaemonService, Executor, CompileTask): each stage works on what the stage before
    it gave.  zstd and the JSON library are parameters; that they give back what they were
    given is assumed for the texts at hand only. *)
From S2P Require Import Prelude Text Proto MultiChunk Stream SysInfo CloudTask Executor CompileTask.
From S2P Require Import Compilers DaemonService GrantKeeper LocalKeepers DistTask LocalDispatch.
From S2P Require Import LocalDispatchFacts HttpService ClientArgs Client ClientFacts HttpCall.

(** * The files of a compilation *)

(** Suffix and content of the files below the working directory of a task. *)
Definition written (t : CxxCompileTask) (files : list (string * string)) : list (string * string) :=
  (λ f, (temp_sub_dir_ t +:+ "/output" +:+ f.1, f.2)) <$> files.

(** A suffix that survives [PackFiles], of a file whose paths can be searched. *)
Definition packable (f : string * string) : Prop :=
  f.1 ≠ "" ∧ no_char "," f.1 = true ∧ no_char ch_newline f.1 = true ∧ ssize f.2 < 2 ^ 32.

(** [c] is [f] compressed. *)
Definition compressed (ZSTDCompress : string → option string) (c f : string * string) : Prop :=
  c.1 = f.1 ∧ ZSTDCompress f.2 = Some c.2.

Lemma compressed_names compress cs fs : Forall2 (compressed compress) cs fs → cs.*1 = fs.*1.
Proof. induction 1 as [|c f cs fs [E _] _ IH]; [done|]. rewrite !fmap_cons. by f_equal. Qed.

Lemma output_loop_written prefix path files infos :
  path ≠ "" → no_char "000" path = true → Forall packable files →
  ∃ infos', output_loop ((λ f, (prefix +:+ f.1, f.2)) <$> files) prefix path infos =
    Ret (files, infos').
Proof.
  intros Hp Hn HF. revert infos; induction HF as [|[s c] fs (_ & _ & _ & Hc) _ IH]; intros infos.
  { by exists infos. }
  rewrite fmap_cons. cbn [output_loop fst snd] in *.
  rewrite slength_app, (proj2 (Nat.ltb_ge _ _)), sdrop_app by lia.
  destruct (FindPathLocations_loop_spec c path Hp Hn Hc (S (String.length c)) 0)
    as (ls & E & _); [lia|lia|]. unfold FindPathLocations. rewrite E.
  destruct (IH (<[s := ls]> infos)) as [infos' ->]. by exists infos'.
Qed.

Lemma compress_files_total compress files :
  Forall (λ f, is_Some (compress f.2)) files →
  ∃ cs, compress_files compress files = Ret cs ∧ Forall2 (compressed compress) cs files.
Proof.
  induction 1 as [|[s c] fs [z Hz] _ (cs & E & H)]; [by exists []|]. cbn in *. rewrite Hz, E.
  exists ((s, z) :: cs). by repeat constructor.
Qed.

Lemma PackFiles_sizes files : Zsum (ssize <$> files.*2) ≤ ssize (PackFiles files).
Proof.
  destruct (decide (files = [])) as [->|Hne]; [done|]. rewrite PackFiles_eq by done.
  rewrite <- ssize_sconcat. set (names := join "," _). set (sizes := join "," _).
  unfold ssize. rewrite slength_app. cbn [String.length].
  rewrite slength_app. cbn [String.length]. rewrite slength_app. cbn [String.length]. lia.
Qed.

(** * The result *)

(** What a finished compilation put out and what its caller is told. *)
Definition produced (code : Z) (files : list (string * string)) : list (string * string) :=
  if code =? 0 then files else [].

Definition result_message (code : Z) (out err : string) (files : list (string * string))
    : WaitForCXXTaskResponse := {|
  wcr_exit_code := code; wcr_std_out := out; wcr_std_err := err;
  wcr_file_extensions := (produced code files).*1 |}.

(** What the user-side daemon makes of a compilation. *)
Definition dist_output (code : Z) (out err : string) (info : option CxxExtraInfo)
    (cs : list (string * string)) : DistOutput := {|
  do_exit_code := code; do_std_out := out; do_std_err := err; do_extra_info := info;
  do_output_files := cs |}.

Lemma packed_shape compress cs code files :
  Forall packable files → (code = 0 → files ≠ []) →
  Forall2 (compressed compress) cs (produced code files) →
  (code = 0 → cs ≠ []) ∧ (code ≠ 0 → cs = []) ∧
  Forall (λ s, s ≠ "" ∧ no_char "," s = true ∧ no_char ch_newline s = true) cs.*1.
Proof.
  intros HF Hne Hcs. rewrite (compressed_names _ _ _ Hcs). revert Hcs. unfold produced.
  destruct (Z.eqb_spec code 0) as [Hx|Hx]; intros Hcs; (split; [|split]); try done.
  - intros _ ->. apply Forall2_nil_inv_l in Hcs. by apply (Hne Hx).
  - apply Forall_fmap. eapply Forall_impl; [exact HF|]. intros f (? & ? & ? & _). done.
  - intros _. by apply Forall2_nil_inv_r in Hcs.
Qed.

Lemma rebuilt_message compress code out err info cs files :
  Forall2 (compressed compress) cs (produced code files) →
  (RebuildOutput (dist_output code out err info cs)).1 = result_message code out err files.
Proof.
  intros Hcs%compressed_names. unfold RebuildOutput, result_message. cbn. rewrite <- Hcs.
  destruct (Z.ltb_spec code 0); [|done]. unfold produced in Hcs.
  rewrite (proj2 (Z.eqb_neq _ _)) in Hcs by lia. by rewrite Hcs.
Qed.

Section servant.
Context (blake3 : string → string) (ZSTDCompress : string → option string).

Lemma run_scan_result t :
  exit_code_ (run_scan t) = exit_code_ t ∧ stdout_ (run_scan t) = stdout_ t ∧
  stderr_ (run_scan t) = stderr_ t ∧ work_dir_ (run_scan t) = work_dir_ t ∧
  temp_sub_dir_ (run_scan t) = temp_sub_dir_ t.
Proof. unfold run_scan. by destruct (write_cache_future_ t) as [[| |]|]. Qed.

Lemma GetOutput_written t files code :
  no_char "000" (work_dir_ t +:+ "/" +:+ temp_sub_dir_ t +:+ "/output") = true →
  Forall packable files →
  ∃ info, GetOutput (written t files) code t = Ret (Some (produced code files, info), run_scan t).
Proof.
  intros Hn HF. unfold GetOutput, produced. destruct (code =? 0); cbn [negb]; [|by exists None].
  destruct (run_scan_result t) as (_ & _ & _ & -> & ->).
  destruct (output_loop_written (temp_sub_dir_ t +:+ "/output")
    (work_dir_ t +:+ "/" +:+ temp_sub_dir_ t +:+ "/output") files ∅) as [infos E]; [|done|done|].
  - by destruct (work_dir_ t).
  - unfold written. setoid_rewrite sapp_assoc in E. rewrite E. by eexists.
Qed.

(** The key is computed once; it changes nothing but the future. *)
Lemma GetCacheKey_total t :
  write_cache_future_ t ≠ Some Future_consumed → write_cache_future_ t ≠ Some Future_pending →
  ∃ key f, GetCacheKey blake3 t = Ret (key, with_future f t).
Proof.
  intros H1 H2. unfold GetCacheKey. destruct (write_cache_future_ t) as [[|[]|]|] eqn:F; try done.
  1,2: by do 2 eexists. exists None, None. by destruct t; cbn in F; subst.
Qed.

(** The task of a servant is completed whatever its compiler did, and then holds what the
    compiler wrote, compressed and packed. *)
Lemma OnCompleted_packs t files code out err :
  no_char "000" (work_dir_ t +:+ "/" +:+ temp_sub_dir_ t +:+ "/output") = true →
  write_cache_future_ t ≠ Some Future_consumed →
  Forall packable files → Forall (λ f, is_Some (ZSTDCompress f.2)) files →
  ∃ ct cs, CxxCompileTask_OnCompleted blake3 ZSTDCompress (written t files) t code out err = Ret ct ∧
    Forall2 (compressed ZSTDCompress) cs (produced code files) ∧
    exit_code_ ct = code ∧ stdout_ ct = out ∧ stderr_ ct = err ∧ file_pack_ ct = PackFiles cs.
Proof.
  intros Hn Hf HF HZ. unfold CxxCompileTask_OnCompleted.
  set (t0 := with_result code out err (file_pack_ t) (extra_info_ t) t).
  destruct (GetOutput_written t0 files code Hn HF) as [info E].
  change (written t0 files) with (written t files) in E. rewrite E. cbn [mbind outcome_bind].
  destruct (compress_files_total ZSTDCompress (produced code files)) as (cs & -> & Hcs).
  { unfold produced. by destruct (code =? 0). }
  cbn [mbind outcome_bind]. destruct (run_scan_result t0) as (-> & -> & -> & _).
  set (t1 := with_result _ _ _ _ _ (run_scan t0)).
  destruct (GetCacheKey_total t1) as (key & f & ->).
  1,2: unfold t1; cbn [write_cache_future_ with_result];
    destruct (run_scan_same t0) as (_ & _ & ->); cbn; by destruct (write_cache_future_ t) as [[| |]|].
  cbn [mbind outcome_bind].
  destruct key as [key|]; [destruct (code =? 0)|]; do 2 eexists; (split; [reflexivity|]); done.
Qed.
End servant.

Section result.
Context {E : Type} `{PocoEvent E} {auto_reset : AutoReset E}.
Context (blake3 : string → string) (chunk_size : Z).
Context (ZSTDCompress ZSTDDecompress : string → option string).
Context (wait_of_json : string → option string * WaitForCXXTaskRequest).
Context (json_of_wait : WaitForCXXTaskResponse → string).
Context (result_of_json : string → option WaitForCXXTaskResponse).

#[local] Instance the_dist_task : DistTask CxxDistTask := cxx_dist_task blake3 chunk_size.

(** The call of the daemon gets what the servant's task holds. *)
Lemma servant_delivers f sv token id ct st ex' cs :
  IsTokenAcceptable token sv = true →
  Executor.WaitForTask id (λ ex, ex) (executor sv) = Ret (Some ct, st, ex') →
  0 < FLAGS_chunk_size f → ssize (file_pack_ ct) + FLAGS_chunk_size f < LONG_MAX →
  file_pack_ ct = PackFiles cs → (exit_code_ ct = 0 → cs ≠ []) → (exit_code_ ct ≠ 0 → cs = []) →
  Forall (λ s, s ≠ "" ∧ no_char "," s = true ∧ no_char ch_newline s = true) cs.*1 →
  WaitServantTask_call (servant_wait f sv (wait_request token id)) =
    Ret (Some (dist_output (exit_code_ ct) (stdout_ ct) (stderr_ ct) (extra_info_ ct) cs), 0).
Proof.
  intros Ht Hw Hc Hs Hp H0 H1 HF. pose proof (ssize_nonneg (file_pack_ ct)).
  destruct (servant_wait_cases f sv token id (Some ct) st ex' Ht Hw Hc) as (pieces & Ep & ->).
  { intros t [= <-]. unfold LONG_MAX in Hs. lia. }
  unfold WaitServantTask_call. cbn [wa_chunks wa_ok]. rewrite read_stream. cbn.
  rewrite Ep, Hp. destruct (Z.eqb_spec (exit_code_ ct) 0) as [Hx|Hx].
  - rewrite TryUnpackFiles_PackFiles; [done|auto|done|]. rewrite <- Hp. lia.
  - by rewrite H1.
Qed.

(** With it the thread of the task has three steps left, once the servant answers the call
    that frees the task. *)
Lemma thread_finishes w w1 w2 fresh channel r (d : TaskDesc CxxDistTask E) dt o :
  task d = Some dt → aborted d = false →
  WaitServantTask_call (w_WaitForTask w channel (wait_request (w_token w) (servant_task_id d)))
    = Ret (Some o, 0) →
  w_FreeTask w1 channel (w_token w1) (servant_task_id d) = true →
  perform_all [w; w1; w2] (At_wait fresh channel (S r)) d =
    Ret (At_end, complete w2 dt (with_output o d),
         FreeServantTask channel (w_token w1) (servant_task_id d) ::
         (if fresh is Some g then [FreeGrant (Grants.grant_id g)] else [])).
Proof.
  intros Ht Ha Hw Hf. cbn [perform_all]. unfold perform_step, perform. rewrite Ht.
  cbn [WaitServantTask comes_back negb]. rewrite Ha, Hw. cbn. rewrite Hf. cbn. rewrite Ht. cbn.
  rewrite Ht. cbn. by destruct fresh.
Qed.

(** A completed task is answered, and forgotten. *)
Lemma http_delivers dm p d w dt body wait :
  tasks_ (disp dm) !! task_id d = Some p → desc_heap (disp dm) !! p = Some (complete w dt d) →
  wait_of_json body = (None, {| wcx_task_id := task_id d; wcx_ms_to_wait := wait |}) → wait ≤ 10000 →
  let out := RebuildOutput (output d) in
  ∃ dm', serve (HttpService.WaitForTask wait_of_json json_of_wait body (λ p, p)) dm =
    (Ret (), dm', [(HTTP_OK, MakeMultiChunk (json_of_wait out.1 :: out.2))]) ∧
    tasks_ (disp dm') !! task_id d = None.
Proof.
  intros Hp Hd Hb Hms out. unfold serve, HttpService.WaitForTask, try_catch, mbind, M_bind.
  rewrite Hb. cbn [wcx_ms_to_wait wcx_task_id].
  rewrite (proj2 (Z.ltb_ge _ _)) by (cbv [ms secs] in *; lia).
  unfold LocalDispatch.WaitForTask, WaitForTask_find, WaitForTask_event. rewrite Hp, Hd.
  cbn [complete completion_event]. destruct (event_tryWait _) as [b e] eqn:W.
  assert (b = true) as -> by (by rewrite <- (tryWait_set (completion_event d)), W).
  cbn. fold out. destruct out as [msg bytes]. eexists. split; [reflexivity|].
  cbn. apply lookup_delete_eq.
Qed.

(** What the client does with the result of a successful compilation. *)
Lemma finish_writes env fuel args argv o l destination out err files :
  GetOutputFile args = Ret destination →
  finish env fuel args argv {| exit_code := 0; std_out := out; std_err := err;
                               output_files := files |} o l =
    (Finished 0, l ++ E_print (c_str out) (c_str err) ::
                 ((λ f, E_write (result_path destination f.1) f.2) <$> files)).
Proof.
  intros Hg. unfold finish, mbind, C_bind, log, Client.lift. cbn [exit_code Z.eqb negb].
  rewrite Hg. cbn [output_files std_out std_err]. rewrite WriteCompileResult_log.
  by rewrite <- app_assoc.
Qed.

(** The client takes the answer apart and decompresses the files. *)
Lemma client_receives fuel id o l code out err info cs files :
  let m := RebuildOutput (dist_output code out err info cs) in
  (∀ s c, ZSTDCompress s = Some c → c ≠ "" ∧ ZSTDDecompress c = Some s) →
  Forall2 (compressed ZSTDCompress) cs (produced code files) →
  json_of_wait m.1 ≠ "" → result_of_json (json_of_wait m.1) = Some m.1 →
  ssize (json_of_wait m.1) + ssize (PackFiles cs) < LONG_MAX →
  o_http o (length l) (wait_for_cxx_task id 10000) =
    Some {| http_status := HTTP_OK; http_body := MakeMultiChunk (json_of_wait m.1 :: m.2) |} →
  WaitForCloudCompileResult ZSTDDecompress result_of_json (S fuel) id o l =
    (Finished {| exit_code := code; std_out := out; std_err := err;
                 output_files := produced code files |},
     l ++ [E_http (wait_for_cxx_task id 10000)]).
Proof.
  intros m Hz Hcs Hne Hj Hs Ho. cbn [WaitForCloudCompileResult].
  unfold mbind, C_bind, http. rewrite Ho. cbn [http_status http_body].
  change (HTTP_OK =? 503) with false. change (HTTP_OK =? 404) with false. cbn iota.
  assert (Hneg : code < 0 → cs = []).
  { intros Hx. revert Hcs. unfold produced. rewrite (proj2 (Z.eqb_neq _ _)) by lia.
    by inversion 1. }
  unfold m in *. rewrite (compile_result_roundtrip ZSTDDecompress result_of_json json_of_wait
    (dist_output code out err info cs) (produced code files).*2 Hj Hne Hneg); cbn.
  - rewrite (compressed_names _ _ _ Hcs), zip_fst_snd. done.
  - rewrite Forall2_fmap_r. eapply Forall2_impl; [exact Hcs|]. intros c f [_ Hc]. by apply Hz.
  - eapply Z.le_lt_trans; [|exact Hs]. apply Z.add_le_mono_l.
    etrans; [|apply PackFiles_sizes]. unfold RebuildOutput. destruct (_ <? _); [|done]. apply Zsum_ssize_nonneg.
Qed.

(** C4. What the compiler of a servant did is what the client puts out.  However the compiler
    ended, the servant's task is completed; and from there on, when the servant hands it to
    the thread that waits for it, that thread ends within three steps (if the servant answers
    the call, without a deadline, that frees the task), the next question of
    the client is answered with it, and the client has the exit code and both outputs of the
    compiler; if the compiler succeeded, it prints those outputs and writes exactly the files
    the compiler wrote, and then exits with 0. *)
Theorem result_reaches_client t files code out err :
  let message := result_message code out err files in
  (∀ s c, ZSTDCompress s = Some c → c ≠ "" ∧ ZSTDDecompress c = Some s) →
  no_char "000" (work_dir_ t +:+ "/" +:+ temp_sub_dir_ t +:+ "/output") = true →
  write_cache_future_ t ≠ Some Future_consumed →
  Forall packable files → Forall (λ f, is_Some (ZSTDCompress f.2)) files →
  (code = 0 → files ≠ []) →
  json_of_wait message ≠ "" → result_of_json (json_of_wait message) = Some message →
  ∃ ct, CxxCompileTask_OnCompleted blake3 ZSTDCompress (written t files) t code out err = Ret ct ∧
  (* the servant hands it to the thread *)
  ∀ f sv st ex' w w1 w2 fresh channel r (d : TaskDesc CxxDistTask E) dt,
  IsTokenAcceptable (w_token w) sv = true →
  Executor.WaitForTask (servant_task_id d) (λ ex, ex) (executor sv) = Ret (Some ct, st, ex') →
  w_WaitForTask w channel = servant_wait f sv →
  0 < FLAGS_chunk_size f →
  ssize (json_of_wait message) + ssize (file_pack_ ct) + FLAGS_chunk_size f < LONG_MAX →
  task d = Some dt → aborted d = false →
  w_FreeTask w1 channel (w_token w1) (servant_task_id d) = true →
  ∃ d' effects,
  perform_all [w; w1; w2] (At_wait fresh channel (S r)) d = Ret (At_end, d', effects) ∧
  state d' = Done ∧ task_id d' = task_id d ∧
  (* the client asks for it *)
  ∀ dm p body wait,
  tasks_ (disp dm) !! task_id d = Some p → desc_heap (disp dm) !! p = Some d' →
  wait_of_json body = (None, {| wcx_task_id := task_id d; wcx_ms_to_wait := wait |}) →
  wait ≤ 10000 →
  ∃ dm' reply,
  serve (HttpService.WaitForTask wait_of_json json_of_wait body (λ p, p)) dm =
    (Ret (), dm', [(HTTP_OK, reply)]) ∧
  ∀ env fuel o l args argv,
  o_http o (length l) (wait_for_cxx_task (task_id d) 10000) =
    Some {| http_status := HTTP_OK; http_body := reply |} →
  ∃ result l', WaitForCloudCompileResult ZSTDDecompress result_of_json (S fuel) (task_id d) o l =
    (Finished result, l') ∧
  exit_code result = code ∧ std_out result = out ∧ std_err result = err ∧
  ∀ destination, code = 0 → GetOutputFile args = Ret destination →
  finish env fuel args argv result o l' =
    (Finished 0, l' ++ E_print (c_str out) (c_str err) ::
                   ((λ f, E_write (result_path destination f.1) f.2) <$> files)).
Proof.
  intros message Hz Hn Hfu HF HZ Hne Hjne Hj.
  destruct (OnCompleted_packs blake3 ZSTDCompress t files code out err Hn Hfu HF HZ)
    as (ct & cs & E1 & Hcs & X1 & X2 & X3 & X4).
  exists ct. split; [exact E1|]. intros f sv st ex' w w1 w2 fresh channel r d dt Ht Hw Hcall Hc Hs Hd Ha Hfree.
  pose proof (rebuilt_message ZSTDCompress code out err (extra_info_ ct) cs files Hcs) as Hm.
  destruct (packed_shape ZSTDCompress cs code files HF Hne Hcs) as (C0 & C1 & CF).
  pose proof (ssize_nonneg (json_of_wait message)).
  set (result := dist_output code out err (extra_info_ ct) cs) in *.
  exists (complete w2 dt (with_output result d)). eexists. split.
  { eapply thread_finishes; [done|done| |exact Hfree]. rewrite Hcall. unfold result. rewrite <- X1, <- X2, <- X3.
    apply (servant_delivers f sv _ _ ct st ex' cs Ht Hw Hc); rewrite ?X1; [lia|done..]. }
  split; [done|]. split; [done|]. intros dm p body wait Hp Hd' Hb Hwait.
  destruct (http_delivers dm p (with_output result d) w2 dt body wait Hp Hd' Hb Hwait) as (dm' & Hserve & _).
  do 2 eexists. split; [exact Hserve|]. intros env fuel o l args argv Ho.
  do 2 eexists. split.
  { eapply (client_receives fuel _ o l code out err (extra_info_ ct) cs files); fold result;
      [done|done|by rewrite Hm..| |exact Ho].
    rewrite Hm, <- X4. fold message. lia. }
  split_and!; try done. intros destination -> Hg. by apply finish_writes.
Qed.
End result.

(** * The source *)

Section source.
Context {E : Type} `{PocoEvent E}.
Context (blake3 : string → string) (chunk_size : Z).
Context (client_compress : string → string) (ZSTDCompress ZSTDDecompress : string → option string).
Context (json_of_submit : SubmitCxxTaskRequest → string) (json_of_id : Z → string).
Context (submit_of_json : string → option string * SubmitCxxTaskRequest).
Context (task_id_of_json : string → option (option string)).

#[local] Instance the_source_task : DistTask CxxDistTask := cxx_dist_task blake3 chunk_size.

(** The arguments for the servant are never empty. *)
Lemma cloud_args_nonempty args rw cmdline : cloud_args args rw = Ret cmdline → cmdline ≠ "".
Proof.
  unfold cloud_args. intros (r & (kept & _ & [= <-])%bind_Ret & [= <-])%bind_Ret.
  unfold ToCommandLine. cbn [rargs_]. set (l := kept ++ _).
  change ("" +:+ ?x) with x.
  assert (El : (λ e, EscapeCommandArgument e +:+ " ") <$> l =
               (λ n, n +:+ String " " "") <$> (EscapeCommandArgument <$> l))
    by (by rewrite <- list_fmap_compose).
  rewrite El, spop_back_sconcat by (unfold l; by destruct kept).
  assert (2 ≤ length (EscapeCommandArgument <$> l))%nat
    by (rewrite length_fmap; unfold l; rewrite length_app; cbn; lia).
  destruct (EscapeCommandArgument <$> l) as [|x [|y ys]]; [cbn in *; lia..|]. by destruct x.
Qed.

(** The task the daemon makes of a submission. *)
Definition submitted_task (env : Env) (args : CompilerArgs) (rw : RewriteResult)
    (cmdline compiler : string) : CxxDistTask := {|
  d_cache_control := negb (control_value (cache_control rw) =? 0);
  d_requester_pid := Client.pid env; d_env_desc := {| compiler_digest := compiler |};
  d_source_path := source_digest rw; d_source_digest := source_digest rw; d_args := cmdline;
  d_source := zstd_rewritten rw; d_output := d_output CxxDistTask_init |}.

Lemma submission_queued env args rw cmdline compiler dm now :
  let json := json_of_submit (submit_request env args rw cmdline) in
  json ≠ "" → zstd_rewritten rw ≠ "" → ssize json + ssize (zstd_rewritten rw) < LONG_MAX →
  submit_of_json json = (None, submit_request env args rw cmdline) →
  1 < Client.pid env → source_path rw ≠ "" → cmdline ≠ "" → source_digest rw ≠ "" →
  Files.TryGet (compiler_ args) (mtime_size env).2 (mtime_size env).1 (files dm) = Some compiler →
  let '(id, p) := QueueTask true (submitted_task env args rw cmdline compiler) now
                    (now + minutes 5) (disp dm) in
  serve (SubmitCxxTask submit_of_json json_of_id
           (sconcat (submit_chunks json_of_submit env args rw cmdline)) true now) dm =
    (Ret (), with_disp p dm, [(HTTP_OK, json_of_id (last_id p))]).
Proof.
  intros json Hj Hz Hs Hreq Hpid Hpath Hcmd Hdig Hfile.
  unfold serve, SubmitCxxTask, try_catch, mbind, M_bind, HttpService.lift.
  unfold submit_chunks. fold json.
  rewrite MakeMultiChunkHeaderLine_roundtrip; [|by repeat constructor|cbn; lia].
  rewrite Hreq.
  unfold CxxDistTask_Prepare. cbn [submit_request sct_requestor_pid sct_source_path
    sct_compiler_args sct_source_digest sct_compiler].
  rewrite (proj2 (Z.leb_gt _ _)) by done.
  rewrite !(proj2 (String.eqb_neq _ _)) by done. cbn [orb].
  cbn [fd_path fd_size fd_mtime compiler_desc]. rewrite Hfile. reflexivity.
Qed.

(** The thread that has a grant, and the servant it calls. *)
Lemma thread_submits w g (d : TaskDesc CxxDistTask E) tk text dir mem tmp new_pid now sv path next :
  task d = Some tk → 0 < chunk_size → ssize (d_source tk) + chunk_size < 2 ^ 64 →
  (∀ i, call_Write (w_QueueCxxTask w (servant_location d)) i = true) →
  call_Finish (w_QueueCxxTask w (servant_location d)) =
    servant_answer blake3 ZSTDCompress ZSTDDecompress dir mem tmp new_pid now sv →
  IsTokenAcceptable (w_token w) sv = true → TryGetPath (compilers sv) (d_env_desc tk) = Some path →
  ZSTDDecompress (d_source tk) = Some text →
  TryStartingNewTaskUnsafe mem (executor sv) = (Some (next_task_id_ (executor sv)), next) →
  whole_input tmp text →
  ∃ ct ex launch d',
  TryQueueTask (H := cxx_compile_task blake3 ZSTDCompress) mem tmp new_pid now (Grants.grant_id g) ct
    (executor sv) = (Ret (Some (next_task_id_ (executor sv), launch)), ex) ∧
  launch_stdin launch = text ∧
  StartWith (launch_cmd launch) (path +:+ " " +:+ d_args tk +:+ " -o ") = true ∧
  (d_source_digest tk = EncodeHex (blake3 text) false →
     CompileTask.GetDigest blake3 ct = CxxDistTask_GetDigest blake3 tk) ∧
  perform_step w (At_submit g) d = Ret (At_wait (Some g) (servant_location d) kRetries, d', []) ∧
  servant_task_id d' = next_task_id_ (executor sv) ∧ state d' = Dispatched.
Proof.
  intros Hd Hc Hs Hw Hf Ht Hp Hz Hn Hwi.
  destruct (StartTask_sent chunk_size _ (w_token w) (Grants.grant_id g) tk Hc Hs Hw)
    as (pieces & Ep & Est).
  destruct (servant_takes blake3 ZSTDCompress ZSTDDecompress (w_token w) (Grants.grant_id g) tk pieces
    dir mem tmp new_pid now sv path text next) as (ct & ex & launch & P & Q & Lc & Ls & Es & R); [done..|].
  pose proof (Prepare_digest _ _ _ _ _ _ _ _ _ P) as D.
  apply Prepare_OK in P as (k & [= <-] & _ & _ & _ & _ & _ & Hcmd).
  do 4 eexists. split; [exact Q|]. split; [done|]. split.
  { rewrite Lc, Hcmd. apply StartWith_iff. eexists. by rewrite !sapp_assoc. }
  split. { intros Hdig. unfold CompileTask.GetDigest, CxxDistTask_GetDigest. rewrite <- D; [done|]. by rewrite Es. }
  unfold perform_step, perform. rewrite Hd. unfold StartNewServantTask_submit.
  cbn [dt_StartTask the_source_task cxx_dist_task]. rewrite Est, Hf. unfold servant_answer. rewrite R.
  by cbn.
Qed.

(** The client learns the id of its task. *)
Lemma client_submits env args rw cmdline id o l :
  cloud_args args rw = Ret cmdline → is_u64 id →
  task_id_of_json (json_of_id id) = Some (Some (Text.to_string id)) →
  o_http o (length l) (submit_cxx_task (submit_chunks json_of_submit env args rw cmdline)) =
    Some {| http_status := HTTP_OK; http_body := json_of_id id |} →
  SubmitComileTask blake3 json_of_submit task_id_of_json env args rw o l =
    (Finished (Some id),
     l ++ [E_http (submit_cxx_task (submit_chunks json_of_submit env args rw cmdline))]).
Proof.
  intros Hc Hid Hj Ho. unfold SubmitComileTask, mbind, C_bind, Client.lift, http. rewrite Hc, Ho.
  change (http_status _ =? 400) with false. cbn iota. unfold submitted_id. cbn [http_status http_body].
  change (HTTP_OK =? 200) with true. cbn iota. rewrite Hj, stoul_to_string by done. done.
Qed.

End source.

(** * Witnesses *)

Definition mark (s : string) : string := String "Z" s.
Definition unmark (s : string) : option string :=
  match s with String "Z" s => Some s | _ => None end.

Definition demo_task : CxxCompileTask :=
  match Executor.desc_heap (executor demo_busy) !! 0%nat with
  | Some d => if Executor.task d is Some t then t else CxxCompileTask_init "/tmp/w"
  | None => CxxCompileTask_init "/tmp/w"
  end.
Definition demo_compiled : DaemonServiceImpl (E := bool) :=
  with_executor (OnExitCallback (H := cxx_compile_task DaemonService.demo_hash (λ s, Some (mark s)))
    (written demo_task [(".o", "obj")]) 77 0 8 (Ret "out") (Ret "") demo_task
    (executor demo_busy)).2 demo_busy.
Definition demo_holding (d : LocalDispatch.TaskDesc CxxDistTask bool) : Daemon (E := bool) := {|
  monitor := Monitor.TaskMonitor_init 4 8; files := Files.FileCache_init;
  disp := {| LocalDispatch.tasks_ := {[ 1 := 0%nat ]}; LocalDispatch.desc_heap := {[ 0%nat := d ]};
             next_ptr := 1%nat; last_id := 1; threads := {[ 0%nat := At_end ]} |};
  leaving := false |}.
Definition demo_answers (body : string) : Oracle := {|
  o_http := λ _ _, Some {| http_status := HTTP_OK; http_body := body |};
  o_command := λ _ _, (0, "int x;"); o_native := λ _, 3 |}.
Definition demo_client : CompilerArgs := {|
  compiler_ := "/usr/bin/gcc"; args_ := [("-c", [])]; filenames_ := ["x.c"]; rebuilt_arg_ := "" |}.

Lemma result_reaches_client_witness :
  ∃ d' effects dm' reply result l',
    perform_all (dist := cxx_dist_task DaemonService.demo_hash 4)
      (replicate 3 (demo_world (λ _, servant_wait DaemonService.demo_flags demo_compiled)))
      (At_wait None "s" 1) demo_desc = Ret (At_end, d', effects) ∧
    serve (HttpService.WaitForTask (E := bool) (λ _, (None, {| wcx_task_id := 1; wcx_ms_to_wait := 0 |}))
             (λ _, "{}") "" (λ p, p)) (demo_holding d') = (Ret (), dm', [(HTTP_OK, reply)]) ∧
    WaitForCloudCompileResult unmark (λ _, Some (result_message 0 "out" "" [(".o", "obj")])) 1 1
      (demo_answers reply) [] = (Finished result, l') ∧
    finish demo_env 1 demo_client [] result (demo_answers reply) l' =
      (Finished 0, l' ++ [E_print "out" ""; E_write "x.o" "obj"]).
Proof.
  destruct (result_reaches_client (E := bool) DaemonService.demo_hash 4 (λ s, Some (mark s)) unmark
    (λ _, (None, {| wcx_task_id := 1; wcx_ms_to_wait := 0 |})) (λ _, "{}")
    (λ _, Some (result_message 0 "out" "" [(".o", "obj")]))
    demo_task [(".o", "obj")] 0 "out" "") as (ct & E & H).
  - by intros s c [= <-].
  - reflexivity.
  - discriminate.
  - by repeat constructor.
  - by repeat constructor.
  - discriminate.
  - discriminate.
  - reflexivity.
  - vm_compute in E. injection E as <-.
    assert (W : ∃ ex', Executor.WaitForTask 1 (λ ex, ex) (executor demo_compiled) =
                       Ret (Some _, Unknown, ex')) by (eexists; vm_compute; reflexivity).
    destruct W as [ex' W].
    set (w := demo_world (λ _, servant_wait DaemonService.demo_flags demo_compiled)) in *.
    destruct (H DaemonService.demo_flags demo_compiled Unknown ex' w w w None "s" 0%nat demo_desc
      demo_dist eq_refl W eq_refl eq_refl eq_refl eq_refl eq_refl eq_refl)
      as (d' & effects & Hrun & _ & _ & Hask).
    destruct (Hask (demo_holding d') 0%nat "" 0) as (dm' & reply & Hserve & Hget);
      [reflexivity..|done|].
    destruct (Hget demo_env 1%nat (demo_answers reply) [] demo_client []) as (result & l' & Hres & _ & _ & _ & Hfin);
      [reflexivity|].
    exists d', effects, dm', reply, result, l'. split; [exact Hrun|]. split; [exact Hserve|].
    split; [exact Hres|]. exact (Hfin "x.o" eq_refl eq_refl).
Defined.

Definition demo_user : Env := {|
  pid := 7; control := Allow; mtime_size := (2, 1); compiler_content := None |}.
Definition demo_rewritten : RewriteResult := {|
  directives_only := true; cache_control := Allow; language := "c"; source_path := "x.c";
  zstd_rewritten := mark "int x;"; source_digest := "68" |}.
Definition demo_call : World := {|
  w_now := 5; w_token := "t"; w_TryRead := λ _, None; w_TryFindTask := λ _, None;
  w_AddTaskRef := λ _ _ _, Some false; w_FreeTask := λ _ _ _, true; w_Get := λ _, Ret None;
  w_QueueCxxTask := λ _, {| call_Write := λ _, true;
    call_Finish := servant_answer DaemonService.demo_hash (λ s, Some (mark s)) unmark "/tmp/w" 10 DaemonService.demo_files 77 0
                     DaemonService.demo_daemon |};
  w_WaitForTask := λ _ _, {| wa_chunks := []; wa_ok := false |} |}.

