(* ===== verification/KeepAlive.v ===== *)
(** The keep-alive of the user-side daemon against the scheduler.

    [OnTimerKeepAlive] of LocalDispatch names the tasks under way with their grants, the
    handler of SchedService answers for each grant in the order of the request, and the daemon
    gives the answers to its tasks.  The theorem is about the three together: which tasks are
    confirmed, and what becomes of their grants.  Leases goes on from there to the servants. *)
From S2P Require Import Prelude Text Proto Token SchedDispatch SchedFacts SchedService.
From S2P Require Import CloudTask DistTask LocalDispatch LocalDispatchFacts.

(** * The scheduler's side *)

(** The grant can be kept alive. *)
Definition keepable (st : State) (id : Z) : bool :=
  if SchedDispatch.tasks_ st !! id is Some t then negb (is_zombie t) else false.

Lemma KeepTaskAlive_keepable id e now st id' :
  keepable (SchedDispatch.KeepTaskAlive id e now st).2 id' = keepable st id'.
Proof.
  unfold keepable, SchedDispatch.KeepTaskAlive.
  destruct (SchedDispatch.tasks_ st !! id) as [t|] eqn:E; [|done].
  destruct (is_zombie t) eqn:Z; [done|]. cbn.
  destruct (decide (id' = id)) as [->|]; [by rewrite lookup_insert_eq, E|by rewrite lookup_insert_ne].
Qed.

(** The grant [id] of the new state was kept alive at one of the [clock]s. *)
Definition prolonged (clock : nat → Z) (e : Z) (ids : list Z) (id : Z) (st : State) : Prop :=
  ∃ i t, ids !! i = Some id ∧ SchedDispatch.tasks_ st !! id = Some t ∧ is_zombie t = false ∧
         task_expires_tp t = clock i + ms e.

(** The handler's loop: every answer says whether the grant is live, every live grant is
    prolonged, and the others are as before. *)
Lemma keep_alive_loop_spec ids e clock st :
  let '(oks, st') := keep_alive_loop ids e clock st in
  oks = keepable st <$> ids ∧
  (∀ id, id ∈ ids → keepable st id = true → prolonged clock e ids id st') ∧
  (∀ id, id ∉ ids ∨ keepable st id = false →
     SchedDispatch.tasks_ st' !! id = SchedDispatch.tasks_ st !! id).
Proof.
  revert clock st; induction ids as [|id ids IH]; intros clock st; cbn.
  { split_and!; [done|by intros id ?%not_elem_of_nil|done]. }
  pose proof (KeepTaskAlive_keepable id e (clock O) st) as K.
  destruct (SchedDispatch.KeepTaskAlive id e (clock O) st) as [ok st1] eqn:E1. cbn in K.
  specialize (IH (λ i, clock (S i)) st1).
  destruct (keep_alive_loop ids e (λ i, clock (S i)) st1) as [oks st2].
  destruct IH as (-> & IH1 & IH2).
  assert (Hok : ok = keepable st id).
  { revert E1. unfold SchedDispatch.KeepTaskAlive, keepable.
    destruct (SchedDispatch.tasks_ st !! id) as [t|]; [|by intros [= <- _]].
    destruct (is_zombie t); by intros [= <- _]. }
  split; [rewrite Hok; f_equal; by apply list_fmap_ext|]. split.
  - intros id' Hin Hk. destruct (decide (id' ∈ ids)) as [Hin'|Hin'].
    { destruct (IH1 id' Hin') as (i & t & Hi & Ht); [by rewrite K|]. by exists (S i), t. }
    apply elem_of_cons in Hin as [->|]; [|done]. revert E1. unfold SchedDispatch.KeepTaskAlive.
    unfold keepable in Hk. destruct (SchedDispatch.tasks_ st !! id) as [t|]; [|done].
    destruct (is_zombie t) eqn:Z; [done|]. intros [= _ <-].
    eexists O, _. rewrite IH2 by (by left). cbn. by rewrite lookup_insert_eq.
  - intros id' Hout. rewrite IH2
      by (rewrite K; destruct Hout as [Hout|]; [left; intros ?; apply Hout; by right|by right]). revert E1.
    unfold SchedDispatch.KeepTaskAlive. destruct (SchedDispatch.tasks_ st !! id) as [t|] eqn:E; [|by intros [= _ <-]].
    destruct (is_zombie t) eqn:Z; intros [= _ <-]; [done|]. cbn. apply lookup_insert_ne. intros ->.
    destruct Hout as [Hout|Hout]; [by apply Hout; left|]. unfold keepable in Hout. by rewrite E, Z in Hout.
Qed.

(** * The daemon's side *)

Section keep_alive.
Context {T E : Type} `{DistTask T} `{PocoEvent E} {auto_reset : AutoReset E}.
Implicit Types (s : TaskDispatcher T E).

(** An answer confirms the task behind [p]. *)
Fixpoint confirmed (ids : list (Z * Z)) (statues : list bool) s (p : tptr) : bool :=
  match ids, statues with
  | (id, _) :: ids, ok :: statues =>
    (ok && bool_decide (LocalDispatch.tasks_ s !! id = Some p)) || confirmed ids statues s p
  | _, _ => false
  end.

Lemma confirmed_same ids statues s s' p :
  LocalDispatch.tasks_ s' = LocalDispatch.tasks_ s → confirmed ids statues s' p = confirmed ids statues s p.
Proof.
  intros Hs. revert statues; induction ids as [|[id g] ids IH]; intros [|ok statues]; try done.
  cbn. by rewrite Hs, IH.
Qed.

Lemma confirmed_elem (f : Z → bool) ids s p :
  confirmed ids (f <$> ids.*2) s p = true ↔
  ∃ id g, (id, g) ∈ ids ∧ LocalDispatch.tasks_ s !! id = Some p ∧ f g = true.
Proof.
  induction ids as [|[id g] ids IH]; cbn.
  { split; [done|by intros (? & ? & ?%not_elem_of_nil & _)]. }
  rewrite orb_true_iff, IH, andb_true_iff, bool_decide_eq_true. split.
  - intros [[Hf Hp]|(id' & g' & Hin & Hp)]; [by exists id, g; split; [left|]|].
    exists id', g'. split; [by right|done].
  - intros (id' & g' & [[= -> ->]|Hin]%elem_of_cons & Hp & Hf); [by left|right; by exists id', g'].
Qed.

Lemma apply_statues_lookup now ids statues s p :
  desc_heap (apply_statues now ids statues s) !! p =
  (if confirmed ids statues s p then with_keep_alive now else id) <$> desc_heap s !! p.
Proof.
  revert statues s; induction ids as [|[id g] ids IH]; intros [|ok statues] s;
    try (cbn; by destruct (desc_heap s !! p)).
  cbn [apply_statues confirmed]. rewrite IH. destruct ok; [|done]. cbn [andb].
  destruct (LocalDispatch.tasks_ s !! id) as [q|] eqn:Hq; [|by rewrite bool_decide_false by done].
  rewrite (confirmed_same _ _ s) by done. cbn [desc_heap with_descs].
  destruct (decide (q = p)) as [->|Hne].
  - rewrite bool_decide_true, lookup_alter_eq by done. cbn [orb].
    destruct (desc_heap s !! p); [|done]. cbn. by destruct (confirmed ids statues s p).
  - rewrite lookup_alter_ne, bool_decide_false by (congruence || by intros [= ->]). done.
Qed.

(** The answers to the tasks named at the beginning, given at the end to whatever the
    dispatcher has become. *)
Lemma OnTimerKeepAlive_end_lookup (f : Z → bool) now ids s p :
  desc_heap (OnTimerKeepAlive_end now ids (Some (f <$> ids.*2)) s) !! p =
  (if confirmed ids (f <$> ids.*2) s p then with_keep_alive now else id) <$> desc_heap s !! p.
Proof.
  unfold OnTimerKeepAlive_end. destruct (bool_decide_reflect (ids = [])) as [->|_].
  { cbn. by destruct (desc_heap s !! p). }
  rewrite !length_fmap, Nat.eqb_refl. apply apply_statues_lookup.
Qed.

(** The task [id] was named with a grant that is live. *)
Definition renewed (now : Z) s (st : State) (id : Z) : Prop :=
  ∃ p d, LocalDispatch.tasks_ s !! id = Some p ∧ desc_heap s !! p = Some d ∧
         in_flight d = true ∧ keep_alive_lost now d = false ∧ keepable st (task_grant_id d) = true.

(** C32. One keep-alive of the user-side daemon, whatever happens to its tasks between the request
    and the answer.  The scheduler accepts the request and prolongs, by ten seconds from when
    it looks at it, every named grant that is live, and no other; and the daemon notes the
    time for exactly the tasks it named with a live grant and still has.  For every other
    task the minute after which it is aborted goes on. *)
Theorem keep_alive_round n s token clock now now' sched :
  reachable n s → n < 2 ^ 64 → Verify (user_token_verifier_ sched) token = true →
  let ids := (OnTimerKeepAlive_begin now s).1 in
  ∃ statues sched',
    SchedService.KeepTaskAlive clock (keep_alive_request token ids) sched = (OK, statues, sched') ∧
    (∀ id p d, LocalDispatch.tasks_ s !! id = Some p → desc_heap s !! p = Some d →
       renewed now s (dispatcher sched) id →
       prolonged clock 10000 ids.*2 (task_grant_id d) (dispatcher sched')) ∧
    (∀ g, (g ∉ ids.*2 ∨ keepable (dispatcher sched) g = false) →
       SchedDispatch.tasks_ (dispatcher sched') !! g = SchedDispatch.tasks_ (dispatcher sched) !! g) ∧
    ∀ s2 p d, desc_heap s2 !! p = Some d →
      ∃ d', desc_heap (OnTimerKeepAlive_end now' ids (Some statues) s2) !! p = Some d' ∧
        ((∃ id, LocalDispatch.tasks_ s2 !! id = Some p ∧ renewed now s (dispatcher sched) id) →
           d' = with_keep_alive now' d) ∧
        (¬ (∃ id, LocalDispatch.tasks_ s2 !! id = Some p ∧ renewed now s (dispatcher sched) id) →
           d' = d).
Proof.
  intros R Hn V ids. pose proof (run_Inv _ _ R Hn) as I.
  unfold SchedService.KeepTaskAlive, keep_alive_request. cbn [kta_token kta_next_keep_alive_in_ms
    kta_task_grant_ids]. rewrite V. cbn [negb]. change (secs 30 <? ms 10000) with false. cbn iota.
  pose proof (keep_alive_loop_spec ids.*2 10000 clock (dispatcher sched)) as L.
  destruct (keep_alive_loop ids.*2 10000 clock (dispatcher sched)) as [oks st'].
  destruct L as (-> & L1 & L2). do 2 eexists. split; [reflexivity|]. cbn [dispatcher with_dispatcher].
  assert (Hren : ∀ id, renewed now s (dispatcher sched) id ↔
    ∃ g, (id, g) ∈ ids ∧ keepable (dispatcher sched) g = true).
  { intros id. unfold ids. cbn [OnTimerKeepAlive_begin fst]. split.
    - intros (p & d & Hp & Hd & Hf & Hl & Hk). exists (task_grant_id d). split; [|done].
      apply (keep_alive_ids_elem n); [done|]. by exists p, d.
    - intros (g & Hin & Hk). apply (keep_alive_ids_elem n) in Hin as (p & d & Hp & Hd & <- & Hf & Hl);
        [|done]. by exists p, d. }
  split; [|split; [done|]].
  - intros id p d Hp Hd (p' & d' & Hp' & Hd' & Hf & Hl & Hk). simplify_eq. apply L1; [|done].
    apply list_elem_of_fmap. exists (id, task_grant_id d). split; [done|].
    apply (keep_alive_ids_elem n); [done|]. by exists p, d.
  - intros s2 p d Hd. rewrite OnTimerKeepAlive_end_lookup, Hd.
    pose proof (confirmed_elem (keepable (dispatcher sched)) ids s2 p) as C.
    assert (C' : confirmed ids (keepable (dispatcher sched) <$> ids.*2) s2 p = true ↔
      ∃ id, LocalDispatch.tasks_ s2 !! id = Some p ∧ renewed now s (dispatcher sched) id).
    { rewrite C. setoid_rewrite Hren. split.
      - intros (id & g & Hin & Hp & Hk). exists id. split; [done|]. by exists g.
      - intros (id & Hp & g & Hin & Hk). by exists id, g. }
    destruct (confirmed _ _ _ _); eexists; (split; [reflexivity|]); split; try done.
    + intros Hno. by destruct Hno; apply C'.
    + intros Hyes%C'. done.
Qed.
End keep_alive.

(** * Witness *)

Definition demo_lease : Service := with_dispatcher
  (set_tasks {[ 7 := {| SchedDispatch.task_id := 7;
                        task_info := {| requester_ip := ""; min_version := 0;
                                        env_desc := {| compiler_digest := "gcc" |} |};
                        servant := 0%nat; started_tp := 0; task_expires_tp := 6;
                        is_prefetch := false; is_zombie := false |} ]}
     (dispatcher demo_service)) demo_service.

Lemma keep_alive_round_witness :
  ∃ statues sched' d',
    SchedService.KeepTaskAlive (λ _, 9)
      (keep_alive_request "nieyang" (OnTimerKeepAlive_begin 9 demo_ready).1) demo_lease =
      (OK, statues, sched') ∧
    desc_heap (OnTimerKeepAlive_end 11 (OnTimerKeepAlive_begin 9 demo_ready).1 (Some statues)
                 demo_ready) !! 0%nat = Some d' ∧ last_keep_alive_tp d' = 11.
Proof.
  destruct (keep_alive_round (auto_reset := flag_auto_reset) 1 demo_ready "nieyang" (λ _, 9) 9 11
    demo_lease demo_ready_reachable eq_refl eq_refl) as (statues & sched' & E & _ & _ & Hend).
  destruct (desc_heap demo_ready !! 0%nat) as [d|] eqn:Hd; [|vm_compute in Hd; discriminate].
  destruct (Hend demo_ready 0%nat d Hd) as (d' & Hd' & Hren & _).
  exists statues, sched', d'. split; [exact E|]. split; [exact Hd'|].
  rewrite Hren; [done|]. exists 1. split; [vm_compute; reflexivity|]. exists 0%nat, d.
  vm_compute in Hd. injection Hd as <-. by vm_compute.
Defined.
