(* ===== verification/Leases.v ===== *)
(** Grants as leases, over the three daemons.

    The scheduler gives out grants, the user-side daemon keeps those of its tasks alive, and a
    servant compiles under them and reports what it runs with its heart beat.  The theorems
    put the timers and handlers of the three together (LocalDispatch, SchedService over
    SchedDispatch, DaemonService over Executor): what a heart beat makes a servant kill, what
    a keep-alive does to a grant, and that a compilation whose grant was given up is killed. *)
From S2P Require Import Prelude Text Proto Token Bookkeeper SchedDispatch SchedFacts SchedSpec.
From S2P Require Import SchedService SchedHistory SysInfo CloudTask Executor CompileTask Compilers.
From S2P Require Import Stream DaemonService.

(** * Live grants *)

(** The scheduler lets the servant at [loc] run the task of the grant [id]. *)
Definition granted (st : State) (loc : string) (id : Z) : Prop :=
  ∃ tk, SchedDispatch.tasks_ st !! id = Some tk ∧
        location (heap st) (servant tk) = Some loc ∧ is_zombie tk = false.

Lemma granted_abs n st loc id : live_at (abs n st) loc id ↔ granted st loc id.
Proof.
  unfold live_at, granted. split.
  - destruct (grants (abs n st) !! id) as [g|] eqn:G; [|done].
    apply grants_abs in G as (tk & loc' & Ht & Hl & ->). cbn. intros [-> Hz]. eauto.
  - intros (tk & Ht & Hl & Hz). by rewrite (grants_abs_at n st id tk loc Ht Hl).
Qed.

(** What a report is answered: the tasks without a live grant of the machine. *)
Lemma notify_unknown loc tasks a id :
  SchedSpec.located a →
  id ∈ (notify loc tasks a).1 ↔ id ∈ task_grant_id <$> tasks ∧ ¬ live_at a loc id.
Proof.
  intros L. unfold notify. destruct (nodes a !! loc) as [nd|] eqn:N; cbn.
  { rewrite list_elem_of_filter. tauto. }
  split; [|tauto]. intros H. split; [done|]. unfold live_at.
  destruct (grants a !! id) as [g|] eqn:G; [|by intros []]. intros [<- _].
  apply L in G as [nd G]. congruence.
Qed.

(** The two steps of the dispatcher that a heart beat makes do not touch a live grant. *)
Lemma live_at_keep_node info e now a loc id :
  live_at (keep_node info e now a) loc id ↔ live_at a loc id.
Proof. done. Qed.

Lemma live_at_notify loc tasks a loc' id :
  live_at (notify loc tasks a).2 loc' id ↔ live_at a loc' id.
Proof.
  unfold live_at, notify. destruct (nodes a !! loc); [|done]. cbn.
  destruct (grants a !! id) as [g|] eqn:G.
  - destruct (decide (g_location g = loc ∧ g_zombie g = true ∧ id ∉ task_grant_id <$> tasks)) as [D|D].
    + rewrite map_lookup_filter_None_2; [|right; intros g' Hg'; simplify_eq; cbn; tauto].
      destruct D as (_ & Z & _). split; [done|]. intros [_ Z']. congruence.
    + by rewrite (map_lookup_filter_Some_2 _ _ _ g) by done.
  - rewrite map_lookup_filter_None_2; [done|by left].
Qed.

(** * The heart beat of a servant *)

Section beat.
Context {E : Type} `{PocoEvent E} (blake3 : string → string).
Implicit Types (sv : DaemonServiceImpl (E := E)).

(** A compilation a servant has. *)
Definition compiles sv (d : TaskDesc CxxCompileTask E) : Prop :=
  ∃ id p, Executor.tasks_ (executor sv) !! id = Some p ∧ desc_heap (executor sv) !! p = Some d.

(** The heart beat reports the grant: of a compilation, and not only of a description that
    an exception of [TryQueueTask] left without its task. *)
Definition reported sv (id : Z) : Prop :=
  ∃ d, compiles sv d ∧ is_Some (task d) ∧ grant_id d = id.

Lemma GetAllTasks_grants sv id :
  id ∈ rt_task_grant_id <$> GetAllTasks (executor sv) ↔ reported sv id.
Proof.
  unfold GetAllTasks, descs. rewrite list_elem_of_fmap. split.
  - intros (rt & -> & Hrt). apply list_elem_of_omap in Hrt as ([tid d] & Hd & Ht).
    cbn in Ht. destruct (task d) as [t|] eqn:Td; [|done]. injection Ht as <-.
    apply list_elem_of_omap in Hd as ([tid' p] & Hm & Hd). cbn in Hd.
    apply fmap_Some in Hd as (d' & Hd & [= -> ->]). apply elem_of_map_to_list in Hm.
    exists d'. split; [by exists tid', p|]. by rewrite Td.
  - intros (d & (tid & p & Hm & Hd) & [t Td] & <-).
    exists {| rt_servant_task_id := tid; rt_task_grant_id := grant_id d; rt_task := t |}.
    split; [done|]. apply list_elem_of_omap. exists (tid, d). cbn. rewrite Td. split; [|done].
    apply list_elem_of_omap. exists (tid, p). rewrite elem_of_map_to_list. cbn.
    split; [done|]. apply fmap_Some. by exists d.
Qed.

(** The scheduler as the servant sees it. *)
Definition scheduler_answers (inet_pton : string → bool) (f : Flags) (buf peer : string) (now : Z)
    (sched : Service) (r : HeartBeatRequest) : option HeartBeatResponse :=
  match HeartBeat inet_pton f buf peer now r sched with
  | Ret (OK, resp, _) => resp
  | _ => None
  end.

(** A servant the scheduler knows by its token, version and address. *)
Record welcome (inet_pton : string → bool) (f : Flags) (peer : string) (fl : DaemonFlags)
    (sched : Service) sv : Prop := {
  welcome_priority :
    FLAGS_servant_priority fl = "user" ∨ FLAGS_servant_priority fl = "dedicated";
  welcome_token :
    Verify (user_token_verifier_ sched) (FLAGS_scheduler_token fl) = true ∨
    Verify (servant_token_verifier_ sched) (FLAGS_scheduler_token fl) = true;
  welcome_version : FLAGS_min_daemon_version f ≤ DISTRIBUILD_VERSION;
  welcome_location : is_Some (TryParseIPv4 inet_pton (location_ sv));
  welcome_peer : is_Some (TryParseGrpcIPv4 inet_pton peer);
  welcome_tokens : length (active_daemon_tokens_ sched) = 3%nat
}.

Lemma heartbeat_request_valid inet_pton f peer fl h sched sv :
  welcome inet_pton f peer fl sched sv →
  ∃ req, heartbeat_request blake3 fl h sv = Ret req ∧ heartbeat_valid inet_pton f peer req sched ∧
    hb_location req = location_ sv ∧
    task_grant_id <$> hb_running_tasks req = rt_task_grant_id <$> GetAllTasks (executor sv).
Proof.
  intros [Hp Ht Hv Hl Hpeer _]. unfold heartbeat_request, priority_of.
  destruct Hp as [-> | ->]; cbn; eexists; (split; [reflexivity|]); cbn;
    rewrite <- list_fmap_compose; (split; [|done]); split_and!; try done; by vm_compute.
Qed.

(** What the scheduler does with a report: the grants are those before it, the answer the
    reported tasks without a live one. *)
Lemma HeartBeat_grants mem t inet_pton f buf peer now req sched :
  run lstep (TaskDispatcher_init mem) t (dispatcher sched) → grants_of t < 2 ^ 63 →
  length (active_daemon_tokens_ sched) = 3%nat → heartbeat_valid inet_pton f peer req sched →
  ∃ resp sched', HeartBeat inet_pton f buf peer now req sched = Ret (OK, Some resp, sched') ∧
    hb_tokens resp = active_daemon_tokens_ sched' ∧ length (active_daemon_tokens_ sched') = 3%nat ∧
    (∀ id, id ∈ hb_expired_tasks resp ↔
       id ∈ task_grant_id <$> hb_running_tasks req ∧
       ¬ granted (dispatcher sched) (hb_location req) id) ∧
    (∀ loc id, granted (dispatcher sched') loc id ↔ granted (dispatcher sched) loc id).
Proof.
  intros R Hn H3 Hv.
  destruct (init_simulates mem t (dispatcher sched) R Hn) as (S & _ & A).
  destruct (HeartBeat_spec inet_pton f buf peer now req sched H3)
    as (status & resp & sched' & E1 & Hok & _ & Hbeat). apply Hok in Hv. subst status.
  destruct (Hbeat eq_refl) as (ip & port & info & tokens & expired & _ & _ & _ & -> & Hl & Ht & N).
  set (a := abs (grants_of t) (dispatcher sched)) in *.
  set (a1 := keep_node info (hb_next_heart_beat_in_ms req) now a).
  assert (L : SchedSpec.located a1).
  { apply (astep_located mem a (L_keep_servant info (hb_next_heart_beat_in_ms req) now) a1);
      [constructor|by eapply run_located]. }
  pose proof (NotifyServantRunningTasks_abs (grants_of t) (hb_location req) (hb_running_tasks req)
    (KeepServantAlive info (hb_next_heart_beat_in_ms req) now (dispatcher sched))
    (KeepServantAlive_Inv _ _ _ _ _ (sim_inv _ _ S))) as B.
  rewrite KeepServantAlive_abs, N in B by apply S. fold a a1 in B.
  do 2 eexists. split; [exact E1|]. cbn. split; [done|]. split; [by rewrite Ht|]. split.
  - intros id. change expired with (expired, abs (grants_of t) (dispatcher sched')).1.
    rewrite <- B, notify_unknown by done. unfold a1. rewrite live_at_keep_node.
    unfold a. by rewrite granted_abs.
  - intros loc id. rewrite <- !(granted_abs (grants_of t)). fold a.
    change (abs (grants_of t) (dispatcher sched')) with (expired, abs (grants_of t) (dispatcher sched')).2.
    by rewrite <- B, live_at_notify.
Qed.

(** One round: the servant's timer with the scheduler's answer. *)
Lemma heartbeat_kills mem t inet_pton f buf peer now fl h sched sv :
  run lstep (TaskDispatcher_init mem) t (dispatcher sched) → grants_of t < 2 ^ 63 →
  welcome inet_pton f peer fl sched sv →
  ∃ req resp sched' kills sv',
    HeartBeat inet_pton f buf peer now req sched = Ret (OK, Some resp, sched') ∧
    OnTimerHeartbeat blake3 fl h (scheduler_answers inet_pton f buf peer now sched) sv =
      Ret (kills, sv') ∧
    (∀ k, k ∈ kills ↔ ∃ d, compiles sv d ∧ is_running d = true ∧ k = - pid d ∧
       reported sv (grant_id d) ∧ ¬ granted (dispatcher sched) (location_ sv) (grant_id d)) ∧
    (∀ loc id, granted (dispatcher sched') loc id ↔ granted (dispatcher sched) loc id) ∧
    length (active_daemon_tokens_ sched') = 3%nat ∧
    ∀ token, IsTokenAcceptable token sv' = true ↔ token ∈ active_daemon_tokens_ sched'.
Proof.
  intros R Hn W.
  destruct (heartbeat_request_valid inet_pton f peer fl h sched sv W) as (req & Hreq & Hv & Hl & Hg).
  destruct (HeartBeat_grants mem t inet_pton f buf peer now req sched R Hn (welcome_tokens _ _ _ _ _ _ W) Hv)
    as (resp & sched' & E1 & Ht & H3 & Hx & Hsame).
  assert (Hans : scheduler_answers inet_pton f buf peer now sched req = Some resp)
    by (unfold scheduler_answers; by rewrite E1).
  destruct (OnTimerHeartbeat blake3 fl h (scheduler_answers inet_pton f buf peer now sched) sv)
    as [[kills sv']|x|x|x] eqn:T;
    try (unfold OnTimerHeartbeat in T; rewrite Hreq in T; cbn in T; rewrite Hans in T; discriminate T).
  destruct (OnTimerHeartbeat_spec blake3 fl h _ sv kills sv' req resp Hreq Hans T) as (Htok & Hk & _).
  exists req, resp, sched', kills, sv'. split_and!; try done; [|by rewrite <- Ht].
  intros k. rewrite Hk. split.
  - intros (id & p & d & Hp & Hd & Hr & He & ->). apply Hx in He as [Hi He].
    rewrite Hg, GetAllTasks_grants in Hi. rewrite Hl in He.
    exists d. split_and!; try done. by exists id, p.
  - intros (d & Hc & Hr & -> & Hrep & He). pose proof Hc as (id & p & Hp & Hd). exists id, p, d.
    split_and!; try done. apply Hx. rewrite Hl, Hg, GetAllTasks_grants. done.
Qed.

(** C16. One round of the heart beat, between a servant and the scheduler that knows it.  The
    servant kills exactly the compilations it runs under grants that it reports and the
    scheduler does not let it run any more, the scheduler keeps every live grant, and from then on the servant accepts
    exactly the scheduler's three tokens; so that a user-side daemon whose configuration is as
    old as the last round, or newer by at most one rotation, is served. *)
Theorem heartbeat_round mem t inet_pton f buf peer now fl h sched sv :
  run lstep (TaskDispatcher_init mem) t (dispatcher sched) → grants_of t < 2 ^ 63 →
  welcome inet_pton f peer fl sched sv →
  ∃ req resp sched' kills sv',
    HeartBeat inet_pton f buf peer now req sched = Ret (OK, Some resp, sched') ∧
    OnTimerHeartbeat blake3 fl h (scheduler_answers inet_pton f buf peer now sched) sv =
      Ret (kills, sv') ∧
    (∀ k, k ∈ kills ↔ ∃ d, compiles sv d ∧ is_running d = true ∧ k = - pid d ∧
       reported sv (grant_id d) ∧ ¬ granted (dispatcher sched) (location_ sv) (grant_id d)) ∧
    (∀ loc id, granted (dispatcher sched') loc id ↔ granted (dispatcher sched) loc id) ∧
    (∀ token, IsTokenAcceptable token sv' = true ↔ token ∈ active_daemon_tokens_ sched') ∧
    ∀ buf' user now', Verify (user_token_verifier_ sched') user = true →
      ∃ token sched'', GetConfig f buf' user now' sched' = Ret (OK, Some token, sched'') ∧
        IsTokenAcceptable token sv' = true.
Proof.
  intros R Hn W.
  destruct (heartbeat_kills mem t inet_pton f buf peer now fl h sched sv R Hn W)
    as (req & resp & sched' & kills & sv' & E1 & E2 & Hk & Hg & H3 & Htok).
  exists req, resp, sched', kills, sv'. split_and!; try done.
  intros buf' user now' Hu. unfold GetConfig. rewrite Hu. cbn [negb].
  destruct (ActiveDaemonTokens_cases f buf' now' sched' H3) as (tokens & sched'' & -> & _ & _ & Hc & _).
  cbn. destruct (active_daemon_tokens_ sched') as [|a [|b [|c [|]]]] eqn:Et; try done.
  destruct Hc as [-> | ->]; cbn; do 2 eexists; (split; [reflexivity|]); apply Htok, list_elem_of_In; cbn; auto.
Qed.

(** C17. A compilation whose grant was given up is killed.  Once the user-side daemon released the
    grant, or a timer of the scheduler found it expired because nobody kept it alive, then,
    whatever clients, servants and timers did before and do after that, the next heart beat of
    the servant that still runs the compilation kills it. *)
Theorem given_up_compilation_killed mem t0 st0 id tk loc u l v inet_pton f buf peer now fl h sched sv d :
  run lstep (TaskDispatcher_init mem) t0 st0 →
  SchedDispatch.tasks_ st0 !! id = Some tk → location (heap st0) (servant tk) = Some loc →
  run lstep st0 (u ++ l :: v) (dispatcher sched) → grants_of (t0 ++ u ++ l :: v) < 2 ^ 63 →
  gives_up id (task_expires_tp tk) u l →
  welcome inet_pton f peer fl sched sv →
  compiles sv d → is_Some (task d) → is_running d = true → grant_id d = id →
  ∃ kills sv',
    OnTimerHeartbeat blake3 fl h (scheduler_answers inet_pton f buf peer now sched) sv =
      Ret (kills, sv') ∧ - pid d ∈ kills.
Proof.
  intros R0 Ht Hl R Hn Hg W Hc Htask Hr <-.
  pose proof (given_up_run mem t0 st0 _ tk loc u l v _ R0 Ht Hl R Hn Hg) as [_ G].
  destruct (heartbeat_kills mem (t0 ++ u ++ l :: v) inet_pton f buf peer now fl h sched sv)
    as (req & resp & sched' & kills & sv' & _ & E2 & Hk & _); [by eapply run_app|done..|].
  exists kills, sv'. split; [exact E2|]. apply Hk. exists d. split_and!; try done; [by exists d|].
  rewrite <- (granted_abs (grants_of (t0 ++ u ++ l :: v))). unfold live_at.
  destruct (grants _ !! grant_id d) as [g|] eqn:Eg; [|by intros []]. intros [_ Hz].
  destruct (G g eq_refl) as [_ Z]. congruence.
Qed.
End beat.

(** * Witnesses *)

Definition demo_sched : Service := with_dispatcher sample_granted SchedService.demo_service.

(** A servant that runs the compilation of the grant [id]. *)
Definition demo_running (id : Z) : DaemonServiceImpl (E := bool) :=
  match QueueCxxTask (E := bool) demo_hash Some Some "/tmp/w" 10 demo_files 77 0
          (stream_of {| qct_token := "t"; qct_task_grant_id := id;
                        qct_env_desc := {| compiler_digest := "gcc" |}; qct_source_path := "a.cc";
                        qct_args := "-c -x c++ -"; qct_compress_type := COMPRESS_TYPE_ZSTD;
                        qct_fill_cache := false |} ["int x;"]) demo_daemon with
  | Ret (_, _, sv) => sv
  | _ => demo_daemon
  end.

Lemma demo_welcome sched id :
  user_token_verifier_ sched = user_token_verifier_ demo_sched →
  active_daemon_tokens_ sched = active_daemon_tokens_ demo_sched →
  welcome demo_pton SchedService.demo_flags "ipv4:10.0.0.2:5555" DaemonService.demo_flags sched
    (demo_running id).
Proof.
  intros Hu Ht. assert (L : location_ (demo_running id) = "10.0.0.2:80") by reflexivity.
  split; rewrite ?Hu, ?Ht, ?L; [by left|left; by vm_compute|by vm_compute|..]; vm_compute; eauto.
Qed.

Lemma heartbeat_round_witness :
  ∃ kills sv', OnTimerHeartbeat demo_hash DaemonService.demo_flags demo_load
      (scheduler_answers demo_pton SchedService.demo_flags "d" "ipv4:10.0.0.2:5555" 7 demo_sched)
      (demo_running 7) = Ret (kills, sv') ∧ -77 ∈ kills.
Proof.
  destruct (heartbeat_round demo_hash 0 sample_trace demo_pton SchedService.demo_flags "d"
    "ipv4:10.0.0.2:5555" 7 DaemonService.demo_flags demo_load demo_sched (demo_running 7) sample_run
    eq_refl (demo_welcome demo_sched 7 eq_refl eq_refl)) as (_ & _ & _ & kills & sv' & _ & E & Hk & _).
  exists kills, sv'. split; [exact E|]. apply Hk. unfold compiles.
  destruct (desc_heap (executor (demo_running 7)) !! 0%nat) as [d|] eqn:Hd;
    [|vm_compute in Hd; discriminate].
  assert (Hf : is_running d = true ∧ pid d = 77 ∧ grant_id d = 7 ∧ is_Some (task d))
    by (vm_compute in Hd; injection Hd as <-; split_and!; try done; by eexists).
  destruct Hf as (F1 & F2 & F3 & F4).
  assert (C : compiles (demo_running 7) d)
    by (exists 1, 0%nat; split; [vm_compute; reflexivity|exact Hd]).
  exists d. split; [exact C|]. rewrite F2, F3. split_and!; try done.
  - by exists d.
  - intros (tk & Htk & _). vm_compute in Htk. discriminate.
Defined.

Lemma given_up_compilation_killed_witness :
  let sched := with_dispatcher (SchedDispatch.FreeTask 0 sample_granted).1 demo_sched in
  ∃ kills sv', OnTimerHeartbeat demo_hash DaemonService.demo_flags demo_load
      (scheduler_answers demo_pton SchedService.demo_flags "d" "ipv4:10.0.0.2:5555" 7 sched)
      (demo_running 0) = Ret (kills, sv') ∧ -77 ∈ kills.
Proof.
  intros sched.
  destruct (desc_heap (executor (demo_running 0)) !! 0%nat) as [d|] eqn:Hd;
    [|vm_compute in Hd; discriminate].
  assert (Hf : is_running d = true ∧ pid d = 77 ∧ grant_id d = 0 ∧ is_Some (task d))
    by (vm_compute in Hd; injection Hd as <-; split_and!; try done; by eexists).
  destruct Hf as (F1 & F2 & F3 & F4).
  destruct (SchedDispatch.tasks_ sample_granted !! 0) as [tk|] eqn:Htk; [|vm_compute in Htk; discriminate].
  change (-77) with (-(77)). rewrite <- F2.
  apply (given_up_compilation_killed demo_hash 0 sample_trace sample_granted 0 tk "10.0.0.2:80"
    [] (L_free 0) [] demo_pton SchedService.demo_flags "d" "ipv4:10.0.0.2:5555" 7
    DaemonService.demo_flags demo_load sched (demo_running 0) d); try done.
  - apply sample_run.
  - vm_compute in Htk. injection Htk as <-. vm_compute. reflexivity.
  - apply (run_snoc lstep sample_granted [] sample_granted (L_free 0)); constructor.
  - by apply demo_welcome.
  - exists 1, 0%nat. split; [vm_compute; reflexivity|exact Hd].
Defined.
