(* ===== verification/LocalLimits.v ===== *)
(** The clients of one machine and the daemon that limits them: client/common/task_quota.cpp
    with its callers (Client), daemon/local/http_service_impl.cpp (HttpService) and
    daemon/local/task_monitor.cpp (LocalKeepers), as one system in which any number of clients
    run side by side.

    A client is its program and its oracle; its log grows by one interaction at a time.  The
    daemon handles a request at one moment, for [WaitForNewTask] the moment its wait ends; what
    others do to the monitor during the wait are steps of their own before it.  A response may
    be lost, a request may never arrive, a client may be killed at any moment and its pid be
    used again, by a client that does something else.  A request for a quota, and a release
    of one, may be handled when its client does not wait for it any more.  The daemon knows a
    client by its pid only, so such a late release takes the permission that a client with the
    pid has got since; the machine remembers from whom ([robbed]). *)
From S2P Require Import Prelude Text Proto MultiChunk LocalKeepers DistTask LocalDispatch.
From S2P Require Import HttpService ClientArgs Client ClientFacts HttpCall.

(** * What a client does with its quota *)

(** What an interaction tells the client about its quota. *)
Definition quota_event (o : Oracle) (i : nat) (e : Event) : option bool :=
  match e with
  | E_http (acquire_quota ms light p) =>
    if (if o_http o i (acquire_quota ms light p) is Some r then http_status r =? 200 else false)
    then Some true else None
  | E_http (release_quota _) => Some false
  | _ => None
  end.

(** Whether the client has a quota. *)
Definition holding (o : Oracle) (l : list Event) : bool :=
  default false (last (omap id (imap (quota_event o) l))).

Lemma holding_snoc o l e :
  holding o (l ++ [e]) = default (holding o l) (quota_event o (length l) e).
Proof.
  unfold holding. rewrite imap_app, omap_app. cbn. rewrite Nat.add_0_r.
  destruct (quota_event o (length l) e); cbn; [by rewrite last_snoc|by rewrite app_nil_r].
Qed.

(** A child process runs during the interaction. *)
Definition is_child (e : Event) : bool :=
  match e with E_command _ | E_native _ _ => true | _ => false end.

(** The next interaction of a careful client with the given pid: child processes run under a
    quota only, and quotas are asked for and given back for the client itself. *)
Definition careful (pid : Z) (o : Oracle) (l : list Event) (e : Event) : Prop :=
  match e with
  | E_command _ | E_native _ _ => holding o l = true
  | E_http (acquire_quota ms _ p) => p = pid ∧ is_u32 ms
  | E_http (release_quota p) => p = pid
  | _ => True
  end.

(** All interactions from [l] to [l'] are careful. *)
Definition guarded (pid : Z) (o : Oracle) (l l' : list Event) : Prop :=
  l `prefix_of` l' ∧ ∀ l1 e, l `prefix_of` l1 → l1 ++ [e] `prefix_of` l' → careful pid o l1 e.

Lemma guarded_refl pid o l : guarded pid o l l.
Proof.
  split; [done|]. intros l1 e H1%prefix_length H2%prefix_length. rewrite length_app in H2.
  cbn in H2. lia.
Qed.

Lemma guarded_trans pid o l1 l2 l3 :
  guarded pid o l1 l2 → guarded pid o l2 l3 → guarded pid o l1 l3.
Proof.
  intros [P1 G1] [P2 G2]. split; [by etrans|]. intros l e Hl He.
  destruct (decide (length l < length l2)%nat) as [L|L].
  - apply (G1 _ _ Hl). destruct (prefix_weak_total _ _ _ He P2) as [P|P]; [done|].
    rewrite (prefix_length_eq _ _ P); [done|]. rewrite length_app. cbn. lia.
  - apply (G2 _ _); [|done].
    assert (He' : l `prefix_of` l3) by (etrans; [by apply prefix_app_r|exact He]).
    destruct (prefix_weak_total _ _ _ P2 He') as [P|P]; [done|].
    rewrite (prefix_length_eq _ _ P); [done|]. lia.
Qed.

Lemma guarded_snoc pid o l e : careful pid o l e → guarded pid o l (l ++ [e]).
Proof.
  intros C. split; [by apply prefix_app_r|]. intros l1 e1 H1 H2.
  pose proof (prefix_length _ _ H2) as L. rewrite !length_app in L. cbn in L.
  assert (E : length l1 = length l) by (apply prefix_length in H1; lia).
  assert (l1 ++ [e1] = l ++ [e]) as [-> [= ->]]%app_inj_2; [|done..].
  apply (prefix_length_eq _ _ H2). rewrite !length_app. cbn. lia.
Qed.

(** ** Runs that may also fail or wait for ever *)

Section clients.
Context (blake3 : string → string) (ZSTDCompress : string → string).
Context (ZSTDDecompress : string → option string).
Context (json_of_submit : SubmitCxxTaskRequest → string).
Context (task_id_of_json : string → option (option string)).
Context (result_of_json : string → option WaitForCXXTaskResponse).
Context (env : Env).
Implicit Types (o : Oracle) (l : list Event).

Definition gp {A} o (m : C A) l (Q : A → list Event → Prop) : Prop :=
  guarded (Client.pid env) o l (m o l).2 ∧
  match (m o l).1 with Finished a => Q a (m o l).2 | _ => True end.

Lemma gp_bind {A B} o (m : C A) (f : A → C B) l Q :
  gp o m l (λ a l', gp o (f a) l' Q) → gp o (m ≫= f) l Q.
Proof.
  unfold gp, mbind, C_bind. destruct (m o l) as [[a| |e] l1]; cbn; [|done..].
  intros [G1 [G2 HQ]]. split; [|done]. by eapply guarded_trans.
Qed.

Lemma gp_ret {A} o (a : A) l (Q : A → list Event → Prop) : Q a l → gp o (mret a) l Q.
Proof. intros H. split; [apply guarded_refl|done]. Qed.

Lemma gp_mono {A} o (m : C A) l (P Q : A → list Event → Prop) :
  gp o m l P → (∀ a l', P a l' → Q a l') → gp o m l Q.
Proof. intros [G H] HQ. split; [done|]. revert H. destruct (m o l).1; auto. Qed.

Lemma gp_lift {A} o (m : outcome A) l (Q : A → list Event → Prop) :
  (∀ a, m = Ret a → Q a l) → gp o (Client.lift m) l Q.
Proof.
  intros H. unfold gp, Client.lift. destruct m; cbn; (split; [apply guarded_refl|]); auto.
Qed.

Lemma gp_waiting {A} o l (Q : A → list Event → Prop) : gp o Client.waiting l Q.
Proof. split; [apply guarded_refl|done]. Qed.

Lemma gp_log o e l (Q : () → list Event → Prop) :
  careful (Client.pid env) o l e → Q () (l ++ [e]) → gp o (log e) l Q.
Proof. intros H HQ. split; [by apply guarded_snoc|done]. Qed.

Lemma gp_http o r l (Q : option HttpReply → list Event → Prop) :
  careful (Client.pid env) o l (E_http r) → Q (o_http o (length l) r) (l ++ [E_http r]) →
  gp o (http r) l Q.
Proof. intros H HQ. split; [by apply guarded_snoc|done]. Qed.

(** A call that is not about quotas. *)
Lemma gp_call o r l (Q : option HttpReply → list Event → Prop) :
  match r with acquire_quota _ _ _ | release_quota _ => False | _ => True end →
  (holding o (l ++ [E_http r]) = holding o l → Q (o_http o (length l) r) (l ++ [E_http r])) →
  gp o (http r) l Q.
Proof.
  intros Hr HQ. apply gp_http; [by destruct r|]. apply HQ. rewrite holding_snoc. by destruct r.
Qed.

Lemma gp_try o light l :
  gp o (TryAcquireTaskQuota env light 10) l (λ b l', holding o l' = b || holding o l).
Proof.
  apply gp_bind, gp_http; [by split; [|vm_compute]|]. apply gp_ret. rewrite holding_snoc. cbn.
  by destruct (if o_http _ _ _ is Some r then _ else _).
Qed.

Lemma gp_acquire o fuel light l :
  gp o (AcquireTaskQuota env fuel light) l (λ _ l', holding o l' = true).
Proof.
  revert l; induction fuel as [|fuel IH]; intros l; [apply gp_waiting|]. cbn [AcquireTaskQuota].
  apply gp_bind. eapply gp_mono; [apply gp_try|]. intros [] l1 H1; [|apply IH].
  by apply gp_ret.
Qed.

Lemma gp_release o l : gp o (ReleaseTaskQuota env) l (λ _ l', holding o l' = false).
Proof. apply gp_bind, gp_http; [done|]. apply gp_ret. by rewrite holding_snoc. Qed.

Lemma gp_command o c l (Q : Z * string → list Event → Prop) :
  holding o l = true →
  (holding o (l ++ [E_command c]) = true →
   Q (o_command o (length l) c) (l ++ [E_command c])) →
  gp o (command c) l Q.
Proof.
  intros H HQ. split; [by apply guarded_snoc|]. cbn. apply HQ. by rewrite holding_snoc.
Qed.

Lemma gp_try_rewrite o cmd cntl l :
  holding o l = true →
  gp o (TryRewriteFileWithCommandLine blake3 ZSTDCompress cmd cntl) l
    (λ _ l', holding o l' = true).
Proof.
  intros H. apply gp_bind, gp_command; [done|]. intros H'. destruct (o_command o _ cmd).
  by apply gp_ret.
Qed.

Lemma gp_rewrite o fuel args l :
  holding o l = false →
  gp o (RewriteFile blake3 ZSTDCompress env fuel args) l (λ _ l', holding o l' = false).
Proof.
  intros H. apply gp_bind, gp_lift. intros [lang|] _; [|by apply gp_ret].
  apply gp_bind. eapply gp_mono; [apply gp_acquire|]. intros ? l1 H1.
  apply gp_bind, gp_lift. intros cmd _. apply gp_bind.
  eapply gp_mono; [by apply gp_try_rewrite|]. intros [r|] l2 H2.
  - apply gp_bind. eapply gp_mono; [apply gp_release|]. intros ? l3 H3. by apply gp_ret.
  - apply gp_bind, gp_lift. intros cmd2 _. apply gp_bind.
    eapply gp_mono; [by apply gp_try_rewrite|]. intros r l3 H3.
    apply gp_bind. eapply gp_mono; [apply gp_release|]. intros ? l4 H4. by apply gp_ret.
Qed.

Lemma gp_submit o args rw l b :
  holding o l = b →
  gp o (SubmitComileTask blake3 json_of_submit task_id_of_json env args rw) l
    (λ _ l', holding o l' = b).
Proof.
  intros H. apply gp_bind, gp_lift. intros cmd _. apply gp_bind, gp_call; [done|]. intros H1.
  destruct (o_http _ _ _) as [reply|]; [|apply gp_ret; congruence].
  destruct (_ =? 400); [|apply gp_lift; congruence].
  apply gp_bind, gp_lift. intros digest _. apply gp_bind, gp_call; [done|]. intros H2.
  destruct (o_http _ _ _) as [r|]; [|apply gp_ret; congruence].
  destruct (negb _); [apply gp_ret; congruence|].
  apply gp_bind, gp_call; [done|]. intros H3.
  destruct (o_http _ _ _) as [r'|]; [apply gp_lift|apply gp_ret]; congruence.
Qed.

Lemma gp_wait o fuel id l b :
  holding o l = b →
  gp o (WaitForCloudCompileResult ZSTDDecompress result_of_json fuel id) l
    (λ _ l', holding o l' = b).
Proof.
  revert l; induction fuel as [|fuel IH]; intros l H; [apply gp_waiting|].
  cbn [WaitForCloudCompileResult]. apply gp_bind, gp_call; [done|]. intros H1.
  destruct (o_http _ _ _) as [reply|]; [|apply gp_ret; congruence].
  destruct (_ =? 503); [apply IH; congruence|].
  destruct (_ =? 404); [apply gp_ret; congruence|]. apply gp_lift. congruence.
Qed.

Lemma gp_cloud o fuel args rw l b :
  holding o l = b →
  gp o (CompileOnCloud blake3 ZSTDDecompress json_of_submit task_id_of_json result_of_json env
          fuel args rw) l (λ _ l', holding o l' = b).
Proof.
  intros H. apply gp_bind. eapply gp_mono; [by apply gp_submit|]. intros [id|] l1 H1.
  - by apply gp_wait.
  - by apply gp_ret.
Qed.

Lemma gp_native o args argv l :
  holding o l = true → gp o (compile_on_native env args argv) l (λ _ l', holding o l' = false).
Proof.
  intros H. apply gp_bind. split; [by apply guarded_snoc|]. cbn.
  apply gp_bind. eapply gp_mono; [apply gp_release|]. intros ? l2 H2. by apply gp_ret.
Qed.

Lemma gp_native_quota o fuel args argv l :
  gp o (compile_on_native_using_quota env fuel args argv) l (λ _ l', holding o l' = false).
Proof. apply gp_bind. eapply gp_mono; [apply gp_acquire|]. intros ? l1. apply gp_native. Qed.

Lemma gp_write o dest files l b :
  holding o l = b → gp o (WriteCompileResult dest files) l (λ _ l', holding o l' = b).
Proof.
  revert l; induction files as [|[s f] files IH]; intros l H; [by apply gp_ret|].
  apply gp_bind, gp_log; [done|]. apply IH. by rewrite holding_snoc.
Qed.

Lemma gp_finish o fuel args argv r l :
  holding o l = false → gp o (finish env fuel args argv r) l (λ _ l', holding o l' = false).
Proof.
  intros H. unfold finish. destruct (negb _); [apply gp_native_quota|].
  apply gp_bind, gp_log; [done|]. apply gp_bind, gp_lift. intros dest _. apply gp_bind.
  eapply gp_mono; [apply (gp_write _ _ _ _ false); by rewrite holding_snoc|].
  intros ? l' H'. by apply gp_ret.
Qed.

Lemma gp_loop o fuel retries args argv rw l :
  holding o l = false →
  gp o (compile_loop blake3 ZSTDCompress ZSTDDecompress json_of_submit task_id_of_json
          result_of_json env fuel retries args argv rw) l (λ _ l', holding o l' = false).
Proof.
  revert rw l; induction retries as [|retries IH]; intros rw l H; cbn [compile_loop];
    (apply gp_bind; eapply gp_mono; [by apply gp_cloud|]; intros r l1 H1).
  all: destruct (_ || _); [|by apply gp_finish].
  all: apply gp_bind; eapply gp_mono; [apply gp_try|]; intros [] l2 H2; [by apply gp_native|].
  all: rewrite H1 in H2; cbn in H2.
  - by apply gp_finish.
  - apply gp_bind. eapply gp_mono; [by apply gp_rewrite|]. intros [rw2|] l3 H3; [by apply IH|].
    by apply gp_finish.
Qed.

(** A client runs child processes under a quota only, and ends without one. *)
Lemma gp_Compile o fuel args argv l :
  holding o l = false →
  gp o (Compile_with blake3 ZSTDCompress ZSTDDecompress json_of_submit task_id_of_json
          result_of_json env fuel args argv) l (λ _ l', holding o l' = false).
Proof.
  intros H. unfold Compile_with. destruct (negb _); [apply gp_native_quota|].
  apply gp_bind. eapply gp_mono; [by apply gp_rewrite|]. intros [rw|] l1 H1.
  - destruct (_ <? _); [apply gp_native_quota|by apply gp_loop].
  - apply gp_native_quota.
Qed.
End clients.

(** * The daemon and the monitor *)

Section daemon.
Context {E : Type} `{CloudTask.PocoEvent E}.
Context (parse_object : string → outcome (gmap string Var)) (empty_var : Var).
Context (submit_of_json : string → option string * SubmitCxxTaskRequest).
Context (wait_of_json : string → option string * WaitForCXXTaskRequest).
Context (digest_of_json : string → option string * SetFileDigestRequest).
Context (json_of_id : Z → string) (json_of_result : WaitForCXXTaskResponse → string).
Context (json_of_acquire : Z → bool → Z → string) (json_of_release : Z → string).
Context (json_of_digest : FileDesc → string → string) (json_of_wait : Z → Z → string).

(** The members that a handler reads of a request. *)
Definition has_pid (json : gmap string Var) (p : Z) : Prop :=
  has_integer json "requestor_pid" = true ∧ to_uint32 (get empty_var json "requestor_pid") = Ret p.
Definition has_quota (json : gmap string Var) (ms : Z) (light : bool) (p : Z) : Prop :=
  has_pid json p ∧
  has_integer json "ms_to_wait" = true ∧ to_uint32 (get empty_var json "ms_to_wait") = Ret ms ∧
  has_boolean json "lightweight" = true ∧ to_bool (get empty_var json "lightweight") = Ret light.

(** The JSON of the client, as the daemon reads it. *)
Record JsonLaws : Prop := {
  acquire_law ms light p : is_u32 ms → is_u32 p →
    ∃ json, parse_object (json_of_acquire ms light p) = Ret json ∧ has_quota json ms light p;
  release_law p : is_u32 p →
    ∃ json, parse_object (json_of_release p) = Ret json ∧ has_pid json p
}.

Definition daemon_serves (r : HttpRequest) (i : Input) : M () :=
  let w := wire_of json_of_acquire json_of_release json_of_digest json_of_wait r in
  handleRequest parse_object empty_var submit_of_json wait_of_json digest_of_json json_of_id
    json_of_result POST (w_uri w) (w_body w) i.

(** A handler that has nothing to do with quotas leaves the monitor alone. *)
Lemma other_handlers_keep r i (d : Daemon (E := E)) o d' l :
  match r with acquire_quota _ _ _ | release_quota _ => False | _ => True end →
  serve (daemon_serves r i) d = (o, d', l) → monitor d' = monitor d.
Proof.
  intros Hr. destruct r; try done; unfold serve, daemon_serves, handleRequest; cbn [wire_of w_uri w_body];
    change (route _ _) with (Some H_SubmitCxxTask) || change (route _ _) with (Some H_SetFileDigest)
      || change (route _ _) with (Some H_WaitForTask);
    unfold SubmitCxxTask, SetFileDigest, HttpService.WaitForTask, try_catch, mbind, M_bind,
      HttpService.lift, with_daemon, send, setStatus, mret, M_ret; cbn; intros Hs.
  all: repeat (case_match; simplify_eq/=; try done).
Qed.

Context (laws : JsonLaws).

(** A request for a quota asks the monitor, and its status is the answer. *)
Lemma serves_acquire ms light p i (d : Daemon (E := E)) :
  is_u32 ms → is_u32 p → (∀ m, in_monitor_others i m = m) →
  let '(ok, m) := Monitor.WaitForNewTask_end p light (Monitor.count_waiter light (monitor d)) in
  serve (daemon_serves (acquire_quota ms light p) i) d =
    (Ret (), with_monitor m d, [(if ok then HTTP_OK else HTTP_SERVICE_UNAVAILABLE, "")]).
Proof.
  intros Hms Hp Hi. destruct (acquire_law laws ms light p Hms Hp) as (json & J & [I1 V1] & I2 & V2 & I3 & V3).
  destruct (Monitor.WaitForNewTask_end _ _ _) as [ok m] eqn:W.
  unfold serve, daemon_serves, handleRequest. cbn [wire_of w_uri w_body].
  change (route _ _) with (Some H_AcquireQuota).
  unfold AcquireQuota, try_catch, mbind, M_bind, HttpService.lift, with_daemon. cbn [w_body json_wire].
  rewrite J, I1, I2, I3. cbn. rewrite V1, V2, V3. unfold Monitor.WaitForNewTask.
  rewrite Hi, W. destruct (Monitor.may_run _ _); by destruct ok.
Qed.

(** A release drops the permission. *)
Lemma serves_release p i (d : Daemon (E := E)) :
  is_u32 p →
  serve (daemon_serves (release_quota p) i) d =
    (Ret (), with_monitor (Monitor.DropTask p (monitor d)).1 d, [(HTTP_OK, "")]).
Proof.
  intros Hp. destruct (release_law laws p Hp) as (json & J & I1 & V1).
  unfold serve, daemon_serves, handleRequest. cbn [wire_of w_uri w_body].
  change (route _ _) with (Some H_ReleaseQuota).
  unfold ReleaseQuota, try_catch, mbind, M_bind, HttpService.lift, with_daemon. cbn [w_body json_wire].
  rewrite J, I1. cbn. by rewrite V1.
Qed.

(** * The machine *)

Context (blake3 : string → string) (ZSTDCompress : string → string).
Context (ZSTDDecompress : string → option string).
Context (json_of_submit : SubmitCxxTaskRequest → string).
Context (task_id_of_json : string → option (option string)).
Context (result_of_json : string → option WaitForCXXTaskResponse).

(** What a client is started with, and what it meets. *)
Record Job := {
  j_control : CacheControl;
  j_mtime_size : Z * Z;
  j_compiler : option string;
  j_fuel : nat;
  j_args : CompilerArgs;
  j_argv : list string;
  j_oracle : Oracle
}.

Definition env_of (p : Z) (j : Job) : Env := {|
  Client.pid := p; control := j_control j; mtime_size := j_mtime_size j;
  compiler_content := j_compiler j |}.

(** The whole run of the client with pid [p]. *)
Definition run (p : Z) (j : Job) : Result Z * list Event :=
  Compile_with blake3 ZSTDCompress ZSTDDecompress json_of_submit task_id_of_json result_of_json
    (env_of p j) (j_fuel j) (j_args j) (j_argv j) (j_oracle j) [].

Record Machine := {
  the_daemon : Daemon (E := E);
  clients : gmap Z (Job * list Event);   (* that were started, by pid, with their logs *)
  gone : gset Z;                         (* pids of clients that are no more *)
  robbed : gset Z                        (* whose permission a late release took *)
}.
Definition granted (s : Machine) : gset Z :=
  Monitor.permissions_granted_ (monitor (the_daemon s)).

(** [e] is the next interaction of the client [p]. *)
Definition next_of (s : Machine) (p : Z) (j : Job) (l : list Event) (e : Event) : Prop :=
  clients s !! p = Some (j, l) ∧ l ++ [e] `prefix_of` (run p j).2.

Definition done_by (s : Machine) (p : Z) (j : Job) (l : list Event) (e : Event) (d : Daemon)
    : Machine := {|
  the_daemon := d; clients := <[p := (j, l ++ [e])]> (clients s); gone := gone s;
  robbed := if e is E_http (release_quota _) then robbed s ∖ {[ p ]} else robbed s |}.

Definition with_daemon_of (d : Daemon) (s : Machine) : Machine := {|
  the_daemon := d; clients := clients s; gone := gone s; robbed := robbed s |}.

(** A request about quotas to which no response came. *)
Definition unanswered (o : Oracle) (l : list Event) : Prop :=
  ∃ i r, l !! i = Some (E_http r) ∧ o_http o i r = None ∧
         match r with acquire_quota _ _ _ | release_quota _ => True | _ => False end.

Lemma unanswered_app o l e : unanswered o l → unanswered o (l ++ [e]).
Proof. intros (i & r & Hl & Hr). exists i, r. split; [by apply lookup_app_l_Some|done]. Qed.

(** A request of some client [p] that did not wait for the response. *)
Definition given_up (s : Machine) (p : Z) : Prop :=
  p ∈ gone s ∨ ∃ j l, clients s !! p = Some (j, l) ∧ unanswered (j_oracle j) l.

Inductive mstep (s : Machine) : Machine → Prop :=
  | m_start p j :
      clients s !! p = None → is_u32 p →
      mstep s {| the_daemon := the_daemon s; clients := <[p := (j, [])]> (clients s);
                 gone := gone s; robbed := robbed s |}
  (* a client ended, or was killed; its pid may be used again *)
  | m_gone p x :
      clients s !! p = Some x →
      mstep s {| the_daemon := the_daemon s; clients := delete p (clients s);
                 gone := {[ p ]} ∪ gone s; robbed := robbed s ∖ {[ p ]} |}
  (* the daemon handles a request; the response arrives or is lost *)
  | m_served p j l r i d status body :
      next_of s p j l (E_http r) → (∀ m, in_monitor_others i m = m) →
      serve (daemon_serves r i) (the_daemon s) = (Ret (), d, [(status, body)]) →
      o_http (j_oracle j) (length l) r = Some {| http_status := status; http_body := body |} ∨
      o_http (j_oracle j) (length l) r = None →
      mstep s (done_by s p j l (E_http r) d)
  (* a request that never arrives *)
  | m_lost p j l r :
      next_of s p j l (E_http r) → o_http (j_oracle j) (length l) r = None →
      mstep s (done_by s p j l (E_http r) (the_daemon s))
  (* a request for a quota that is handled after its client gave it up, or is gone *)
  | m_late p ms light i d status body :
      given_up s p → is_u32 ms → is_u32 p → (∀ m, in_monitor_others i m = m) →
      serve (daemon_serves (acquire_quota ms light p) i) (the_daemon s) = (Ret (), d, [(status, body)]) →
      mstep s (with_daemon_of d s)
  (* a release that is handled so late *)
  | m_late_release p i d status body :
      given_up s p → is_u32 p →
      serve (daemon_serves (release_quota p) i) (the_daemon s) = (Ret (), d, [(status, body)]) →
      mstep s {| the_daemon := d; clients := clients s; gone := gone s;
                 robbed := if decide (p ∈ granted s) then {[ p ]} ∪ robbed s else robbed s |}
  (* a child process, or output *)
  | m_other p j l e :
      next_of s p j l e → match e with E_http _ => False | _ => True end →
      mstep s (done_by s p j l e (the_daemon s))
  (* the timer of the monitor; clients that have not ended are alive *)
  | m_timer proc m :
      Monitor.OnTimerCheckAliveProc proc (monitor (the_daemon s)) = Ret m →
      (∀ p j l, clients s !! p = Some (j, l) → l ≠ (run p j).2 →
                Monitor.IsAliveProc (proc p) = Ret true) →
      mstep s (with_daemon_of (with_monitor m (the_daemon s)) s)
  (* the other threads of the daemon *)
  | m_daemon d :
      monitor d = monitor (the_daemon s) →
      mstep s (with_daemon_of d s).

Inductive mreachable (flag cores : Z) : Machine → Prop :=
  | m_init d :
      monitor d = Monitor.TaskMonitor_init flag cores →
      mreachable flag cores {| the_daemon := d; clients := ∅; gone := ∅; robbed := ∅ |}
  | m_next s s' : mreachable flag cores s → mstep s s' → mreachable flag cores s'.

Record minv (flag cores : Z) (s : Machine) : Prop := {
  i_log p j l : clients s !! p = Some (j, l) → l `prefix_of` (run p j).2 ∧ is_u32 p;
  i_holding p j l : clients s !! p = Some (j, l) → l ≠ (run p j).2 →
    holding (j_oracle j) l = true → p ∈ granted s ∨ p ∈ robbed s;
  i_granted p : p ∈ granted s → p ∉ gone s →
    ∃ j l, clients s !! p = Some (j, l) ∧
         (holding (j_oracle j) l = true ∨ unanswered (j_oracle j) l);
  i_monitor : Monitor.reachable flag cores (monitor (the_daemon s))
}.

Lemma run_careful p j l e : l ++ [e] `prefix_of` (run p j).2 → careful p (j_oracle j) l e.
Proof.
  intros Hl. destruct (gp_Compile blake3 ZSTDCompress ZSTDDecompress json_of_submit task_id_of_json
    result_of_json (env_of p j) (j_oracle j) (j_fuel j) (j_args j) (j_argv j) [] eq_refl)
    as [[_ G] _].
  apply G; [apply prefix_nil|exact Hl].
Qed.

Lemma snoc_not_whole p j l e : l ++ [e] `prefix_of` (run p j).2 → l ≠ (run p j).2.
Proof. intros Hp%prefix_length ->. rewrite length_app in Hp. cbn in Hp. lia. Qed.

Lemma holding_kept {A} o l e (x y : A) :
  holding o (l ++ [e]) = true → (if e is E_http (release_quota _) then x else y) = y.
Proof. rewrite holding_snoc. by destruct e as [[]| | | |]. Qed.

Lemma still_robbed s e p q :
  p ≠ q → q ∈ (if e is E_http (release_quota _) then robbed s ∖ {[ p ]} else robbed s) ↔ q ∈ robbed s.
Proof.
  intros Hne. destruct e as [[]| | | |]; try done. rewrite elem_of_difference, elem_of_singleton.
  split; [by intros []|by intros; split].
Qed.

(** An interaction of a client that leaves the permissions of the others alone. *)
Lemma done_by_inv flag cores s p j l e d :
  minv flag cores s → next_of s p j l e →
  (∀ q, q ≠ p → q ∈ Monitor.permissions_granted_ (monitor d) ↔ q ∈ granted s) →
  Monitor.reachable flag cores (monitor d) →
  (holding (j_oracle j) (l ++ [e]) = true →
   p ∈ Monitor.permissions_granted_ (monitor d) ∨ p ∈ robbed s) →
  (p ∈ Monitor.permissions_granted_ (monitor d) → p ∉ gone s →
   holding (j_oracle j) (l ++ [e]) = true ∨ unanswered (j_oracle j) (l ++ [e])) →
  minv flag cores (done_by s p j l e d).
Proof.
  intros I [Hp Hl] Hq HR Hh Hg. split; unfold done_by, granted; cbn.
  - intros q j' l' [[<- [= <- <-]]|[_ Hl']]%lookup_insert_Some; [|by apply (i_log _ _ _ I)].
    split; [done|]. by apply (i_log _ _ _ I) in Hp as [_ Hu].
  - intros q j' l' [[<- [= <- <-]]|[Hne Hl']]%lookup_insert_Some Hw Hh'.
    + rewrite (holding_kept _ _ _ _ _ Hh'). by apply Hh.
    + rewrite still_robbed by done. destruct (i_holding _ _ _ I q j' l' Hl' Hw Hh'); [left|by right].
      by apply Hq.
  - intros q Hin Hgone. destruct (decide (p = q)) as [<-|Hne].
    + rewrite lookup_insert_eq. eauto.
    + rewrite lookup_insert_ne by done. apply (i_granted _ _ _ I); [by apply Hq|done].
  - done.
Qed.

(** An interaction after which the permissions are as before. *)
Lemma same_granted_inv flag cores s p j l e d :
  minv flag cores s → next_of s p j l e → monitor d = monitor (the_daemon s) →
  (holding (j_oracle j) (l ++ [e]) = true → holding (j_oracle j) l = true) →
  (holding (j_oracle j) l = true → holding (j_oracle j) (l ++ [e]) = true ∨
     unanswered (j_oracle j) (l ++ [e])) →
  minv flag cores (done_by s p j l e d).
Proof.
  intros I Hn Hd H1 H2. pose proof Hn as [Hp Hl]. apply done_by_inv; rewrite ?Hd; try done.
  - apply (i_monitor _ _ _ I).
  - intros Hh%H1. eapply (i_holding _ _ _ I); [exact Hp| |exact Hh]. by eapply snoc_not_whole.
  - intros Hg Hgone. destruct (i_granted _ _ _ I p Hg Hgone) as (j' & l' & Hp' & Hl').
    rewrite Hp in Hp'. injection Hp' as <- <-. destruct Hl' as [|U]; [by apply H2|].
    right. by apply unanswered_app.
Qed.

Lemma holding_other o l r :
  match r with acquire_quota _ _ _ | release_quota _ => False | _ => True end →
  holding o (l ++ [E_http r]) = holding o l.
Proof. intros Hr. rewrite holding_snoc. by destruct r. Qed.

Lemma unanswered_snoc o l r :
  match r with acquire_quota _ _ _ | release_quota _ => True | _ => False end →
  o_http o (length l) r = None → unanswered o (l ++ [E_http r]).
Proof. intros Hr Ho. exists (length l), r. by rewrite list_lookup_middle. Qed.

(** Asking for a quota keeps the monitor reachable, and changes nothing for other pids. *)
Lemma acquire_monitor flag cores s p ms light i d status body :
  Monitor.reachable flag cores (monitor (the_daemon s)) →
  is_u32 ms → is_u32 p → (∀ m, in_monitor_others i m = m) →
  serve (daemon_serves (acquire_quota ms light p) i) (the_daemon s) = (Ret (), d, [(status, body)]) →
  Monitor.reachable flag cores (monitor d) ∧
  (∀ q, q ∈ granted s → q ∈ Monitor.permissions_granted_ (monitor d)) ∧
  (∀ q, q ≠ p → q ∈ Monitor.permissions_granted_ (monitor d) → q ∈ granted s).
Proof.
  intros M Hms Hu Hi Hs. pose proof (serves_acquire ms light p i (the_daemon s) Hms Hu Hi) as W.
  rewrite Hs in W.
  assert (R : ∀ m', Monitor.step (Monitor.count_waiter light (monitor (the_daemon s))) m' →
                Monitor.reachable flag cores m').
  { intros m' Hm'. eapply Monitor.reach_step; [|exact Hm']. eapply Monitor.reach_step; [exact M|constructor]. }
  pose proof (R _ (Monitor.step_wait _ p light)) as R'. unfold granted.
  unfold Monitor.WaitForNewTask_end in *. destruct (Monitor.may_run _ _).
  - injection W as -> -> ->. cbn. split; [done|]. setoid_rewrite elem_of_union.
    setoid_rewrite elem_of_singleton. split; [auto|]. intros q Hq [|]; done.
  - by injection W as -> -> ->.
Qed.

Lemma acquire_inv flag cores s p j l ms light i d status body :
  minv flag cores s → next_of s p j l (E_http (acquire_quota ms light p)) → is_u32 ms →
  (∀ m, in_monitor_others i m = m) →
  serve (daemon_serves (acquire_quota ms light p) i) (the_daemon s) = (Ret (), d, [(status, body)]) →
  o_http (j_oracle j) (length l) (acquire_quota ms light p) =
    Some {| http_status := status; http_body := body |} ∨
  o_http (j_oracle j) (length l) (acquire_quota ms light p) = None →
  minv flag cores (done_by s p j l (E_http (acquire_quota ms light p)) d).
Proof.
  intros I Hn Hms Hi Hs Ho. pose proof Hn as [Hp Hl].
  destruct (i_log _ _ _ I p j l Hp) as [_ Hu].
  pose proof (serves_acquire ms light p i (the_daemon s) Hms Hu Hi) as W. rewrite Hs in W.
  assert (R : ∀ m', Monitor.step (Monitor.count_waiter light (monitor (the_daemon s))) m' →
                Monitor.reachable flag cores m').
  { intros m' Hm'. eapply Monitor.reach_step; [|exact Hm'].
    eapply Monitor.reach_step; [apply (i_monitor _ _ _ I)|constructor]. }
  pose proof (R _ (Monitor.step_wait _ p light)) as R'.
  unfold Monitor.WaitForNewTask_end in *. destruct (Monitor.may_run _ _).
  - injection W as -> -> ->. apply done_by_inv; try done; cbn.
    + intros q Hq. rewrite elem_of_union, elem_of_singleton. unfold granted. tauto.
    + intros _. left. apply elem_of_union. left. by apply elem_of_singleton.
    + intros _ _. destruct Ho as [Ho|Ho]; [left|right; by apply unanswered_snoc].
      rewrite holding_snoc. cbn. by rewrite Ho.
  - injection W as -> -> ->. eapply done_by_inv; try done; cbn.
    all: assert (Hh : holding (j_oracle j) (l ++ [E_http (acquire_quota ms light p)]) =
                      holding (j_oracle j) l)
      by (rewrite holding_snoc; cbn; by destruct Ho as [-> | ->]).
    + intros Hx. rewrite Hh in Hx. eapply (i_holding _ _ _ I); [exact Hp| |exact Hx].
      by eapply snoc_not_whole.
    + intros Hg Hgone. rewrite Hh. destruct (i_granted _ _ _ I p Hg Hgone) as (j' & l' & Hp' & Hl').
      rewrite Hp in Hp'. injection Hp' as <- <-. destruct Hl' as [|U]; [by left|].
      right. by apply unanswered_app.
Qed.

Lemma dropped p m q :
  q ∈ Monitor.permissions_granted_ (Monitor.DropTask p m).1 ↔
  q ≠ p ∧ q ∈ Monitor.permissions_granted_ m.
Proof.
  unfold Monitor.DropTask. destruct (decide _); cbn.
  - rewrite elem_of_difference, elem_of_singleton. tauto.
  - split; [intros Hq; split; [congruence|done]|tauto].
Qed.

Lemma release_inv flag cores s p j l i d status body :
  minv flag cores s → next_of s p j l (E_http (release_quota p)) →
  serve (daemon_serves (release_quota p) i) (the_daemon s) = (Ret (), d, [(status, body)]) →
  minv flag cores (done_by s p j l (E_http (release_quota p)) d).
Proof.
  intros I Hn Hs. pose proof Hn as [Hp Hl]. destruct (i_log _ _ _ I p j l Hp) as [_ Hu].
  rewrite serves_release in Hs by done. injection Hs as <- _ _.
  assert (Hf : holding (j_oracle j) (l ++ [E_http (release_quota p)]) = false)
    by (by rewrite holding_snoc).
  apply done_by_inv; try done; cbn.
  - intros q Hq. rewrite dropped. unfold granted. tauto.
  - eapply Monitor.reach_step; [apply (i_monitor _ _ _ I)|constructor].
  - by rewrite Hf.
  - intros [? _]%dropped. tauto.
Qed.

Lemma check_alive_keeps proc pids g g' p :
  Monitor.check_alive proc pids g = Ret g' → Monitor.IsAliveProc (proc p) = Ret true →
  p ∈ g → p ∈ g'.
Proof.
  intros Hg Ha. revert g Hg. induction pids as [|q pids IH]; intros g; cbn; [by intros [= <-]|].
  intros (b & Hb & Hg)%bind_Ret Hp. apply (IH _ Hg). destruct b; [done|].
  apply elem_of_difference. split; [done|]. intros ->%elem_of_singleton. congruence.
Qed.

Lemma timer_inv flag cores s proc m :
  minv flag cores s → Monitor.OnTimerCheckAliveProc proc (monitor (the_daemon s)) = Ret m →
  (∀ p j l, clients s !! p = Some (j, l) → l ≠ (run p j).2 →
            Monitor.IsAliveProc (proc p) = Ret true) →
  minv flag cores (with_daemon_of (with_monitor m (the_daemon s)) s).
Proof.
  intros I Hm Ha. pose proof Hm as (g & Hg & [= <-])%bind_Ret.
  split; unfold granted; cbn.
  - apply (i_log _ _ _ I).
  - intros p j l Hp Hw Hh. destruct (i_holding _ _ _ I _ _ _ Hp Hw Hh); [left|by right].
    eapply check_alive_keeps; [exact Hg|by eapply Ha|done].
  - intros p Hp Hgone. apply (i_granted _ _ _ I); [by eapply Monitor.check_alive_sub|done].
  - eapply Monitor.reach_step; [apply (i_monitor _ _ _ I)|]. by econstructor.
Qed.

Lemma start_inv flag cores s p j :
  minv flag cores s → clients s !! p = None → is_u32 p →
  minv flag cores {| the_daemon := the_daemon s; clients := <[p := (j, [])]> (clients s);
                     gone := gone s; robbed := robbed s |}.
Proof.
  intros I Hp Hu. split; unfold granted; cbn.
  - intros q j' l [[<- [= <- <-]]|[_ Hq]]%lookup_insert_Some; [by split; [apply prefix_nil|]|].
    by apply (i_log _ _ _ I).
  - intros q j' l [[<- [= <- <-]]|[_ Hq]]%lookup_insert_Some; [done|]. by apply (i_holding _ _ _ I).
  - intros q Hq Hgone. destruct (i_granted _ _ _ I q Hq Hgone) as (j' & l & Hl & Hx).
    exists j', l. split; [|done]. rewrite lookup_insert_ne; [done|]. congruence.
  - apply (i_monitor _ _ _ I).
Qed.

Lemma gone_inv flag cores s p :
  minv flag cores s →
  minv flag cores {| the_daemon := the_daemon s; clients := delete p (clients s);
                     gone := {[ p ]} ∪ gone s; robbed := robbed s ∖ {[ p ]} |}.
Proof.
  intros I. split; unfold granted; cbn.
  - intros q j l [_ Hq]%lookup_delete_Some. by apply (i_log _ _ _ I).
  - intros q j l [Hne Hq]%lookup_delete_Some Hw Hh.
    rewrite elem_of_difference, elem_of_singleton.
    destruct (i_holding _ _ _ I _ _ _ Hq Hw Hh); [by left|right; by split].
  - intros q Hq [Hne Hg]%not_elem_of_union. rewrite elem_of_singleton in Hne.
    rewrite lookup_delete_ne by done. by apply (i_granted _ _ _ I).
  - apply (i_monitor _ _ _ I).
Qed.

Lemma late_inv flag cores s p ms light i d status body :
  minv flag cores s → given_up s p →
  is_u32 ms → is_u32 p → (∀ m, in_monitor_others i m = m) →
  serve (daemon_serves (acquire_quota ms light p) i) (the_daemon s) = (Ret (), d, [(status, body)]) →
  minv flag cores (with_daemon_of d s).
Proof.
  intros I Hl Hms Hu Hi Hs.
  destruct (acquire_monitor _ _ _ _ _ _ _ _ _ _ (i_monitor _ _ _ I) Hms Hu Hi Hs) as (R & H1 & H2).
  split; unfold granted; cbn.
  - apply (i_log _ _ _ I).
  - intros q j l Hq Hw Hh. destruct (i_holding _ _ _ I _ _ _ Hq Hw Hh); [left; by apply H1|by right].
  - intros q Hq Hgone. destruct (decide (q = p)) as [->|Hne].
    + destruct Hl as [|(j & l & Hp & U)]; [done|]. eauto.
    + apply (i_granted _ _ _ I); [by apply H2|done].
  - done.
Qed.

(** A late release: the client that had the permission is remembered. *)
Lemma late_release_inv flag cores s p i d status body :
  minv flag cores s → is_u32 p →
  serve (daemon_serves (release_quota p) i) (the_daemon s) = (Ret (), d, [(status, body)]) →
  minv flag cores {| the_daemon := d; clients := clients s; gone := gone s;
                     robbed := if decide (p ∈ granted s) then {[ p ]} ∪ robbed s else robbed s |}.
Proof.
  intros I Hu Hs. rewrite serves_release in Hs by done. injection Hs as <- _ _.
  split; unfold granted; cbn.
  - apply (i_log _ _ _ I).
  - intros q j l Hq Hw Hh. rewrite dropped. fold (granted s).
    pose proof (i_holding _ _ _ I _ _ _ Hq Hw Hh) as X.
    destruct (decide (q = p)) as [->|], (decide _); rewrite ?elem_of_union, ?elem_of_singleton;
      tauto.
  - intros q [_ Hq]%dropped Hgone. by apply (i_granted _ _ _ I).
  - eapply Monitor.reach_step; [apply (i_monitor _ _ _ I)|constructor].
Qed.

Lemma mstep_inv flag cores s s' : minv flag cores s → mstep s s' → minv flag cores s'.
Proof.
  intros I [p j Hp Hu|p x Hp|p j l r i d status body Hn Hi Hs Ho|p j l r Hn Ho
           |p ms light i d status body Hl Hms Hu Hi Hs|p i d status body Hl Hu Hs
           |p j l e Hn He|proc m Hm Ha|d Hd].
  - by apply start_inv.
  - by eapply gone_inv.
  - pose proof (run_careful _ _ _ _ (proj2 Hn)) as C. destruct r as [ms light q|q|c|f x|t w].
    + destruct C as [-> Hms]. by eapply acquire_inv.
    + cbn in C. subst q. by eapply release_inv.
    + apply (same_granted_inv _ _ _ _ _ _ _ _ I Hn);
        [by eapply other_handlers_keep; [|exact Hs]|rewrite holding_other by done; auto..].
    + apply (same_granted_inv _ _ _ _ _ _ _ _ I Hn);
        [by eapply other_handlers_keep; [|exact Hs]|rewrite holding_other by done; auto..].
    + apply (same_granted_inv _ _ _ _ _ _ _ _ I Hn);
        [by eapply other_handlers_keep; [|exact Hs]|rewrite holding_other by done; auto..].
  - apply same_granted_inv; [done..| |]; rewrite holding_snoc.
    + destruct r; cbn; try done. by rewrite Ho.
    + destruct r; cbn; try (by auto); intros _; right; by apply unanswered_snoc.
  - by apply (late_inv _ _ _ p ms light i d status body).
  - by eapply late_release_inv.
  - apply same_granted_inv; [done..| |]; rewrite holding_snoc; destruct e; cbn; auto; done.
  - by eapply timer_inv.
  - split; unfold granted; cbn; rewrite ?Hd; apply I.
Qed.

Lemma mreachable_inv flag cores s : mreachable flag cores s → minv flag cores s.
Proof.
  induction 1 as [d Hd|s s' _ IH St]; [|by eapply mstep_inv].
  split; unfold granted; cbn; rewrite ?Hd; [done|done| |constructor].
  intros p Hp. cbn in Hp. by apply elem_of_empty in Hp.
Qed.

(** * Properties *)

(** The client [p] runs a child process, or is about to. *)
Definition busy (s : Machine) (p : Z) : Prop := ∃ j l e, next_of s p j l e ∧ is_child e = true.

(** C14. The limit of the machine holds.  However many clients run, and however their requests,
    the losses and delays of messages, their deaths and the timers of the daemon interleave:
    never more of them run a preprocessor or a compiler at the same time than the limits for
    heavy and light tasks allow together, apart from those whose permission a late release
    took, the release of an earlier request, or of an earlier client with the same pid.
    And a client that ended, and got a response to all it asked
    about quotas, has no permission left, unless an earlier client had its pid. *)
Theorem local_limit flag cores s :
  0 ≤ cores → mreachable flag cores s →
  (∀ ps : gset Z, (∀ p, p ∈ ps → busy s p ∧ p ∉ robbed s) →
     Z.of_nat (base.size ps) ≤ Monitor.max_heavy_tasks_ (monitor (the_daemon s)) +
                               Monitor.max_light_tasks_ (monitor (the_daemon s))) ∧
  (∀ p j z, p ∉ gone s → clients s !! p = Some (j, (run p j).2) → (run p j).1 = Finished z →
     ¬ unanswered (j_oracle j) (run p j).2 → p ∉ granted s).
Proof.
  intros Hc R. pose proof (mreachable_inv _ _ _ R) as I. split.
  - intros ps Hps. etrans; [|apply (Monitor.monitor_limits flag cores _ Hc (i_monitor _ _ _ I))].
    apply Nat2Z.inj_le, subseteq_size. intros p [(j & l & e & [Hp Hl] & He) Hrob]%Hps.
    destruct (i_holding _ _ _ I p j l Hp); [by eapply snoc_not_whole| |done..].
    apply run_careful in Hl. by destruct e.
  - intros p j z Hgone Hp Hz Hu Hg.
    destruct (i_granted _ _ _ I p Hg Hgone) as (j' & l & Hl & [Hh|U]);
      rewrite Hp in Hl; injection Hl as <- <-; [|done].
    destruct (gp_Compile blake3 ZSTDCompress ZSTDDecompress json_of_submit task_id_of_json
      result_of_json (env_of p j) (j_oracle j) (j_fuel j) (j_args j) (j_argv j) [] eq_refl) as [_ Q].
    fold (run p j) in Q. rewrite Hz in Q. congruence.
Qed.
End daemon.

(** * Witnesses *)

#[local] Existing Instance CloudTask.flag_event.

(** A JSON of three members. *)
Definition demo_acquire (ms : Z) (light : bool) (p : Z) : string :=
  join "," [if light then "1" else "0"; Text.to_string ms; Text.to_string p].
Definition demo_release (p : Z) : string := join "," ["0"; "0"; Text.to_string p].
Definition demo_number (s : string) : Var := {|
  isInteger := true; isBoolean := true; to_uint32 := stoul s; to_bool := Ret (String.eqb s "1") |}.
Definition demo_parse (s : string) : outcome (gmap string Var) :=
  match Split_char s "," true with
  | [light; ms; p] => Ret (list_to_map [("lightweight", demo_number light);
                                        ("ms_to_wait", demo_number ms);
                                        ("requestor_pid", demo_number p)])
  | _ => Throw JSONException
  end.

Lemma demo_laws : JsonLaws demo_parse HttpService.demo_empty demo_acquire demo_release.
Proof.
  assert (U : ∀ z, is_u32 z → is_u64 z) by (intros z [? ?]; split; lia).
  split.
  - intros ms light p Hms Hp. eexists. split.
    + unfold demo_parse, demo_acquire. rewrite Split_of_join; [reflexivity| |done|done].
      repeat constructor; try (by apply to_string_no_char). by destruct light.
    + repeat split; cbn; try (by apply stoul_to_string, U). by destruct light.
  - intros p Hp. eexists. split.
    + unfold demo_parse, demo_release. rewrite Split_of_join; [reflexivity| |done|done].
      repeat constructor; by apply to_string_no_char.
    + repeat split; cbn; by apply stoul_to_string, U.
Qed.

Definition demo_job : Job := {|
  j_control := Disallow; j_mtime_size := (2, 1); j_compiler := Some "gcc"; j_fuel := 1;
  j_args := demo_args; j_argv := demo_argv;
  j_oracle := ClientFacts.demo_oracle true |}.
Definition demo_machine0 : Machine (E := bool) := {|
  the_daemon := with_monitor (Monitor.TaskMonitor_init 1 8) HttpService.demo_http; clients := ∅;
  gone := ∅; robbed := ∅ |}.
Definition demo_wait : WaitForCXXTaskRequest := {| wcx_task_id := 0; wcx_ms_to_wait := 0 |}.
Definition demo_digest : SetFileDigestRequest := {|
  sfd_file_desc := sct_compiler demo_submit; sfd_digest := "" |}.
Definition demo_reachable : Machine (E := bool) → Prop :=
  mreachable demo_parse HttpService.demo_empty (λ _, (None, demo_submit)) (λ _, (Some "none", demo_wait))
    (λ _, (Some "none", demo_digest)) (λ _, "") (λ _, "") demo_acquire demo_release (λ _ _, "") (λ _ _, "")
    (λ s, s) (λ s, s) Some (λ _, "") (λ _, None) (λ _, None) 1 8.
Definition demo_input : Input (E := bool) := {|
  in_version_json := ""; in_monitor_others := λ m, m; in_disp_others := λ t, t; in_room := true;
  in_now := 0 |}.
Definition demo_busy : Machine (E := bool) → Z → Prop :=
  busy (λ s, s) (λ s, s) Some (λ _, "") (λ _, None) (λ _, None).

Definition demo_start (s : Machine (E := bool)) (p : Z) : Machine := {|
  the_daemon := the_daemon s; clients := <[p := (demo_job, [])]> (clients s);
  gone := gone s; robbed := robbed s |}.

(** One more client comes, and gets a quota for its preprocessor. *)
Definition demo_join (s : Machine (E := bool)) (p : Z) : Machine :=
  done_by (demo_start s p) p demo_job []
    (E_http (acquire_quota 10 true p))
    (with_monitor (Monitor.WaitForNewTask_end p true
       (Monitor.count_waiter true (monitor (the_daemon s)))).2 (the_daemon s)).

Lemma demo_join_reachable s p :
  demo_reachable s → clients s !! p = None → is_u32 p →
  (Monitor.WaitForNewTask_end p true (Monitor.count_waiter true (monitor (the_daemon s)))).1 = true →
  demo_reachable (demo_join s p).
Proof.
  intros R Hp Hu W. eapply m_next; [eapply m_next; [exact R|by apply m_start]|].
  eapply m_served with (i := demo_input).
  - split; [apply lookup_insert_eq|by eexists].
  - done.
  - pose proof (serves_acquire _ _ (λ _, (None, demo_submit)) (λ _, (Some "none", demo_wait))
      (λ _, (Some "none", demo_digest)) (λ _, "") (λ _, "") _ _ (λ _ _, "") (λ _ _, "") demo_laws
      10 true p demo_input (the_daemon s) ltac:(done) Hu (λ _, eq_refl)) as V.
    destruct (Monitor.WaitForNewTask_end _ _ _) as [ok m]. cbn in W |- *. subst ok. exact V.
  - by left.
Qed.

(** Two clients preprocess at the same time, as many as the limits allow. *)
Definition demo_machine : Machine := demo_join (demo_join demo_machine0 5) 6.

Lemma demo_machine0_reachable : demo_reachable demo_machine0.
Proof. by apply m_init. Qed.

Lemma demo_machine_reachable : demo_reachable demo_machine.
Proof.
  apply demo_join_reachable; [|done..].
  apply demo_join_reachable; [apply demo_machine0_reachable|done..].
Qed.

Lemma demo_machine_busy p : p ∈ ({[5; 6]} : gset Z) → demo_busy demo_machine p.
Proof.
  intros Hp. exists demo_job, [E_http (acquire_quota 10 true p)]. eexists.
  apply elem_of_union in Hp as [->%elem_of_singleton| ->%elem_of_singleton];
    (split; [split; [vm_compute; reflexivity|eexists; vm_compute; reflexivity]|done]).
Qed.

Lemma local_limit_witness : Z.of_nat (base.size ({[5; 6]} : gset Z)) ≤ 1 + 1.
Proof.
  refine (proj1 (local_limit demo_parse HttpService.demo_empty (λ _, (None, demo_submit))
    (λ _, (Some "none", demo_wait)) (λ _, (Some "none", demo_digest)) (λ _, "") (λ _, "")
    demo_acquire demo_release (λ _ _, "") (λ _ _, "") demo_laws (λ s, s) (λ s, s) Some (λ _, "")
    (λ _, None) (λ _, None) 1 8 demo_machine _ demo_machine_reachable) {[5; 6]} _).
  - discriminate.
  - intros p Hp. split; [by apply demo_machine_busy|]. apply not_elem_of_empty.
Defined.

(** The pid of an earlier client is used again, and the earlier client's release is handled
    late: three clients preprocess at the same time, one more than the limits allow. *)
Definition demo_end (s : Machine (E := bool)) (p : Z) : Machine := {|
  the_daemon := the_daemon s; clients := delete p (clients s);
  gone := {[ p ]} ∪ gone s; robbed := robbed s ∖ {[ p ]} |}.
Definition demo_gone : Machine := demo_end (demo_start demo_machine0 5) 5.
Definition demo_late_release (s : Machine (E := bool)) (p : Z) : Machine := {|
  the_daemon := with_monitor (Monitor.DropTask p (monitor (the_daemon s))).1 (the_daemon s);
  clients := clients s; gone := gone s;
  robbed := if decide (p ∈ granted s) then {[ p ]} ∪ robbed s else robbed s |}.
Definition demo_robbed : Machine :=
  demo_join (demo_late_release (demo_join (demo_join demo_gone 5) 6) 5) 7.

Lemma demo_late_reachable s p :
  demo_reachable s → p ∈ gone s → is_u32 p → demo_reachable (demo_late_release s p).
Proof.
  intros R Hp Hu. eapply m_next; [exact R|].
  eapply m_late_release with (i := demo_input); [by left|done|].
  apply (serves_release _ _ _ _ _ _ _ _ _ _ _ demo_laws p demo_input (the_daemon s) Hu).
Qed.

Lemma demo_robbed_reachable : demo_reachable demo_robbed.
Proof.
  apply demo_join_reachable; [|reflexivity|done|reflexivity].
  apply demo_late_reachable; [|change (5 ∈ ({[ 5 ]} ∪ ∅ : gset Z)); set_solver|done].
  apply demo_join_reachable; [|reflexivity|done|reflexivity].
  apply demo_join_reachable; [|reflexivity|done|reflexivity].
  eapply m_next; [eapply m_next; [apply demo_machine0_reachable|]|].
  - apply (m_start _ _ _ _ _ _ _ _ _ _ _ _ _ _ _ _ _ demo_machine0 5 demo_job); done.
  - apply (m_gone _ _ _ _ _ _ _ _ _ _ _ _ _ _ _ _ _ (demo_start demo_machine0 5) 5 (demo_job, [])).
    apply lookup_insert_eq.
Qed.

Lemma late_release_exceeds :
  demo_reachable demo_robbed ∧ (∀ p, p ∈ ({[5; 6; 7]} : gset Z) → demo_busy demo_robbed p) ∧
  1 + 1 < Z.of_nat (base.size ({[5; 6; 7]} : gset Z)) ∧ robbed demo_robbed = {[ 5 ]}.
Proof.
  split; [apply demo_robbed_reachable|]. split; [|by split; vm_compute].
  intros p Hp. exists demo_job, [E_http (acquire_quota 10 true p)]. eexists.
  rewrite !elem_of_union, !elem_of_singleton in Hp. destruct Hp as [[->| ->]| ->];
    (split; [split; [vm_compute; reflexivity|eexists; vm_compute; reflexivity]|done]).
Qed.
