(* ===== verification/CompilerDigest.v ===== *)
(** How a compiler is known by its content: client/cxx/compilition.cpp and
    daemon/local/http_service_impl.cpp (the digest a client tells its daemon), and
    daemon/cloud/compilers.cpp (the digest under which a servant registers its own).

    The components are those of Client, HttpService, LocalDispatch, DaemonService and
    Compilers; here they are put together, each on what the one before it gave. *)
From S2P Require Import Prelude Text Proto MultiChunk Stream SysInfo CloudTask Executor CompileTask.
From S2P Require Import Compilers DaemonService GrantKeeper LocalKeepers DistTask LocalDispatch.
From S2P Require Import LocalDispatchFacts HttpService ClientArgs Client ClientFacts HttpCall.
From S2P Require Import EndToEnd LocalLimits.

Section compiler.
Context {E : Type} `{PocoEvent E}.
Context (blake3 : string → string) (chunk_size : Z).
Context (ZSTDCompress ZSTDDecompress : string → option string).
Context (parse_object : string → outcome (gmap string Var)) (empty_var : Var).
Context (submit_of_json : string → option string * SubmitCxxTaskRequest).
Context (wait_of_json : string → option string * WaitForCXXTaskRequest).
Context (digest_of_json : string → option string * SetFileDigestRequest).
Context (json_of_id : Z → string) (json_of_result : WaitForCXXTaskResponse → string).
Context (json_of_acquire : Z → bool → Z → string) (json_of_release : Z → string).
Context (json_of_digest : FileDesc → string → string) (json_of_wait : Z → Z → string).
Context (json_of_submit : SubmitCxxTaskRequest → string).
Context (task_id_of_json : string → option (option string)).

#[local] Instance the_compiler_task : DistTask CxxDistTask := cxx_dist_task blake3 chunk_size.

(** The daemon's answer to a request of a client. *)
Definition answered (r : HttpRequest) (i : Input) (d : Daemon) : outcome () * Daemon * list (Z * string) :=
  serve (daemon_serves parse_object empty_var submit_of_json wait_of_json digest_of_json json_of_id
    json_of_result json_of_acquire json_of_release json_of_digest json_of_wait r i) d.

(** The digest under which everyone knows a compiler with this content. *)
Definition digest_of (content : string) : string := EncodeHex (blake3 content) false.

Lemma digest_of_inj c c' : digest_of c = digest_of c' → blake3 c = blake3 c'.
Proof. unfold digest_of. intros Hd%(f_equal decode_hex). by rewrite !decode_EncodeHex in Hd. Qed.

(** A submission under a compiler the daemon does not know is refused. *)
Lemma unknown_refused env args rw cmdline i (d : Daemon (E := E)) :
  let json := json_of_submit (submit_request env args rw cmdline) in
  json ≠ "" → zstd_rewritten rw ≠ "" → ssize json + ssize (zstd_rewritten rw) < LONG_MAX →
  submit_of_json json = (None, submit_request env args rw cmdline) →
  Files.TryGet (compiler_ args) (mtime_size env).2 (mtime_size env).1 (files d) = None →
  ∃ text, answered (submit_cxx_task (submit_chunks json_of_submit env args rw cmdline)) i d =
          (Ret (), d, [(HTTP_BAD_REQUEST, text)]).
Proof.
  intros json Hj Hz Hs Hreq Hfile.
  unfold answered, daemon_serves, handleRequest, serve. cbn [wire_of w_uri w_body chunk_wire].
  change (route _ _) with (Some H_SubmitCxxTask).
  unfold SubmitCxxTask, try_catch, mbind, M_bind, HttpService.lift. unfold submit_chunks. fold json.
  rewrite MakeMultiChunkHeaderLine_roundtrip; [|by repeat constructor|cbn; lia].
  rewrite Hreq. unfold CxxDistTask_Prepare.
  destruct (_ || _); [by eexists|].
  cbn [submit_request sct_compiler fd_path fd_size fd_mtime compiler_desc]. rewrite Hfile.
  by eexists.
Qed.

(** The daemon keeps the digest it is told. *)
Lemma digest_kept desc digest i (d : Daemon (E := E)) :
  digest_of_json (json_of_digest desc digest) =
    (None, {| sfd_file_desc := desc; sfd_digest := digest |}) →
  answered (set_file_digest desc digest) i d =
    (Ret (), with_files (Files.Set_ (fd_path desc) (fd_size desc) (fd_mtime desc) digest (files d)) d,
     [(HTTP_OK, "")]).
Proof.
  intros Hd. unfold answered, daemon_serves, handleRequest, serve. cbn [wire_of w_uri w_body json_wire].
  change (route _ _) with (Some H_SetFileDigest). unfold SetFileDigest. by rewrite Hd.
Qed.

(** A client whose daemon refuses the first submission tells it the digest, and asks again. *)
Lemma client_tells env args rw cmdline id content text o l :
  cloud_args args rw = Ret cmdline → is_u64 id → compiler_content env = Some content →
  task_id_of_json (json_of_id id) = Some (Some (Text.to_string id)) →
  let submit := submit_cxx_task (submit_chunks json_of_submit env args rw cmdline) in
  let tell := set_file_digest (compiler_desc env args) (digest_of content) in
  o_http o (length l) submit = Some {| http_status := HTTP_BAD_REQUEST; http_body := text |} →
  o_http o (S (length l)) tell = Some {| http_status := HTTP_OK; http_body := "" |} →
  o_http o (S (S (length l))) submit = Some {| http_status := HTTP_OK; http_body := json_of_id id |} →
  SubmitComileTask blake3 json_of_submit task_id_of_json env args rw o l =
    (Finished (Some id), l ++ [E_http submit; E_http tell; E_http submit]).
Proof.
  intros Hc Hid Hcon Hj submit tell H1 H2 H3.
  unfold SubmitComileTask, mbind, C_bind, Client.lift, http. rewrite Hc. fold submit. rewrite H1.
  change (http_status _ =? 400) with true. cbn iota. unfold GetFileDigest. rewrite Hcon.
  fold (digest_of content). fold tell.
  rewrite length_app, Nat.add_1_r, H2. cbn [negb http_status].
  change (negb (HTTP_OK =? 200)) with false. cbn beta iota.
  rewrite !length_app. cbn [length]. rewrite !Nat.add_1_r, H3. unfold submitted_id.
  cbn [http_status http_body]. change (HTTP_OK =? 200) with true. cbn iota.
  rewrite Hj, stoul_to_string by done. by rewrite <- !app_assoc.
Qed.

(** What a rescan of a servant registered under the digest of some content is a compiler of the
    servant with the same blake3 hash; and one found with this hash is registered. *)
Lemma registered_compiler h path_env dirs c content :
  OnTimerRescan blake3 h (Some path_env) dirs = Ret c →
  (∀ p, TryGetPath c {| compiler_digest := digest_of content |} = Some p →
     (found_in h path_env p ∨ found_in h dirs p) ∧
     ∃ own, read_file h p = Some own ∧ blake3 own = blake3 content) ∧
  (∀ p own, found_in h path_env p ∨ found_in h dirs p →
     read_file h p = Some own → blake3 own = blake3 content →
     is_Some (TryGetPath c {| compiler_digest := digest_of content |})).
Proof.
  intros Hc. destruct (OnTimerRescan_spec blake3 h path_env dirs) as (c' & Hc' & _ & _ & H1 & H2).
  rewrite Hc in Hc'. injection Hc' as <-. split.
  - intros p Hp. destruct (H1 _ _ Hp) as [Hf Hd]. split; [done|]. unfold TryGetFileDigest in Hd.
    destruct (read_file h p) as [own|]; [|done]. injection Hd as Hd. exists own. split; [done|].
    by apply digest_of_inj.
  - intros p own Hf Hr Hb. destruct (H2 p (digest_of content)) as [p' Hp']; [done| |by eexists].
    unfold TryGetFileDigest. rewrite Hr. cbn. by rewrite Hb.
Qed.

End compiler.

(** * Witness *)

#[local] Existing Instance flag_event.

(** A host with one compiler. *)
Definition demo_host : Host := {|
  lstat := λ p, if String.eqb p "/bin/gcc" then Some {| st_uid := 0; st_gid := 0; st_mode := 73 |} else None;
  realpath := Some; geteuid := 1; getegid := 1;
  read_file := λ p, if String.eqb p "/bin/gcc" then Some "gcc-14" else None |}.
Definition demo_scan : Compilers :=
  match OnTimerRescan (λ s, s) demo_host (Some "/bin") "" with Ret c => c | _ => Compilers_init end.
Definition demo_servant : DaemonServiceImpl (E := bool) :=
  UpdateTokens {[ "t" ]} (DaemonServiceImpl_init "10.0.0.2:80" DaemonService.demo_executor demo_scan).
Definition demo_user : Env := {|
  Client.pid := 7; control := Allow; mtime_size := (2, 1); compiler_content := Some "gcc-14" |}.
Definition demo_cmdline : string := "-c -fpreprocessed -fdirectives-only -x c -".
Definition demo_told : SetFileDigestRequest := {|
  sfd_file_desc := compiler_desc demo_user demo_client; sfd_digest := "6763632d3134" |}.
Definition demo_fresh : Daemon (E := bool) :=
  with_files Files.FileCache_init HttpService.demo_http.
Definition demo_world : World := {|
  w_now := 5; w_token := "t"; w_TryRead := λ _, None; w_TryFindTask := λ _, None;
  w_AddTaskRef := λ _ _ _, Some false; w_FreeTask := λ _ _ _, true; w_Get := λ _, Ret None;
  w_QueueCxxTask := λ _, {| call_Write := λ _, true;
    call_Finish := servant_answer (λ s, s) (λ s, Some (mark s)) unmark "/tmp/w" 10 DaemonService.demo_files 77 0 demo_servant |};
  w_WaitForTask := λ _ _, {| wa_chunks := []; wa_ok := false |} |}.
Definition demo_answered (r : HttpRequest) (d : Daemon (E := bool)) :=
  answered demo_parse HttpService.demo_empty
    (λ _, (None, submit_request demo_user demo_client demo_rewritten demo_cmdline))
    (λ _, (Some "none", LocalLimits.demo_wait)) (λ _, (None, demo_told)) Text.to_string (λ _, "")
    demo_acquire demo_release (λ _ _, "") (λ _ _, "") r LocalLimits.demo_input d.

