(* ===== verification/Unused.v ===== *)
(** Helpers that no other part of the program calls: src/distribuild/common/crypto/rsa.h and
    aes.h, the attachments of gRPC calls in common/tools.h, and [WaitForEvent] of common/io.h.

    OpenSSL, gRPC and [poll] are parameters, with what their documentation says of them as laws. *)
From S2P Require Import Prelude Text.

(** * rsa.h *)

(** [RSA_public_encrypt] and [RSA_private_decrypt] get a length and a text, and give what they
    write to the buffer; [None] is -1. *)
Class Openssl (Key : Type) := {
  RSA_generate_key_ex : Z → option Key;
  RSA_size : Key → Z;
  RSA_public_encrypt : Z → string → Key → option string;
  RSA_private_decrypt : Z → string → Key → option string
}.

(** PKCS1 padding takes 11 bytes, and only the given number of bytes is read. *)
Class OpensslLaws (Key : Type) `{Openssl Key} : Prop := {
  rsa_size_range k : 11 < RSA_size k < 2 ^ 31;
  rsa_reads n text k : 0 ≤ n → RSA_public_encrypt n text k = RSA_public_encrypt n (ztake n text) k;
  rsa_too_long n text k : RSA_size k - 11 < n → RSA_public_encrypt n text k = None;
  rsa_inverse text k :
    ssize text ≤ RSA_size k - 11 →
    ∃ cipher, RSA_public_encrypt (ssize text) text k = Some cipher ∧
      ssize cipher = RSA_size k ∧ RSA_private_decrypt (RSA_size k) cipher k = Some text;
  rsa_decrypt_fits n cipher k text :
    RSA_private_decrypt n cipher k = Some text → ssize text ≤ RSA_size k
}.

(** The conversion of a [size_t] to [int]. *)
Definition int_of_size (n : Z) : Z := (n + 2 ^ 31) mod 2 ^ 32 - 2 ^ 31.

(** The buffer of zeros, written from its start and cut to what was written. *)
Definition written_to (size : Z) (bytes : string) : outcome string :=
  if size <? ssize bytes then Undef "write behind the end of a buffer"
  else Ret (ztake (ssize bytes)
              (bytes +:+ String.string_of_list_ascii (replicate (Z.to_nat (size - ssize bytes)) Ascii.zero))).

Section rsa.
Context {Key : Type} `{Openssl Key}.

(** An object without a key when no key could be made: the result is not looked at. *)
Definition RSA : Type := option Key.
Definition GenerateRSAKeyPair (key_length : Z) : RSA := RSA_generate_key_ex key_length.

(** [crypt] into a buffer that the key gives the size of. *)
Definition rsa_call (crypt : Z → string → Key → option string) (text : string) (rsa : RSA)
    : outcome string :=
  match rsa with
  | None => Undef "the size of a key that is not there"
  | Some key =>
    match crypt (int_of_size (ssize text)) text key with
    | None => Ret ""
    | Some bytes => written_to (RSA_size key) bytes
    end
  end.

Definition RsaEncrypt (plaintext : string) (rsa_public_key : RSA) : outcome string :=
  rsa_call RSA_public_encrypt plaintext rsa_public_key.
Definition RsaDecrypt (ciphertext : string) (rsa_private_key : RSA) : outcome string :=
  rsa_call RSA_private_decrypt ciphertext rsa_private_key.
End rsa.

(** * aes.h *)

(** [random]: the 16 bytes of [RAND_bytes], [None] when it fails, which nobody looks at;
    [stack]: what the array holds before. *)
Definition GenerateAESKey (random : option string) (stack : string) : string := default stack random.

(** * Attachments *)

Record ClientContext := {
  c_metadata : list (string * string);          (* sent with the call *)
  c_initial : list (string * string);           (* of the server, before its answer *)
  c_trailing : list (string * string)           (* and behind it *)
}.
Record ServerContext := {
  s_client_metadata : list (string * string);
  s_initial : list (string * string);
  s_trailing : list (string * string)
}.

Definition kAttachmentKey : string := "attachment".

(** [find] of a multimap. *)
Fixpoint find (key : string) (l : list (string * string)) : option string :=
  match l with
  | [] => None
  | (k, v) :: l => if String.eqb k key then Some v else find key l
  end.

Definition GetAttachment_server (context : ServerContext) : string :=
  default "" (find kAttachmentKey (s_client_metadata context)).
Definition GetAttachment_client (context : ClientContext) : string :=
  default "" (find kAttachmentKey (c_trailing context)).
Definition SetAttachment_server (data : string) (context : ServerContext) : ServerContext := {|
  s_client_metadata := s_client_metadata context;
  s_initial := s_initial context ++ [(kAttachmentKey, data)]; s_trailing := s_trailing context |}.
Definition SetAttachment_client (data : string) (context : ClientContext) : ClientContext := {|
  c_metadata := c_metadata context ++ [(kAttachmentKey, data)];
  c_initial := c_initial context; c_trailing := c_trailing context |}.

(** * io.h: WaitForEvent *)

(** The time out of [poll]; milliseconds are narrowed to [int]. *)
Definition poll_timeout (timeout_tp now : Z) : Z := int_of_size (Z.max 0 (timeout_tp - now) / ms 1).

(** Errors and time outs are logged. *)
Definition WaitForEvent (poll : Z → Z → Z → Z) (fd event timeout_tp now : Z) : bool :=
  poll fd event (poll_timeout timeout_tp now) =? 1.

(** * Theory *)

Lemma int_of_size_small n : 0 ≤ n < 2 ^ 31 → int_of_size n = n.
Proof. intros Hn. unfold int_of_size. rewrite Z.mod_small; lia. Qed.

Lemma written_to_fits size bytes : ssize bytes ≤ size → written_to size bytes = Ret bytes.
Proof.
  intros Hs. unfold written_to. destruct (Z.ltb_spec size (ssize bytes)); [lia|].
  by rewrite ztake_app.
Qed.

(** A wait of less than 2^31 milliseconds is as long as asked, but for the part of a millisecond,
    and none when the time is over; from there to 2^32 the number is negative, which [poll]
    takes for a wait without end. *)
Theorem poll_timeout_spec timeout_tp now :
  (timeout_tp ≤ now → poll_timeout timeout_tp now = 0) ∧
  (0 ≤ timeout_tp - now < ms (2 ^ 31) →
     ms (poll_timeout timeout_tp now) ≤ timeout_tp - now < ms (poll_timeout timeout_tp now + 1)) ∧
  (ms (2 ^ 31) ≤ timeout_tp - now < ms (2 ^ 32) → poll_timeout timeout_tp now < 0).
Proof.
  unfold poll_timeout, ms. split_and!.
  - intros Hn. rewrite Z.max_l by lia. done.
  - intros Hn. rewrite Z.max_r by lia. set (d := timeout_tp - now) in *.
    pose proof (Z.div_mod d (1 * 1000000) ltac:(done)). pose proof (Z.mod_pos_bound d (1 * 1000000) ltac:(done)).
    rewrite int_of_size_small by lia. lia.
  - intros Hn. rewrite Z.max_r by lia. set (d := timeout_tp - now) in *.
    pose proof (Z.div_mod d (1 * 1000000) ltac:(done)). pose proof (Z.mod_pos_bound d (1 * 1000000) ltac:(done)).
    set (q := d / (1 * 1000000)) in *. unfold int_of_size.
    replace (q + 2 ^ 31) with (q - 2 ^ 31 + 1 * 2 ^ 32) by lia. rewrite Z.mod_add by done.
    rewrite Z.mod_small; lia.
Qed.

Section rsa_theory.
Context {Key : Type} {openssl : Openssl Key} {laws : OpensslLaws Key}.

(** What fits into the key comes back; a longer text gives the empty string, which is also
    what an encrypted empty text comes back as; and of a text of 4 GB and more only the size
    modulo 2^32 counts, so that a part of it may be taken for the whole. *)
Theorem RsaDecrypt_RsaEncrypt text key :
  (ssize text ≤ RSA_size key - 11 →
   ∃ cipher, RsaEncrypt text (Some key) = Ret cipher ∧ ssize cipher = RSA_size key ∧
             RsaDecrypt cipher (Some key) = Ret text) ∧
  (RSA_size key - 11 < ssize text < 2 ^ 31 → RsaEncrypt text (Some key) = Ret "") ∧
  (∀ n, 0 ≤ n ≤ RSA_size key - 11 → ssize text = 2 ^ 32 + n →
   ∃ cipher, RsaEncrypt text (Some key) = Ret cipher ∧
             RsaDecrypt cipher (Some key) = Ret (ztake n text)).
Proof.
  pose proof (rsa_size_range key) as Hk.
  assert (Fit : ∀ t n, n = ssize t → n ≤ RSA_size key - 11 → ∃ cipher,
    RSA_public_encrypt n t key = Some cipher ∧
    written_to (RSA_size key) cipher = Ret cipher ∧ ssize cipher = RSA_size key ∧
    RsaDecrypt cipher (Some key) = Ret t).
  { intros t n -> Hs. destruct (rsa_inverse t key Hs) as (cipher & E & Hc & D). exists cipher.
    split; [done|]. split; [apply written_to_fits; lia|]. split; [done|].
    unfold RsaDecrypt, rsa_call. rewrite int_of_size_small by lia. rewrite Hc, D.
    apply written_to_fits. by eapply rsa_decrypt_fits. }
  unfold RsaEncrypt, rsa_call. split_and!.
  - intros Hs. pose proof (ssize_nonneg text). rewrite int_of_size_small by lia.
    destruct (Fit text _ eq_refl Hs) as (cipher & -> & E & Hc & D). by exists cipher.
  - intros Hs. rewrite int_of_size_small by lia. by rewrite rsa_too_long by lia.
  - intros n Hn Hs. assert (E : int_of_size (ssize text) = n).
    { rewrite Hs. unfold int_of_size. replace (2 ^ 32 + n + 2 ^ 31) with (n + 2 ^ 31 + 1 * 2 ^ 32) by lia.
      rewrite Z.mod_add by done. rewrite Z.mod_small; lia. }
    rewrite E, rsa_reads by lia. destruct (Fit (ztake n text) n) as (cipher & -> & -> & _ & D).
    { rewrite ztake_size; lia. }
    { lia. }
    by exists cipher.
Qed.

End rsa_theory.

(** [rpc]: a call, with what the server does to its context. *)
Section attachments.
Context (rpc : (ServerContext → ServerContext) → ClientContext → ClientContext).

Definition server_sees (c : ClientContext) : ServerContext := {|
  s_client_metadata := c_metadata c; s_initial := []; s_trailing := [] |}.

Hypothesis rpc_carries : ∀ handler c,
  let s := handler (server_sees c) in
  rpc handler c = {| c_metadata := c_metadata c; c_initial := s_initial s; c_trailing := s_trailing s |}.

Lemma find_app key l1 l2 : find key l1 = None → find key (l1 ++ l2) = find key l2.
Proof.
  induction l1 as [|[k v] l1 IH]; [done|]. cbn. by destruct (String.eqb k key).
Qed.

(** What a client attaches is found by the server, as long as it is the first; what a server
    attaches is never found: it is sent before the answer and looked for behind it. *)
Theorem attachments data answer c :
  find kAttachmentKey (c_metadata c) = None →
  GetAttachment_server (server_sees (SetAttachment_client data c)) = data ∧
  GetAttachment_client (rpc (SetAttachment_server answer) c) = "".
Proof.
  intros Hc. split.
  - unfold GetAttachment_server. cbn. by rewrite find_app.
  - unfold GetAttachment_client. by rewrite rpc_carries.
Qed.
End attachments.

(** * Witnesses *)

(** Keys of 16 bytes: the size of the text, the text, and dots. *)
#[local] Instance demo_openssl : Openssl () := {|
  RSA_generate_key_ex := λ _, Some tt;
  RSA_size := λ _, 16;
  RSA_public_encrypt := λ n text _,
    if 5 <? n then None
    else Some (ztake 16 (String (Ascii.ascii_of_nat (Z.to_nat n)) (ztake n text) +:+ "................"));
  RSA_private_decrypt := λ _ cipher _,
    match cipher with
    | String c rest => Some (ztake (Z.min 5 (Z.of_nat (Ascii.nat_of_ascii c))) rest)
    | "" => None
    end |}.

Lemma ztake_ztake n s : 0 ≤ n → ztake n (ztake n s) = ztake n s.
Proof.
  intros Hn. unfold ztake at 1. destruct (Z.leb_spec (ssize (ztake n s)) n); [done|].
  rewrite ztake_size in *; lia.
Qed.

#[local] Instance demo_openssl_laws : OpensslLaws ().
Proof.
  split; cbn.
  - done.
  - intros n text _ Hn. by rewrite ztake_ztake.
  - intros n text _ Hn. destruct (Z.ltb_spec 5 n); [done|lia].
  - intros text _ Hs. change (ssize text ≤ 5) in Hs. unfold ssize in Hs |- *.
    destruct text as [|a [|b [|c [|d [|e [|f text]]]]]]; [| | | | | |cbn in Hs; lia];
      (eexists; split; [reflexivity|split; reflexivity]).
  - intros n cipher _ text E. destruct cipher as [|c rest]; [done|]. injection E as <-.
    rewrite ztake_size; lia.
Qed.

Lemma RsaDecrypt_RsaEncrypt_witness :
  ∃ cipher, RsaEncrypt "key" (Some tt) = Ret cipher ∧ RsaDecrypt cipher (Some tt) = Ret "key".
Proof.
  destruct (proj1 (RsaDecrypt_RsaEncrypt "key" tt)) as (cipher & E & _ & D); [discriminate|].
  by exists cipher.
Defined.

Lemma attachments_witness :
  GetAttachment_server (server_sees (SetAttachment_client "file"
    {| c_metadata := [("k", "v")]; c_initial := []; c_trailing := [] |})) = "file".
Proof.
  refine (proj1 (attachments (λ h c, let s := h (server_sees c) in
    {| c_metadata := c_metadata c; c_initial := s_initial s; c_trailing := s_trailing s |})
    (λ _ _, eq_refl) "file" "" {| c_metadata := [("k", "v")]; c_initial := []; c_trailing := [] |} eq_refl)).
Defined.
