(* ===== verification/Startup.v ===== *)
(** The entry points of the daemon and of the scheduler: src/distribuild/daemon/main.cpp with
    src/distribuild/daemon/privilege.h and the life cycle of the objects it creates (the
    [Instance], constructor, [Stop] and destructor of each), and
    src/distribuild/scheduler/main.cpp.

    A program is a function of what the operating system answers; it yields how it ended, the
    process it left and all states it went through.  The threads that serve requests between
    start and stop are in the components' files; here they are one argument, what they made of
    the executor.

    Timers run their callbacks on threads of Poco's default pool, which throws when it has
    none left.  The objects of the daemon are made and ended member by member: the members in
    the order of their declaration, then the body of the constructor; the body of the
    destructor, then the members in reverse order, where the destructor of a timer stops it.
    A timer that runs meanwhile would call back into what is gone.  The tasks that run on
    the pool besides the timers are not followed here. *)
From S2P Require Import DaemonService.
From S2P Require Import Prelude Text SysInfo SchedDispatch SchedService CloudTask Executor.
From S2P Require Import ExecutorFacts LocalKeepers.

(** * Processes *)

(** The timers, by their callbacks. *)
Inductive Timer :=
  | OnTimerRescan | OnTimerClean | OnTimerFetchConfig | OnTimerRefresh
  | OnTimerTimeoutAbort | OnTimerKeepAlive | OnTimerKilledAbort | OnTimerClear
  | OnTimerLoadBloomFilter | OnTimerCheckAliveProc | OnTimerHeartbeat
  | OnTimerExpiration.
#[export] Instance Timer_eq_dec : EqDecision Timer.
Proof. solve_decision. Defined.

(** The objects with static or automatic storage, and the keepers that are members of the
    dispatcher. *)
Inductive Object :=
  | O_CacheWriter | O_Compilers | O_Executor | O_TaskDispatcher | O_ConfigKeeper
  | O_TaskRunKeeper | O_TaskGrantKeeper | O_CacheReader | O_FileCache
  | O_TaskMonitor | O_DaemonService | O_SchedDispatcher | O_SchedulerService.
#[export] Instance Object_eq_dec : EqDecision Object.
Proof. solve_decision. Defined.

(** The members of these objects that are timers or that a callback uses. *)
Inductive Member :=
  | m_timer (t : Timer)
  | m_mutex | m_compilers | m_compiler_paths                          (* compilers.h *)
  | m_tasks | m_task_mutex                                            (* executor.h *)
  | m_tasks_mutex | m_scheduler_stub                                  (* task_dispatcher.h *)
  | m_token_mutex | m_serving_daemon_token | m_stub                   (* config_keeper.h *)
  | m_running_tasks | m_last_update_time                              (* task_run_keeper.h *)
  | m_last_bf_update | m_last_bf_full_update | m_bf_mutex | m_bloom_filter   (* cache_reader.h *)
  | m_permissions_granted | m_permission_mutex | m_permission_cv      (* task_monitor.h *)
  | m_location | m_token_verifier                                     (* daemon_service_impl.h *)
  | m_alloc_mutex | m_alloc_cv | m_servants | m_running_task_bookkeeper.   (* the scheduler *)
#[export] Instance Member_eq_dec : EqDecision Member.
Proof. solve_decision. Defined.

(** In the order of declaration. *)
Definition members (o : Object) : list Member :=
  match o with
  | O_Compilers => [m_timer OnTimerRescan; m_mutex; m_compilers; m_compiler_paths]
  | O_Executor => [m_timer OnTimerClean; m_tasks; m_task_mutex]
  | O_TaskDispatcher =>
    [m_timer OnTimerTimeoutAbort; m_timer OnTimerKeepAlive; m_timer OnTimerKilledAbort;
     m_timer OnTimerClear; m_tasks_mutex; m_tasks; m_scheduler_stub]
  | O_ConfigKeeper => [m_timer OnTimerFetchConfig; m_token_mutex; m_serving_daemon_token; m_stub]
  | O_TaskRunKeeper =>
    [m_timer OnTimerRefresh; m_scheduler_stub; m_mutex; m_running_tasks; m_last_update_time]
  | O_CacheReader =>
    [m_stub; m_timer OnTimerLoadBloomFilter; m_last_bf_update; m_last_bf_full_update; m_bf_mutex;
     m_bloom_filter]
  | O_TaskMonitor =>
    [m_timer OnTimerCheckAliveProc; m_permissions_granted; m_permission_mutex; m_permission_cv]
  | O_DaemonService => [m_timer OnTimerHeartbeat; m_location; m_token_mutex; m_token_verifier]
  | O_SchedDispatcher =>
    [m_timer OnTimerExpiration; m_alloc_mutex; m_alloc_cv; m_servants; m_tasks;
     m_running_task_bookkeeper]
  | O_CacheWriter | O_TaskGrantKeeper | O_FileCache | O_SchedulerService => []
  end.

(** The members that are objects of this list, declared behind the others. *)
Definition subobjects (o : Object) : list Object :=
  match o with
  | O_TaskDispatcher => [O_ConfigKeeper; O_TaskRunKeeper; O_TaskGrantKeeper]
  | _ => []
  end.

(** The object a timer is a member of. *)
Definition owner (t : Timer) : Object :=
  match t with
  | OnTimerRescan => O_Compilers
  | OnTimerClean => O_Executor
  | OnTimerFetchConfig => O_ConfigKeeper
  | OnTimerRefresh => O_TaskRunKeeper
  | OnTimerTimeoutAbort | OnTimerKeepAlive | OnTimerKilledAbort | OnTimerClear => O_TaskDispatcher
  | OnTimerLoadBloomFilter => O_CacheReader
  | OnTimerCheckAliveProc => O_TaskMonitor
  | OnTimerHeartbeat => O_DaemonService
  | OnTimerExpiration => O_SchedDispatcher
  end.

(** The members of its own object that a callback uses. *)
Definition uses (t : Timer) : list Member :=
  match t with
  | OnTimerRescan => [m_mutex; m_compiler_paths; m_compilers]
  | OnTimerClean => [m_task_mutex; m_tasks]
  | OnTimerFetchConfig => [m_stub; m_token_mutex; m_serving_daemon_token]
  | OnTimerRefresh => [m_scheduler_stub; m_mutex; m_last_update_time; m_running_tasks]
  | OnTimerTimeoutAbort | OnTimerKilledAbort | OnTimerClear => [m_tasks_mutex; m_tasks]
  | OnTimerKeepAlive => [m_tasks_mutex; m_tasks; m_scheduler_stub]
  | OnTimerLoadBloomFilter =>
    [m_bf_mutex; m_last_bf_full_update; m_last_bf_update; m_stub; m_bloom_filter]
  | OnTimerCheckAliveProc => [m_permission_mutex; m_permissions_granted; m_permission_cv]
  | OnTimerHeartbeat => [m_location; m_token_mutex; m_token_verifier]
  | OnTimerExpiration =>
    [m_alloc_mutex; m_servants; m_running_task_bookkeeper; m_tasks; m_alloc_cv]
  end.

(** The objects whose [Instance] a callback uses. *)
Definition calls (t : Timer) : list Object :=
  match t with
  | OnTimerHeartbeat => [O_Executor; O_Compilers]
  | _ => []
  end.

(** [data]: what the program's own objects hold. *)
Record Process (X : Type) := {
  uid : Z;
  euid : Z;
  environment : gmap string string;
  core_limit : option (Z * Z);         (* [setrlimit] of RLIMIT_CORE, [None] for the inherited *)
  kNumCpuCores : option Z;             (* the static variable of [GetNumCPUCores] *)
  pool_capacity : Z;
  timers : list Timer;                 (* that run *)
  objects : list Object;               (* that live, the newest first *)
  parts : list (Object * Member);      (* the members that exist *)
  listening : list string;             (* addresses with a listening socket *)
  data : X
}.
Arguments uid {X}. Arguments euid {X}. Arguments environment {X}. Arguments core_limit {X}.
Arguments kNumCpuCores {X}. Arguments pool_capacity {X}. Arguments timers {X}.
Arguments objects {X}. Arguments parts {X}. Arguments listening {X}. Arguments data {X}.

Section process.
Context {X : Type}.

Definition M (A : Type) : Type := Process X → outcome A * (Process X * list (Process X)).

#[export] Instance M_ret : MRet M := λ A a p, (Ret a, (p, [])).
#[export] Instance M_bind : MBind M := λ A B f m p,
  let '(r, (p1, h1)) := m p in
  match r with
  | Ret a => let '(r, (p2, h2)) := f a p1 in (r, (p2, h1 ++ h2))
  | Throw w => (Throw w, (p1, h1))
  | Undef w => (Undef w, (p1, h1))
  | Fatal w => (Fatal w, (p1, h1))
  end.

Definition modify (f : Process X → Process X) : M () := λ p, (Ret (), (f p, [f p])).
Definition gets {A} (f : Process X → A) : M A := λ p, (Ret (f p), (p, [])).
Definition lift {A} (o : outcome A) : M A := λ p, (o, (p, [])).

Definition with_environment (e : gmap string string) (p : Process X) : Process X := {|
  uid := uid p; euid := euid p; environment := e; core_limit := core_limit p;
  kNumCpuCores := kNumCpuCores p; pool_capacity := pool_capacity p; timers := timers p;
  objects := objects p; parts := parts p; listening := listening p; data := data p |}.
Definition with_core_limit (l : option (Z * Z)) (p : Process X) : Process X := {|
  uid := uid p; euid := euid p; environment := environment p; core_limit := l;
  kNumCpuCores := kNumCpuCores p; pool_capacity := pool_capacity p; timers := timers p;
  objects := objects p; parts := parts p; listening := listening p; data := data p |}.
Definition with_pool (cores : option Z) (capacity : Z) (p : Process X) : Process X := {|
  uid := uid p; euid := euid p; environment := environment p; core_limit := core_limit p;
  kNumCpuCores := cores; pool_capacity := capacity; timers := timers p;
  objects := objects p; parts := parts p; listening := listening p; data := data p |}.
Definition with_life (ts : list Timer) (os : list Object) (ms : list (Object * Member))
    (p : Process X) : Process X := {|
  uid := uid p; euid := euid p; environment := environment p; core_limit := core_limit p;
  kNumCpuCores := kNumCpuCores p; pool_capacity := pool_capacity p; timers := ts;
  objects := os; parts := ms; listening := listening p; data := data p |}.
Definition with_listening (l : list string) (p : Process X) : Process X := {|
  uid := uid p; euid := euid p; environment := environment p; core_limit := core_limit p;
  kNumCpuCores := kNumCpuCores p; pool_capacity := pool_capacity p; timers := timers p;
  objects := objects p; parts := parts p; listening := l; data := data p |}.
Definition with_data (d : X) (p : Process X) : Process X := {|
  uid := uid p; euid := euid p; environment := environment p; core_limit := core_limit p;
  kNumCpuCores := kNumCpuCores p; pool_capacity := pool_capacity p; timers := timers p;
  objects := objects p; parts := parts p; listening := listening p; data := d |}.

Definition setenv (name value : string) : M () :=
  modify (λ p, with_environment (<[name := value]> (environment p)) p).
Definition unsetenv (name : string) : M () :=
  modify (λ p, with_environment (delete name (environment p)) p).

(** ** Timers and objects *)

(** [timer_.start]: takes a thread of the pool. *)
Definition start_timer (t : Timer) : M () := λ p,
  if Z.of_nat (length (timers p)) <? pool_capacity p
  then modify (λ p, with_life (t :: timers p) (objects p) (parts p) p) p
  else lift (Throw "Poco::NoThreadAvailableException") p.

Definition stop_timer (t : Timer) : M () :=
  modify (λ p, with_life (filter (λ t', t' ≠ t) (timers p)) (objects p) (parts p) p).

Fixpoint each {A} (f : A → M ()) (l : list A) : M () :=
  match l with
  | [] => mret ()
  | a :: l => f a ;; each f l
  end.

(** A constructor makes the members, then runs its body; the object lives when it is done. *)
Definition make_member (o : Object) (m : Member) : M () :=
  modify (λ p, with_life (timers p) (objects p) ((o, m) :: parts p) p).
Definition construct (o : Object) (body : M ()) : M () :=
  each (make_member o) (members o) ;;
  body ;;
  modify (λ p, with_life (timers p) (o :: objects p) (parts p) p).

(** The destructor of a [Poco::Timer] stops it. *)
Definition end_member (o : Object) (m : Member) : M () :=
  match m with m_timer t => stop_timer t | _ => mret () end ;;
  modify (λ p, with_life (timers p) (objects p) (filter (λ x, x ≠ (o, m)) (parts p)) p).
Definition end_members (o : Object) : M () := each (end_member o) (reverse (members o)).

(** The end of an object: it does not live any more; the body of its destructor, then the
    members in reverse order. *)
Definition destroy (o : Object) (body : M ()) : M () :=
  modify (λ p, with_life (timers p) (filter (λ o', o' ≠ o) (objects p)) (parts p) p) ;;
  body ;;
  each end_members (reverse (subobjects o)) ;;
  end_members o.

Definition listen (address : string) : M () :=
  modify (λ p, with_listening (address :: listening p) p).
Definition close (address : string) : M () :=
  modify (λ p, with_listening (filter (λ a, a ≠ address) (listening p)) p).
End process.
Arguments M : clear implicits.

(** * privilege.h *)

Record Passwd := { pw_uid : Z; pw_gid : Z }.

Definition IsRunningAsRoot (getuid geteuid : Z) : bool := (getuid =? 0) || (geteuid =? 0).

(** [getpwnam]: the password file.  Nothing calls this function. *)
Fixpoint first_user (getpwnam : string → option Passwd) (names : list string) : Z * Z :=
  match names with
  | [] => (65534, 65534)
  | name :: names =>
    match getpwnam name with
    | Some pw => (pw_uid pw, pw_gid pw)
    | None => first_user getpwnam names
    end
  end.
Definition GetAvailableUser (getpwnam : string → option Passwd) : Z * Z :=
  first_user getpwnam ["distribuild"; "daemon"; "nobody"].

(** Both branches leave the process as it is. *)
Definition DropPrivilege {X} : M X () :=
  root ← gets (λ p, IsRunningAsRoot (uid p) (euid p));
  if negb (root : bool) then mret () else mret ().

(** [res]: what [setrlimit] answers. *)
Definition DisableCoreDump {X} (res : Z) : M X () :=
  if negb (res =? 0) then lift (Fatal "DisableCoreDump") else modify (with_core_limit (Some (0, 0))).

(** * daemon/main.cpp *)

(** The flags of config.cpp, those of the executor and of the heart beat in their records. *)
Record MainFlags := {
  FLAGS_servant_location : string;
  FLAGS_cache_server_token : string;
  FLAGS_scheduler_location : string;
  FLAGS_cache_server_location : string;
  FLAGS_compiler_dir_path : string;
  FLAGS_cpu_load_average_seconds : Z;             (* int32 *)
  FLAGS_allow_core_dump : bool;
  FLAGS_compilers_rescan_timer_intervals : Z;     (* int64 *)
  FLAGS_heart_beat_timer_intervals : Z;           (* int64 *)
  FLAGS_daemon : DaemonFlags;
  FLAGS_executor : ExecutorFlags
}.
Definition config_defaults : MainFlags := {|
  FLAGS_servant_location := "127.0.0.1:10100";
  FLAGS_cache_server_token := "nieyang";
  FLAGS_scheduler_location := "127.0.0.1:10005";
  FLAGS_cache_server_location := "127.0.0.1:10015";
  FLAGS_compiler_dir_path := "";
  FLAGS_cpu_load_average_seconds := 0;
  FLAGS_allow_core_dump := false;
  FLAGS_compilers_rescan_timer_intervals := 60000;
  FLAGS_heart_beat_timer_intervals := 1000;
  FLAGS_daemon := {| DaemonService.FLAGS_scheduler_token := "nieyang";
                     DaemonService.FLAGS_servant_priority := "user";
                     DaemonService.FLAGS_chunk_size := 64 * 1024 |};
  FLAGS_executor := {| FLAGS_min_memory_for_starting_new_task := "2G"; FLAGS_max_concurrency := -1;
                       FLAGS_servant_priority := "user"; FLAGS_poor_cpu_cores_threshold := 4 |} |}.

(** What the operating system answers; [grpc_binds]: whether the gRPC server could listen
    (otherwise [BuildAndStart] returns null), [http_binds]: whether the socket could be opened
    (otherwise its constructor throws). *)
Record Host := {
  get_nprocs : Z;
  hardware_concurrency : Z;
  setrlimit : Z;
  grpc_binds : string → bool;
  http_binds : bool
}.

Definition http_address : string := "0.0.0.0:8080".

Section daemon.
Context {T E : Type} `{CloudTask.Task T} `{PocoEvent E}.

(** [waitpid_worker]: the thread is joinable; [leaving]: [leaving_] of the grant keeper;
    [killed]: the signals [Stop] of the executor sent. *)
Record Daemon := {
  the_executor : option (Executor.Executor T E);
  waitpid_worker : bool;
  the_monitor : option Monitor.TaskMonitor;
  leaving : bool;
  killed : list Z
}.
Definition Daemon_init : Daemon := {|
  the_executor := None; waitpid_worker := false; the_monitor := None; leaving := false;
  killed := [] |}.

Definition set_executor (ex : Executor.Executor T E) (worker : bool) (sent : list Z) (d : Daemon)
    : Daemon := {|
  the_executor := Some ex; waitpid_worker := worker; the_monitor := the_monitor d;
  leaving := leaving d; killed := killed d ++ sent |}.
Definition set_monitor (m : Monitor.TaskMonitor) (d : Daemon) : Daemon := {|
  the_executor := the_executor d; waitpid_worker := waitpid_worker d; the_monitor := Some m;
  leaving := leaving d; killed := killed d |}.
Definition set_leaving (d : Daemon) : Daemon := {|
  the_executor := the_executor d; waitpid_worker := waitpid_worker d;
  the_monitor := the_monitor d; leaving := true; killed := killed d |}.

Definition change (f : Daemon → Daemon) : M Daemon () := modify (λ p, with_data (f (data p)) p).

(** [GetNumCPUCores] and its static variable. *)
Definition NumCPUCores (h : Host) : M Daemon Z :=
  k ← gets kNumCpuCores;
  let '(n, k') := GetNumCPUCores (get_nprocs h) k in
  modify (λ p, with_pool k' (pool_capacity p) p) ;; mret n.

Definition addCapacity (n : Z) : M Daemon () :=
  modify (λ p, with_pool (kNumCpuCores p) (pool_capacity p + n) p).

(** ** The singletons: constructors, [Stop], destructors *)

Definition Compilers_ctor : M Daemon () := construct O_Compilers (start_timer OnTimerRescan).
Definition Compilers_Stop : M Daemon () := stop_timer OnTimerRescan.

Definition Executor_ctor (fl : MainFlags) (h : Host) : M Daemon () :=
  construct O_Executor (
    cores ← NumCPUCores h;
    ex ← lift (Executor_init (FLAGS_executor fl) cores);
    change (set_executor ex true []) ;;
    start_timer OnTimerClean).
Definition Executor_Stop : M Daemon () :=
  stop_timer OnTimerClean ;;
  change (λ d, match the_executor d with
               | None => d
               | Some ex => let '(sent, ex) := Executor.Stop ex in
                            set_executor ex (waitpid_worker d) sent d
               end).
(** The destructor: the waiter thread is told to end, and joined. *)
Definition leave (ex : Executor.Executor T E) : Executor.Executor T E := {|
  exiting_ := true; next_task_id_ := Executor.next_task_id_ ex;
  running_tasks_ := running_tasks_ ex; max_concurrency_ := max_concurrency_ ex;
  min_memory_ := min_memory_ ex; task_ran_sum_ := task_ran_sum_ ex;
  tasks_ := Executor.tasks_ ex; waitpid_semaphore_ := waitpid_semaphore_ ex + 1;
  desc_heap := desc_heap ex; next_dptr := next_dptr ex |}.
Definition Executor_dtor : M Daemon () :=
  change (λ d, match the_executor d with
               | None => d
               | Some ex => set_executor (leave ex) false [] d
               end).

(** The keepers are members of the dispatcher: they are not in [objects]. *)
Definition make_keeper (o : Object) (body : M Daemon ()) : M Daemon () :=
  each (make_member o) (members o) ;; body.
Definition ConfigKeeper_ctor : M Daemon () :=
  make_keeper O_ConfigKeeper (start_timer OnTimerFetchConfig).
Definition ConfigKeeper_Stop : M Daemon () := stop_timer OnTimerFetchConfig.
Definition TaskRunKeeper_ctor : M Daemon () :=
  make_keeper O_TaskRunKeeper (start_timer OnTimerRefresh).
Definition TaskRunKeeper_Stop : M Daemon () := stop_timer OnTimerRefresh.
Definition TaskGrantKeeper_Stop : M Daemon () := change set_leaving.

Definition dispatcher_timers : list Timer :=
  [OnTimerTimeoutAbort; OnTimerKeepAlive; OnTimerKilledAbort; OnTimerClear].
(** The keepers are constructed behind the other members, before the body. *)
Definition TaskDispatcher_ctor : M Daemon () :=
  construct O_TaskDispatcher (
    ConfigKeeper_ctor ;; TaskRunKeeper_ctor ;;
    each start_timer dispatcher_timers).
Definition TaskDispatcher_Stop : M Daemon () :=
  each stop_timer dispatcher_timers ;;
  TaskGrantKeeper_Stop ;; ConfigKeeper_Stop ;; TaskRunKeeper_Stop.
Definition TaskDispatcher_dtor : M Daemon () := each stop_timer dispatcher_timers.

Definition CacheReader_ctor (fl : MainFlags) : M Daemon () :=
  construct O_CacheReader (
    if String.eqb (FLAGS_cache_server_location fl) "" then mret ()
    else start_timer OnTimerLoadBloomFilter).
Definition CacheReader_dtor : M Daemon () := stop_timer OnTimerLoadBloomFilter.

Definition TaskMonitor_ctor (fl : MainFlags) (h : Host) : M Daemon () :=
  construct O_TaskMonitor (
    change (set_monitor (Monitor.TaskMonitor_init (FLAGS_max_concurrency (FLAGS_executor fl))
                           (hardware_concurrency h))) ;;
    start_timer OnTimerCheckAliveProc).
Definition TaskMonitor_dtor : M Daemon () := stop_timer OnTimerCheckAliveProc.

Definition DaemonService_ctor : M Daemon () :=
  construct O_DaemonService (start_timer OnTimerHeartbeat).
Definition DaemonService_Stop : M Daemon () := stop_timer OnTimerHeartbeat.

(** ** [StartServer] and the end of the process *)

(** [serve]: what the requests made of the executor before the request to terminate. *)
Definition StartServer (fl : MainFlags) (h : Host)
    (serve : Executor.Executor T E → Executor.Executor T E) : M Daemon Z :=
  setenv "LC_ALL" "en_US.utf8" ;;
  unsetenv "GCC_COMPARE_DEBUG" ;;
  unsetenv "SOURCE_DATE_EPOCH" ;;
  DropPrivilege ;;
  (if FLAGS_allow_core_dump fl then mret () else DisableCoreDump (setrlimit h)) ;;
  cores ← NumCPUCores h;
  addCapacity cores ;;
  construct O_CacheWriter (mret ()) ;;
  Compilers_ctor ;;
  Executor_ctor fl h ;;
  TaskDispatcher_ctor ;;
  CacheReader_ctor fl ;;
  construct O_FileCache (mret ()) ;;
  TaskMonitor_ctor fl h ;;
  DaemonService_ctor ;;
  let grpc := grpc_binds h (FLAGS_servant_location fl) in
  (if (grpc : bool) then listen (FLAGS_servant_location fl) else mret ()) ;;
  (if http_binds h then listen http_address else lift (Throw "Poco::Net::NetException")) ;;
  change (λ d, match the_executor d with
               | None => d
               | Some ex => set_executor (serve ex) (waitpid_worker d) [] d
               end) ;;
  DaemonService_Stop ;;
  Compilers_Stop ;;
  Executor_Stop ;;
  TaskDispatcher_Stop ;;
  close http_address ;;
  (if (grpc : bool) then close (FLAGS_servant_location fl) else lift (Undef "null rpc_server")) ;;
  destroy O_DaemonService (mret ()) ;;
  mret 0.

Definition destructor (o : Object) : M Daemon () :=
  match o with
  | O_Executor => Executor_dtor
  | O_TaskDispatcher => TaskDispatcher_dtor
  | O_CacheReader => CacheReader_dtor
  | O_TaskMonitor => TaskMonitor_dtor
  | _ => mret ()
  end.

(** Objects with static storage end in the reverse order of their construction. *)
Definition exit_statics : M Daemon () :=
  os ← gets objects; each (λ o, destroy o (destructor o)) os.

Definition main (fl : MainFlags) (h : Host)
    (serve : Executor.Executor T E → Executor.Executor T E) : M Daemon Z :=
  StartServer fl h serve ;; exit_statics ;; mret 0.
End daemon.
Arguments Daemon : clear implicits.

(** * scheduler/main.cpp *)

(** The flags and what the service reads: [rand]: the random bytes of its tokens. *)
Record SchedHost := {
  FLAGS_service_uri : string;
  FLAGS_min_memory_for_new_task : Z;
  FLAGS_service : SchedService.Flags;
  rand : string * string * string;
  now : Z;
  service_binds : bool
}.

Definition SchedDispatcher_ctor (h : SchedHost) : M (option State) () :=
  construct O_SchedDispatcher (
    modify (with_data (Some (SchedDispatch.TaskDispatcher_init (FLAGS_min_memory_for_new_task h)))) ;;
    start_timer OnTimerExpiration).
Definition SchedDispatcher_dtor : M (option State) () := stop_timer OnTimerExpiration.

(** [serve]: what the service, in its first state, made of the dispatcher until the request to
    terminate. *)
Definition StartSchduler (h : SchedHost) (serve : Service → State) : M (option State) Z :=
  SchedDispatcher_ctor h ;;
  construct O_SchedulerService (mret ()) ;;
  (if service_binds h then listen (FLAGS_service_uri h) else mret ()) ;;
  modify (λ p, with_data
    ((λ d, let '(b1, b2, b3) := rand h in
           serve (SchedulerServiceImpl_init (FLAGS_service h) b1 b2 b3 (now h) d)) <$> data p) p) ;;
  (if service_binds h then close (FLAGS_service_uri h) else lift (Undef "null server")) ;;
  destroy O_SchedulerService (mret ()) ;;
  mret 0.

Definition sched_main (h : SchedHost) (serve : Service → State) : M (option State) Z :=
  r ← StartSchduler h serve;
  destroy O_SchedDispatcher SchedDispatcher_dtor ;;
  mret r.

(** * Theory *)

(** Every running timer exists, and so do the members its callback uses, and the objects it
    calls live. *)
Definition live {X} (p : Process X) : bool :=
  forallb (λ t,
    forallb (λ m, bool_decide ((owner t, m) ∈ parts p)) (m_timer t :: uses t) &&
    forallb (λ o, bool_decide (o ∈ objects p)) (calls t)) (timers p).

(** The process as it is started. *)
Definition boot {X} (uid euid : Z) (env : gmap string string) (capacity : Z) (d : X)
    : Process X := {|
  uid := uid; euid := euid; environment := env; core_limit := None; kNumCpuCores := None;
  pool_capacity := capacity; timers := []; objects := []; parts := []; listening := [];
  data := d |}.

(** ** Runs

    [goes I m Q p]: [m], started in [p], goes through states of which [I] holds and ends as [Q]
    says. *)
Definition goes {X A} (I : Process X → Prop) (m : M X A) (Q : outcome A → Process X → Prop)
    (p : Process X) : Prop :=
  Forall I (m p).2.2 ∧ Q (m p).1 (m p).2.1.

(** What is left to do behind [m]. *)
Definition continue {X A B} (I : Process X → Prop) (f : A → M X B)
    (Q : outcome B → Process X → Prop) (r : outcome A) (p : Process X) : Prop :=
  match r with
  | Ret a => goes I (f a) Q p
  | Throw w => Q (Throw w) p
  | Undef w => Q (Undef w) p
  | Fatal w => Q (Fatal w) p
  end.

Section runs.
Context {X : Type} (I : Process X → Prop).
Implicit Types p : Process X.

Lemma goes_bind {A B} (m : M X A) (f : A → M X B) Q p :
  goes I m (continue I f Q) p → goes I (m ≫= f) Q p.
Proof.
  unfold goes, continue, mbind, M_bind. destruct (m p) as [r [p1 h1]]. cbn. intros [H1 H2].
  destruct r as [a|w|w|w]; [|by split..]. destruct H2 as [H2 H3].
  destruct (f a p1) as [r [p2 h2]]. cbn in *. split; [|done]. by apply Forall_app.
Qed.

Lemma goes_ret {A} (a : A) (Q : outcome A → Process X → Prop) p : Q (Ret a) p → goes I (mret a) Q p.
Proof. intros H. split; [constructor|done]. Qed.

Lemma goes_modify f (Q : outcome () → Process X → Prop) p :
  I (f p) → Q (Ret ()) (f p) → goes I (modify f) Q p.
Proof. intros H HQ. split; [by constructor|done]. Qed.

Lemma goes_gets {A} (f : Process X → A) Q p : Q (Ret (f p)) p → goes I (gets f) Q p.
Proof. intros H. split; [constructor|done]. Qed.

Lemma goes_lift {A} (o : outcome A) (Q : outcome A → Process X → Prop) p : Q o p → goes I (lift o) Q p.
Proof. intros H. split; [constructor|done]. Qed.

(** A timer starts when the pool has a thread left. *)
Lemma goes_start_timer t (Q : outcome () → Process X → Prop) p :
  let p' := with_life (t :: timers p) (objects p) (parts p) p in
  (Z.of_nat (length (timers p)) < pool_capacity p → I p' ∧ Q (Ret ()) p') →
  (pool_capacity p ≤ Z.of_nat (length (timers p)) →
     Q (Throw "Poco::NoThreadAvailableException") p) →
  goes I (start_timer t) Q p.
Proof.
  intros p' Hs Hf. unfold goes, start_timer.
  destruct (Z.ltb_spec (Z.of_nat (length (timers p))) (pool_capacity p)) as [L|L].
  - destruct (Hs L) as [HI HQ]. split; [by constructor|done].
  - split; [constructor|by apply Hf].
Qed.

(** Where the branches of the start join again. *)
Lemma goes_DropPrivilege (Q : outcome () → Process X → Prop) p :
  Q (Ret ()) p → goes I DropPrivilege Q p.
Proof.
  intros HQ. apply goes_bind, goes_gets. unfold continue. destruct (negb _); by apply goes_ret.
Qed.

Lemma goes_core_dump (allow : bool) res (Q : outcome () → Process X → Prop) p :
  let p' := with_core_limit (if allow then core_limit p else Some (0, 0)) p in
  I p' → (allow = true ∨ res = 0 → Q (Ret ()) p') →
  (allow = false → res ≠ 0 → Q (Fatal "DisableCoreDump") p) →
  goes I (if allow then mret () else DisableCoreDump res) Q p.
Proof.
  intros p' HI HQ HF. destruct allow.
  - apply goes_ret. replace p with p' by (by destruct p). by apply HQ; left.
  - unfold DisableCoreDump. destruct (Z.eqb_spec res 0) as [->|N]; cbn.
    + apply goes_modify; [done|]. by apply HQ; right.
    + apply goes_lift. by apply HF.
Qed.

Lemma goes_listen (b : bool) address (Q : outcome () → Process X → Prop) p :
  let p' := with_listening (if b then address :: listening p else listening p) p in
  I p' → Q (Ret ()) p' → goes I (if b then listen address else mret ()) Q p.
Proof.
  intros p' HI HQ. destruct b.
  - by apply goes_modify.
  - apply goes_ret. by replace p with p' by (by destruct p).
Qed.
End runs.

(** ** Tactics *)

(** One step of a run.  The state is written out after each: what timers run and which objects
    live is known, whatever the rest of it holds. *)
Ltac known l := let v := eval vm_compute in l in change l with v.
Ltac run_state :=
  lazymatch goal with
  | |- goes _ _ _ ?p =>
    let q := eval cbv beta iota zeta delta
      [boot with_life with_data with_listening with_pool with_core_limit with_environment
       uid euid environment core_limit kNumCpuCores pool_capacity timers objects parts listening data]
      in p in
    lazymatch q with
    | {| uid := ?a; euid := ?b; environment := ?c; core_limit := ?d; kNumCpuCores := ?e;
         pool_capacity := ?f; timers := ?ts; objects := ?os; parts := ?ms; listening := ?l;
         data := ?x |} =>
      let ts' := eval vm_compute in ts in
      let os' := eval vm_compute in os in
      let ms' := eval vm_compute in ms in
      change p with {| uid := a; euid := b; environment := c; core_limit := d;
         kNumCpuCores := e; pool_capacity := f; timers := ts'; objects := os'; parts := ms';
         listening := l; data := x |}
    end
  | |- _ => idtac
  end.
Ltac run_next := cbv beta iota delta [continue]; run_state.
Ltac run_step :=
  lazymatch goal with
  | |- goes _ (_ ≫= _) _ _ => apply goes_bind
  | |- goes _ (mret _) _ _ => apply goes_ret; run_next
  | |- goes _ (modify _) _ _ => apply goes_modify; [|run_next]
  | |- goes _ (gets _) _ _ => apply goes_gets; run_next
  | |- goes _ (lift ?o) _ _ =>
    apply goes_lift;
    lazymatch o with
    | Throw _ => run_next
    | Undef _ => run_next
    | _ => let E := fresh "E" in destruct o eqn:E; run_next
    end
  | |- goes _ DropPrivilege _ _ => apply goes_DropPrivilege; run_next
  | |- goes _ (if _ then mret () else DisableCoreDump _) _ _ =>
    apply goes_core_dump; [|intros ?; run_next|intros ? ?; run_next]
  | |- goes _ (if _ then listen _ else mret ()) _ _ => apply goes_listen; [|run_next]
  | |- goes _ (start_timer _) _ _ =>
    let L := fresh "L" in
    apply goes_start_timer; intros L; cbv beta iota delta [timers pool_capacity] in L;
    [split; [|run_next]|run_next]
  end.
Ltac run_op :=
  lazymatch goal with
  | |- goes _ (each ?f ?l) _ _ =>
    let l' := eval vm_compute in l in change (each f l) with (each f l'); cbn [each]
  | |- goes _ (end_member _ _) _ _ => unfold end_member; cbv beta iota
  | |- goes _ (let '(_, _) := GetNumCPUCores _ _ in _) _ _ => cbv beta iota delta [GetNumCPUCores kNumCpuCores]
  | |- goes _ (let x := ?a in @?f x) _ _ => change (let x := a in f x) with (f a); cbv beta
  | |- goes _ (if ?b then _ else _) _ _ => let E := fresh "E" in destruct b eqn:E
  | |- goes _ ?m _ _ =>
    let rec head t := lazymatch t with ?f _ => head f | _ => t end in
    let h := head m in unfold h
  end.

Section daemon_facts.
Context {T E : Type} `{CloudTask.Task T} `{PocoEvent E}.
Context (fl : MainFlags) (h : Host) (serve : Executor.Executor T E → Executor.Executor T E).

(** C37. From its start to its end, however it ends, the daemon never has a timer running whose
    callback could use what is not yet constructed or already destroyed: neither the members
    of its own object, nor the executor and the compilers that the heart beat asks.  The
    members are made in the order of their declaration and ended in reverse, each timer behind
    the members its callback uses; so that a timer started before the members exist, or one
    that is still running when they end, would be seen. *)
Theorem timers_use_live_objects uid euid env capacity :
  Forall (λ p, live p = true) (main fl h serve (boot uid euid env capacity Daemon_init)).2.2.
Proof.
  enough (goes (λ p, live p = true) (main fl h serve) (λ _ _, True)
    (boot uid euid env capacity Daemon_init)) as [L _] by exact L.
  unfold main, StartServer.
  repeat first [exact Logic.I | reflexivity | run_step | run_op].
Qed.

Lemma core_dump_passed :
  FLAGS_allow_core_dump fl = true ∨ setrlimit h = 0 →
  negb (FLAGS_allow_core_dump fl) && negb (setrlimit h =? 0) = false.
Proof. intros [-> | ->]; [done|apply andb_false_r]. Qed.

Lemma core_dump_failed :
  FLAGS_allow_core_dump fl = false → setrlimit h ≠ 0 →
  negb (FLAGS_allow_core_dump fl) && negb (setrlimit h =? 0) = true.
Proof. intros -> N. by apply negb_true_iff, Z.eqb_neq. Qed.

Lemma close_both (a b : string) : filter (λ x, x ≠ a) (filter (λ x, x ≠ b) [b; a]) = [].
Proof.
  rewrite !filter_cons, !filter_nil. destruct (decide (b ≠ b)); [done|].
  destruct (decide (a ≠ b)); [|done]. rewrite filter_cons, filter_nil.
  by destruct (decide (a ≠ a)).
Qed.

(** How the daemon is to end. *)
Definition expected_end (uid0 euid0 : Z) (env : gmap string string) (r : outcome Z)
    (p : Process (Daemon T E)) : Prop :=
  if negb (FLAGS_allow_core_dump fl) && negb (setrlimit h =? 0)
  then r = Fatal "DisableCoreDump" ∧ listening p = []
  else match Executor_init (FLAGS_executor fl) (u64 (get_nprocs h)) with
  | Throw w => r = Throw w
  | Undef w => r = Undef w
  | Fatal w => r = Fatal w
  | Ret ex =>
    if negb (http_binds h) then r = Throw "Poco::Net::NetException"
    else if negb (grpc_binds h (FLAGS_servant_location fl)) then r = Undef "null rpc_server"
    else
      r = Ret 0 ∧ timers p = [] ∧ objects p = [] ∧ parts p = [] ∧ listening p = [] ∧
      data p = {|
        the_executor := Some (leave (Executor.Stop (serve ex)).2); waitpid_worker := false;
        the_monitor := Some (Monitor.TaskMonitor_init (FLAGS_max_concurrency (FLAGS_executor fl))
                               (hardware_concurrency h));
        leaving := true; killed := (Executor.Stop (serve ex)).1 |} ∧
      uid p = uid0 ∧ euid p = euid0 ∧
      environment p = delete "SOURCE_DATE_EPOCH" (delete "GCC_COMPARE_DEBUG"
                        (<["LC_ALL" := "en_US.utf8"]> env)) ∧
      core_limit p = if FLAGS_allow_core_dump fl then None else Some (0, 0)
  end.

Lemma StartServer_stops uid0 euid0 env capacity :
  let '(r, (p, _)) := StartServer fl h serve (boot uid0 euid0 env capacity Daemon_init) in
  r = Ret 0 → ∀ t, t ∈ timers p → t = OnTimerCheckAliveProc ∨ t = OnTimerLoadBloomFilter.
Proof.
  enough (goes (λ _, True) (StartServer fl h serve) (λ r p,
    r = Ret 0 → ∀ t, t ∈ timers p → t = OnTimerCheckAliveProc ∨ t = OnTimerLoadBloomFilter)
    (boot uid0 euid0 env capacity Daemon_init)) as [_ Q]
    by (revert Q; by destruct (StartServer _ _ _ _) as [r [p hist]]).
  unfold StartServer.
  repeat first [exact Logic.I | run_step | run_op]; try done; intros _ t; cbn [timers].
  all: rewrite !elem_of_cons, elem_of_nil; tauto.
Qed.

(** C22. How the daemon ends, when the thread pool has room for its eleven timers.  Start-up fails
    when core dumps cannot be disabled, when the memory flag is no size, and when port 8080 is
    taken; a taken gRPC port is noticed at the end only, as a null pointer.  Otherwise the
    process ends with 0, after every timer was stopped, the waiter thread of the executor
    joined, both ports closed and all objects destroyed; the executor was told to stop and
    signalled its processes; and compilations ran with the locale set, without the two
    variables that change the compiler's output, and with the user the daemon was started
    with, root included.  When [StartServer] returns, the only timers that run are the two
    that destructors stop.  The tasks on the thread pool (those that perform compilations
    and fetch grants) are not followed: nothing joins them, and they may still run while
    the objects end. *)
Theorem daemon_ends uid0 euid0 env capacity :
  11 ≤ capacity + u64 (get_nprocs h) →
  (let '(r, (p, _)) := StartServer fl h serve (boot uid0 euid0 env capacity Daemon_init) in
   r = Ret 0 → ∀ t, t ∈ timers p → t = OnTimerCheckAliveProc ∨ t = OnTimerLoadBloomFilter) ∧
  let '(r, (p, _)) := main fl h serve (boot uid0 euid0 env capacity Daemon_init) in
  expected_end uid0 euid0 env r p.
Proof.
  intros Hpool. split; [apply StartServer_stops|].
  enough (goes (λ _, True) (main fl h serve) (expected_end uid0 euid0 env)
    (boot uid0 euid0 env capacity Daemon_init)) as [_ Q]
    by (revert Q; by destruct (main _ _ _ _) as [r [p hist]]).
  unfold main, StartServer.
  repeat first [exact Logic.I | run_step | run_op]; unfold expected_end;
    try (cbn [length] in *; lia);
    try (rewrite core_dump_passed by done); try (rewrite core_dump_failed by done);
    repeat match goal with E : _ = _ |- _ => rewrite E end; cbn [negb andb]; try done.
  all: split_and!; try reflexivity; try apply close_both;
    cbn; unfold set_executor; cbn; by rewrite app_nil_r.
Qed.
End daemon_facts.

(** The executor that a clean end leaves is one that its own theory knows: if the requests
    left it in a reachable state, it is in a reachable state after [Stop] and the destructor,
    and exiting, so that the waiter thread the destructor joins ends ([stopped_waiter_ends]
    of ExecutorFacts). *)
Theorem ended_executor_reachable {T E : Type} `{CloudTask.Task T} `{AutoReset E} f cores
    (s : Sys (T := T) (E := E)) :
  sys_reachable f cores s →
  let ended := leave (Executor.Stop (sys_ex s)).2 in
  sys_reachable f cores {| sys_ex := ended; children := children s; exits := exits s;
                           stops := S (S (stops s)); thrown := thrown s;
                           forkless := forkless s |} ∧
  exiting_ ended = true.
Proof.
  intros R. split; [|done].
  set (s1 := {| sys_ex := (Executor.Stop (sys_ex s)).2; children := children s;
                exits := exits s; stops := S (stops s); thrown := thrown s;
                forkless := forkless s |}).
  assert (R1 : sys_reachable f cores s1) by (eapply sys_next; [exact R|apply sys_stop]).
  exact (sys_next _ _ s1 _ R1 (sys_stop s1)).
Qed.

(** The scheduler: its one timer never outlives the dispatcher it belongs to, and the process
    ends with 0 when it could listen, with nothing left; when it could not, the server pointer
    is null, and dereferenced at the end. *)
Theorem scheduler_ends (h : SchedHost) (serve : Service → State) uid0 euid0 env capacity :
  1 ≤ capacity →
  let '(r, (p, history)) := sched_main h serve (boot uid0 euid0 env capacity None) in
  Forall (λ p, live p = true) history ∧
  if service_binds h
  then r = Ret 0 ∧ timers p = [] ∧ objects p = [] ∧ listening p = [] ∧
       let '(b1, b2, b3) := rand h in
       data p = Some (serve (SchedulerServiceImpl_init (FLAGS_service h) b1 b2 b3 (now h)
                  (SchedDispatch.TaskDispatcher_init (FLAGS_min_memory_for_new_task h))))
  else r = Undef "null server".
Proof.
  intros Hpool.
  enough (goes (λ p, live p = true) (sched_main h serve) (λ r p,
    if service_binds h
    then r = Ret 0 ∧ timers p = [] ∧ objects p = [] ∧ listening p = [] ∧
         let '(b1, b2, b3) := rand h in
         data p = Some (serve (SchedulerServiceImpl_init (FLAGS_service h) b1 b2 b3 (now h)
                    (SchedDispatch.TaskDispatcher_init (FLAGS_min_memory_for_new_task h))))
    else r = Undef "null server") (boot uid0 euid0 env capacity None)) as [L Q]
    by (revert L Q; by destruct (sched_main _ _ _) as [r [p hist]]).
  unfold sched_main, StartSchduler.
  repeat first [reflexivity | run_step | run_op];
    try (cbn [length] in *; lia);
    repeat match goal with E : _ = _ |- _ => rewrite E end; try done.
  split_and!; try reflexivity.
  - cbn [listening]. rewrite filter_cons, filter_nil. by destruct (decide _).
  - by destruct (rand h) as [[b1 b2] b3].
Qed.

(** * Witnesses *)

(** A daemon as root on eight processors, with the flags' defaults. *)
Definition demo_host (http : bool) : Host := {|
  get_nprocs := 8; hardware_concurrency := 8; setrlimit := 0; grpc_binds := λ _, true;
  http_binds := http |}.

#[local] Instance demo_task : CloudTask.Task string := {|
  exit_world := unit; GetCmdLine := λ t, t; GetSource := λ t, (t, "");
  OnCompleted := λ _ t _ out _, Ret (t +:+ out) |}.
Definition demo_daemon (http : bool) : outcome Z :=
  (main (T := string) (E := bool) config_defaults (demo_host http) (λ ex, ex)
     (boot 0 0 ∅ 16 Daemon_init)).1.

Example demo_daemon_runs :
  demo_daemon true = Ret 0 ∧ demo_daemon false = Throw "Poco::Net::NetException".
Proof. vm_compute. by split. Qed.

Lemma daemon_ends_witness : ∃ p,
  (main (T := string) (E := bool) config_defaults (demo_host true) (λ ex, ex)
     (boot 0 0 ∅ 16 Daemon_init)).2.1 = p ∧ uid p = 0 ∧ timers p = [] ∧ listening p = [].
Proof.
  assert (Hp : 11 ≤ 16 + u64 (get_nprocs (demo_host true))) by (vm_compute; discriminate).
  pose proof (daemon_ends config_defaults (demo_host true) (λ ex : Executor.Executor string bool, ex)
    0 0 ∅ 16 Hp) as [_ W].
  destruct (main config_defaults (demo_host true) _ _) as [r [p hist]]. exists p. split; [done|].
  destruct W as (_ & T & _ & _ & L & _ & U & _). done.
Defined.

Lemma scheduler_ends_witness :
  (sched_main {| FLAGS_service_uri := "0.0.0.0:10005"; FLAGS_min_memory_for_new_task := 2 ^ 31;
                 FLAGS_service := SchedService.demo_flags; rand := ("a", "b", "c"); now := 0;
                 service_binds := false |} dispatcher (boot 0 0 ∅ 16 None)).1
  = Undef "null server".
Proof.
  pose proof (scheduler_ends {| FLAGS_service_uri := "0.0.0.0:10005";
    FLAGS_min_memory_for_new_task := 2 ^ 31; FLAGS_service := SchedService.demo_flags;
    rand := ("a", "b", "c"); now := 0; service_binds := false |} dispatcher 0 0 ∅ 16
    ltac:(lia)) as W.
  destruct (sched_main _ _ _) as [r [p hist]]. exact (proj2 W).
Defined.
